(* ===== verification/_CoqProject ===== *)
-Q . S2P
Prelude.v
Steps.v
NetBuffer.v
JsonValue.v
HttpMessage.v
HttpParser.v
HttpRouter.v
WsCodec.v
Jwt.v
Reactor.v
EventLoop.v
TcpConnection.v
TimerQueue.v
TcpServer.v
Sockets.v
ObjectStore.v
Database.v
Daos.v
DbPool.v
Constraints.v
UniqueNames.v
FileLife.v
Config.v
Logging.v
Shutdown.v
Redis.v
World.v
Gc.v
Files.v
FoldersAccounts.v
Multipart.v
Shares.v
Server.v
Frames.v
Sessions.v
StoredContent.v
Isolation.v
HandlerSafety.v
ApiSafety.v
ServerSafety.v
Answers.v
Connections.v
ShareRules.v
Startup.v
Delivery.v
Parts.v
ShareDelivery.v
Accounts.v
Overlap.v
Sample.v
Wire.v
EndToEnd.v
Findings.v
