(* ===== verification/Prelude.v ===== *)
(** SolarDrive, a verification library. Root file: the guide to the development, and
    the prelude its files share.

    * The program

    SolarDrive is a multi-user file store: one process that speaks HTTP/1.1 and
    WebSocket, keeps metadata in PostgreSQL, upload sessions, caches and the rate
    limiter's windows in Redis, and the bytes of the files as chunks in a
    content-addressed store on disk. main.cpp loads the settings, opens the stores,
    builds the handlers, and runs a main loop (accepting connections and running two
    timers) and a pool of loops (reading and writing connections). A read event of a
    connection feeds the bytes to its HTTP parser; the parser's callback takes each
    complete request through static files, rate limit, authentication and the router
    to a handler; the handler works on the data access objects, the object store, Redis
    and the WebSocket sessions, and its response is serialised and sent.

    * The files, from the bottom up, and the code they model (paths under src/src)

    - Prelude: strings, numbers and exceptions of C++ (std::string members, stoi and
      its relatives, widths), the state and error monad [M] (a result or an exception,
      and the state either way), list and option lemmas. Steps: the proof rules of [M]:
      [steps R m] (whatever the outcome, [R] relates the states), [ok_steps R m].
    - NetBuffer (network/buffer.h), Reactor (channel, epoll_poller), EventLoop
      (event_loop, event_loop_thread), TcpConnection (tcp_connection), TimerQueue
      (timer, timer_queue, timestamp), TcpServer (acceptor, event_loop_thread_pool,
      tcp_server; its Module Life ties the server's view of a connection to
      TcpConnection), Sockets (socket.h, and who owns each descriptor of the server),
      Logging (network/log, and the set-up of the logger in main.cpp).
    - HttpMessage (http_request, http_response, query_utils), HttpParser, HttpRouter
      (http_router, static_handler, the route table of api/route_registry.cpp, the
      white list of auth_middleware.cpp), JsonValue (what the program uses of
      nlohmann::json), WsCodec (ws/websocket, ws_handler, ws_session), Jwt (auth/jwt,
      auth_middleware, request_auth).
    - ObjectStore (storage/object_store), Database (metadata/schema and the statements
      as operations on tables of rows), Daos (the five data access objects), DbPool
      (db_pool), Config (config/ and the settings part of main.cpp), Redis (cache/).
    - World: the state of a request handler (database, file system, Redis, WebSocket
      sessions, response), and access_control. Gc (content_gc), Files (file_upload_ops,
      download_handler, file_handler), FoldersAccounts (folder_handler, auth_handler),
      Multipart (multipart_upload_handler), Shares (share_handler), Server (monitor/,
      ws_upgrade, the endpoints of route_registry.cpp, and the callbacks of main.cpp on
      requests, frames, connections and timers). Connections: the same callbacks on the
      bytes of all connections; Wire: on one connection of the network library, among
      the others and the timers. Startup: main() from the settings file to the running
      server, every early return included, and lives of the deployment over restarts.
      Shutdown: the signal handler and the end of main().
    - Proofs about components: Constraints and UniqueNames (the schema), FileLife (a
      file's record from its insertion to its deletion), StoredContent
      (rows and objects, the collector), Sessions (upload sessions), Frames, Isolation,
      HandlerSafety, ApiSafety, ServerSafety (what handlers, endpoints and events
      keep), Answers, ShareRules, Delivery, ShareDelivery, Accounts (registering and
      logging in), Parts (a multipart upload as a list of parts), Overlap (uploads step
      by step among other threads). Sample is a concrete deployment; EndToEnd holds
      the theorems about the whole server and their instances on it; Findings shows
      on the same deployment where the program does otherwise than it means to.

    State and operations correspond one to one: a class is a Module with a Record of
    its members (the same names, trailing underscore included), a member function a
    Definition of the same name in [M], with the code's guards and early returns in
    their order; try and catch are [try_catch]; what a mutex or the single thread of a
    loop makes atomic is one step of a step relation, and what is not (flag and
    wake-up, unlock and notify, load and store of a connection's state) is two. What a
    loop does for one event or task is one step; the calls of other threads on a
    connection are taken apart at their accesses to its state.

    * What the theorems show

    - The data: the constraints of the schema hold after any sequence of operations
      (constraints_hold), and a name belongs to its live file (name_held_while_live);
      in every reachable state of the server each content row
      can be read back (reachable_deliverable; over any number of restarts of the
      process every_run_deliverable, with restart_exact for what a restart does);
      whatever other users do, nothing of a user's data changes (users_isolated); what
      is uploaded is what is downloaded, in one request (upload_then_download) or in
      parts (upload_session_refines, multipart_then_download); what is shared is what
      whoever has the link is given (shared_then_downloaded); the collector removes
      exactly what nothing needs (purge_content_exact, collect_orphans_complete),
      except that it does not know the
      parts of unfinished uploads (part_collected); objects are what their names say
      (store_integrity, chunked_roundtrip), on a disk that keeps what is written
      (torn_object_kept is what happens on one that does not).
    - The protocol: one response per request, in order, to the right connection
      (requests_answered_in_order; one_response for one request), down to the bytes the kernel takes,
      whatever it takes of each write (answers_on_the_wire), both for connections on which no
      WebSocket handshake is taken up and in runs that no exception ends; bytes refine
      requests (bytes_refine_requests); the parser on pipelined input in any segmentation
      (parse_pipelined) and on arbitrary bytes (feed_emits_framed); the router against
      routing by segments (dispatch_by_segments, api_routes_exact).
    - Access: who registers can log in, and both tokens are accepted as his
      (registered_then_admitted, on jwt_verify_generate); nothing else is
      (jwt_verify_sound, authenticate_exact, unauthenticated_refused,
      whitelist_exact); resolve_share_exact, static_confined, rate_limit_exact.
    - The network layer: the output of a connection is a stream
      (output_stream_exact), its life (connection_lifecycle, pending_output_drains),
      where no force_close of another thread stores its state late (never_late: there
      is none when it is called in the loop's thread, as it is here;
      late_store_closes_twice shows what one does); the server's map of connections
      while it serves (connections_accounted) and its stop (stop_closes_all,
      stop_leaves_dangling_loop), connection_moves, the descriptors (descriptors_owned_once),
      the end of the process (signal_ends_process), loops and threads (no_lost_wakeup,
      join_not_blocked), timers (expiry_exact), the pool of database
      connections (pool_conserves), buffers (buffer_refines_queue).

    * Bounds, fuel and termination

    Every definition is total. Loops of the code over data are structural recursion on
    that data. Fuel appears where the code's own bound is the fuel:
    [FileDao.make_unique_name] tries the ten thousand names the code tries
    (make_unique_name_free shows when that is enough), [Shares.generate_token] the
    attempts the code makes; the draws of its generators are arguments. Machine integers are
    [Z] with the wrap-around, truncation or range error of the operation written out
    ([wrap_i32], [require] in front of an INT column, size_t as [N] or [nat] where the
    code's checks keep it in range).

    * What lies outside, and what is assumed of it

    Third-party code and the system are parameters: classes Postgres (conversions of
    the server's types, drawn identifiers are new), RedisServer (what a command does,
    and whether the link is up), JsonText, Evp, Handshake and the HMAC of [Settings]
    (OpenSSL), Calendar, HashOrder (iteration of unordered_map), Yaml, Spdlog; kernel calls are
    an outcome per call. Theorems name what they need beyond that as hypotheses: Redis
    hashes behave as hashes ([hash_laws]; [Parts.hash_server] where a theorem needs that
    the link holds and no key expires while one request is handled), the script of the limiter does what its text
    says, no two pieces of data in sight share a SHA-256 and the disk keeps what is
    written ([fits]); Sample shows that they can hold together.

    A request is handled in one step on the data: the threads of the pool do handle
    requests at the same time, and the database serialises their transactions one by
    one, so the theorems about whole requests speak of runs in which the handlings do
    not overlap. Overlap goes further for uploads: any number of them, one check, opening
    or write of a file, transaction or command at a time, and among them, while no file
    is open for writing, whole handlings of the others (overlapping_uploads_stored); and
    the schedules that break them (delete_under_upload, row_read_while_rewritten). An exception that leaves a handler ends the event; one that leaves a
    callback ends the process. A process that is killed stops between two of these steps.

    * Not modelled

    The printed usage, a signal taken by a thread other than the main one, and the
    destructors whose only effect is to free memory. Lines of the log appear where the
    logger itself is modelled (Logging, Shutdown) and are left out elsewhere. The commit
    of the collector's transaction is assumed to succeed; timer intervals are whole
    nanoseconds. *)
From stdpp Require Export base tactics option list numbers strings gmap sets pretty.
From Stdlib Require Export Ascii ZArith Lia.

#[export] Set Default Proof Using "Type".

(** * Scope, notations *)

Declare Scope solar_scope.
Delimit Scope solar_scope with solar.
Notation "s +c c" := (String.append s (String c EmptyString))
  (at level 50, left associativity) : solar_scope.
Open Scope solar_scope.

(** * Automation *)

Create HintDb solar discriminated.
Create Rewrite HintDb solar_rw.

(** Case analysis on the discriminee of the first [match] or [if] in sight. *)
Ltac case_goal := case_match; simplify_eq/=.

(** * Characters (C locale) *)

Definition NUL : ascii := "000"%char.
Definition CR : ascii := "013"%char.
Definition LF : ascii := "010"%char.
Definition SP : ascii := " "%char.
(** The double quote. *)
Definition DQ : ascii := ascii_of_N 34.

(** Unsigned value of a [char] and the [char] with a given low byte. *)
Definition code (c : ascii) : Z := Z.of_N (N_of_ascii c).
Definition chr (z : Z) : ascii := ascii_of_N (Z.to_N (z `mod` 256)).

(** [::tolower] in the C locale. *)
Definition tolower (c : ascii) : ascii :=
  let z := code c in
  if bool_decide (65 ≤ z ≤ 90)%Z then chr (z + 32) else c.

(** [std::isspace] in the C locale. *)
Definition isspace (c : ascii) : bool :=
  let z := code c in bool_decide (9 ≤ z ≤ 13 ∨ z = 32)%Z.

Definition isdigit (c : ascii) : bool :=
  let z := code c in bool_decide (48 ≤ z ≤ 57)%Z.

(** * Strings: the members of [std::string] the program uses *)

Abbreviation slen := String.length.

Fixpoint stake (n : nat) (s : string) : string :=
  match n, s with
  | S n', String c s' => String c (stake n' s')
  | _, _ => ""
  end.

Fixpoint sdrop (n : nat) (s : string) : string :=
  match n, s with
  | S n', String _ s' => sdrop n' s'
  | _, _ => s
  end.

(** [s.substr(pos, n)] for [pos <= s.size()]. *)
Definition substr (s : string) (pos n : nat) : string := stake n (sdrop pos s).

Fixpoint smap (f : ascii → ascii) (s : string) : string :=
  match s with "" => "" | String c s' => String (f c) (smap f s') end.

Fixpoint sall (p : ascii → bool) (s : string) : bool :=
  match s with "" => true | String c s' => p c && sall p s' end.

Definition to_lower (s : string) : string := smap tolower s.

Definition sempty (s : string) : bool := bool_decide (s = "").

(** [s.compare(0, p.size(), p) == 0]. *)
Fixpoint starts_with (p s : string) : bool :=
  match p, s with
  | "", _ => true
  | String c p', String d s' => bool_decide (c = d) && starts_with p' s'
  | String _ _, "" => false
  end.

(** [s.find(p)]; [None] is [std::string::npos]. *)
Fixpoint sfind (p s : string) : option nat :=
  if starts_with p s then Some 0
  else match s with "" => None | String _ s' => S <$> sfind p s' end.

(** [s.find(p, pos)]. *)
Definition sfind_from (p s : string) (pos : nat) : option nat :=
  if bool_decide (pos ≤ slen s)
  then (λ k, pos + k) <$> sfind p (sdrop pos s) else None.

(** [s.rfind(c)] for one character. *)
Fixpoint srfind (c : ascii) (s : string) : option nat :=
  match s with
  | "" => None
  | String d s' =>
      match srfind c s' with
      | Some k => Some (S k)
      | None => if bool_decide (c = d) then Some 0 else None
      end
  end.

(** The C string that starts at [s.c_str()]: up to the first NUL. *)
Fixpoint c_str (s : string) : string :=
  match s with
  | "" => ""
  | String c s' => if bool_decide (c = NUL) then "" else String c (c_str s')
  end.

(** Concatenation of a list of strings. *)
Definition sconcat (l : list string) : string := foldr String.append "" l.

(** Does the character occur in the string? *)
Definition shas (c : ascii) (s : string) : bool := negb (sall (λ d, negb (bool_decide (d = c))) s).

(** * Machine integers *)

Definition two64 : Z := 2 ^ 64.
Definition u64 (z : Z) : Z := z `mod` two64.
Definition int_max : Z := 2147483647.
Definition int_min : Z := -2147483648.
Definition i64_max : Z := 9223372036854775807.
Definition i64_min : Z := -9223372036854775808.

(** Two's complement conversions of [static_cast<int64_t>] and [static_cast<int>]. *)
Definition wrap_i64 (z : Z) : Z := let u := u64 z in if bool_decide (u < 2 ^ 63)%Z then u else (u - two64)%Z.
Definition wrap_i32 (z : Z) : Z :=
  let u := (z `mod` 2 ^ 32)%Z in if bool_decide (u < 2 ^ 31)%Z then u else (u - 2 ^ 32)%Z.

(** Conversions stay in range, and keep what is in range. *)
Lemma wrap_i64_range z : (i64_min ≤ wrap_i64 z ≤ i64_max)%Z.
Proof.
  unfold wrap_i64, u64, two64, i64_min, i64_max. pose proof (Z.mod_pos_bound z (2 ^ 64) ltac:(lia)). case_bool_decide; lia.
Qed.

Lemma wrap_i32_range z : (int_min ≤ wrap_i32 z ≤ int_max)%Z.
Proof.
  unfold wrap_i32, int_min, int_max. pose proof (Z.mod_pos_bound z (2 ^ 32) ltac:(lia)). case_bool_decide; lia.
Qed.

Lemma wrap_i64_id z : (i64_min ≤ z ≤ i64_max)%Z → wrap_i64 z = z.
Proof.
  unfold wrap_i64, u64, i64_min, i64_max, two64. intros Hz. destruct (decide (0 ≤ z)%Z).
  - rewrite Z.mod_small by lia. rewrite bool_decide_eq_true_2 by lia. done.
  - replace (z `mod` 2 ^ 64)%Z with (z + 2 ^ 64)%Z.
    + rewrite bool_decide_eq_false_2 by lia. lia.
    + apply Zmod_unique with (-1)%Z; lia.
Qed.

(** * Exceptions and results *)

Inductive exn_kind :=
  | EInvalidArgument   (* std::invalid_argument *)
  | EOutOfRange        (* std::out_of_range *)
  | ELengthError       (* std::length_error *)
  | ELogicError        (* std::logic_error *)
  | ERuntime           (* std::runtime_error *)
  | EJson              (* nlohmann::json::exception *)
  | EUnique            (* pqxx::unique_violation *)
  | EPqxx              (* any other pqxx::failure *)
  | EUndefined.        (* no exception: the program's behaviour is undefined *)

Record exn := Exn { ex_kind : exn_kind; ex_what : string }.

Inductive result (A : Type) :=
  | Ok (a : A)
  | Throw (e : exn).
Arguments Ok {A} a.
Arguments Throw {A} e.

#[export] Instance exn_kind_eq_dec : EqDecision exn_kind.
Proof. solve_decision. Defined.

#[export] Instance exn_eq_dec : EqDecision exn.
Proof. solve_decision. Defined.

#[export] Instance result_mret : MRet result := λ A a, Ok a.
#[export] Instance result_mbind : MBind result := λ A B f m,
  match m with Ok a => f a | Throw e => Throw e end.

(** Programs over a mutable state: the state survives an exception. *)
Definition M (S A : Type) : Type := S → result A * S.
#[export] Instance M_mret {S} : MRet (M S) := λ A a s, (Ok a, s).
#[export] Instance M_mbind {S} : MBind (M S) := λ A B f m s,
  match m s with (Ok a, s') => f a s' | (Throw e, s') => (Throw e, s') end.

Definition get_st {S} : M S S := λ s, (Ok s, s).
Definition put_st {S} (s : S) : M S () := λ _, (Ok (), s).
Definition throw {S A} (k : exn_kind) (what : string) : M S A := λ s, (Throw (Exn k what), s).
(** [try]/[catch]; undefined behaviour is caught by nothing. *)
Definition try_catch {S A} (m : M S A) (h : exn → M S A) : M S A := λ s,
  match m s with
  | (Ok a, s') => (Ok a, s')
  | (Throw e, s') => if bool_decide (ex_kind e = EUndefined) then (Throw e, s') else h e s'
  end.
Definition lift_result {S A} (r : result A) : M S A := λ s, (r, s).

(** [v[i]] of a vector, read and written: undefined out of range. *)
Definition out_of_bounds {A} : result A := Throw (Exn EUndefined "vector index out of range").
Definition vec_get {A} (l : list A) (i : Z) : result A :=
  if bool_decide (0 ≤ i)%Z then match l !! Z.to_nat i with Some a => Ok a | None => out_of_bounds end
  else out_of_bounds.
Definition vec_set {A} (l : list A) (i : Z) (a : A) : result (list A) :=
  if bool_decide (0 ≤ i < Z.of_nat (length l))%Z then Ok (<[Z.to_nat i := a]> l) else out_of_bounds.

(** * Number parsing: [std::stoull], [std::stoll] and [std::stoi] *)

Definition digit_val (c : ascii) : Z := code c - 48.

Fixpoint skip_space (s : string) : string :=
  match s with
  | String c s' => if isspace c then skip_space s' else s
  | "" => ""
  end.

Fixpoint digits_val (acc : Z) (s : string) : Z :=
  match s with
  | String c s' => if isdigit c then digits_val (acc * 10 + digit_val c) s' else acc
  | "" => acc
  end.

Definition starts_digit (s : string) : bool :=
  match s with String c _ => isdigit c | "" => false end.

(** Sign and magnitude of the longest numeral after white space ([strtoll] and
    [strtoull], base 10); [None] when no digit was consumed. *)
Definition scan_int (s : string) : option (bool * Z) :=
  let s := skip_space s in
  let '(neg, s) := match s with
    | String "-" s' => (true, s')
    | String "+" s' => (false, s')
    | _ => (false, s)
    end in
  if starts_digit s then Some (neg, digits_val 0 s) else None.

Definition stoull (s : string) : result Z :=
  match scan_int s with
  | None => Throw (Exn EInvalidArgument "stoull")
  | Some (neg, v) =>
      if bool_decide (two64 ≤ v)%Z then Throw (Exn EOutOfRange "stoull")
      else Ok (if neg then u64 (- v) else v)
  end.

Definition sto_signed (what : string) (lo hi : Z) (s : string) : result Z :=
  match scan_int s with
  | None => Throw (Exn EInvalidArgument what)
  | Some (neg, v) =>
      let v := (if neg then - v else v)%Z in
      if bool_decide (lo ≤ v ≤ hi)%Z then Ok v else Throw (Exn EOutOfRange what)
  end.

Definition stoi : string → result Z := sto_signed "stoi" int_min int_max.
Definition stoll : string → result Z := sto_signed "stoll" i64_min i64_max.

(** [std::to_string]. *)
Definition to_string (z : Z) : string := pretty z.

(** Unfold the monad operations and invert success equations. *)
Ltac inv_ok :=
  repeat match goal with
  | H : Ok _ = Ok _ |- _ => injection H as H
  | H : Ok _ = Throw _ |- _ => discriminate H
  | H : Throw _ = Ok _ |- _ => discriminate H
  | H : (_, _) = (_, _) |- _ => injection H as H
  end; simplify_eq/=.

(** * Characters: lemmas *)

Lemma code_range c : (0 ≤ code c < 256)%Z.
Proof. unfold code. pose proof (N_ascii_bounded c). lia. Qed.

Lemma chr_code c : chr (code c) = c.
Proof.
  unfold chr. rewrite Z.mod_small by apply code_range.
  unfold code. rewrite N2Z.id. apply ascii_N_embedding.
Qed.

Lemma code_chr z : code (chr z) = (z `mod` 256)%Z.
Proof.
  pose proof (Z.mod_pos_bound z 256 eq_refl).
  unfold chr, code. rewrite N_ascii_embedding by lia.
  by rewrite Z2N.id by lia.
Qed.

Lemma code_chr_small z : (0 ≤ z < 256)%Z → code (chr z) = z.
Proof. intros. rewrite code_chr. by apply Z.mod_small. Qed.

Lemma code_inj c d : code c = code d → c = d.
Proof. intros H. by rewrite <- (chr_code c), H, chr_code. Qed.

(** * Bit operations: lemmas *)

Lemma log2_lt_or_zero a n : (0 < n)%Z → (0 ≤ a < 2 ^ n)%Z → (Z.log2 a < n)%Z.
Proof.
  intros Hn Ha. destruct (decide (a = 0)%Z) as [->|]; [done|]. apply Z.log2_lt_pow2; lia.
Qed.

Lemma lt_pow2_of_log2 a n : (0 < n)%Z → (0 ≤ a)%Z → (Z.log2 a < n)%Z → (a < 2 ^ n)%Z.
Proof.
  intros Hn Ha. destruct (decide (a = 0)%Z) as [->|]; [intros; by apply Z.pow_pos_nonneg; lia|].
  apply Z.log2_lt_pow2. lia.
Qed.

Lemma lor_bound a b n : (0 < n)%Z → (0 ≤ a < 2 ^ n)%Z → (0 ≤ b < 2 ^ n)%Z → (0 ≤ Z.lor a b < 2 ^ n)%Z.
Proof.
  intros Hn Ha Hb. split; [apply Z.lor_nonneg; lia|].
  apply lt_pow2_of_log2; [done|apply Z.lor_nonneg; lia|]. rewrite Z.log2_lor by lia.
  apply Z.max_lub_lt; by apply log2_lt_or_zero.
Qed.

Lemma lxor_bound a b n : (0 < n)%Z → (0 ≤ a < 2 ^ n)%Z → (0 ≤ b < 2 ^ n)%Z → (0 ≤ Z.lxor a b < 2 ^ n)%Z.
Proof.
  intros Hn Ha Hb. split; [apply Z.lxor_nonneg; lia|].
  apply lt_pow2_of_log2; [done|apply Z.lxor_nonneg; lia|].
  eapply Z.le_lt_trans; [apply Z.log2_lxor; lia|]. apply Z.max_lub_lt; by apply log2_lt_or_zero.
Qed.

(** Shifted and low parts do not overlap: or is addition. *)
Lemma lor_shift_add a b n : (0 < n)%Z → (0 ≤ a)%Z → (0 ≤ b < 2 ^ n)%Z →
  Z.lor (Z.shiftl a n) b = (a * 2 ^ n + b)%Z.
Proof.
  intros Hn Ha Hb. pose proof (Z.add_lor_land (Z.shiftl a n) b) as H.
  rewrite Z.shiftl_mul_pow2 in * by lia.
  assert (Z.land (a * 2 ^ n) b = 0)%Z as E; [|lia].
  apply Z.bits_inj'. intros i Hi. rewrite Z.land_spec, Z.bits_0.
  destruct (decide (i < n)%Z).
  - by rewrite Z.mul_pow2_bits_low.
  - rewrite (Z.bits_above_log2 b i), andb_false_r; [done|lia|].
    pose proof (log2_lt_or_zero b n Hn Hb). lia.
Qed.

(** * Strings: lemmas *)

Lemma sapp_nil_l s : "" +:+ s = s.
Proof. done. Qed.

Lemma sapp_cons c s t : String c s +:+ t = String c (s +:+ t).
Proof. done. Qed.

Lemma sapp_nil_r s : s +:+ "" = s.
Proof. induction s as [|c s IH]; [done|]. by rewrite sapp_cons, IH. Qed.

Lemma sapp_assoc s t u : (s +:+ t) +:+ u = s +:+ (t +:+ u).
Proof. induction s as [|c s IH]; [done|]. by rewrite !sapp_cons, IH. Qed.

Lemma push_back_app s c t : (s +c c) +:+ t = s +:+ String c t.
Proof. apply sapp_assoc. Qed.

Lemma slen_app s t : slen (s +:+ t) = slen s + slen t.
Proof. induction s as [|c s IH]; [done|]. rewrite sapp_cons. simpl. by rewrite IH. Qed.

Lemma slen_nil s : slen s = 0 → s = "".
Proof. by destruct s. Qed.

Lemma stake_sdrop n s : stake n s +:+ sdrop n s = s.
Proof. revert s; induction n as [|n IH]; intros [|c s]; try done. simpl. by rewrite sapp_cons, IH. Qed.

Lemma stake_app s t : stake (slen s) (s +:+ t) = s.
Proof. induction s as [|c s IH]; [by destruct t|]. rewrite sapp_cons. simpl. by rewrite IH. Qed.

Lemma sdrop_app s t : sdrop (slen s) (s +:+ t) = t.
Proof. induction s as [|c s IH]; [done|]. by rewrite sapp_cons. Qed.

Lemma stake_ge n s : slen s ≤ n → stake n s = s.
Proof. revert s; induction n as [|n IH]; intros [|c s] ?; simpl in *; try done; [lia|]. by rewrite IH by lia. Qed.

Lemma sdrop_ge n s : slen s ≤ n → sdrop n s = "".
Proof. revert s; induction n as [|n IH]; intros [|c s] ?; simpl in *; try done; [lia|]. by apply IH; lia. Qed.

Lemma slen_stake n s : slen (stake n s) = n `min` slen s.
Proof. revert s; induction n as [|n IH]; intros [|c s]; simpl; try done. by rewrite IH. Qed.

Lemma slen_sdrop n s : slen (sdrop n s) = slen s - n.
Proof. revert s; induction n as [|n IH]; intros [|c s]; simpl; try done. Qed.

Lemma stake_app_lt n s t : n < slen s → stake n (s +:+ t) = stake n s.
Proof.
  revert s; induction n as [|n IH]; intros [|c s] Hn; simpl in Hn; try done; try lia.
  rewrite sapp_cons. simpl. by rewrite IH by lia.
Qed.

Lemma stake_app_ge n s t : slen s ≤ n → stake n (s +:+ t) = s +:+ stake (n - slen s) t.
Proof.
  revert n; induction s as [|c s IH]; intros n Hn; simpl in Hn; [by rewrite Nat.sub_0_r|].
  destruct n as [|n]; [lia|]. rewrite !sapp_cons. simpl. by rewrite IH by lia.
Qed.

Lemma sdrop_sdrop n m s : sdrop n (sdrop m s) = sdrop (m + n) s.
Proof. revert s; induction m as [|m IH]; intros [|c s]; simpl; try done. by destruct n. Qed.

Lemma get_app k s t : String.get k (s +:+ t) = if decide (k < slen s) then String.get k s else String.get (k - slen s) t.
Proof.
  revert k; induction s as [|c s IH]; intros k; [by rewrite Nat.sub_0_r|]. rewrite sapp_cons.
  destruct k as [|k]; [done|]. cbn [String.get String.length]. rewrite IH. repeat case_decide; try lia; done.
Qed.

Lemma get_stake k n s : k < n → String.get k (stake n s) = String.get k s.
Proof. revert k n; induction s as [|c s IH]; intros [|k] [|n] Hk; cbn; try done; try lia. apply IH. lia. Qed.

Lemma get_sdrop k n s : String.get k (sdrop n s) = String.get (n + k) s.
Proof. revert s; induction n as [|n IH]; intros [|c s]; try done. apply IH. Qed.

Lemma get_ge k s : slen s ≤ k → String.get k s = None.
Proof. revert k; induction s as [|c s IH]; intros [|k] Hk; cbn in *; try done; try lia; apply IH; lia. Qed.

Lemma get_lt k s : k < slen s → String.get k s ≠ None.
Proof. revert k; induction s as [|c s IH]; intros [|k] Hk; cbn in *; try done; try lia; apply IH; lia. Qed.

Lemma get_ext s t : (∀ k, String.get k s = String.get k t) → s = t.
Proof.
  revert t; induction s as [|c s IH]; intros [|d t] H; [done|by specialize (H 0)|by specialize (H 0)|].
  pose proof (H 0) as [= ->]. f_equal. apply IH. intros k. exact (H (S k)).
Qed.

Lemma smap_app f s t : smap f (s +:+ t) = smap f s +:+ smap f t.
Proof. induction s as [|c s IH]; [done|]. rewrite sapp_cons. simpl. by rewrite IH. Qed.

Lemma slen_smap f s : slen (smap f s) = slen s.
Proof. induction s; simpl; congruence. Qed.

Lemma smap_smap f g s : smap f (smap g s) = smap (f ∘ g) s.
Proof. induction s; simpl; congruence. Qed.

Lemma smap_id_on f s : sall (λ c, bool_decide (f c = c)) s = true → smap f s = s.
Proof.
  induction s as [|c s IH]; [done|]. simpl. intros [Hc Hs]%andb_true_iff.
  apply bool_decide_eq_true in Hc. by rewrite Hc, IH.
Qed.

Lemma sall_app p s t : sall p (s +:+ t) = sall p s && sall p t.
Proof. induction s as [|c s IH]; [done|]. rewrite sapp_cons. simpl. by rewrite IH, andb_assoc. Qed.

Lemma sall_impl (p q : ascii → bool) s :
  (∀ c, p c = true → q c = true) → sall p s = true → sall q s = true.
Proof. intros H. induction s as [|c s IH]; [done|]. simpl. rewrite !andb_true_iff. intros [??]; auto. Qed.

Lemma sall_stake p n s : sall p s = true → sall p (stake n s) = true.
Proof. revert s; induction n as [|n IH]; intros [|c s]; simpl; try done. rewrite ?andb_true_iff. intros [??]; auto. Qed.

Lemma sall_sdrop p n s : sall p s = true → sall p (sdrop n s) = true.
Proof. revert s; induction n as [|n IH]; intros [|c s]; simpl; try done. rewrite ?andb_true_iff. intros [??]; auto. Qed.

Lemma starts_with_iff p s : starts_with p s = true ↔ ∃ t, s = p +:+ t.
Proof.
  revert s; induction p as [|c p IH]; intros s; simpl.
  - split; [by exists s|done].
  - destruct s as [|d s]; [by split; [|intros [? [=]]]|].
    rewrite andb_true_iff, bool_decide_eq_true, IH. split.
    + intros [-> [t ->]]. by exists t.
    + intros [t Ht]. injection Ht as -> ->. eauto.
Qed.

Lemma starts_with_app p t : starts_with p (p +:+ t) = true.
Proof. apply starts_with_iff. by exists t. Qed.

Lemma starts_with_trans p q s :
  starts_with p q = true → starts_with q s = true → starts_with p s = true.
Proof.
  rewrite !starts_with_iff. intros [t ->] [u ->]. exists (t +:+ u). apply sapp_assoc.
Qed.
#[export] Hint Resolve starts_with_app : solar.

(** [find] returns the first position at which the pattern occurs. *)
Lemma sfind_spec p s k :
  sfind p s = Some k ↔
  starts_with p (sdrop k s) = true ∧ k ≤ slen s ∧
  ∀ j, j < k → starts_with p (sdrop j s) = false.
Proof.
  revert k; induction s as [|c s IH]; intros k.
  - change (sfind p "") with (if starts_with p "" then Some 0 else None).
    destruct (starts_with p "") eqn:E.
    + split.
      * intros [= <-]. split_and!; [done|simpl; lia|lia].
      * intros (?&?&?). f_equal. simpl in *. lia.
    + split; [done|]. intros (H&?&_). destruct k; simpl in *; [congruence|lia].
  - change (sfind p (String c s)) with
      (if starts_with p (String c s) then Some 0 else S <$> sfind p s).
    destruct (starts_with p (String c s)) eqn:E.
    + split.
      * intros [= <-]. split_and!; [done|simpl; lia|lia].
      * intros (_&_&H). destruct k as [|k]; [done|].
        specialize (H 0 ltac:(lia)). simpl sdrop in H. congruence.
    + rewrite fmap_Some. setoid_rewrite IH. split.
      * intros (k'&(H1&H2&H3)&->). split_and!; [done|simpl; lia|].
        intros [|j] Hj; [done|]. simpl sdrop. apply H3. lia.
      * intros (H1&H2&H3). destruct k as [|k]; [simpl sdrop in H1; congruence|].
        exists k. split_and!; [done|simpl in *; lia| |done].
        intros j Hj. apply (H3 (S j)). lia.
Qed.

Lemma sfind_None p s : sfind p s = None ↔ ∀ j, j ≤ slen s → starts_with p (sdrop j s) = false.
Proof.
  split.
  - revert p; induction s as [|c s IH]; intros p H j Hj; simpl in H; case_match; try done.
    + by destruct j.
    + apply fmap_None in H. destruct j as [|j]; [done|]. apply IH; [done|]. simpl in Hj. lia.
  - intros H. destruct (sfind p s) as [k|] eqn:E; [|done].
    apply sfind_spec in E as (H1&H2&_). rewrite H in H1 by done. done.
Qed.

(** A string without the character [c] contains no pattern that starts with it. *)
Lemma sfind_absent c p s :
  sall (λ d, negb (bool_decide (d = c))) s = true → sfind (String c p) s = None.
Proof.
  induction s as [|d s IH]; [done|]. simpl. intros [H1 H2]%andb_true_iff.
  apply negb_true_iff, bool_decide_eq_false in H1.
  rewrite bool_decide_eq_false_2 by congruence. simpl. by rewrite IH.
Qed.

Lemma sfind_char_app c s t :
  sall (λ d, negb (bool_decide (d = c))) s = true →
  sfind (String c "") (s +:+ String c t) = Some (slen s).
Proof.
  induction s as [|d s IH]; simpl.
  - intros _. by rewrite bool_decide_eq_true_2.
  - intros [H1 H2]%andb_true_iff. apply negb_true_iff, bool_decide_eq_false in H1.
    rewrite ?sapp_cons. simpl. rewrite bool_decide_eq_false_2 by congruence. simpl. by rewrite IH.
Qed.

Lemma sall_and (p q : ascii → bool) s :
  sall p s = true → sall q s = true → sall (λ c, p c && q c) s = true.
Proof.
  induction s as [|c s IH]; [done|]. cbn [sall]. rewrite !andb_true_iff.
  intros [-> ?] [-> ?]. auto.
Qed.
#[export] Hint Resolve sall_and : solar.

(** * Numerals: lemmas *)

Definition num_char (c : ascii) : bool := isdigit c || bool_decide (c = "-"%char).

Lemma pretty_N_char_digit x : (x < 10)%N → isdigit (pretty_N_char x) = true.
Proof.
  intros Hx. assert (x = 0 ∨ x = 1 ∨ x = 2 ∨ x = 3 ∨ x = 4 ∨ x = 5 ∨ x = 6 ∨ x = 7 ∨ x = 8 ∨ x = 9)%N as H by lia.
  by repeat destruct H as [-> |H]; subst.
Qed.

Lemma pretty_N_go_num x s : sall num_char s = true → sall num_char (pretty_N_go x s) = true.
Proof.
  revert s. induction (N.lt_wf_0 x) as [x _ IH]. intros s Hs.
  destruct (decide (x = 0)%N) as [->|Hx]; [by rewrite pretty_N_go_0|].
  rewrite pretty_N_go_step by lia. apply IH; [apply N.div_lt; lia|]. cbn [sall]. rewrite Hs, andb_true_r.
  unfold num_char. by rewrite pretty_N_char_digit by (apply N.mod_lt; lia).
Qed.

Lemma to_string_num z : sall num_char (to_string z) = true.
Proof.
  assert (∀ x : N, sall num_char (pretty x) = true) as HN.
  { intros x. unfold pretty, pretty_N. case_decide; [done|]. by apply pretty_N_go_num. }
  unfold to_string. destruct z as [|p|p]; [done| |].
  - apply (HN (Npos p)).
  - change (pretty (Zneg p)) with (String "-" (pretty (Npos p))). cbn [sall]. by rewrite HN.
Qed.

Lemma to_string_lacks c z : num_char c = false → sall (λ d, negb (bool_decide (d = c))) (to_string z) = true.
Proof.
  intros Hc. eapply sall_impl; [|apply to_string_num]. intros d Hd.
  apply negb_true_iff, bool_decide_eq_false. congruence.
Qed.

Lemma to_string_inj z z' : to_string z = to_string z' → z = z'.
Proof. apply (inj pretty). Qed.

Lemma sapp_inj_l s t t' : s +:+ t = s +:+ t' → t = t'.
Proof. induction s as [|c s IH]; [done|]. rewrite !sapp_cons. intros [= H]. auto. Qed.

Lemma sapp_inj_r s s' t : s +:+ t = s' +:+ t → s = s'.
Proof.
  revert s'. induction s as [|c s IH]; intros s' H.
  - apply (f_equal slen) in H. rewrite !slen_app in H. destruct s'; [done|]. cbn in H. lia.
  - destruct s' as [|c' s'].
    + apply (f_equal slen) in H. rewrite !slen_app in H. cbn in H. lia.
    + rewrite !sapp_cons in H. injection H as -> H. f_equal. auto.
Qed.

(** A string up to the first occurrence of a character. *)
Lemma sapp_delim c a b x y : sall (λ d, negb (bool_decide (d = c))) a = true → sall (λ d, negb (bool_decide (d = c))) b = true →
  a +:+ String c x = b +:+ String c y → a = b.
Proof.
  revert b. induction a as [|d a IH]; intros [|e b]; cbn [sall]; rewrite ?sapp_nil_l, ?sapp_cons; try done.
  - intros _ [He _]%andb_true_iff [= -> _]. by rewrite bool_decide_eq_true_2 in He.
  - intros [Hd _]%andb_true_iff _ [= -> _]. by rewrite bool_decide_eq_true_2 in Hd.
  - intros [_ Ha]%andb_true_iff [_ Hb]%andb_true_iff [= -> H]. f_equal. by apply IH.
Qed.

Lemma c_str_id s : sall (λ d, negb (bool_decide (d = NUL))) s = true → c_str s = s.
Proof.
  induction s as [|c s IH]; [done|]. cbn [sall c_str]. intros [Hc Hs]%andb_true_iff.
  apply negb_true_iff in Hc. by rewrite Hc, IH.
Qed.

Lemma pretty_N_char_val x : (x < 10)%N → digit_val (pretty_N_char x) = Z.of_N x.
Proof.
  intros Hx. assert (x = 0 ∨ x = 1 ∨ x = 2 ∨ x = 3 ∨ x = 4 ∨ x = 5 ∨ x = 6 ∨ x = 7 ∨ x = 8 ∨ x = 9)%N as H by lia.
  by repeat destruct H as [-> |H]; subst.
Qed.

Lemma digits_val_pretty_go x s : digits_val 0 (pretty_N_go x s) = digits_val (Z.of_N x) s.
Proof.
  revert s. induction (N.lt_wf_0 x) as [x _ IH]. intros s.
  destruct (decide (x = 0)%N) as [->|Hx]; [by rewrite pretty_N_go_0|].
  rewrite pretty_N_go_step, IH by (try apply N.div_lt; lia). cbn [digits_val].
  rewrite pretty_N_char_digit, pretty_N_char_val by (apply N.mod_lt; lia). f_equal.
  rewrite N2Z.inj_div, N2Z.inj_mod. pose proof (Z.div_mod (Z.of_N x) 10). lia.
Qed.

(** The value of a numeral written by [to_string]. *)
Definition read_num (s : string) : Z :=
  match s with String "-" t => - digits_val 0 t | _ => digits_val 0 s end.

Lemma read_num_pretty x : digits_val 0 (pretty x) = Z.of_N x.
Proof. unfold pretty, pretty_N. case_decide; [by subst|]. by rewrite digits_val_pretty_go. Qed.

Lemma read_num_to_string z : read_num (to_string z) = z.
Proof.
  unfold to_string. destruct z as [|p|p].
  - done.
  - change (pretty (Zpos p)) with (pretty (Npos p)). pose proof (read_num_pretty (Npos p)) as H.
    pose proof (to_string_num (Zpos p)) as Hn. unfold to_string in Hn.
    change (pretty (Zpos p)) with (pretty (Npos p)) in Hn.
    destruct (pretty (Npos p)) as [|c s] eqn:E; [done|].
    destruct (decide (c = "-"%char)) as [->|Hc]; [done|].
    unfold read_num. destruct c as [[] [] [] [] [] [] [] []]; done.
  - change (pretty (Zneg p)) with (String "-" (pretty (Npos p))). cbn [read_num].
    by rewrite read_num_pretty.
Qed.

(** The number readers give back what [to_string] wrote. *)
Lemma pretty_N_go_digit x s : (0 < x)%N ∨ starts_digit s = true → starts_digit (pretty_N_go x s) = true.
Proof.
  revert s. induction (N.lt_wf_0 x) as [x _ IH]. intros s Hs.
  destruct (decide (x = 0)%N) as [->|Hx]; [rewrite pretty_N_go_0; destruct Hs; [lia|done]|].
  rewrite pretty_N_go_step by lia. apply IH; [apply N.div_lt; lia|]. right. cbn [starts_digit].
  apply pretty_N_char_digit, N.mod_lt. lia.
Qed.

Lemma pretty_starts_digit (x : N) : starts_digit (pretty x) = true.
Proof. unfold pretty, pretty_N. case_decide; [done|]. apply pretty_N_go_digit. left. lia. Qed.

Lemma scan_digits s : starts_digit s = true → scan_int s = Some (false, digits_val 0 s).
Proof.
  destruct s as [|c s]; [done|]. cbn [starts_digit]. intros Hc. unfold scan_int. cbn [skip_space].
  assert (isspace c = false) as ->.
  { unfold isdigit, isspace in *. apply bool_decide_eq_true in Hc. apply bool_decide_eq_false. lia. }
  destruct c as [[] [] [] [] [] [] [] []]; try discriminate Hc; reflexivity.
Qed.

Lemma sto_signed_to_string what lo hi z : (lo ≤ z ≤ hi)%Z → sto_signed what lo hi (to_string z) = Ok z.
Proof.
  intros Hz. unfold sto_signed. assert (∃ neg v, scan_int (to_string z) = Some (neg, v) ∧ (if neg then - v else v)%Z = z) as (neg&v&->&->).
  - unfold to_string. destruct z as [|p|p].
    + by exists false, 0%Z.
    + exists false, (Zpos p). change (pretty (Zpos p)) with (pretty (Npos p)).
      by rewrite scan_digits, read_num_pretty by apply pretty_starts_digit.
    + exists true, (Zpos p). change (pretty (Zneg p)) with (String "-" (pretty (Npos p))).
      change (scan_int (String "-" (pretty (Npos p)))) with
        (if starts_digit (pretty (Npos p)) then Some (true, digits_val 0 (pretty (Npos p))) else None).
      by rewrite pretty_starts_digit, read_num_pretty.
  - by rewrite bool_decide_eq_true_2.
Qed.

Lemma to_string_plain z : c_str (to_string z) = to_string z.
Proof. by apply c_str_id, to_string_lacks. Qed.
