(* ===== verification/Steps.v ===== *)
(** Reasoning about programs of the monad [M]: relations between the state
    before and after ([steps] whatever the outcome, [ok_steps] for successful
    runs), inversion of successful runs, and the tactics of both. *)
From S2P Require Import Prelude.

(** * Relations every run respects *)

Definition steps {S A} (R : S → S → Prop) (m : M S A) : Prop := ∀ s, R s (snd (m s)).
Definition ok_steps {S A} (R : S → S → Prop) (m : M S A) : Prop :=
  ∀ s a s', m s = (Ok a, s') → R s s'.

(** Keeping an invariant is such a relation. *)
Definition keeps {S} (I : S → Prop) (s s' : S) : Prop := I s → I s'.

#[export] Instance keeps_preorder {S} (I : S → Prop) : PreOrder (keeps I).
Proof. split; [intros s H; exact H|]. intros s1 s2 s3 H1 H2 H. exact (H2 (H1 H)). Qed.

Section steps.
Context {S : Type} {R : S → S → Prop} {HR : PreOrder R}.

Lemma steps_ret {A} (a : A) : steps R (mret a).
Proof using HR. intros s. cbn. reflexivity. Qed.
Lemma steps_get : steps R get_st.
Proof using HR. intros s. cbn. reflexivity. Qed.
Lemma steps_throw {A} k w : steps R (throw (A:=A) k w).
Proof using HR. intros s. cbn. reflexivity. Qed.
Lemma steps_lift {A} (r : result A) : steps R (lift_result r).
Proof using HR. intros s. cbn. reflexivity. Qed.

Lemma steps_bind {A B} (m : M S A) (f : A → M S B) :
  steps R m → (∀ a, steps R (f a)) → steps R (m ≫= f).
Proof using HR.
  intros Hm Hf s. specialize (Hm s). unfold mbind, M_mbind. destruct (m s) as [[a|e] s1]; cbn in *; [|done].
  transitivity s1; [done|apply Hf].
Qed.

(** The continuation may use how its argument was obtained. *)
Lemma steps_bind_ok {A B} (m : M S A) (f : A → M S B) :
  steps R m → (∀ s a s1, m s = (Ok a, s1) → R s1 (snd (f a s1))) → steps R (m ≫= f).
Proof using HR.
  intros Hm Hf s. specialize (Hm s). unfold mbind, M_mbind. destruct (m s) as [[a|e] s1] eqn:E; cbn in *; [|done].
  transitivity s1; [done|]. by apply (Hf s a s1).
Qed.

(** The same, when all it needs is a property of the result. *)
Lemma steps_bind_post {A B} (Q : A → Prop) (m : M S A) (f : A → M S B) :
  steps R m → (∀ s a s1, m s = (Ok a, s1) → Q a) → (∀ a, Q a → steps R (f a)) → steps R (m ≫= f).
Proof using HR. intros Hm Hq Hf. apply steps_bind_ok; [done|]. intros s a s1 Ha. apply Hf. by eapply Hq. Qed.

Lemma steps_catch {A} (m : M S A) (h : exn → M S A) :
  steps R m → (∀ e, steps R (h e)) → steps R (try_catch m h).
Proof using HR.
  intros Hm Hh s. specialize (Hm s). unfold try_catch. destruct (m s) as [[a|e] s1]; cbn in *; [done|].
  case_match; [done|]. transitivity s1; [done|apply Hh].
Qed.

Lemma ok_steps_of {A} (m : M S A) : steps R m → ok_steps R m.
Proof using HR. intros Hm s a s' E. specialize (Hm s). by rewrite E in Hm. Qed.

Lemma ok_steps_bind {A B} (m : M S A) (f : A → M S B) :
  ok_steps R m → (∀ a, ok_steps R (f a)) → ok_steps R (m ≫= f).
Proof using HR.
  intros Hm Hf s b s' E. unfold mbind, M_mbind in E. destruct (m s) as [[a|e] s1] eqn:Em; [|done].
  transitivity s1; [by eapply Hm|by eapply Hf].
Qed.

End steps.

#[export] Hint Resolve steps_ret steps_get steps_throw steps_lift ok_steps_of : solar.
#[export] Hint Extern 0 (PreOrder _) => solve [apply _] : solar.

(** Weakening a relation. *)
Lemma steps_weaken {S A} (R R' : S → S → Prop) (m : M S A) :
  (∀ s s', R s s' → R' s s') → steps R m → steps R' m.
Proof. intros HR Hm s. apply HR, Hm. Qed.

Lemma steps_and {S A} (R R' : S → S → Prop) (m : M S A) :
  steps R m → steps R' m → steps (λ s s', R s s' ∧ R' s s') m.
Proof. intros H H' s. split; [apply H|apply H']. Qed.

(** * Successful runs *)

Lemma bind_ok {S A B} (m : M S A) (f : A → M S B) s b s' :
  (m ≫= f) s = (Ok b, s') → ∃ a s1, m s = (Ok a, s1) ∧ f a s1 = (Ok b, s').
Proof. unfold mbind, M_mbind. destruct (m s) as [[a|e] s1]; [eauto|done]. Qed.

Lemma bind_run {S A B} (m : M S A) (f : A → M S B) s a s1 :
  m s = (Ok a, s1) → (m ≫= f) s = f a s1.
Proof. unfold mbind, M_mbind. by intros ->. Qed.

Lemma bind_throw {S A B} (m : M S A) (f : A → M S B) s e s1 :
  m s = (Throw e, s1) → (m ≫= f) s = (Throw e, s1).
Proof. unfold mbind, M_mbind. by intros ->. Qed.

Lemma result_bind_ok {A B} (r : result A) (f : A → result B) b :
  r ≫= f = Ok b → ∃ a, r = Ok a ∧ f a = Ok b.
Proof. destruct r; [eauto|done]. Qed.

Lemma ret_ok {S A} (a b : A) (s s' : S) : (mret a : M S A) s = (Ok b, s') → a = b ∧ s = s'.
Proof. intros [= -> ->]. done. Qed.
Lemma get_ok {S} (a s s' : S) : get_st s = (Ok a, s') → a = s ∧ s' = s.
Proof. intros [= -> ->]. done. Qed.
Lemma put_ok {S} (t s s' : S) a : put_st t s = (Ok a, s') → s' = t.
Proof. by intros [= _ ->]. Qed.
Lemma lift_ok {S A} (r : result A) a (s s' : S) : lift_result r s = (Ok a, s') → r = Ok a ∧ s' = s.
Proof. intros [= -> ->]. done. Qed.

Lemma try_catch_ok {S A} (m : M S A) (h : exn → M S A) s a s' : try_catch m h s = (Ok a, s') →
  m s = (Ok a, s') ∨ ∃ e s1, m s = (Throw e, s1) ∧ h e s1 = (Ok a, s').
Proof. unfold try_catch. destruct (m s) as [[b|e] s1]; [by left|]. case_match; [done|]. eauto. Qed.

(** Take a successful run apart, down to operations that are not the monad's. *)
Ltac run_inv :=
  repeat match goal with
  | H : mbind _ _ _ = (Ok _, _) |- _ => apply bind_ok in H as (?&?&?&H); cbv beta in H
  | H : mret _ _ = (Ok _, _) |- _ => apply ret_ok in H as [? ?]; subst
  | H : get_st _ = (Ok _, _) |- _ => apply get_ok in H as [? ?]; subst
  | H : put_st _ _ = (Ok _, _) |- _ => apply put_ok in H; subst
  | H : lift_result _ _ = (Ok _, _) |- _ => apply lift_ok in H as [? ?]; subst
  | H : throw _ _ _ = (Ok _, _) |- _ => discriminate H
  | H : Ok _ = Ok _ |- _ => injection H as H; subst
  | H : (_, _) = (_, _) |- _ => injection H as H; subst
  end.

(** Prove that a program respects a relation, part by part. *)
Ltac step_rule :=
  cbv beta;
  first
    [ solve [eauto 4 with solar]
    | match goal with
      | |- steps _ (mbind _ _) => apply steps_bind; [|intros ?]
      | |- ok_steps _ (mbind _ _) => apply ok_steps_bind; [|intros ?]
      | |- steps _ (try_catch _ _) => apply steps_catch; [|intros ?]
      | |- context [match ?x with _ => _ end] => destruct x
      end ].
Ltac step_rules := repeat step_rule.
