(* ===== verification/NetBuffer.v ===== *)
(** The network byte buffer, [solar_net::Buffer] of src/network/buffer.h: a
    vector with a read and a write index, and its refinement of a byte queue. *)
From S2P Require Import Prelude.

Module Buffer.

(** [kCheapPrepend]. *)
Definition kCheapPrepend : nat := 8.

Record Buffer := mk {
  buffer_ : list ascii;     (* std::vector<uint8_t> *)
  read_index_ : nat;
  write_index_ : nat
}.

(** The constructor: a zero-filled vector. *)
Definition make (initial_size : nat) : Buffer :=
  mk (replicate (kCheapPrepend + initial_size) zero) kCheapPrepend kCheapPrepend.

(** [swap]: the two buffers after the exchange. *)
Definition swap (b other : Buffer) : Buffer * Buffer := (other, b).

Definition readable_bytes (b : Buffer) : nat := write_index_ b - read_index_ b.
Definition writable_bytes (b : Buffer) : nat := length (buffer_ b) - write_index_ b.
Definition prependable_bytes (b : Buffer) : nat := read_index_ b.

(** The readable bytes: [data()], [readable_bytes()] of them. *)
Definition data (b : Buffer) : list ascii :=
  take (readable_bytes b) (drop (read_index_ b) (buffer_ b)).

(** [std::copy(src, src + len, begin() + pos)] into the vector. *)
Definition blit (v : list ascii) (pos : nat) (src : list ascii) : list ascii :=
  take pos v ++ src ++ drop (pos + length src) v.

(** [assert(c)]: [None] is an aborted process. *)
Definition assert {A} (c : bool) (k : option A) : option A := if c then k else None.

Definition retrieve_all (b : Buffer) : Buffer :=
  mk (buffer_ b) kCheapPrepend kCheapPrepend.

Definition shrink (b : Buffer) : Buffer :=
  let new_buf := blit (replicate (kCheapPrepend + readable_bytes b) zero)
                      kCheapPrepend (data b) in
  mk new_buf kCheapPrepend (kCheapPrepend + readable_bytes b).

Definition shrink_if_needed (b : Buffer) : Buffer :=
  if bool_decide (length (buffer_ b) / 2 < read_index_ b ∧
                  readable_bytes b < length (buffer_ b) / 4)
  then shrink b else b.

Definition retrieve (b : Buffer) (n : nat) : Buffer :=
  let b' := if bool_decide (n ≤ readable_bytes b)
            then mk (buffer_ b) (read_index_ b + n) (write_index_ b)
            else retrieve_all b in
  shrink_if_needed b'.

Definition retrieve_as_string (b : Buffer) (n : nat) : option (Buffer * list ascii) :=
  assert (bool_decide (n ≤ readable_bytes b))
    (Some (retrieve b n, take n (data b))).

Definition retrieve_all_as_string (b : Buffer) : option (Buffer * list ascii) :=
  retrieve_as_string b (readable_bytes b).

(** The four bytes of an [int32_t], least significant first (x86 host order),
    and back with two's complement sign. *)
Definition int32_bytes (v : Z) : list ascii :=
  [chr v; chr (Z.shiftr v 8); chr (Z.shiftr v 16); chr (Z.shiftr v 24)].
Definition bytes_int32 (l : list ascii) : Z :=
  match l with
  | [a; b; c; d] =>
      let u := (code a + 256 * code b + 65536 * code c + 16777216 * code d)%Z in
      if bool_decide (u < 2147483648)%Z then u else (u - 4294967296)%Z
  | _ => 0%Z
  end.

Definition peek_int32 (b : Buffer) : option Z :=
  assert (bool_decide (4 ≤ readable_bytes b)) (Some (bytes_int32 (take 4 (data b)))).

Definition read_int32 (b : Buffer) : option (Buffer * Z) :=
  v ← peek_int32 b; Some (retrieve b 4, v).

Definition has_written (b : Buffer) (len : nat) : option Buffer :=
  assert (bool_decide (len ≤ writable_bytes b))
    (Some (mk (buffer_ b) (read_index_ b) (write_index_ b + len))).

Definition unwrite (b : Buffer) (len : nat) : option Buffer :=
  assert (bool_decide (len ≤ readable_bytes b))
    (Some (mk (buffer_ b) (read_index_ b) (write_index_ b - len))).

(** [vector::resize], growing with zeros or cutting. *)
Definition resize (v : list ascii) (n : nat) : list ascii :=
  take n v ++ replicate (n - length v) zero.

Definition make_space (b : Buffer) (len : nat) : option Buffer :=
  if bool_decide (writable_bytes b + prependable_bytes b < len + kCheapPrepend)
  then Some (mk (resize (buffer_ b) (write_index_ b + len)) (read_index_ b) (write_index_ b))
  else
    let readable := readable_bytes b in
    let b' := mk (blit (buffer_ b) kCheapPrepend (data b))
                 kCheapPrepend (kCheapPrepend + readable) in
    assert (bool_decide (len ≤ writable_bytes b')) (Some b').

Definition ensure_writable_bytes (b : Buffer) (len : nat) : option Buffer :=
  b' ← (if bool_decide (writable_bytes b < len) then make_space b len else Some b);
  assert (bool_decide (len ≤ writable_bytes b')) (Some b').

Definition append (b : Buffer) (d : list ascii) : option Buffer :=
  b' ← ensure_writable_bytes b (length d);
  has_written (mk (blit (buffer_ b') (write_index_ b') d) (read_index_ b') (write_index_ b'))
              (length d).

(** [append(const Buffer&)]. *)
Definition append_buffer (b other : Buffer) : option Buffer := append b (data other).

Definition prepend (b : Buffer) (d : list ascii) : option Buffer :=
  assert (bool_decide (length d ≤ prependable_bytes b))
    (let r := read_index_ b - length d in
     Some (mk (blit (buffer_ b) r d) r (write_index_ b))).

Definition prepend_int32 (b : Buffer) (v : Z) : option Buffer := prepend b (int32_bytes v).

(** Outcome of [::readv]: failure, or the bytes received ([[]] at end of file). *)
Inductive readv_result := RvError | RvBytes (bytes : list ascii).

(** [read_from_fd]: the buffer and the returned [ssize_t]. The first [writable]
    bytes land in the vector, the rest in [extrabuf] and are appended; the
    definition does not bound the excess by the 65536 bytes of [extrabuf]. *)
Definition read_from_fd (b : Buffer) (r : readv_result) : option (Buffer * Z) :=
  match r with
  | RvError => Some (b, (-1)%Z)
  | RvBytes [] => Some (b, 0%Z)
  | RvBytes bytes =>
      let n := length bytes in
      let writable := writable_bytes b in
      let b1 := mk (blit (buffer_ b) (write_index_ b) (take writable bytes))
                   (read_index_ b) (write_index_ b) in
      if bool_decide (n ≤ writable)
      then b2 ← has_written b1 n; Some (b2, Z.of_nat n)
      else b2 ← has_written b1 writable;
           b3 ← append b2 (drop writable bytes);
           Some (b3, Z.of_nat n)
  end.

(** The class invariant. *)
Definition wf (b : Buffer) : Prop :=
  read_index_ b ≤ write_index_ b ≤ length (buffer_ b) ∧ kCheapPrepend ≤ length (buffer_ b).

(** ** Operations as data, concrete run and abstract byte queue *)

Inductive op :=
  | OAppend (d : list ascii)
  | ORetrieve (n : nat)
  | ORetrieveAll
  | ORetrieveString (n : nat)
  | ORetrieveAllString
  | OReadInt32
  | OPrepend (d : list ascii)
  | OUnwrite (n : nat)
  | OShrink
  | OEnsure (n : nat)
  | OReadFd (r : readv_result).

(** What the caller observes of one operation. *)
Inductive obs := ObNone | ObBytes (l : list ascii) | ObInt (z : Z).

Definition run_op (b : Buffer) (o : op) : option (Buffer * obs) :=
  match o with
  | OAppend d => b' ← append b d; Some (b', ObNone)
  | ORetrieve n => Some (retrieve b n, ObNone)
  | ORetrieveAll => Some (retrieve_all b, ObNone)
  | ORetrieveString n => '(b', l) ← retrieve_as_string b n; Some (b', ObBytes l)
  | ORetrieveAllString => '(b', l) ← retrieve_all_as_string b; Some (b', ObBytes l)
  | OReadInt32 => '(b', z) ← read_int32 b; Some (b', ObInt z)
  | OPrepend d => b' ← prepend b d; Some (b', ObNone)
  | OUnwrite n => b' ← unwrite b n; Some (b', ObNone)
  | OShrink => Some (shrink b, ObNone)
  | OEnsure n => b' ← ensure_writable_bytes b n; Some (b', ObNone)
  | OReadFd r => '(b', z) ← read_from_fd b r; Some (b', ObInt z)
  end.

Fixpoint run_ops (b : Buffer) (os : list op) : option (Buffer * list obs) :=
  match os with
  | [] => Some (b, [])
  | o :: os' => '(b1, x) ← run_op b o; '(b2, xs) ← run_ops b1 os'; Some (b2, x :: xs)
  end.

(** The abstract byte queue: a list, oldest byte first. *)
Definition spec_op (q : list ascii) (o : op) : option (list ascii * obs) :=
  match o with
  | OAppend d => Some (q ++ d, ObNone)
  | ORetrieve n => Some (drop n q, ObNone)
  | ORetrieveAll => Some ([], ObNone)
  | ORetrieveString n =>
      if bool_decide (n ≤ length q) then Some (drop n q, ObBytes (take n q)) else None
  | ORetrieveAllString => Some ([], ObBytes q)
  | OReadInt32 =>
      if bool_decide (4 ≤ length q) then Some (drop 4 q, ObInt (bytes_int32 (take 4 q))) else None
  | OPrepend d => Some (d ++ q, ObNone)
  | OUnwrite n =>
      if bool_decide (n ≤ length q) then Some (take (length q - n) q, ObNone) else None
  | OShrink => Some (q, ObNone)
  | OEnsure _ => Some (q, ObNone)
  | OReadFd RvError => Some (q, ObInt (-1))
  | OReadFd (RvBytes l) => Some (q ++ l, ObInt (Z.of_nat (length l)))
  end.

Fixpoint spec_ops (q : list ascii) (os : list op) : option (list ascii * list obs) :=
  match os with
  | [] => Some (q, [])
  | o :: os' => '(q1, x) ← spec_op q o; '(q2, xs) ← spec_ops q1 os'; Some (q2, x :: xs)
  end.

(** Retrieval, growth, reads from the descriptor: every operation except the
    three with a caller bound succeeds. *)
Definition unbounded (o : op) : bool :=
  match o with
  | ORetrieveString _ | OReadInt32 | OPrepend _ | OUnwrite _ => false
  | _ => true
  end.

(** ** Layout lemmas *)

Lemma length_blit v pos src :
  pos + length src ≤ length v → length (blit v pos src) = length v.
Proof. intros. unfold blit. rewrite !length_app, length_take, length_drop. lia. Qed.

Lemma blit_split a b c d :
  length b = length d → blit (a ++ b ++ c) (length a) d = a ++ d ++ c.
Proof.
  intros H. unfold blit. rewrite take_app_length. do 2 f_equal.
  rewrite <- H, <- length_app, (assoc_L (++) a b c). apply drop_app_length.
Qed.

Lemma data_mk a q c : data (mk (a ++ q ++ c) (length a) (length a + length q)) = q.
Proof.
  unfold data, readable_bytes; simpl. rewrite drop_app_length.
  replace (length a + length q - length a) with (length q) by lia.
  by rewrite take_app_length.
Qed.

Lemma length_data b : wf b → length (data b) = readable_bytes b.
Proof.
  intros [??]. unfold data, readable_bytes. rewrite length_take, length_drop. lia.
Qed.

Lemma readable_mk a q c : readable_bytes (mk (a ++ q ++ c) (length a) (length a + length q)) = length q.
Proof. unfold readable_bytes; simpl. lia. Qed.

Lemma writable_mk a q c : writable_bytes (mk (a ++ q ++ c) (length a) (length a + length q)) = length c.
Proof. unfold writable_bytes; simpl. rewrite !length_app. lia. Qed.

(** The three zones of a well-formed buffer. *)
Lemma wf_split b : wf b →
  ∃ a q c, b = mk (a ++ q ++ c) (length a) (length a + length q) ∧
           kCheapPrepend ≤ length (a ++ q ++ c).
Proof.
  destruct b as [v r w]. intros [[H1 H2] H3]; simpl in *.
  exists (take r v), (take (w - r) (drop r v)), (drop w v).
  assert (take r v ++ take (w - r) (drop r v) ++ drop w v = v) as Hv.
  { rewrite <- (take_drop r v) at 4. f_equal.
    rewrite <- (take_drop (w - r) (drop r v)) at 2. f_equal.
    rewrite drop_drop. f_equal. lia. }
  rewrite Hv. split; [|done].
  f_equal; rewrite ?length_take, ?length_drop; lia.
Qed.

(** Rebuild a buffer from its zones. *)
Lemma wf_mk a q c :
  kCheapPrepend ≤ length (a ++ q ++ c) →
  wf (mk (a ++ q ++ c) (length a) (length a + length q)).
Proof. unfold wf; simpl. rewrite !length_app. lia. Qed.

(** Closing step for states given by their zones. *)
Lemma refine_zones (v : list ascii) r w a q c :
  v = a ++ q ++ c → r = length a → w = length a + length q →
  kCheapPrepend ≤ length v → wf (mk v r w) ∧ data (mk v r w) = q.
Proof. intros -> -> -> ?. split; [by apply wf_mk|apply data_mk]. Qed.

(** Each mutator on a buffer in zones. *)
Lemma blit_mid a q c d :
  length d ≤ length c → blit (a ++ q ++ c) (length a + length q) d = a ++ (q ++ d) ++ drop (length d) c.
Proof.
  intros Hd. rewrite <- (take_drop (length d) c) at 1.
  rewrite (assoc_L (++) a q), <- length_app, blit_split by (rewrite length_take; lia).
  by rewrite <- !(assoc_L (++)).
Qed.

Lemma retrieve_all_refines b : wf b → wf (retrieve_all b) ∧ data (retrieve_all b) = [].
Proof.
  intros (a & q & c & -> & Hk)%wf_split. unfold retrieve_all; cbn [buffer_].
  apply (refine_zones _ _ _ (take kCheapPrepend (a ++ q ++ c)) []
    (drop kCheapPrepend (a ++ q ++ c))).
  - by rewrite app_nil_l, take_drop.
  - rewrite length_take. lia.
  - rewrite length_take. change (length (@nil ascii)) with 0. lia.
  - done.
Qed.

Lemma shrink_refines b : wf b → wf (shrink b) ∧ data (shrink b) = data b.
Proof.
  intros Hwf. unfold shrink. rewrite <- length_data by done.
  set (q := data b). rewrite replicate_add.
  apply (refine_zones _ _ _ (replicate kCheapPrepend zero) q []).
  - pose proof (blit_split (replicate kCheapPrepend zero) (replicate (length q) zero) [] q) as H.
    rewrite !length_replicate, app_nil_r in H. by apply H.
  - by rewrite length_replicate.
  - by rewrite length_replicate.
  - rewrite length_blit; rewrite !length_app, !length_replicate; lia.
Qed.

Lemma shrink_if_needed_refines b :
  wf b → wf (shrink_if_needed b) ∧ data (shrink_if_needed b) = data b.
Proof. intros. unfold shrink_if_needed. case_bool_decide; [by apply shrink_refines|done]. Qed.

Lemma retrieve_refines b n : wf b → wf (retrieve b n) ∧ data (retrieve b n) = drop n (data b).
Proof.
  intros Hwf. unfold retrieve.
  enough (∀ b', wf b' ∧ data b' = drop n (data b) →
    wf (shrink_if_needed b') ∧ data (shrink_if_needed b') = drop n (data b)) as Hs.
  { apply Hs. case_bool_decide as Hn.
    - apply wf_split in Hwf as (a & q & c & -> & Hk). rewrite readable_mk in Hn.
      rewrite data_mk; cbn [buffer_ read_index_ write_index_].
      apply (refine_zones _ _ _ (a ++ take n q) (drop n q) c); [| | |done].
      + rewrite <- (take_drop n q) at 1. by rewrite <- !(assoc_L (++)).
      + rewrite length_app, length_take. lia.
      + rewrite length_app, length_take, length_drop. lia.
    - rewrite drop_ge by (rewrite length_data by done; lia). by apply retrieve_all_refines. }
  intros b' [Hw <-]. by apply shrink_if_needed_refines.
Qed.

(** [make_space] never trips its assertion, and copies to a lower address. *)
Lemma make_space_refines b len : wf b → writable_bytes b < len →
  ∃ b', make_space b len = Some b' ∧ wf b' ∧ data b' = data b ∧ len ≤ writable_bytes b'.
Proof.
  intros (a & q & c & -> & Hk)%wf_split Hw. rewrite writable_mk in Hw.
  unfold make_space. rewrite writable_mk, readable_mk, data_mk.
  unfold prependable_bytes; cbn [buffer_ read_index_ write_index_].
  case_bool_decide as Hsp; eexists.
  - split; [done|].
    assert (resize (a ++ q ++ c) (length a + length q + len) =
            a ++ q ++ (c ++ replicate (len - length c) zero)) as ->.
    { unfold resize. rewrite take_ge by (rewrite !length_app; lia).
      rewrite <- !(assoc_L (++)). do 4 f_equal. rewrite !length_app. lia. }
    rewrite data_mk, writable_mk. split_and!; [|done|].
    + apply wf_mk. rewrite !length_app in *. lia.
    + rewrite length_app, length_replicate. lia.
  - assert (length (take kCheapPrepend a) = kCheapPrepend) as Ha by (rewrite length_take; lia).
    set (c' := drop (kCheapPrepend + length q) (a ++ q ++ c)).
    assert (mk (blit (a ++ q ++ c) kCheapPrepend q) kCheapPrepend (kCheapPrepend + length q) =
      mk (take kCheapPrepend a ++ q ++ c') (length (take kCheapPrepend a))
         (length (take kCheapPrepend a) + length q)) as ->.
    { rewrite Ha. unfold blit. by rewrite take_app_le by lia. }
    unfold assert. rewrite writable_mk, bool_decide_eq_true_2
      by (unfold c'; rewrite length_drop, !length_app; lia).
    split; [done|]. rewrite writable_mk, data_mk.
    split_and!; [apply wf_mk|done|]; unfold c'; rewrite ?length_app, length_drop, !length_app; lia.
Qed.

Lemma ensure_refines b len : wf b →
  ∃ b', ensure_writable_bytes b len = Some b' ∧ wf b' ∧ data b' = data b ∧ len ≤ writable_bytes b'.
Proof.
  intros Hwf. unfold ensure_writable_bytes. case_bool_decide as Hw.
  - destruct (make_space_refines b len Hwf Hw) as (b' & -> & ?&?&?).
    exists b'. simpl. unfold assert. by rewrite bool_decide_eq_true_2.
  - exists b. simpl. unfold assert. rewrite bool_decide_eq_true_2 by lia. split_and!; try done. lia.
Qed.

Lemma append_refines b d : wf b → ∃ b', append b d = Some b' ∧ wf b' ∧ data b' = data b ++ d.
Proof.
  intros Hwf. unfold append.
  destruct (ensure_refines b (length d) Hwf) as (b1 & -> & Hwf1 & <- & Hd); simpl.
  apply wf_split in Hwf1 as (a & q & c & -> & Hk). rewrite writable_mk in Hd.
  cbn [buffer_ read_index_ write_index_].
  rewrite blit_mid by lia. unfold has_written, assert, writable_bytes; cbn [buffer_ read_index_ write_index_].
  rewrite bool_decide_eq_true_2 by (rewrite !length_app, length_drop; lia).
  eexists; split; [done|]. rewrite data_mk.
  eapply refine_zones; [done|done|rewrite length_app; lia|].
  rewrite !length_app, length_drop in *. lia.
Qed.

Lemma prepend_refines b d b' : wf b → prepend b d = Some b' → wf b' ∧ data b' = d ++ data b.
Proof.
  intros (a & q & c & -> & Hk)%wf_split. unfold prepend, assert, prependable_bytes.
  rewrite data_mk; cbn [buffer_ read_index_ write_index_].
  case_bool_decide as Hd; [|done]. intros [= <-].
  set (k := length a - length d).
  assert (length (take k a) = k) as Ha by (rewrite length_take; lia).
  assert (blit (a ++ q ++ c) k d = take k a ++ (d ++ q) ++ c) as ->.
  { rewrite <- (take_drop k a) at 1. rewrite <- (assoc_L (++)).
    rewrite <- Ha at 3. rewrite blit_split by (rewrite length_drop; lia).
    by rewrite (assoc_L (++) d). }
  eapply refine_zones; [done|done| |].
  - rewrite Ha, length_app. lia.
  - rewrite !length_app in *. lia.
Qed.

Lemma unwrite_refines b n b' :
  wf b → unwrite b n = Some b' → wf b' ∧ data b' = take (length (data b) - n) (data b).
Proof.
  intros (a & q & c & -> & Hk)%wf_split. unfold unwrite, assert.
  rewrite readable_mk, data_mk; cbn [buffer_ read_index_ write_index_].
  case_bool_decide as Hn; [|done]. intros [= <-].
  apply (refine_zones _ _ _ a _ (drop (length q - n) q ++ c)).
  - by rewrite (assoc_L (++) (take _ _)), take_drop.
  - done.
  - rewrite length_take. lia.
  - done.
Qed.

Lemma read_from_fd_refines b l : wf b →
  ∃ b', read_from_fd b (RvBytes l) = Some (b', Z.of_nat (length l)) ∧ wf b' ∧ data b' = data b ++ l.
Proof.
  intros Hwf. destruct l as [|x l']; [exists b; simpl; by rewrite app_nil_r|].
  unfold read_from_fd. generalize (x :: l') as l. clear x l'. intros l.
  assert (∀ n, n = length (take (writable_bytes b) l) → ∃ b2,
    has_written (mk (blit (buffer_ b) (write_index_ b) (take (writable_bytes b) l))
      (read_index_ b) (write_index_ b)) n = Some b2 ∧
    wf b2 ∧ data b2 = data b ++ take (writable_bytes b) l) as Hfirst.
  { intros n ->. apply wf_split in Hwf as (a & q & c & -> & Hk). rewrite writable_mk, data_mk.
    cbn [buffer_ read_index_ write_index_]. rewrite blit_mid by (rewrite length_take; lia).
    unfold has_written, assert, writable_bytes; cbn [buffer_ read_index_ write_index_].
    rewrite bool_decide_eq_true_2 by (rewrite !length_app, length_drop, length_take; lia).
    eexists; split; [done|]. eapply refine_zones; [done|done|rewrite length_app; lia|].
    rewrite !length_app, length_drop, length_take in *. lia. }
  case_bool_decide as Hn.
  - destruct (Hfirst (length l)) as (b2 & -> & ?& Hd); [by rewrite take_ge|].
    rewrite take_ge in Hd by done. by exists b2.
  - destruct (Hfirst (writable_bytes b)) as (b2 & -> & Hw2 & Hd); [rewrite length_take; lia|]. simpl.
    destruct (append_refines b2 (drop (writable_bytes b) l) Hw2) as (b3 & -> & ?& Hd3).
    exists b3. split_and!; [done|done|]. by rewrite Hd3, Hd, <- (assoc_L (++)), take_drop.
Qed.

Lemma wf_make n : wf (make n) ∧ data (make n) = [].
Proof.
  unfold make. rewrite replicate_add.
  apply (refine_zones _ _ _ (replicate kCheapPrepend zero) [] (replicate n zero));
    [done|by rewrite length_replicate|rewrite length_replicate; apply plus_n_O|].
  rewrite length_app, !length_replicate. lia.
Qed.

#[export] Hint Resolve retrieve_refines retrieve_all_refines shrink_refines : solar.

(** One operation: the concrete run is the abstract one, and the only failing
    assertions are the documented bounds of the caller. *)
Lemma run_op_refines b o : wf b →
  match run_op b o with
  | Some (b', x) => wf b' ∧ spec_op (data b) o = Some (data b', x)
  | None => spec_op (data b) o = None ∨ ∃ d, o = OPrepend d ∧ prependable_bytes b < length d
  end.
Proof.
  intros Hwf. pose proof (length_data b Hwf) as Hlen.
  destruct o as [d|n| |n| | |d|n| |n|[|l]]; cbn [run_op spec_op].
  - destruct (append_refines b d Hwf) as (b' & -> & ? & Hd). simpl. by rewrite Hd.
  - destruct (retrieve_refines b n Hwf) as [? ->]. done.
  - destruct (retrieve_all_refines b Hwf) as [? ->]. done.
  - unfold retrieve_as_string, assert. rewrite <- Hlen. case_bool_decide; simpl; [|by left].
    destruct (retrieve_refines b n Hwf) as [? ->]. done.
  - unfold retrieve_all_as_string, retrieve_as_string, assert. rewrite <- Hlen.
    rewrite bool_decide_eq_true_2 by done. simpl.
    destruct (retrieve_refines b (length (data b)) Hwf) as [? ->].
    by rewrite drop_ge, take_ge.
  - unfold read_int32, peek_int32, assert. rewrite <- Hlen. case_bool_decide; simpl; [|by left].
    destruct (retrieve_refines b 4 Hwf) as [? ->]. done.
  - destruct (prepend b d) as [b'|] eqn:E; simpl.
    + destruct (prepend_refines b d b' Hwf E) as [? ->]. done.
    + right. exists d. split; [done|]. unfold prepend, assert in E. case_bool_decide; [done|lia].
  - destruct (unwrite b n) as [b'|] eqn:E; simpl.
    + destruct (unwrite_refines b n b' Hwf E) as [? ->]. split; [done|].
      unfold unwrite, assert in E. rewrite <- Hlen in E. by case_bool_decide.
    + left. unfold unwrite, assert in E. rewrite <- Hlen in E. by case_bool_decide.
  - destruct (shrink_refines b Hwf) as [? ->]. done.
  - destruct (ensure_refines b n Hwf) as (b' & -> & ? & Hd & _). simpl. by rewrite Hd.
  - done.
  - destruct (read_from_fd_refines b l Hwf) as (b' & -> & ? & Hd). simpl. by rewrite Hd.
Qed.

Lemma run_ops_refines b os b' xs : wf b → run_ops b os = Some (b', xs) →
  wf b' ∧ spec_ops (data b) os = Some (data b', xs).
Proof.
  revert b b' xs; induction os as [|o os IH]; intros b b' xs Hwf; simpl.
  - by intros [= <- <-].
  - pose proof (run_op_refines b o Hwf) as Ho.
    destruct (run_op b o) as [[b1 x]|]; simpl; [|done]. destruct Ho as [Hwf1 ->]; simpl.
    destruct (run_ops b1 os) as [[b2 ys]|] eqn:E; simpl; [|done]. intros [= <- <-].
    destruct (IH _ _ _ Hwf1 E) as [? ->]. done.
Qed.

Lemma run_ops_total b os : wf b → forallb unbounded os = true → is_Some (run_ops b os).
Proof.
  revert b; induction os as [|o os IH]; intros b Hwf; simpl; [by eauto|].
  rewrite andb_true_iff. intros [Ho Hos]. pose proof (run_op_refines b o Hwf) as H.
  destruct (run_op b o) as [[b1 x]|]; simpl.
  - destruct H as [Hwf1 _]. destruct (IH b1 Hwf1 Hos) as [[b2 ys] ->]. simpl. by eauto.
  - destruct H as [H|(d & -> & _)]; [|done]. by destruct o as [| | | | | | | | | |[]].
Qed.

(** ** Properties *)

(** C32. Refinement of a byte queue: from the constructor, every run of buffer
    operations that trips no assertion leaves a well-formed buffer and has the
    same readable bytes and the same observations as the abstract queue. *)
Theorem buffer_refines_queue (init : nat) (os : list op) :
  match run_ops (make init) os with
  | Some (b, xs) => wf b ∧ spec_ops [] os = Some (data b, xs)
  | None => forallb unbounded os = false
  end.
Proof.
  destruct (wf_make init) as [Hwf Hd].
  destruct (run_ops (make init) os) as [[b xs]|] eqn:E.
  - rewrite <- Hd. by apply run_ops_refines.
  - destruct (forallb unbounded os) eqn:U; [|done].
    destruct (run_ops_total _ os Hwf U) as [? ?]. congruence.
Qed.

End Buffer.
