(* ===== verification/JsonValue.v ===== *)
(** JSON values as the handlers see them (nlohmann::json) and the interface of
    the JSON text functions, which live outside the repository: [dump] and
    [parse] of nlohmann::json and the input and output functions of PostgreSQL's
    jsonb. The accessors model the documented conversions of nlohmann::json the
    handlers call; the text functions are the fields of the class [JsonText],
    with the laws the program relies on. *)
From S2P Require Import Prelude.

(** * Values *)

(** [JInt] covers signed and unsigned 64-bit integers; a float is known only by
    its value truncated towards zero. Objects are association lists in key order. *)
#[warnings="-register-all"]
Inductive json :=
  | JNull
  | JBool (b : bool)
  | JInt (z : Z)
  | JFloat (trunc : Z)
  | JStr (s : string)
  | JArr (l : list json)
  | JObj (l : list (string * json)).

Definition jstrs (l : list string) : json := JArr (map JStr l).

Fixpoint jlookup (k : string) (l : list (string * json)) : option json :=
  match l with
  | [] => None
  | (k', v) :: l' => if bool_decide (k = k') then Some v else jlookup k l'
  end.

(** Every string of a value, and the values whose text denotes them exactly: no
    float, integers within 64 bits, object keys strictly increasing. *)
Fixpoint jstrings (j : json) : list string :=
  match j with
  | JStr s => [s]
  | JArr l => concat (map jstrings l)
  | JObj l => concat (map (λ kv, fst kv :: jstrings (snd kv)) l)
  | _ => []
  end.

Fixpoint keys_sorted (l : list string) : bool :=
  match l with
  | a :: ((b :: _) as l') => String.leb a b && negb (bool_decide (a = b)) && keys_sorted l'
  | _ => true
  end.

Fixpoint canonical (j : json) : bool :=
  match j with
  | JFloat _ => false
  | JInt z => bool_decide (i64_min ≤ z < two64)%Z
  | JArr l => forallb canonical l
  | JObj l => keys_sorted (fst <$> l) && forallb (λ kv, canonical (snd kv)) l
  | _ => true
  end.

Definition ascii7 (s : string) : bool := sall (λ c, bool_decide (code c < 128)%Z) s.
(** ASCII without the null character, which [dump] escapes. *)
Definition plain_ascii (s : string) : bool := sall (λ c, bool_decide (0 < code c < 128)%Z) s.

(** * Text functions *)

Class JsonText := {
  json_parse : string → result json;        (* nlohmann::json::parse *)
  json_dump : json → result string;         (* json::dump, strict about UTF-8 *)
  json_type_error : json → string;          (* what() of a type error *)
  pg_jsonb_in : string → option json;       (* text to jsonb *)
  pg_jsonb_out : json → string;             (* jsonb to text *)
  json_parse_kind s e : json_parse s = Throw e → ex_kind e = EJson;
  json_dump_kind j e : json_dump j = Throw e → ex_kind e = EJson;
  json_dump_ascii j : forallb ascii7 (jstrings j) = true →
    ∃ s, json_dump j = Ok s ∧ plain_ascii s = true;
  json_dump_text j s : json_dump j = Ok s → s ≠ "";
  json_parse_dump j s : canonical j = true → json_dump j = Ok s → json_parse s = Ok j;
  pg_jsonb_in_dump j s : canonical j = true → json_dump j = Ok s → pg_jsonb_in s = Some j;
  json_parse_jsonb l : json_parse (pg_jsonb_out (jstrs l)) = Ok (jstrs l)
}.

(** * Accessors *)

Section accessors.
Context {J : JsonText}.

Definition type_error {A} (j : json) : result A := Throw (Exn EJson (json_type_error j)).

(** [j.get<std::string>()]. *)
Definition jget_str (j : json) : result string :=
  match j with JStr s => Ok s | _ => type_error j end.

(** [j.get<int64_t>()]. *)
Definition jget_i64 (j : json) : result Z :=
  match j with JInt z => Ok (wrap_i64 z) | JFloat z => Ok (wrap_i64 z) | _ => type_error j end.

(** [j.get<int>()], which also converts booleans. *)
Definition jget_int (j : json) : result Z :=
  match j with
  | JInt z | JFloat z => Ok (wrap_i32 z)
  | JBool b => Ok (if b then 1 else 0)%Z
  | _ => type_error j
  end.

Fixpoint jmap {A} (f : json → result A) (l : list json) : result (list A) :=
  match l with
  | [] => Ok []
  | j :: l' => a ← f j; r ← jmap f l'; Ok (a :: r)
  end.

(** [j.get<std::vector<std::string>>()] and [std::vector<bool>]. *)
Definition jget_strs (j : json) : result (list string) :=
  match j with JArr l => jmap jget_str l | _ => type_error j end.
Definition jget_bool (j : json) : result bool :=
  match j with JBool b => Ok b | _ => type_error j end.
Definition jget_bools (j : json) : result (list bool) :=
  match j with JArr l => jmap jget_bool l | _ => type_error j end.

(** [j[key]] on a mutable value: a missing key reads as null. *)
Definition jfield (j : json) (k : string) : result json :=
  match j with
  | JObj l => Ok (default JNull (jlookup k l))
  | JNull => Ok JNull
  | _ => type_error j
  end.

(** [j.contains(key)]. *)
Definition jcontains (j : json) (k : string) : bool :=
  match j with JObj l => bool_decide (is_Some (jlookup k l)) | _ => false end.

(** [j.value(key, default)]. *)
Definition jvalue {A} (get : json → result A) (j : json) (k : string) (d : A) : result A :=
  match j with
  | JObj l => match jlookup k l with Some v => get v | None => Ok d end
  | _ => type_error j
  end.

End accessors.

(** * A concrete text form: the value's positive code written in binary *)

(** Used only to show that the laws of [JsonText] can hold. *)
Inductive jleaf := LNull | LBool (b : bool) | LInt (z : Z) | LFloat (z : Z) | LStr (s : string).

Definition jleaf_sum (l : jleaf) : option (bool + Z) + (Z + string) :=
  match l with
  | LNull => inl None | LBool b => inl (Some (inl b)) | LInt z => inl (Some (inr z))
  | LFloat z => inr (inl z) | LStr s => inr (inr s)
  end.
Definition sum_jleaf (x : option (bool + Z) + (Z + string)) : jleaf :=
  match x with
  | inl None => LNull | inl (Some (inl b)) => LBool b | inl (Some (inr z)) => LInt z
  | inr (inl z) => LFloat z | inr (inr s) => LStr s
  end.

#[export] Instance jleaf_eq_dec : EqDecision jleaf.
Proof. solve_decision. Defined.

#[export] Instance jleaf_countable : Countable jleaf.
Proof. apply (inj_countable' jleaf_sum sum_jleaf). by intros []. Defined.

Fixpoint json_tree (j : json) : gen_tree jleaf :=
  match j with
  | JNull => GenLeaf LNull
  | JBool b => GenLeaf (LBool b)
  | JInt z => GenLeaf (LInt z)
  | JFloat z => GenLeaf (LFloat z)
  | JStr s => GenLeaf (LStr s)
  | JArr l => GenNode 0 (map json_tree l)
  | JObj l => GenNode 1 (map (λ kv, GenNode 2 [GenLeaf (LStr (fst kv)); json_tree (snd kv)]) l)
  end.

Fixpoint tree_json (t : gen_tree jleaf) : json :=
  match t with
  | GenLeaf LNull => JNull
  | GenLeaf (LBool b) => JBool b
  | GenLeaf (LInt z) => JInt z
  | GenLeaf (LFloat z) => JFloat z
  | GenLeaf (LStr s) => JStr s
  | GenNode 0 l => JArr (map tree_json l)
  | GenNode _ l => JObj (map (λ t', match t' with
                                | GenNode _ [GenLeaf (LStr k); v] => (k, tree_json v)
                                | _ => ("", JNull) end) l)
  end.

Fixpoint pos_text (p : positive) : string :=
  match p with
  | xH => "1"
  | xO p' => String "0" (pos_text p')
  | xI p' => String "+" (pos_text p')
  end.

Fixpoint text_pos (s : string) : option positive :=
  match s with
  | String "0" s' => xO <$> text_pos s'
  | String "+" s' => xI <$> text_pos s'
  | String "1" "" => Some xH
  | _ => None
  end.

Definition bin_dump (j : json) : string := pos_text (encode (json_tree j)).
Definition bin_parse (s : string) : option json :=
  p ← text_pos s; t ← decode p; Some (tree_json t).

(** * Lemmas *)

Lemma jmap_strs `{JsonText} l : jmap jget_str (map JStr l) = Ok l.
Proof. induction l as [|s l IH]; [done|]. simpl. by rewrite IH. Qed.

Lemma jget_strs_jstrs `{JsonText} l : jget_strs (jstrs l) = Ok l.
Proof. apply jmap_strs. Qed.

Lemma jstrings_jstrs l : jstrings (jstrs l) = l.
Proof. induction l as [|s l IH]; [done|]. unfold jstrs in *; simpl in *. by f_equal. Qed.

Lemma canonical_jstrs l : canonical (jstrs l) = true.
Proof. unfold jstrs. simpl. by induction l. Qed.
#[export] Hint Rewrite @jget_strs_jstrs jstrings_jstrs canonical_jstrs : solar_rw.

Lemma jmap_bools `{JsonText} l : jmap jget_bool (map JBool l) = Ok l.
Proof. induction l as [|b l IH]; [done|]. simpl. by rewrite IH. Qed.

Lemma canonical_bools l : canonical (JArr (map JBool l)) = true.
Proof. simpl. by induction l. Qed.

Lemma jstrings_bools l : jstrings (JArr (map JBool l)) = [].
Proof. simpl. by induction l. Qed.

(** A text that [dump] leaves plain passes through a C string. *)
Lemma plain_c_str s : plain_ascii s = true → c_str s = s.
Proof.
  intros Ha. apply c_str_id. eapply sall_impl; [|exact Ha]. intros c Hc%bool_decide_eq_true.
  apply negb_true_iff, bool_decide_eq_false. intros ->. destruct Hc as [Hc _]. by vm_compute in Hc.
Qed.

Lemma tree_json_tree j : tree_json (json_tree j) = j.
Proof.
  revert j. fix IH 1. intros [| | | | |l|l]; simpl; try done.
  - f_equal. induction l as [|j l IHl]; simpl; [done|]. by rewrite IH, IHl.
  - f_equal. induction l as [|[k j] l IHl]; simpl; [done|]. by rewrite IH, IHl.
Qed.

Lemma text_pos_text p : text_pos (pos_text p) = Some p.
Proof. induction p as [p IH|p IH|]; simpl; by rewrite ?IH. Qed.

Lemma pos_text_ascii p : plain_ascii (pos_text p) = true.
Proof. induction p as [p IH|p IH|]; [exact IH|exact IH|done]. Qed.

Lemma bin_parse_dump j : bin_parse (bin_dump j) = Some j.
Proof.
  unfold bin_parse, bin_dump. rewrite text_pos_text. simpl.
  rewrite decode_encode. simpl. by rewrite tree_json_tree.
Qed.

(** The laws are satisfiable. *)
Definition bin_json : JsonText.
Proof.
  refine {|
    json_parse s := match bin_parse s with Some j => Ok j | None => Throw (Exn EJson "parse error") end;
    json_dump j := Ok (bin_dump j);
    json_type_error _ := "type error";
    pg_jsonb_in := bin_parse;
    pg_jsonb_out := bin_dump |}.
  - intros s e. case_match; [done|]. by intros [= <-].
  - done.
  - intros j _. eexists. split; [done|]. apply pos_text_ascii.
  - intros j s [= <-]. unfold bin_dump. by destruct (encode (json_tree j)).
  - intros j s _ [= <-]. by rewrite bin_parse_dump.
  - intros j s _ [= <-]. by rewrite bin_parse_dump.
  - intros l. by rewrite bin_parse_dump.
Defined.
