(* ===== verification/HttpMessage.v ===== *)
(** HTTP messages: [HttpRequest] (src/http/http_request.h, http_request.cpp),
    [HttpResponse] (http_response.h, http_response.cpp) and [query_param]
    (query_utils.h). Header and parameter tables are hash maps in the code:
    finite maps here, with the iteration order of the hash table an argument. *)
From S2P Require Import Prelude JsonValue.

(** Iteration order of [std::unordered_map<std::string, std::string>]. *)
Class HashOrder := {
  hash_iter : gmap string string → list (string * string);
  hash_iter_perm m : hash_iter m ≡ₚ map_to_list m
}.

Definition list_order : HashOrder :=
  {| hash_iter := map_to_list; hash_iter_perm m := Permutation_refl (map_to_list m) |}.

Module HttpRequest.

Inductive HttpMethod := GET | POST | PUT | DELETE | UNKNOWN.

#[export] Instance HttpMethod_eq_dec : EqDecision HttpMethod.
Proof. solve_decision. Defined.

Record HttpRequest := mk {
  method_ : HttpMethod;
  path_ : string;
  query_ : string;
  version_ : string;
  headers_ : gmap string string;
  path_params_ : gmap string string;
  body_ : string;
  content_length_ : Z;
  auth_user_id_ : string;
  auth_username_ : string
}.

(** The default constructor. *)
Definition empty : HttpRequest := mk UNKNOWN "" "" "" ∅ ∅ "" 0 "" "".

Definition set_method (m : HttpMethod) (r : HttpRequest) : HttpRequest :=
  mk m (path_ r) (query_ r) (version_ r) (headers_ r) (path_params_ r) (body_ r)
     (content_length_ r) (auth_user_id_ r) (auth_username_ r).
Definition set_path (p : string) (r : HttpRequest) : HttpRequest :=
  mk (method_ r) p (query_ r) (version_ r) (headers_ r) (path_params_ r) (body_ r)
     (content_length_ r) (auth_user_id_ r) (auth_username_ r).
Definition set_query (q : string) (r : HttpRequest) : HttpRequest :=
  mk (method_ r) (path_ r) q (version_ r) (headers_ r) (path_params_ r) (body_ r)
     (content_length_ r) (auth_user_id_ r) (auth_username_ r).
Definition set_version (v : string) (r : HttpRequest) : HttpRequest :=
  mk (method_ r) (path_ r) (query_ r) v (headers_ r) (path_params_ r) (body_ r)
     (content_length_ r) (auth_user_id_ r) (auth_username_ r).
Definition add_header (key val : string) (r : HttpRequest) : HttpRequest :=
  mk (method_ r) (path_ r) (query_ r) (version_ r) (<[key := val]> (headers_ r)) (path_params_ r)
     (body_ r) (content_length_ r) (auth_user_id_ r) (auth_username_ r).
Definition append_body (d : string) (r : HttpRequest) : HttpRequest :=
  mk (method_ r) (path_ r) (query_ r) (version_ r) (headers_ r) (path_params_ r) (body_ r +:+ d)
     (content_length_ r) (auth_user_id_ r) (auth_username_ r).
Definition with_path_params (m : gmap string string) (r : HttpRequest) : HttpRequest :=
  mk (method_ r) (path_ r) (query_ r) (version_ r) (headers_ r) m (body_ r)
     (content_length_ r) (auth_user_id_ r) (auth_username_ r).
Definition clear_path_params (r : HttpRequest) : HttpRequest := with_path_params ∅ r.
Definition set_path_param (key val : string) (r : HttpRequest) : HttpRequest :=
  with_path_params (<[key := val]> (path_params_ r)) r.
Definition set_auth_user (user_id username : string) (r : HttpRequest) : HttpRequest :=
  mk (method_ r) (path_ r) (query_ r) (version_ r) (headers_ r) (path_params_ r) (body_ r)
     (content_length_ r) user_id username.

(** [clear()] resets every field. *)
Definition clear (r : HttpRequest) : HttpRequest := mk UNKNOWN "" "" "" ∅ ∅ "" 0 "" "".

Definition get_path_param (key : string) (r : HttpRequest) : string := default "" (path_params_ r !! key).
Definition get_header (key : string) (r : HttpRequest) : string := default "" (headers_ r !! key).
Definition has_auth_user (r : HttpRequest) : bool := negb (sempty (auth_user_id_ r)).

Fixpoint eq_ic (a b : string) : bool :=
  match a, b with
  | "", "" => true
  | String c a', String d b' => bool_decide (tolower c = tolower d) && eq_ic a' b'
  | _, _ => false
  end.

Fixpoint first_ic (key : string) (l : list (string * string)) : string :=
  match l with
  | [] => ""
  | (k, v) :: l' => if bool_decide (slen k = slen key) && eq_ic k key then v else first_ic key l'
  end.

(** Case-insensitive lookup: the first match in iteration order. *)
Definition get_header_ic `{HashOrder} (key : string) (r : HttpRequest) : string :=
  first_ic key (hash_iter (headers_ r)).

(** [content_length()]. *)
Definition content_length (r : HttpRequest) : result Z :=
  let s := get_header "Content-Length" r in
  if sempty s then Ok 0%Z else stoull s.

Definition header_contains_token (value token : string) : bool :=
  bool_decide (is_Some (sfind (to_lower token) (to_lower value))).

Definition wants_keep_alive `{HashOrder} (r : HttpRequest) : bool :=
  let connection := get_header_ic "Connection" r in
  if header_contains_token connection "close" then false
  else if header_contains_token connection "keep-alive" then true
  else if bool_decide (is_Some (sfind "1.0" (to_lower (version_ r)))) then false
  else true.

End HttpRequest.

Module HttpResponse.

Record HttpResponse := mk {
  status_code_ : Z;
  status_text_ : string;
  headers_ : gmap string string;
  body_ : string;
  close_connection_ : bool
}.

Definition empty : HttpResponse := mk 200 "OK" ∅ "" true.

Definition set_status (c : Z) (text : string) (r : HttpResponse) : HttpResponse :=
  mk c text (headers_ r) (body_ r) (close_connection_ r).
Definition set_header (key val : string) (r : HttpResponse) : HttpResponse :=
  mk (status_code_ r) (status_text_ r) (<[key := val]> (headers_ r)) (body_ r) (close_connection_ r).
Definition set_body (body : string) (r : HttpResponse) : HttpResponse :=
  mk (status_code_ r) (status_text_ r)
     (<["Content-Length" := to_string (Z.of_nat (slen body))]> (headers_ r))
     body (close_connection_ r).
Definition set_json (body : string) (r : HttpResponse) : HttpResponse :=
  set_header "Content-Type" "application/json; charset=utf-8" (set_body body r).
Definition set_binary (data mime : string) (r : HttpResponse) : HttpResponse :=
  mk (status_code_ r) (status_text_ r)
     (<["Content-Length" := to_string (Z.of_nat (slen data))]>
       (<["Content-Type" := mime]> (headers_ r)))
     data (close_connection_ r).
Definition quoted (s : string) : string := String DQ (s +c DQ).
Definition set_download_headers (filename : string) (data_size : Z) (r : HttpResponse) : HttpResponse :=
  set_header "Content-Length" (to_string data_size)
    (set_header "Content-Disposition" ("attachment; filename=" +:+ quoted filename) r).
Definition set_close_connection (c : bool) (r : HttpResponse) : HttpResponse :=
  mk (status_code_ r) (status_text_ r) (headers_ r) (body_ r) c.

(** [set_error]: the status is written before the message is serialised, so a
    [dump] that throws leaves the new status and the old body. *)
Definition set_error `{JsonText} (c : Z) (msg : string) : M HttpResponse () := λ r,
  let r' := set_status c msg r in
  match json_dump (JObj [("error", JStr msg)]) with
  | Ok text => (Ok (), set_json text r')
  | Throw e => (Throw e, r')
  end.

Definition CRLF : string := String CR (String LF "").

Definition header_line (kv : string * string) : string := fst kv +:+ ": " +:+ snd kv +:+ CRLF.

Definition header_lines (l : list (string * string)) : string :=
  foldr (λ kv acc, header_line kv +:+ acc) "" l.

Definition serialize `{HashOrder} (r : HttpResponse) : string :=
  "HTTP/1.1 " +:+ to_string (status_code_ r) +:+ " " +:+ status_text_ r +:+ CRLF +:+
  (if bool_decide (headers_ r !! "Connection" = None)
   then (if close_connection_ r then "Connection: close" +:+ CRLF
         else "Connection: keep-alive" +:+ CRLF) else "") +:+
  (if negb (close_connection_ r) && bool_decide (headers_ r !! "Keep-Alive" = None)
   then "Keep-Alive: timeout=60, max=1000" +:+ CRLF else "") +:+
  header_lines (hash_iter (headers_ r)) +:+ CRLF +:+ body_ r.

(** What [send_response] hands to the connection: the payload, and whether the
    write-complete callback it installs closes the connection. *)
Definition send_response `{HashOrder} (r : HttpResponse) (keep_alive : bool) : string * bool :=
  (serialize (set_close_connection (negb keep_alive) r), negb keep_alive).

Definition send_response_and_close `{HashOrder} (r : HttpResponse) : string * bool :=
  send_response r false.

End HttpResponse.

Module Query.

(** [query_param]. *)
Definition query_param (query key : string) : string :=
  let prefix := key +:+ "=" in
  match sfind prefix query with
  | None => ""
  | Some pos =>
      let start := pos + slen prefix in
      match sfind_from "&" query start with
      | None => sdrop start query
      | Some e => substr query start (e - start)
      end
  end.

Definition get_query_param (r : HttpRequest.HttpRequest) (key : string) : string :=
  query_param (HttpRequest.query_ r) key.

(** ** Reference: a query string as a list of pairs *)

Definition pair_text (kv : string * string) : string := fst kv +:+ String "=" (snd kv).

Fixpoint query_text (l : list (string * string)) : string :=
  match l with
  | [] => ""
  | [kv] => pair_text kv
  | kv :: l' => pair_text kv +:+ String "&" (query_text l')
  end.

Definition lacks (c : ascii) (s : string) : bool := sall (λ d, negb (bool_decide (d = c))) s.
Definition plain (s : string) : bool := lacks "&" s && lacks "=" s.
Definition plain_pair (kv : string * string) : bool := plain (fst kv) && plain (snd kv).

Fixpoint is_suffix (key k : string) : bool :=
  bool_decide (key = k) || match k with String _ k' => is_suffix key k' | "" => false end.

Fixpoint first_suffix (key : string) (l : list (string * string)) : string :=
  match l with
  | [] => ""
  | (k, v) :: l' => if is_suffix key k then v else first_suffix key l'
  end.

(** The value at a position: up to the next separator. *)
Definition upto_amp (t : string) : string :=
  match sfind "&" t with Some e => stake e t | None => t end.

(** ** Searching *)

Lemma lacks_cons c d s : lacks c (String d s) = true ↔ d ≠ c ∧ lacks c s = true.
Proof. unfold lacks. cbn [sall]. by rewrite andb_true_iff, negb_true_iff, bool_decide_eq_false. Qed.

Lemma plain_cons d s : plain (String d s) = true ↔ d ≠ "&"%char ∧ d ≠ "="%char ∧ plain s = true.
Proof. unfold plain. rewrite !andb_true_iff, !lacks_cons. tauto. Qed.

Lemma starts_with_sep p a c b : lacks c p = true →
  starts_with p (a +:+ String c b) = starts_with p a.
Proof.
  revert a. induction p as [|d p IH]; intros a; [done|]. intros [Hd Hp]%lacks_cons.
  destruct a as [|e a]; [|by cbn [starts_with]; rewrite sapp_cons; cbn [starts_with]; rewrite IH].
  rewrite sapp_nil_l. cbn. by rewrite bool_decide_eq_false_2.
Qed.

(** A separator the pattern lacks cuts the search. *)
Lemma sfind_sep p a c b : lacks c p = true → p ≠ "" →
  sfind p (a +:+ String c b) =
  match sfind p a with Some i => Some i | None => (λ i, S (slen a) + i) <$> sfind p b end.
Proof.
  intros Hp Hne. induction a as [|d a IH].
  - rewrite sapp_nil_l. destruct p as [|e p]; [done|]. apply lacks_cons in Hp as [Hp _].
    cbn. by rewrite bool_decide_eq_false_2.
  - rewrite sapp_cons. cbn [sfind]. rewrite <- sapp_cons, starts_with_sep, IH by done.
    destruct (starts_with p (String d a)); [done|]. destruct (sfind p a); [done|].
    by destruct (sfind p b).
Qed.

Lemma starts_with_key key k v : lacks "=" key = true → lacks "=" k = true →
  starts_with (key +:+ "=") (k +:+ String "=" v) = bool_decide (key = k).
Proof.
  revert k. induction key as [|c key IH]; intros [|d k]; try done.
  - intros _ [Hd _]%lacks_cons. rewrite sapp_nil_l, sapp_cons. cbn.
    by rewrite bool_decide_eq_false_2.
  - intros [Hc _]%lacks_cons _. rewrite sapp_nil_l, sapp_cons. cbn.
    by rewrite !bool_decide_eq_false_2.
  - intros [_ Hk]%lacks_cons [_ Hk']%lacks_cons. rewrite !sapp_cons. cbn [starts_with].
    rewrite IH by done. rewrite <- bool_decide_and. apply bool_decide_ext. naive_solver.
Qed.

Lemma sfind_lacks c p q s : lacks c s = true → sfind (p +:+ String c q) s = None.
Proof.
  intros Hs. assert (starts_with (p +:+ String c q) s = false) as Hf.
  { destruct (starts_with _ s) eqn:E; [|done]. apply starts_with_iff in E as [t ->].
    unfold lacks in Hs. rewrite !sall_app in Hs. cbn in Hs.
    by rewrite bool_decide_eq_true_2, andb_false_r in Hs. }
  induction s as [|d s IH]; cbn [sfind]; rewrite Hf; [done|].
  apply lacks_cons in Hs as [_ Hs]. rewrite IH; [done|done|].
  destruct (starts_with _ s) eqn:E; [|done]. apply starts_with_iff in E as [t ->].
  unfold lacks in Hs. rewrite !sall_app in Hs. cbn in Hs.
  by rewrite bool_decide_eq_true_2, andb_false_r in Hs.
Qed.

(** The key is found where it ends the pair's key. *)
Lemma sfind_pair key k v : lacks "=" key = true → lacks "=" k = true → lacks "=" v = true →
  match sfind (key +:+ "=") (k +:+ String "=" v) with
  | Some i => is_suffix key k = true ∧ i + slen key = slen k
  | None => is_suffix key k = false
  end.
Proof.
  intros Hkey Hk Hv. induction k as [|c k IH].
  - rewrite sapp_nil_l. pose proof (starts_with_key key "" v Hkey eq_refl) as Hs. rewrite sapp_nil_l in Hs.
    cbn [sfind is_suffix]. rewrite Hs. case_bool_decide; [by subst|].
    by rewrite sfind_lacks.
  - apply lacks_cons in Hk as Hk'. destruct Hk' as [_ Hk']. specialize (IH Hk').
    rewrite sapp_cons. cbn [sfind is_suffix]. rewrite <- sapp_cons, starts_with_key by done.
    case_bool_decide; [by subst|]. cbn [orb]. destruct (sfind _ _) as [i|]; cbn; [|done].
    destruct IH. split; [done|]. lia.
Qed.

Lemma query_param_alt s key :
  query_param s key =
  match sfind (key +:+ "=") s with
  | Some pos => upto_amp (sdrop (pos + slen (key +:+ "=")) s)
  | None => ""
  end.
Proof.
  unfold query_param. destruct (sfind _ s) as [pos|] eqn:E; [|done]. cbv zeta.
  apply sfind_spec in E as (Hs&Hpos&_). apply starts_with_iff in Hs as [t Ht].
  assert (slen (sdrop pos s) = slen (key +:+ "=") + slen t) as Hlen by (by rewrite Ht, slen_app).
  rewrite slen_sdrop in Hlen.
  unfold sfind_from, upto_amp, substr. rewrite bool_decide_eq_true_2 by lia.
  destruct (sfind "&" _); [|done]. cbn. by rewrite Nat.add_sub'.
Qed.

Lemma upto_amp_value v rest : lacks "&" v = true → (rest = "" ∨ ∃ r, rest = String "&" r) →
  upto_amp (v +:+ rest) = v.
Proof.
  intros Hv [->|[r ->]]; unfold upto_amp.
  - by rewrite sapp_nil_r, sfind_absent.
  - rewrite sfind_char_app by done. apply stake_app.
Qed.

Lemma sdrop_pair key k v rest i : i + slen key = slen k →
  sdrop (i + slen (key +:+ "=")) (pair_text (k, v) +:+ rest) = v +:+ rest.
Proof.
  intros Hi. unfold pair_text. cbn [fst snd]. rewrite slen_app, sapp_assoc. cbn [String.length].
  replace (i + (slen key + 1)) with (slen k + 1) by lia.
  by rewrite <- sdrop_sdrop, sdrop_app.
Qed.

(** On a query string of key=value pairs, [query_param] returns the value of
    the first pair whose key ends in the requested key, and the empty string when
    there is none. *)
Theorem query_param_spec (l : list (string * string)) (key : string)
    (Hl : forallb plain_pair l = true) (Hkey : plain key = true) :
  query_param (query_text l) key = first_suffix key l.
Proof.
  rewrite query_param_alt. apply andb_true_iff in Hkey as [Hk1 Hk2].
  assert (lacks "&" (key +:+ "=") = true) as Hk by (unfold lacks in *; by rewrite sall_app, Hk1).
  assert (key +:+ "=" ≠ "") as Hne by (by destruct key).
  induction l as [|[k v] l IH]; [by destruct key|].
  cbn [forallb first_suffix] in *. apply andb_true_iff in Hl as [Hkv Hl]. specialize (IH Hl).
  unfold plain_pair, plain in Hkv. rewrite !andb_true_iff in Hkv. cbn [fst snd] in Hkv.
  destruct Hkv as [[Hka Hke] [Hva Hve]].
  pose proof (sfind_pair key k v Hk2 Hke Hve) as Hp. change (k +:+ String "=" v) with (pair_text (k, v)) in Hp.
  assert (query_text ((k, v) :: l) = pair_text (k, v) +:+ (if bool_decide (l = []) then "" else String "&" (query_text l)))
    as Ht by (destruct l; [by rewrite sapp_nil_r|done]).
  rewrite Ht. case_bool_decide as Hnil.
  - subst l. rewrite sapp_nil_r. destruct (sfind (key +:+ "=") (pair_text (k, v))) as [i|] eqn:E.
    + destruct Hp as [-> Hi]. rewrite <- (sapp_nil_r (pair_text (k, v))), sdrop_pair by done.
      apply upto_amp_value; auto.
    + by rewrite Hp.
  - rewrite sfind_sep by done. destruct (sfind (key +:+ "=") (pair_text (k, v))) as [i|] eqn:E.
    + destruct Hp as [-> Hi]. rewrite sdrop_pair by done. apply upto_amp_value; eauto.
    + rewrite Hp, <- IH. destruct (sfind _ (query_text l)) as [i|]; cbn [fmap option_fmap option_map]; [|done].
      f_equal. replace (S (slen (pair_text (k, v))) + i + slen (key +:+ "="))
        with (slen (pair_text (k, v)) + (1 + (i + slen (key +:+ "=")))) by lia.
      rewrite <- sdrop_sdrop, sdrop_app. done.
Qed.

(** A parameter whose name ends in another's captures it. *)
Lemma query_param_spec_witness :
  query_param "parent_folder_id=7&folder_id=9" "folder_id" = "7".
Proof.
  exact (query_param_spec [("parent_folder_id", "7"); ("folder_id", "9")] "folder_id" eq_refl eq_refl).
Defined.

End Query.
