(* ===== verification/HttpParser.v ===== *)
(** The HTTP/1.1 request parser, src/http/http_parser.h and http_parser.cpp: a
    byte-driven state machine with pipelining. The callback is a log of the
    requests handed to it. *)
From S2P Require Import Prelude JsonValue HttpMessage.
Import HttpRequest.

Module HttpParser.

Inductive State :=
  | kStart | kMethod | kBeforePath | kPath | kQuery
  | kVersionH | kVersionT1 | kVersionSlash | kVersionMajor | kVersionDot | kVersionMinor
  | kAfterVersion | kHeaderLF | kHeaderFieldStart | kHeaderField | kHeaderBeforeValue
  | kHeaderValue | kHeaderValueLF | kBody | kDone.

Record HttpParser := mk {
  state_ : State;
  cur_req_ : HttpRequest;
  cur_header_field_ : string;
  cur_header_value_ : string;
  body_buf_ : string;
  body_bytes_remaining_ : Z;
  complete_ : bool;
  method_buf_ : string;
  path_buf_ : string;
  query_buf_ : string;
  version_buf_ : string
}.

Definition with_state (s : State) (p : HttpParser) : HttpParser :=
  mk s (cur_req_ p) (cur_header_field_ p) (cur_header_value_ p) (body_buf_ p)
     (body_bytes_remaining_ p) (complete_ p) (method_buf_ p) (path_buf_ p) (query_buf_ p) (version_buf_ p).
Definition with_req (r : HttpRequest) (p : HttpParser) : HttpParser :=
  mk (state_ p) r (cur_header_field_ p) (cur_header_value_ p) (body_buf_ p)
     (body_bytes_remaining_ p) (complete_ p) (method_buf_ p) (path_buf_ p) (query_buf_ p) (version_buf_ p).
Definition with_field (s : string) (p : HttpParser) : HttpParser :=
  mk (state_ p) (cur_req_ p) s (cur_header_value_ p) (body_buf_ p)
     (body_bytes_remaining_ p) (complete_ p) (method_buf_ p) (path_buf_ p) (query_buf_ p) (version_buf_ p).
Definition with_value (s : string) (p : HttpParser) : HttpParser :=
  mk (state_ p) (cur_req_ p) (cur_header_field_ p) s (body_buf_ p)
     (body_bytes_remaining_ p) (complete_ p) (method_buf_ p) (path_buf_ p) (query_buf_ p) (version_buf_ p).
Definition with_body (s : string) (p : HttpParser) : HttpParser :=
  mk (state_ p) (cur_req_ p) (cur_header_field_ p) (cur_header_value_ p) s
     (body_bytes_remaining_ p) (complete_ p) (method_buf_ p) (path_buf_ p) (query_buf_ p) (version_buf_ p).
Definition with_remaining (z : Z) (p : HttpParser) : HttpParser :=
  mk (state_ p) (cur_req_ p) (cur_header_field_ p) (cur_header_value_ p) (body_buf_ p)
     z (complete_ p) (method_buf_ p) (path_buf_ p) (query_buf_ p) (version_buf_ p).
Definition with_complete (b : bool) (p : HttpParser) : HttpParser :=
  mk (state_ p) (cur_req_ p) (cur_header_field_ p) (cur_header_value_ p) (body_buf_ p)
     (body_bytes_remaining_ p) b (method_buf_ p) (path_buf_ p) (query_buf_ p) (version_buf_ p).
Definition with_method (s : string) (p : HttpParser) : HttpParser :=
  mk (state_ p) (cur_req_ p) (cur_header_field_ p) (cur_header_value_ p) (body_buf_ p)
     (body_bytes_remaining_ p) (complete_ p) s (path_buf_ p) (query_buf_ p) (version_buf_ p).
Definition with_path (s : string) (p : HttpParser) : HttpParser :=
  mk (state_ p) (cur_req_ p) (cur_header_field_ p) (cur_header_value_ p) (body_buf_ p)
     (body_bytes_remaining_ p) (complete_ p) (method_buf_ p) s (query_buf_ p) (version_buf_ p).
Definition with_query (s : string) (p : HttpParser) : HttpParser :=
  mk (state_ p) (cur_req_ p) (cur_header_field_ p) (cur_header_value_ p) (body_buf_ p)
     (body_bytes_remaining_ p) (complete_ p) (method_buf_ p) (path_buf_ p) s (version_buf_ p).
Definition with_version (s : string) (p : HttpParser) : HttpParser :=
  mk (state_ p) (cur_req_ p) (cur_header_field_ p) (cur_header_value_ p) (body_buf_ p)
     (body_bytes_remaining_ p) (complete_ p) (method_buf_ p) (path_buf_ p) (query_buf_ p) s.

Definition parse_method (m : string) : HttpMethod :=
  let low := to_lower m in
  if bool_decide (low = "get") then GET
  else if bool_decide (low = "post") then POST
  else if bool_decide (low = "put") then PUT
  else if bool_decide (low = "delete") then DELETE
  else UNKNOWN.

(** The constructor. *)
Definition init : HttpParser := mk kStart HttpRequest.empty "" "" "" 0 false "" "" "" "".

Definition reset_request (p : HttpParser) : HttpParser :=
  with_field "" (with_req HttpRequest.empty p).

Definition reset (p : HttpParser) : HttpParser :=
  reset_request (with_body "" (with_value "" (with_version "" (with_query "" (with_path ""
    (with_method "" (with_remaining 0 (with_complete false (with_state kStart p))))))))).

(** [transition_to_body]; [std::stoull] may throw. *)
Definition transition_to_body : M HttpParser () := λ p,
  let cl := get_header "Content-Length" (cur_req_ p) in
  if negb (sempty cl) then
    match stoull cl with
    | Throw e => (Throw e, p)
    | Ok n =>
        let p := with_remaining n p in
        if bool_decide (0 < n)%Z then (Ok (), with_state kBody (with_body "" p))
        else (Ok (), with_complete true p)
    end
  else (Ok (), with_complete true p).

Definition parse_char (c : ascii) : M HttpParser () := λ p,
  let ret (p' : HttpParser) : result () * HttpParser := (Ok (), p') in
  match state_ p with
  | kStart =>
      if isspace c then ret p
      else ret (with_state kMethod (with_method (String c "") p))
  | kMethod =>
      if bool_decide (c = SP)
      then ret (with_state kBeforePath (with_req (set_method (parse_method (method_buf_ p)) (cur_req_ p)) p))
      else ret (with_method (method_buf_ p +c c) p)
  | kBeforePath =>
      if bool_decide (c = SP) then ret p
      else ret (with_state kPath (with_path (String c "") p))
  | kPath =>
      if bool_decide (c = "?"%char) then ret (with_state kQuery p)
      else if bool_decide (c = SP)
      then ret (with_state kVersionH (with_req (set_path (path_buf_ p) (cur_req_ p)) p))
      else ret (with_path (path_buf_ p +c c) p)
  | kQuery =>
      if bool_decide (c = SP)
      then ret (with_state kVersionH
             (with_req (set_query (query_buf_ p) (set_path (path_buf_ p) (cur_req_ p))) p))
      else ret (with_query (query_buf_ p +c c) p)
  | kVersionH =>
      if bool_decide (c = "H"%char)
      then ret (with_state kVersionT1 (with_version (String c "") p)) else ret p
  | kVersionT1 =>
      if bool_decide (c = "T"%char)
      then ret (with_state kVersionSlash (with_version (version_buf_ p +c c) p)) else ret p
  | kVersionSlash =>
      if bool_decide (c = "/"%char)
      then ret (with_state kVersionMajor (with_version (version_buf_ p +c c) p)) else ret p
  | kVersionMajor =>
      if bool_decide (c = "."%char)
      then ret (with_state kVersionMinor (with_version (version_buf_ p +c c) p))
      else ret (with_version (version_buf_ p +c c) p)
  | kVersionMinor =>
      if bool_decide (c = CR)
      then ret (with_state kAfterVersion (with_version (version_buf_ p +c c) p))
      else if bool_decide (c = LF)
      then ret (with_state kHeaderLF (with_req (set_version "HTTP/1.1" (cur_req_ p)) p))
      else ret (with_version (version_buf_ p +c c) p)
  | kAfterVersion =>
      if bool_decide (c = LF)
      then ret (with_state kHeaderLF (with_req (set_version "HTTP/1.1" (cur_req_ p)) p))
      else ret p
  | kHeaderLF =>
      if bool_decide (c = CR) then ret (with_state kHeaderFieldStart p)
      else if bool_decide (c = LF) then transition_to_body p
      else ret (with_state kHeaderField (with_field (String c "") p))
  | kHeaderFieldStart =>
      if bool_decide (c = LF) then transition_to_body p
      else ret (with_state kHeaderField (with_field (String c "") p))
  | kHeaderField =>
      if bool_decide (c = ":"%char) then ret (with_state kHeaderBeforeValue p)
      else ret (with_field (cur_header_field_ p +c c) p)
  | kHeaderBeforeValue =>
      if bool_decide (c = SP) then ret p
      else ret (with_state kHeaderValue (with_value (String c "") p))
  | kHeaderValue =>
      let added := with_req (add_header (cur_header_field_ p) (cur_header_value_ p) (cur_req_ p)) p in
      if bool_decide (c = CR) then ret (with_state kHeaderValueLF added)
      else if bool_decide (c = LF) then ret (with_state kHeaderLF added)
      else ret (with_value (cur_header_value_ p +c c) p)
  | kHeaderValueLF =>
      if bool_decide (c = LF) then ret (with_state kHeaderLF p) else ret p
  | kBody =>
      let p' := with_body (body_buf_ p +c c) p in
      if bool_decide (body_bytes_remaining_ p' ≤ Z.of_nat (slen (body_buf_ p')))%Z
      then ret (with_complete true (with_req (append_body (body_buf_ p') (cur_req_ p')) p'))
      else ret p'
  | kVersionDot | kDone => ret p
  end.

(** One turn of the loop of [feed]: the requests handed to the callback, and
    how the turn ended. *)
Definition feed_char (p : HttpParser) (c : ascii) : result () * HttpParser * list HttpRequest :=
  match parse_char c p with
  | (Throw e, p') => (Throw e, p', [])
  | (Ok _, p') => if complete_ p' then (Ok (), reset p', [cur_req_ p']) else (Ok (), p', [])
  end.

(** [feed]: every byte is consumed, or an exception leaves the loop. *)
Fixpoint feed (p : HttpParser) (data : string) : result () * HttpParser * list HttpRequest :=
  match data with
  | "" => (Ok (), p, [])
  | String c data' =>
      match feed_char p c with
      | (Throw e, p1, out) => (Throw e, p1, out)
      | (Ok _, p1, out) =>
          let '(r, p2, out') := feed p1 data' in (r, p2, out ++ out')
      end
  end.

(** Successive reads from one connection. *)
Fixpoint feed_all (p : HttpParser) (segs : list string) : result () * HttpParser * list HttpRequest :=
  match segs with
  | [] => (Ok (), p, [])
  | s :: segs' =>
      match feed p s with
      | (Throw e, p1, out) => (Throw e, p1, out)
      | (Ok _, p1, out) =>
          let '(r, p2, out') := feed_all p1 segs' in (r, p2, out ++ out')
      end
  end.

(** ** Reference: the wire form of a request *)

Record wire := Wire {
  w_method : string;
  w_path : string;
  w_query : option string;
  w_major : string;
  w_minor : string;
  w_headers : list (string * string);
  w_body : string
}.

Definition header_text (kv : string * string) : string :=
  fst kv +:+ ": " +:+ snd kv +:+ HttpResponse.CRLF.

Definition head_text (w : wire) : string :=
  w_method w +:+ " " +:+ w_path w +:+
  (match w_query w with Some q => "?" +:+ q | None => "" end) +:+
  " HTTP/" +:+ w_major w +:+ "." +:+ w_minor w +:+ HttpResponse.CRLF.

Definition render (w : wire) : string :=
  head_text w +:+ sconcat (map header_text (w_headers w)) +:+ HttpResponse.CRLF +:+ w_body w.

Definition no (c : ascii) (s : string) : bool := sall (λ d, negb (bool_decide (d = c))) s.
Definition first_not (f : ascii → bool) (s : string) : bool :=
  match s with "" => false | String c _ => negb (f c) end.

Definition header_ok (kv : string * string) : bool :=
  first_not (λ c, bool_decide (c = CR) || bool_decide (c = LF)) (fst kv) && no ":"%char (fst kv) &&
  first_not (λ c, bool_decide (c = SP)) (snd kv) && no CR (snd kv) && no LF (snd kv).

Definition headers_map (l : list (string * string)) (m : gmap string string) : gmap string string :=
  foldl (λ m kv, <[fst kv := snd kv]> m) m l.

(** The body announced by Content-Length is the body sent. *)
Definition body_ok (w : wire) : bool :=
  let cl := default "" (headers_map (w_headers w) ∅ !! "Content-Length") in
  if sempty cl then sempty (w_body w)
  else match stoull cl with Ok n => bool_decide (n = Z.of_nat (slen (w_body w))) | Throw _ => false end.

(** Everything but the body. *)
Definition line_ok (w : wire) : bool :=
  first_not isspace (w_method w) && no SP (w_method w) &&
  first_not (λ c, bool_decide (c = SP) || bool_decide (c = "?"%char)) (w_path w) &&
  no SP (w_path w) && no "?"%char (w_path w) &&
  (match w_query w with Some q => no SP q | None => true end) &&
  no "."%char (w_major w) && no CR (w_minor w) && no LF (w_minor w) &&
  forallb header_ok (w_headers w).

Definition wire_ok (w : wire) : bool := line_ok w && body_ok w.

(** What the callback must be given for it. *)
Definition expected (w : wire) : HttpRequest :=
  HttpRequest.mk (parse_method (w_method w)) (w_path w) (default "" (w_query w)) "HTTP/1.1"
    (headers_map (w_headers w) ∅) ∅ (w_body w) 0 "" "".

(** Sample requests. *)
Definition sample1 : wire :=
  Wire "POST" "/api/x" (Some "a=1") "1" "1" [("Host", "h"); ("Content-Length", "3")] "abc".
Definition sample2 : wire := Wire "get" "/y" None "1" "0" [] "".
Definition sample3 : wire := Wire "GET" "/z" None "1" "1" [("Content-Length", "ten")] "".

(** ** Feeding: sequencing lemmas *)

Lemma feed_app p a b :
  feed p (a +:+ b) =
  match feed p a with
  | (Throw e, p1, out) => (Throw e, p1, out)
  | (Ok _, p1, out) => let '(r, p2, out') := feed p1 b in (r, p2, out ++ out')
  end.
Proof.
  revert p; induction a as [|c a IH]; intros p; [rewrite sapp_nil_l; cbn; by destruct (feed p b) as [[??]?]|].
  rewrite sapp_cons; cbn [feed]. destruct (feed_char p c) as [[[u|e] p1] o1]; [|done].
  rewrite IH. destruct (feed p1 a) as [[[u'|e] p2] o2]; [|done].
  destruct (feed p2 b) as [[r p3] o3]. by rewrite (assoc_L (++)).
Qed.

Lemma feed_all_concat p segs : feed_all p segs = feed p (sconcat segs).
Proof.
  revert p; induction segs as [|s segs IH]; intros p; [done|].
  cbn [sconcat foldr feed_all]. rewrite feed_app. destruct (feed p s) as [[[u|e] p1] o1]; [|done].
  by rewrite IH.
Qed.

(** A byte that does not complete a request. *)
Lemma feed_step p p' c rest :
  parse_char c p = (Ok (), p') → complete_ p' = false → feed p (String c rest) = feed p' rest.
Proof.
  intros H Hc. cbn [feed]. unfold feed_char. rewrite H, Hc.
  by destruct (feed p' rest) as [[??]?].
Qed.

(** A byte that completes one. *)
Lemma feed_last p p' c rest :
  parse_char c p = (Ok (), p') → complete_ p' = true →
  feed p (String c rest) = let '(r, p2, out) := feed (reset p') rest in (r, p2, cur_req_ p' :: out).
Proof. intros H Hc. cbn [feed]. unfold feed_char. by rewrite H, Hc. Qed.

(** States that accumulate characters into one buffer. *)
Lemma feed_accum (st : State) (get : HttpParser → string) (put : string → HttpParser → HttpParser)
    (ok : ascii → bool) :
  (∀ p c, state_ p = st → ok c = true → parse_char c p = (Ok (), put (get p +c c) p)) →
  (∀ s p, get (put s p) = s) → (∀ s t p, put s (put t p) = put s p) →
  (∀ p, put (get p) p = p) →
  (∀ s p, state_ (put s p) = state_ p) → (∀ s p, complete_ (put s p) = complete_ p) →
  ∀ w p rest, state_ p = st → complete_ p = false → sall ok w = true →
  feed p (w +:+ rest) = feed (put (get p +:+ w) p) rest.
Proof.
  intros Hstep Hgp Hpp Hpg Hst Hco. induction w as [|c w IH]; intros p rest Hs Hc; cbn [sall].
  - intros _. by rewrite sapp_nil_l, sapp_nil_r, Hpg.
  - rewrite andb_true_iff. intros [Hok Hall]. rewrite sapp_cons.
    rewrite (feed_step _ (put (get p +c c) p)); [|by apply Hstep|by rewrite Hco].
    rewrite IH; [|by rewrite Hst|by rewrite Hco|done].
    by rewrite Hpp, Hgp, push_back_app.
Qed.

(** Decide the character tests of one step. *)
Ltac char_tests :=
  repeat match goal with
  | H : negb _ = true |- _ => apply negb_true_iff in H
  | H : _ && _ = true |- _ => apply andb_true_iff in H as [? ?]
  | H : _ || _ = false |- _ => apply orb_false_iff in H as [? ?]
  | H : bool_decide _ = false |- context [bool_decide _] => rewrite H
  | H : isspace _ = false |- context [isspace _] => rewrite H
  end.

Lemma feed_method w p rest : state_ p = kMethod → complete_ p = false → no SP w = true →
  feed p (w +:+ rest) = feed (with_method (method_buf_ p +:+ w) p) rest.
Proof.
  apply (feed_accum kMethod method_buf_ with_method); try done; try (by intros []).
  intros p' c Hs Hc. unfold parse_char. rewrite Hs. by char_tests.
Qed.

Lemma feed_path w p rest : state_ p = kPath → complete_ p = false →
  no SP w = true → no "?"%char w = true →
  feed p (w +:+ rest) = feed (with_path (path_buf_ p +:+ w) p) rest.
Proof.
  intros Hs Hc H1 H2.
  apply (feed_accum kPath path_buf_ with_path
    (λ c, negb (bool_decide (c = SP)) && negb (bool_decide (c = "?"%char)))); try done; try (by intros []).
  - intros p' c Hs' Hok. unfold parse_char. rewrite Hs'. by char_tests.
  - by apply sall_and.
Qed.

Lemma feed_query w p rest : state_ p = kQuery → complete_ p = false → no SP w = true →
  feed p (w +:+ rest) = feed (with_query (query_buf_ p +:+ w) p) rest.
Proof.
  apply (feed_accum kQuery query_buf_ with_query); try done; try (by intros []).
  intros p' c Hs Hc. unfold parse_char. rewrite Hs. by char_tests.
Qed.

Lemma feed_major w p rest : state_ p = kVersionMajor → complete_ p = false → no "."%char w = true →
  feed p (w +:+ rest) = feed (with_version (version_buf_ p +:+ w) p) rest.
Proof.
  apply (feed_accum kVersionMajor version_buf_ with_version); try done; try (by intros []).
  intros p' c Hs Hc. unfold parse_char. rewrite Hs. by char_tests.
Qed.

Lemma feed_minor w p rest : state_ p = kVersionMinor → complete_ p = false →
  no CR w = true → no LF w = true →
  feed p (w +:+ rest) = feed (with_version (version_buf_ p +:+ w) p) rest.
Proof.
  intros Hs Hc H1 H2.
  apply (feed_accum kVersionMinor version_buf_ with_version
    (λ c, negb (bool_decide (c = CR)) && negb (bool_decide (c = LF)))); try done; try (by intros []).
  - intros p' c Hs' Hok. unfold parse_char. rewrite Hs'. by char_tests.
  - by apply sall_and.
Qed.

Lemma feed_field w p rest : state_ p = kHeaderField → complete_ p = false → no ":"%char w = true →
  feed p (w +:+ rest) = feed (with_field (cur_header_field_ p +:+ w) p) rest.
Proof.
  apply (feed_accum kHeaderField cur_header_field_ with_field); try done; try (by intros []).
  intros p' c Hs Hc. unfold parse_char. rewrite Hs. by char_tests.
Qed.

Lemma feed_value w p rest : state_ p = kHeaderValue → complete_ p = false →
  no CR w = true → no LF w = true →
  feed p (w +:+ rest) = feed (with_value (cur_header_value_ p +:+ w) p) rest.
Proof.
  intros Hs Hc H1 H2.
  apply (feed_accum kHeaderValue cur_header_value_ with_value
    (λ c, negb (bool_decide (c = CR)) && negb (bool_decide (c = LF)))); try done; try (by intros []).
  - intros p' c Hs' Hok. unfold parse_char. rewrite Hs'. by char_tests.
  - by apply sall_and.
Qed.

Lemma feed_one p p' c rest :
  parse_char c p = (Ok (), p') → complete_ p' = false → feed p (String c "" +:+ rest) = feed p' rest.
Proof. apply feed_step. Qed.

Lemma feed_cons p p' c s rest :
  parse_char c p = (Ok (), p') → complete_ p' = false →
  feed p (String c s +:+ rest) = feed p' (s +:+ rest).
Proof. apply feed_step. Qed.

(** One byte whose tests are decided by the hypotheses in context. *)
Ltac feed1 :=
  first [erewrite feed_one | erewrite feed_cons | erewrite feed_step];
    [|unfold parse_char; cbn [state_]; char_tests; cbn; reflexivity|reflexivity].

(** The request line leads to the header section. *)
Lemma feed_head w rest : line_ok w = true →
  ∃ vb, feed init (head_text w +:+ rest) =
    feed (mk kHeaderLF
      (HttpRequest.mk (parse_method (w_method w)) (w_path w) (default "" (w_query w)) "HTTP/1.1" ∅ ∅ "" 0 "" "")
      "" "" "" 0 false (w_method w) (w_path w) (default "" (w_query w)) vb) rest.
Proof.
  intros Hok. unfold line_ok in Hok. repeat apply andb_true_iff in Hok as [Hok ?].
  unfold head_text. destruct w as [m pa q ma mi hs b];
    cbn [w_method w_path w_query w_major w_minor w_headers w_body] in *.
  destruct m as [|cm m]; [done|]. destruct pa as [|cp pa]; [done|].
  cbn [no sall first_not] in *. char_tests.
  rewrite !sapp_assoc. feed1. rewrite feed_method by done. feed1. feed1.
  rewrite feed_path by done.
  assert (Hv : ∀ p, state_ p = kVersionH → complete_ p = false → ∃ vb,
    feed p ("HTTP/" +:+ ma +:+ "." +:+ mi +:+ HttpResponse.CRLF +:+ rest) =
    feed (with_state kHeaderLF (with_req (set_version "HTTP/1.1" (cur_req_ p)) (with_version vb p))) rest).
  { intros [] Hs Hc. cbn in Hs, Hc. subst. eexists. do 5 feed1.
    rewrite feed_major by done.
    feed1. rewrite feed_minor by done. unfold HttpResponse.CRLF. do 2 feed1. reflexivity. }
  change (" HTTP/" +:+ ?x) with (" " +:+ "HTTP/" +:+ x).
  destruct q as [q|]; cbv iota.
  - rewrite sapp_assoc. feed1. rewrite feed_query by done. feed1.
    edestruct Hv as [vb ->]; [done..|]. by exists vb.
  - rewrite sapp_nil_l. feed1. edestruct Hv as [vb ->]; [done..|]. by exists vb.
Qed.

(** One header line, from the state after a line feed. *)
Lemma feed_header kv rq cf cv mb pb qb vb rest : header_ok kv = true →
  feed (mk kHeaderLF rq cf cv "" 0 false mb pb qb vb) (header_text kv +:+ rest) =
  feed (mk kHeaderLF (add_header (fst kv) (snd kv) rq) (fst kv) (snd kv) "" 0 false mb pb qb vb) rest.
Proof.
  destruct kv as [k v]. unfold header_ok, header_text, HttpResponse.CRLF. cbn [fst snd].
  destruct k as [|ck k]; [done|]. destruct v as [|d v]; [by rewrite andb_false_r|].
  cbn [no sall first_not]. intros Hok. char_tests. rewrite !sapp_assoc.
  feed1. rewrite feed_field by done. do 3 feed1. rewrite feed_value by done. do 2 feed1. reflexivity.
Qed.

Lemma feed_headers l rq cf cv mb pb qb vb rest : forallb header_ok l = true →
  ∃ cf' cv', feed (mk kHeaderLF rq cf cv "" 0 false mb pb qb vb) (sconcat (map header_text l) +:+ rest) =
  feed (mk kHeaderLF (foldl (λ r kv, add_header (fst kv) (snd kv) r) rq l)
    cf' cv' "" 0 false mb pb qb vb) rest.
Proof.
  revert rq cf cv. induction l as [|kv l IH]; intros rq cf cv.
  - intros _. by exists cf, cv.
  - cbn [forallb map sconcat foldr foldl]. intros [H1 H2]%andb_true_iff.
    rewrite sapp_assoc, feed_header by done. by apply IH.
Qed.

Lemma add_headers m pa q v l hm : 
  foldl (λ r kv, add_header (fst kv) (snd kv) r) (HttpRequest.mk m pa q v hm ∅ "" 0 "" "") l =
  HttpRequest.mk m pa q v (headers_map l hm) ∅ "" 0 "" "".
Proof. revert hm. induction l as [|kv l IH]; intros hm; [done|]. apply IH. Qed.

Lemma reset_init p : reset p = init.
Proof. by destruct p. Qed.
#[export] Hint Rewrite reset_init : solar_rw.

(** The bytes of a body, all but the last of which leave it incomplete. *)
Lemma feed_body s p rest : state_ p = kBody → complete_ p = false → s ≠ "" →
  (body_bytes_remaining_ p = Z.of_nat (slen (body_buf_ p) + slen s)) →
  feed p (s +:+ rest) =
  let '(r, p2, out) := feed init rest in
  (r, p2, append_body (body_buf_ p +:+ s) (cur_req_ p) :: out).
Proof.
  revert p. induction s as [|c s IH]; [done|]. intros p Hs Hc _ Hn. cbn [slen] in Hn.
  rewrite sapp_cons. destruct s as [|c' s].
  - rewrite (feed_last _ (with_complete true (with_req (append_body (body_buf_ p +c c) (cur_req_ p))
      (with_body (body_buf_ p +c c) p)))); [by rewrite reset_init| |done].
    unfold parse_char. rewrite Hs. cbn zeta. cbn [body_bytes_remaining_ body_buf_ with_body].
    rewrite bool_decide_eq_true_2; [reflexivity|]. rewrite slen_app. simpl. simpl in Hn. lia.
  - rewrite (feed_step _ (with_body (body_buf_ p +c c) p)); [|unfold parse_char; rewrite Hs|done].
    + rewrite IH; [|done..|].
      * cbn [body_buf_ with_body cur_req_]. by rewrite push_back_app.
      * cbn [body_buf_ with_body body_bytes_remaining_]. rewrite slen_app. simpl in *. lia.
    + cbn zeta. cbn [body_bytes_remaining_ body_buf_ with_body].
      rewrite bool_decide_eq_false_2; [reflexivity|]. rewrite slen_app. simpl in *. lia.
Qed.

(** The end of the headers, and the body they announce. *)
Lemma feed_end w cf cv mb pb qb vb rest m pa q v : body_ok w = true →
  feed (mk kHeaderLF (HttpRequest.mk m pa q v (headers_map (w_headers w) ∅) ∅ "" 0 "" "")
    cf cv "" 0 false mb pb qb vb) (HttpResponse.CRLF +:+ w_body w +:+ rest) =
  let '(r, p2, out) := feed init rest in
  (r, p2, HttpRequest.mk m pa q v (headers_map (w_headers w) ∅) ∅ (w_body w) 0 "" "" :: out).
Proof.
  unfold body_ok, HttpResponse.CRLF. intros Hb. feed1.
  set (p := with_state _ _).
  assert (Hp : parse_char LF p = transition_to_body p) by done.
  unfold transition_to_body in Hp. cbv zeta in Hp.
  change (get_header "Content-Length" (cur_req_ p))
    with (default "" (headers_map (w_headers w) ∅ !! "Content-Length")) in Hp.
  assert (∀ x, feed p (String LF "" +:+ x) = feed p (String LF x)) as -> by done.
  destruct (sempty _); cbn [negb] in Hp.
  - unfold sempty in Hb. apply bool_decide_eq_true in Hb. rewrite Hb, sapp_nil_l.
    by rewrite (feed_last _ _ _ _ Hp), reset_init.
  - destruct (stoull _) as [n|]; [|done]. apply bool_decide_eq_true in Hb. subst n.
    destruct (w_body w) as [|c b] eqn:Ew.
    + by rewrite sapp_nil_l, (feed_last _ _ _ _ Hp), reset_init.
    + rewrite bool_decide_eq_true_2 in Hp by (simpl; lia).
      rewrite (feed_step _ _ _ _ Hp), feed_body by done. reflexivity.
Qed.

(** Up to the end of the headers. *)
Lemma feed_to_headers w rest : line_ok w = true →
  ∃ cf cv vb, feed init (render w +:+ rest) =
  feed (mk kHeaderLF (HttpRequest.mk (parse_method (w_method w)) (w_path w) (default "" (w_query w))
      "HTTP/1.1" (headers_map (w_headers w) ∅) ∅ "" 0 "" "")
    cf cv "" 0 false (w_method w) (w_path w) (default "" (w_query w)) vb)
    (HttpResponse.CRLF +:+ w_body w +:+ rest).
Proof.
  intros Hok. unfold render. rewrite !sapp_assoc.
  edestruct (feed_head w) as [vb ->]; [done|].
  unfold line_ok in Hok. repeat apply andb_true_iff in Hok as [Hok ?].
  edestruct feed_headers as (cf & cv & ->); [done|]. rewrite add_headers. by exists cf, cv, vb.
Qed.

Lemma feed_render w rest : wire_ok w = true →
  feed init (render w +:+ rest) =
  let '(r, p2, out) := feed init rest in (r, p2, expected w :: out).
Proof.
  intros [Hl Hb]%andb_true_iff. destruct (feed_to_headers w rest Hl) as (cf & cv & vb & ->).
  by apply feed_end.
Qed.

Lemma feed_renders ws rest : forallb wire_ok ws = true →
  feed init (sconcat (map render ws) +:+ rest) =
  let '(r, p2, out) := feed init rest in (r, p2, map expected ws ++ out).
Proof.
  induction ws as [|w ws IH].
  { intros _. change (sconcat (map render []) +:+ rest) with rest. by destruct (feed init rest) as [[??]?]. }
  cbn [forallb]. intros [H1 H2]%andb_true_iff.
  cbn [map sconcat foldr]. rewrite sapp_assoc, feed_render by done. fold (sconcat (map render ws)).
  rewrite IH by done. by destruct (feed init rest) as [[??]?].
Qed.

(** ** The invariant of the machine, on arbitrary input *)

(** The body of a request is the one its Content-Length announces, its version
    is always the literal "HTTP/1.1", and nothing is set that only the router or
    the authentication sets. *)
Definition emitted_ok (r : HttpRequest) : Prop :=
  version_ r = "HTTP/1.1" ∧ path_params_ r = ∅ ∧ auth_user_id_ r = "" ∧
  (let cl := get_header "Content-Length" r in
   if sempty cl then body_ r = "" else stoull cl = Ok (Z.of_nat (slen (body_ r)))).

Definition in_headers (s : State) : bool :=
  match s with
  | kHeaderLF | kHeaderFieldStart | kHeaderField | kHeaderBeforeValue | kHeaderValue
  | kHeaderValueLF | kBody => true
  | _ => false
  end.

Definition parser_inv (p : HttpParser) : Prop :=
  path_params_ (cur_req_ p) = ∅ ∧ auth_user_id_ (cur_req_ p) = "" ∧ body_ (cur_req_ p) = "" ∧
  (in_headers (state_ p) = true → version_ (cur_req_ p) = "HTTP/1.1") ∧
  (state_ p = kBody → sempty (get_header "Content-Length" (cur_req_ p)) = false ∧
     stoull (get_header "Content-Length" (cur_req_ p)) = Ok (body_bytes_remaining_ p) ∧
     (Z.of_nat (slen (body_buf_ p)) < body_bytes_remaining_ p)%Z).

Lemma init_inv : parser_inv init.
Proof. by split_and!. Qed.

Lemma stoull_nonneg s n : stoull s = Ok n → (0 ≤ n)%Z.
Proof.
  unfold stoull. destruct (scan_int s) as [[neg v]|] eqn:E; [|done]. case_match; [done|].
  intros [= <-]. destruct neg; [apply Z.mod_pos_bound; done|].
  assert (Hd : ∀ t acc, (0 ≤ acc)%Z → (0 ≤ digits_val acc t)%Z).
  { induction t as [|c t IH]; [done|]. intros acc Ha. cbn [digits_val]. case_match; [|done].
    apply IH. unfold isdigit, digit_val in *. case_bool_decide; [|done]. lia. }
  unfold scan_int in E. repeat case_match; simplify_eq; by apply Hd.
Qed.

Lemma transition_inv p : parser_inv p → complete_ p = false → version_ (cur_req_ p) = "HTTP/1.1" →
  match transition_to_body p with
  | (Ok _, p') => if complete_ p' then emitted_ok (cur_req_ p') else parser_inv p'
  | (Throw _, _) => True
  end.
Proof.
  intros (H1&H2&H3&H4&_) Hc Hv. unfold transition_to_body.
  destruct (sempty _) eqn:El; cbn [negb].
  - change (emitted_ok (cur_req_ p)). split_and!; [done..|]. cbv zeta. by rewrite El.
  - destruct (stoull _) as [n|] eqn:En; [|done]. case_bool_decide as Hn.
    + destruct p; cbn in *; subst. by split_and!.
    + change (emitted_ok (cur_req_ p)). split_and!; [done..|]. cbv zeta. rewrite El, En, H3.
      apply stoull_nonneg in En. f_equal. simpl. lia.
Qed.

Lemma parse_char_inv c p : parser_inv p → complete_ p = false →
  match parse_char c p with
  | (Ok _, p') => if complete_ p' then emitted_ok (cur_req_ p') else parser_inv p'
  | (Throw _, _) => True
  end.
Proof.
  intros Hinv Hc. pose proof Hinv as (H1&H2&H3&H4&H5). unfold parse_char.
  destruct (state_ p) eqn:Es; cbn [in_headers] in *;
    repeat case_bool_decide; try match goal with |- context [isspace c] => destruct (isspace c) end;
    try (by apply transition_inv; auto);
    try (cbn; rewrite ?Hc; split_and!; cbn; rewrite ?Es; try done; auto; fail).
  - destruct H5 as (E1&E2&E3); [done|]. cbn in *. split_and!; [by auto|done..|].
    change (get_header "Content-Length" (append_body _ (cur_req_ p)))
      with (get_header "Content-Length" (cur_req_ p)). cbv zeta. rewrite E1, E2. f_equal.
    unfold append_body. cbn [body_]. rewrite H3, sapp_nil_l, slen_app in *. simpl in *. lia.
  - destruct H5 as (E1&E2&E3); [done|]. cbn. rewrite Hc. split_and!; cbn; auto.
    intros _. split_and!; auto. cbn [body_bytes_remaining_ body_buf_ with_body] in *. lia.
Qed.

Lemma feed_inv p data : parser_inv p → complete_ p = false →
  match feed p data with
  | (r, p', out) => Forall emitted_ok out ∧ (r = Ok () → parser_inv p' ∧ complete_ p' = false)
  end.
Proof.
  revert p. induction data as [|c data IH]; intros p Hi Hc; [by cbn|].
  cbn [feed]. unfold feed_char. pose proof (parse_char_inv c p Hi Hc) as H.
  destruct (parse_char c p) as [[[]|e] p1]; [|by split].
  destruct (complete_ p1) eqn:E1.
  - rewrite reset_init. specialize (IH init init_inv eq_refl).
    destruct (feed init data) as [[r p2] out]. destruct IH as [IH1 IH2]. split; [by constructor|done].
  - specialize (IH p1 H E1). by destruct (feed p1 data) as [[r p2] out].
Qed.

(** ** Properties *)

(** C22. A connection that carries well-formed requests back to back
    (pipelining), cut by the network into arbitrary segments, hands exactly those
    requests, in order and with the bodies Content-Length announces, to the
    callback, and leaves the parser ready for the next one. *)
Theorem parse_pipelined (ws : list wire) (segs : list string)
    (Hok : forallb wire_ok ws = true)
    (Hsegs : sconcat segs = sconcat (map render ws)) :
  feed_all init segs = (Ok (), init, map expected ws).
Proof.
  rewrite feed_all_concat, Hsegs. rewrite <- (sapp_nil_r (sconcat _)), feed_renders by done.
  cbn. by rewrite app_nil_r.
Qed.

Lemma parse_pipelined_witness :
  feed_all init [stake 40 (render sample1); sdrop 40 (render sample1) +:+ render sample2] =
  (Ok (), init, map expected [sample1; sample2]).
Proof. apply parse_pipelined; vm_compute; reflexivity. Defined.

(** C34. Whatever bytes a client sends, in whatever segments, every request that
    reaches the router has exactly the body its Content-Length header announces
    (none without the header), no path parameter and no authenticated user yet;
    its version is the literal "HTTP/1.1", so a connection is kept alive unless
    its Connection header says close, HTTP/1.0 requests included. *)
Theorem feed_emits_framed `{HashOrder} (segs : list string) :
  let '(r, p, out) := feed_all init segs in
  ∀ q, q ∈ out → emitted_ok q ∧
    wants_keep_alive q = negb (header_contains_token (get_header_ic "Connection" q) "close").
Proof.
  rewrite feed_all_concat. pose proof (feed_inv init (sconcat segs) init_inv eq_refl) as Hf.
  destruct (feed init _) as [[r p] out]. destruct Hf as [Hf _]. intros q Hq.
  rewrite Forall_forall in Hf. pose proof (Hf q Hq) as Hok. split; [done|].
  unfold wants_keep_alive. destruct Hok as [-> _].
  by repeat (destruct (header_contains_token _ _); try done).
Qed.

(** A Content-Length that is not a number below 2^64 raises the exception of
    [std::stoull] out of [feed]: the requests before it are delivered, the one
    that carries it is not, and no handler of the parser catches it. *)
Theorem bad_content_length_throws (ws : list wire) (w : wire) (e : exn) (rest : string)
    (Hws : forallb wire_ok ws = true) (Hw : line_ok w = true)
    (Hne : default "" (headers_map (w_headers w) ∅ !! "Content-Length") ≠ "")
    (Hbad : stoull (default "" (headers_map (w_headers w) ∅ !! "Content-Length")) = Throw e) :
  ∃ p, feed init (sconcat (map render ws) +:+ (render w +:+ rest)) = (Throw e, p, map expected ws).
Proof.
  rewrite feed_renders by done. destruct (feed_to_headers w rest Hw) as (cf & cv & vb & ->).
  unfold HttpResponse.CRLF. feed1. set (p := with_state _ _). exists p.
  assert (Hp : parse_char LF p = (Throw e, p)).
  { change (transition_to_body p = (Throw e, p)). unfold transition_to_body. cbv zeta.
    change (get_header "Content-Length" (cur_req_ p))
      with (default "" (headers_map (w_headers w) ∅ !! "Content-Length")).
    unfold sempty. rewrite bool_decide_eq_false_2 by done. cbn [negb]. by rewrite Hbad. }
  rewrite sapp_cons. cbn [feed]. unfold feed_char. rewrite Hp. by rewrite app_nil_r.
Qed.

Lemma bad_content_length_throws_witness :
  ∃ p, feed init (sconcat (map render [sample2]) +:+ (render sample3 +:+ "")) =
    (Throw (Exn EInvalidArgument "stoull"), p, map expected [sample2]).
Proof. apply bad_content_length_throws; [vm_compute; reflexivity..|discriminate|vm_compute; reflexivity]. Defined.

End HttpParser.
