(* ===== verification/HttpRouter.v ===== *)
(** Request dispatch: [HttpRouter] (src/http/http_router.h, http_router.cpp),
    the static file handler (static_handler.h, static_handler.cpp), the table of
    routes (src/api/route_registry.cpp) and the list of public paths
    ([AuthMiddleware::is_whitelisted], src/auth/auth_middleware.cpp).
    [std::regex] is modelled on the expressions [pattern_to_regex] writes:
    ordinary and escaped characters and the group [([^/]+)], matched greedily
    with backtracking as ECMAScript does. *)
From S2P Require Import Prelude JsonValue HttpMessage.
Import HttpRequest.

Module HttpRouter.

(** ** Patterns *)

Definition special : string := ".+*?^$|()\[]{}".
Definition group : string := "([^/]+)".

(** [strchr(".+*?^$|()\\[]{}", c)]: the terminating NUL is found too. *)
Definition is_special (c : ascii) : bool := shas c special || bool_decide (c = NUL).

(** The loop of [pattern_to_regex]: the expression and the parameter names. The
    fuel bounds the number of turns; each consumes at least one character. *)
Fixpoint to_regex (fuel : nat) (pattern : string) : string * list string :=
  match fuel, pattern with
  | S fuel', String c rest =>
      if bool_decide (c = "{"%char) then
        match sfind "}" pattern with
        | None => let '(r, ns) := to_regex fuel' rest in (String c r, ns)
        | Some e =>
            let '(r, ns) := to_regex fuel' (sdrop (S e) pattern) in
            (group +:+ r, substr pattern 1 (e - 1) :: ns)
        end
      else
        let '(r, ns) := to_regex fuel' rest in
        ((if is_special c then String "\" (String c r) else String c r), ns)
  | _, _ => ("", [])
  end.
Definition pattern_to_regex (pattern : string) : string * list string :=
  to_regex (slen pattern) pattern.

(** ** The regular expressions *)

Inductive atom := RChar (c : ascii) | RSeg.

(** The constructor of [std::regex] on this subset; [None] is a [regex_error]. *)
Fixpoint compile (fuel : nat) (re : string) : option (list atom) :=
  match fuel, re with
  | _, "" => Some []
  | S fuel', String c rest =>
      if starts_with group re then cons RSeg <$> compile fuel' (sdrop (slen group) re)
      else if bool_decide (c = "\"%char) then
        match rest with
        | String d rest' => if shas d special then cons (RChar d) <$> compile fuel' rest' else None
        | "" => None
        end
      else if is_special c then None
      else cons (RChar c) <$> compile fuel' rest
  | 0, _ => None
  end.

(** Matching of the whole string, with the captured groups. *)
Fixpoint regex_match (re : list atom) (s : string) : option (list string) :=
  match re with
  | [] => match s with "" => Some [] | _ => None end
  | RChar c :: re' =>
      match s with
      | String d s' => if bool_decide (c = d) then regex_match re' s' else None
      | "" => None
      end
  | RSeg :: re' =>
      (fix more (acc s : string) : option (list string) :=
         match s with
         | String d s' =>
             if bool_decide (d = "/"%char) then None
             else match more (acc +c d) s' with
                  | Some l => Some l
                  | None => cons (acc +c d) <$> regex_match re' s'
                  end
         | "" => None
         end) "" s
  end.

(** ** Routes *)

Record Route (H : Type) := mk_route {
  method : HttpMethod;
  regex : list atom;
  param_names : list string;
  handler : H
}.
Arguments mk_route {H}.
Arguments method {H}.
Arguments regex {H}.
Arguments param_names {H}.
Arguments handler {H}.

(** [add_route]; [std::regex_error] derives from [std::runtime_error]. *)
Definition add_route {H} (m : HttpMethod) (pattern : string) (h : H) (routes_ : list (Route H)) :
    result (list (Route H)) :=
  let '(re, names) := pattern_to_regex pattern in
  match compile (slen re) re with
  | Some r => Ok (routes_ ++ [mk_route m r names h])
  | None => Throw (Exn ERuntime "regex_error")
  end.

Definition get {H} : string → H → list (Route H) → result (list (Route H)) := add_route GET.
Definition post {H} : string → H → list (Route H) → result (list (Route H)) := add_route POST.
Definition put {H} : string → H → list (Route H) → result (list (Route H)) := add_route PUT.
Definition del {H} : string → H → list (Route H) → result (list (Route H)) := add_route DELETE.

(** Successive registrations. *)
Fixpoint add_all {H} (t : list (HttpMethod * string * H)) (rs : list (Route H)) : result (list (Route H)) :=
  match t with
  | [] => Ok rs
  | (m, p, h) :: t' => match add_route m p h rs with Ok rs' => add_all t' rs' | Throw x => Throw x end
  end.

(** The loop that fills the path parameters: it stops at the shorter list. *)
Fixpoint set_params (names args : list string) (r : HttpRequest) : HttpRequest :=
  match names, args with
  | n :: names', a :: args' => set_params names' args' (set_path_param n a r)
  | _, _ => r
  end.

(** The scan of [dispatch]: the handler and the request it is given. *)
Fixpoint find_route {H} (routes_ : list (Route H)) (req : HttpRequest) : option (H * HttpRequest) :=
  match routes_ with
  | [] => None
  | r :: rest =>
      if bool_decide (method r = method_ req) then
        match regex_match (regex r) (c_str (path_ req)) with
        | Some args => Some (handler r, set_params (param_names r) args (clear_path_params req))
        | None => find_route rest req
        end
      else find_route rest req
  end.

(** Handlers act on the server's state and on the response. *)
Definition Handler (W : Type) : Type := HttpRequest → M (W * HttpResponse.HttpResponse) ().

Definition on_resp {W A} (m : M HttpResponse.HttpResponse A) : M (W * HttpResponse.HttpResponse) A :=
  λ '(w, resp), let '(r, resp') := m resp in (r, (w, resp')).

Definition dispatch `{JsonText} {W} (routes_ : list (Route (Handler W))) (req : HttpRequest) :
    M (W * HttpResponse.HttpResponse) () :=
  match find_route routes_ req with
  | Some (h, req') => h req'
  | None => on_resp (HttpResponse.set_error 404 "Not Found")
  end.

(** ** Reference: routing on path segments *)

(** Splitting a path at its slashes. *)
Fixpoint split_slash (cur s : string) : list string :=
  match s with
  | "" => [cur]
  | String c s' => if bool_decide (c = "/"%char) then cur :: split_slash "" s' else split_slash (cur +c c) s'
  end.
Definition segments (s : string) : list string := split_slash "" s.

Definition no_char (c : ascii) (s : string) : bool := sall (λ d, negb (bool_decide (d = c))) s.

(** A pattern is a list of segments, each a literal or a parameter. *)
Inductive seg := Lit (s : string) | Par (name : string).

Definition seg_text (x : seg) : string :=
  match x with Lit s => s | Par n => "{" +:+ n +:+ "}" end.
Fixpoint pattern_text (l : list seg) : string :=
  match l with [] => "" | x :: l' => "/" +:+ seg_text x +:+ pattern_text l' end.
Definition seg_ok (x : seg) : bool :=
  match x with
  | Lit s => no_char "{" s && no_char NUL s && no_char "/" s
  | Par n => no_char "}" n
  end.
Fixpoint params (l : list seg) : list string :=
  match l with [] => [] | Lit _ :: l' => params l' | Par n :: l' => n :: params l' end.

Fixpoint seg_match (l : list seg) (ss : list string) : option (list string) :=
  match l, ss with
  | [], [] => Some []
  | Lit s :: l', x :: ss' => if bool_decide (s = x) then seg_match l' ss' else None
  | Par _ :: l', x :: ss' => if bool_decide (x = "") then None else cons x <$> seg_match l' ss'
  | _, _ => None
  end.

(** The arguments of a path for a pattern. *)
Definition path_match (l : list seg) (path : string) : option (list string) :=
  match segments path with
  | "" :: ss => seg_match l ss
  | _ => None
  end.

(** The path of a pattern for given arguments. *)
Fixpoint instantiate (l : list seg) (args : list string) : string :=
  match l, args with
  | Lit s :: l', _ => "/" +:+ s +:+ instantiate l' args
  | Par _ :: l', a :: args' => "/" +:+ a +:+ instantiate l' args'
  | _, _ => ""
  end.

(** Rows of a table of routes, and the first that accepts a request. *)
Definition row_ok {H} (r : HttpMethod * list seg * H) : bool := forallb seg_ok (snd (fst r)).
Definition row_text {H} (r : HttpMethod * list seg * H) : HttpMethod * string * H :=
  (fst (fst r), pattern_text (snd (fst r)), snd r).

Fixpoint find_row {H} (rows : list (HttpMethod * list seg * H)) (req : HttpRequest) :
    option (H * HttpRequest) :=
  match rows with
  | [] => None
  | (m, l, h) :: rest =>
      if bool_decide (m = method_ req) then
        match path_match l (c_str (path_ req)) with
        | Some args => Some (h, set_params (params l) args (clear_path_params req))
        | None => find_row rest req
        end
      else find_row rest req
  end.

(** No path is accepted by both patterns. *)
Fixpoint disjoint_pat (l1 l2 : list seg) : bool :=
  match l1, l2 with
  | [], [] => false
  | Lit s :: l1', Lit t :: l2' => negb (bool_decide (s = t)) || disjoint_pat l1' l2'
  | _ :: l1', _ :: l2' => disjoint_pat l1' l2'
  | _, _ => true
  end.

(** The literal text a pattern starts with. *)
Fixpoint lit_prefix (l : list seg) : string :=
  match l with
  | [] => ""
  | Lit s :: l' => "/" +:+ s +:+ lit_prefix l'
  | Par _ :: _ => "/"
  end.

Fixpoint chars (s : string) : list atom :=
  match s with "" => [] | String c s' => RChar c :: chars s' end.
Definition seg_atoms (x : seg) : list atom := match x with Lit s => chars s | Par _ => [RSeg] end.
Fixpoint pattern_atoms (l : list seg) : list atom :=
  match l with [] => [] | x :: l' => RChar "/" :: seg_atoms x ++ pattern_atoms l' end.

(** ** The expression of a pattern *)

Fixpoint escape (s : string) : string :=
  match s with
  | "" => ""
  | String c s' => if is_special c then String "\" (String c (escape s')) else String c (escape s')
  end.
Definition seg_regex (x : seg) : string := match x with Lit s => escape s | Par _ => group end.
Fixpoint pattern_regex (l : list seg) : string :=
  match l with [] => "" | x :: l' => String "/" (seg_regex x +:+ pattern_regex l') end.

Lemma to_regex_lit s rest n : no_char "{" s = true → slen s ≤ n →
  to_regex n (s +:+ rest) =
  let '(r, ns) := to_regex (n - slen s) rest in (escape s +:+ r, ns).
Proof.
  revert n. induction s as [|c s IH]; intros n; cbn [String.length].
  - intros _ _. rewrite Nat.sub_0_r, sapp_nil_l. by destruct (to_regex n rest).
  - unfold no_char in *. cbn [sall]. intros [Hc Hs]%andb_true_iff Hn.
    destruct n as [|n]; [lia|]. rewrite sapp_cons. cbn [to_regex].
    apply negb_true_iff in Hc. rewrite Hc, IH by (done || lia).
    cbn [Nat.sub]. destruct (to_regex _ rest) as [r ns]. cbn [escape].
    by destruct (is_special c).
Qed.

Lemma to_regex_par nm rest n : no_char "}" nm = true →
  to_regex (S n) ("{" +:+ nm +:+ "}" +:+ rest) =
  let '(r, ns) := to_regex n rest in (group +:+ r, nm :: ns).
Proof.
  intros Hnm. change ("{" +:+ nm +:+ "}" +:+ rest) with (String "{" (nm +:+ String "}" rest)).
  assert (He : sfind "}" (String "{" (nm +:+ String "}" rest)) = Some (S (slen nm))).
  { exact (sfind_char_app "}" (String "{" nm) rest Hnm). }
  assert (Hd : sdrop (S (S (slen nm))) (String "{" (nm +:+ String "}" rest)) = rest).
  { change (sdrop (S (slen nm)) (nm +:+ String "}" rest) = rest).
    by rewrite <- Nat.add_1_r, <- sdrop_sdrop, sdrop_app. }
  assert (Ht : substr (String "{" (nm +:+ String "}" rest)) 1 (S (slen nm) - 1) = nm).
  { change (stake (S (slen nm) - 1) (nm +:+ String "}" rest) = nm).
    replace (S (slen nm) - 1) with (slen nm) by lia. apply stake_app. }
  cbn [to_regex]. by rewrite bool_decide_eq_true_2, He, Hd, Ht by done.
Qed.

Lemma to_regex_pattern l n : forallb seg_ok l = true → slen (pattern_text l) ≤ n →
  to_regex n (pattern_text l) = (pattern_regex l, params l).
Proof.
  revert n. induction l as [|x l IH]; intros n; [by destruct n|].
  cbn [forallb pattern_text pattern_regex]. intros [Hx Hl]%andb_true_iff Hn.
  rewrite !slen_app in Hn. cbn in Hn. destruct n as [|n]; [lia|].
  change (to_regex (S n) (?a +:+ ?b)) with (let '(r, ns) := to_regex n b in (String "/" r, ns)).
  destruct x as [s|nm]; cbn [seg_text seg_regex params seg_ok] in *.
  - apply andb_true_iff in Hx as [[Hx _]%andb_true_iff _].
    rewrite to_regex_lit by (done || lia). by rewrite IH by (done || lia).
  - rewrite !slen_app in Hn. cbn in Hn. destruct n as [|n]; [lia|].
    rewrite !sapp_assoc, to_regex_par by done. by rewrite IH by (done || lia).
Qed.

(** ** Compiling it *)

Definition compiles (re : string) (r : list atom) : Prop :=
  ∀ n, slen re ≤ n → compile n re = Some r.

Lemma compiles_nil : compiles "" [].
Proof. by intros []. Qed.

Lemma compiles_char c re r : is_special c = false → compiles re r → compiles (String c re) (RChar c :: r).
Proof.
  intros Hc H [|n] Hn; cbn [String.length] in Hn; [lia|].
  assert (c ≠ "("%char ∧ c ≠ "\"%char) as [H1 H2] by (split; by intros ->).
  cbn [compile starts_with group]. rewrite !bool_decide_eq_false_2 by congruence. cbn [andb].
  rewrite Hc, H by lia. done.
Qed.

Lemma compiles_escaped c re r : shas c special = true → compiles re r →
  compiles (String "\" (String c re)) (RChar c :: r).
Proof.
  intros Hc H [|n] Hn; cbn [String.length] in Hn; [lia|].
  change (compile (S n) (String "\" (String c re)))
    with (if shas c special then cons (RChar c) <$> compile n re else None).
  by rewrite Hc, H by lia.
Qed.

Lemma compiles_group re r : compiles re r → compiles (group +:+ re) (RSeg :: r).
Proof.
  intros H n Hn. rewrite slen_app in Hn. cbn in Hn. destruct n as [|n]; [lia|].
  change (compile (S n) (group +:+ re)) with (cons RSeg <$> compile n re). by rewrite H by lia.
Qed.

Lemma compiles_lit s re r : no_char NUL s = true → compiles re r →
  compiles (escape s +:+ re) (chars s ++ r).
Proof.
  intros Hs H. induction s as [|c s IH]; [done|]. unfold no_char in *. cbn [sall] in Hs.
  apply andb_true_iff in Hs as [Hc Hs]. apply negb_true_iff in Hc.
  cbn [escape chars app]. destruct (is_special c) eqn:Ec; rewrite !sapp_cons.
  - unfold is_special in Ec. rewrite Hc, orb_false_r in Ec. by apply compiles_escaped, IH.
  - by apply compiles_char, IH.
Qed.

Lemma compiles_pattern l : forallb seg_ok l = true → compiles (pattern_regex l) (pattern_atoms l).
Proof.
  induction l as [|[s|nm] l IH]; [intros _; apply compiles_nil|..];
    cbn [forallb pattern_regex pattern_atoms seg_ok seg_regex seg_atoms];
    intros [Hx Hl]%andb_true_iff; apply compiles_char; [done| |done|].
  - apply andb_true_iff in Hx as [[_ Hx]%andb_true_iff _]. by apply compiles_lit, IH.
  - by apply compiles_group, IH.
Qed.

(** Registering a pattern. *)
Lemma add_route_pattern {H} m l (h : H) rs : forallb seg_ok l = true →
  add_route m (pattern_text l) h rs = Ok (rs ++ [mk_route m (pattern_atoms l) (params l) h]).
Proof.
  intros Hl. unfold add_route, pattern_to_regex. rewrite to_regex_pattern by done.
  by rewrite (compiles_pattern l Hl).
Qed.

(** ** Matching it *)

(** The rest of a match starts at a slash or at the end. *)
Definition slash_atoms (re : list atom) : Prop := re = [] ∨ ∃ re', re = RChar "/" :: re'.
Definition slash_text (u : string) : Prop := u = "" ∨ ∃ u', u = String "/" u'.

Lemma pattern_atoms_slash l : slash_atoms (pattern_atoms l).
Proof. destruct l as [|x l]; [by left|right]. cbn [pattern_atoms]. eauto. Qed.
#[local] Hint Resolve pattern_atoms_slash : solar.

Lemma split_at_slash t : ∃ a u, t = a +:+ u ∧ no_char "/" a = true ∧ slash_text u.
Proof.
  induction t as [|c t (a&u&->&Ha&Hu)]; [by exists "", ""; repeat split; left|].
  destruct (decide (c = "/"%char)) as [->|Hc].
  - exists "", (String "/" (a +:+ u)). repeat split. right. eauto.
  - exists (String c a), u. repeat split; [|done]. unfold no_char in *. cbn [sall].
    by rewrite bool_decide_eq_false_2.
Qed.

Lemma split_slash_app cur a u : no_char "/" a = true →
  split_slash cur (a +:+ u) = split_slash (cur +:+ a) u.
Proof.
  revert cur. induction a as [|c a IH]; intros cur; [by rewrite sapp_nil_l, sapp_nil_r|].
  unfold no_char in *. cbn [sall]. intros [Hc Ha]%andb_true_iff. apply negb_true_iff in Hc.
  rewrite sapp_cons. cbn [split_slash]. by rewrite Hc, IH, push_back_app.
Qed.

Lemma regex_slash_none re c s : slash_atoms re → c ≠ "/"%char → regex_match re (String c s) = None.
Proof. intros [->|[re' ->]] Hc; [done|]. cbn. by rewrite bool_decide_eq_false_2. Qed.

Lemma match_lit s a u re : no_char "/" s = true → no_char "/" a = true →
  slash_atoms re → slash_text u →
  regex_match (chars s ++ re) (a +:+ u) = if bool_decide (s = a) then regex_match re u else None.
Proof.
  intros Hs Ha Hre Hu. revert a Ha. induction s as [|c s IH]; intros [|d a] Ha;
    unfold no_char in *; cbn [sall chars app] in *;
    repeat match goal with H : _ && _ = true |- _ => apply andb_true_iff in H as [?%negb_true_iff ?] end;
    repeat match goal with H : bool_decide _ = false |- _ => apply bool_decide_eq_false in H end.
  - by rewrite bool_decide_eq_true_2.
  - rewrite bool_decide_eq_false_2, sapp_cons by done. by apply regex_slash_none.
  - rewrite sapp_nil_l, (bool_decide_eq_false_2 (String c s = "")) by done.
    destruct Hu as [->|[u' ->]]; [done|]. cbn. by rewrite bool_decide_eq_false_2.
  - rewrite sapp_cons. cbn [regex_match]. destruct (decide (c = d)) as [->|Hcd].
    + rewrite bool_decide_eq_true_2, IH by done.
      by rewrite (bool_decide_ext (String d s = String d a) (s = a)) by naive_solver.
    + by rewrite !bool_decide_eq_false_2 by congruence.
Qed.

Definition more (re : list atom) : string → string → option (list string) :=
  fix more (acc s : string) : option (list string) :=
    match s with
    | String d s' =>
        if bool_decide (d = "/"%char) then None
        else match more (acc +c d) s' with
             | Some l => Some l
             | None => cons (acc +c d) <$> regex_match re s'
             end
    | "" => None
    end.

Lemma match_seg a u re acc : no_char "/" a = true → slash_atoms re → slash_text u →
  more re acc (a +:+ u) = if bool_decide (a = "") then None else cons (acc +:+ a) <$> regex_match re u.
Proof.
  intros Ha Hre Hu. revert acc. induction a as [|d a IH]; intros acc.
  - rewrite bool_decide_eq_true_2 by done. by destruct Hu as [->|[u' ->]].
  - unfold no_char in *. cbn [sall] in Ha. apply andb_true_iff in Ha as [Hd%negb_true_iff Ha].
    rewrite sapp_cons. cbn [more]. rewrite Hd. fold (more re). rewrite IH, (bool_decide_eq_false_2 (String d a = "")) by done.
    rewrite push_back_app. destruct a as [|d' a].
    + rewrite bool_decide_eq_true_2 by done. done.
    + rewrite bool_decide_eq_false_2 by done. destruct (regex_match re u); [done|]. cbn [fmap option_fmap option_map].
      cbn [sall] in Ha. apply andb_true_iff in Ha as [Hd'%negb_true_iff _].
      apply bool_decide_eq_false in Hd'. by rewrite sapp_cons, regex_slash_none.
Qed.

Lemma segments_slash a u : no_char "/" a = true → slash_text u →
  segments (a +:+ u) = a :: match u with String _ u' => segments u' | "" => [] end.
Proof.
  intros Ha Hu. unfold segments. rewrite split_slash_app by done.
  destruct Hu as [->|[u' ->]]; [by rewrite sapp_nil_l|done].
Qed.

Lemma regex_path_match l path : forallb seg_ok l = true →
  regex_match (pattern_atoms l) path = path_match l path.
Proof.
  revert path. induction l as [|x l IH]; intros path Hl.
  - unfold path_match. destruct path as [|c path]; [done|].
    destruct (split_at_slash (String c path)) as (a&u&Ht&Ha&Hu). rewrite Ht, segments_slash by done.
    destruct a as [|d a]; rewrite <-Ht; [|done]. destruct Hu as [->|[u' ->]]; [done|].
    by destruct (split_at_slash u') as (a'&u2&->&?&?); rewrite segments_slash.
  - cbn [forallb] in Hl. apply andb_true_iff in Hl as [Hx Hl].
    destruct path as [|c path]; [by destruct x|]. cbn [pattern_atoms].
    destruct (decide (c = "/"%char)) as [->|Hc].
    + change (regex_match (RChar "/" :: ?r) (String "/" path)) with (regex_match r path).
      change (path_match (x :: l) (String "/" path)) with (seg_match (x :: l) (segments path)).
      destruct (split_at_slash path) as (a&u&->&Ha&Hu). rewrite segments_slash by done.
      assert (Hrest : regex_match (pattern_atoms l) u =
        seg_match l (match u with String _ u' => segments u' | "" => [] end)).
      { rewrite IH by done. by destruct Hu as [->|[u' ->]]. }
      destruct x as [s|nm]; cbn [seg_atoms seg_ok seg_match] in *.
      * apply andb_true_iff in Hx as [_ Hx]. by rewrite match_lit, Hrest by auto with solar.
      * change (regex_match ([RSeg] ++ ?re) ?s) with (more re "" s).
        by rewrite match_seg, Hrest by auto with solar.
    + cbn [regex_match]. rewrite bool_decide_eq_false_2 by congruence.
      destruct (split_at_slash (String c path)) as (a&u&Ht&Ha&Hu).
      unfold path_match. rewrite Ht, segments_slash by done.
      destruct a as [|d a]; [|done]. rewrite sapp_nil_l in Ht. subst u. destruct Hu as [|[? ?]]; congruence.
Qed.

Lemma add_all_rows {H} (rows : list (HttpMethod * list seg * H)) rs : forallb row_ok rows = true →
  add_all (map row_text rows) rs =
  Ok (rs ++ map (λ '(m, l, h), mk_route m (pattern_atoms l) (params l) h) rows).
Proof.
  revert rs. induction rows as [|[[m l] h] rows IH]; intros rs; cbn [forallb map add_all].
  - by rewrite app_nil_r.
  - intros [Hr Hrs]%andb_true_iff. cbn [row_text fst snd].
    by rewrite add_route_pattern, IH, <- (assoc_L (++)) by done.
Qed.

Lemma find_route_rows {H} (rows : list (HttpMethod * list seg * H)) req : forallb row_ok rows = true →
  find_route (map (λ '(m, l, h), mk_route m (pattern_atoms l) (params l) h) rows) req = find_row rows req.
Proof.
  induction rows as [|[[m l] h] rows IH]; [done|]. cbn [forallb]. intros [Hr Hrs]%andb_true_iff.
  cbn [map find_route find_row method regex handler param_names].
  rewrite regex_path_match by done. by rewrite IH.
Qed.

(** ** Paths and their segments *)

Fixpoint join (ss : list string) : string :=
  match ss with [] => "" | x :: ss' => "/" +:+ x +:+ join ss' end.

Lemma segments_join s : String "/" s = join (segments s).
Proof.
  unfold segments. assert (∀ cur, String "/" (cur +:+ s) = join (split_slash cur s)) as H; [|apply (H "")].
  induction s as [|c s IH]; intros cur; [done|]. cbn [split_slash]. case_bool_decide as Hc.
  - subst c. cbn [join]. by rewrite <- (IH "").
  - by rewrite <- IH, push_back_app.
Qed.

Lemma seg_match_inst l ss args : seg_match l ss = Some args → join ss = instantiate l args.
Proof.
  revert ss args. induction l as [|[s|n] l IH]; intros [|x ss] args; cbn; try done; try (by intros [= <-]).
  - case_bool_decide; [|done]. subst. intros. by erewrite IH.
  - case_bool_decide; [done|]. intros (args'&?&->)%fmap_Some. cbn. by erewrite IH.
Qed.

Lemma path_match_inst l s args : path_match l s = Some args → s = instantiate l args.
Proof.
  unfold path_match. pose proof (segments_join s) as Hj. destruct (segments s) as [|[|? ?] ss]; try done.
  intros Hm. apply seg_match_inst in Hm. cbn in Hj. injection Hj as ->. done.
Qed.

Lemma path_match_prefix l s args : path_match l s = Some args → starts_with (lit_prefix l) s = true.
Proof.
  unfold path_match. intros Hm.
  assert (∃ ss, s = join ss ∧ seg_match l ss = Some args) as (ss&->&Hs).
  { pose proof (segments_join s) as Hj. destruct (segments s) as [|[|? ?] ss]; try done.
    injection Hj as Hj. eauto. }
  clear Hm. revert ss args Hs. induction l as [|[t|n] l IH]; intros [|x ss] args; cbn [seg_match]; try done.
  - case_bool_decide; [|done]. subst. intros Hs. cbn [lit_prefix join].
    apply starts_with_iff. apply IH, starts_with_iff in Hs as [u ->]. exists u.
    by rewrite !sapp_assoc.
Qed.

Lemma disjoint_pat_sound l1 l2 ss a b :
  seg_match l1 ss = Some a → seg_match l2 ss = Some b → disjoint_pat l1 l2 = false.
Proof.
  revert l2 ss a b. induction l1 as [|x l1 IH]; intros [|y l2] [|z ss] a b;
    try (by destruct x); try (by destruct y); try done.
  assert (∀ w l c, seg_match (w :: l) (z :: ss) = Some c →
    (∃ c', seg_match l ss = Some c') ∧ (∀ s, w = Lit s → s = z)) as Htl.
  { intros [s|n] l c; cbn; case_bool_decide; try done.
    - intros ?. split; [eauto|]. by intros ? [= <-].
    - intros (?&?&_)%fmap_Some. split; [eauto|done]. }
  intros [[a' Ha] Hx]%Htl [[b' Hb] Hy]%Htl. specialize (IH _ _ _ _ Ha Hb).
  destruct x as [s|n], y as [t|n']; cbn; rewrite ?IH; try done.
  by rewrite (Hx s), (Hy t), bool_decide_eq_true_2.
Qed.

Lemma path_match_disjoint l1 l2 s a b :
  path_match l1 s = Some a → path_match l2 s = Some b → disjoint_pat l1 l2 = false.
Proof. unfold path_match. repeat case_match; try done. apply disjoint_pat_sound. Qed.

(** In a table without overlaps the order of registration is irrelevant. *)
Definition no_overlap {H} (rows : list (HttpMethod * list seg * H)) : Prop :=
  ∀ i j m1 l1 h1 m2 l2 h2, rows !! i = Some (m1, l1, h1) → rows !! j = Some (m2, l2, h2) →
    i < j → m1 = m2 → disjoint_pat l1 l2 = true.

Lemma find_row_unique {H} (rows : list (HttpMethod * list seg * H)) req m l h args : no_overlap rows →
  (m, l, h) ∈ rows → method_ req = m → path_match l (c_str (path_ req)) = Some args →
  find_row rows req = Some (h, set_params (params l) args (clear_path_params req)).
Proof.
  intros Hno Hin Hm Hp. induction rows as [|[[m1 l1] h1] rows IH]; [by apply elem_of_nil in Hin|].
  cbn [find_row]. apply elem_of_cons in Hin as [[= -> -> ->]|Hin].
  - by rewrite bool_decide_eq_true_2, Hp.
  - assert (find_row rows req = Some (h, set_params (params l) args (clear_path_params req))) as Hrest.
    { apply IH; [|done]. intros i j. intros. by eapply (Hno (S i) (S j)); eauto; lia. }
    case_bool_decide as Hm1; [|done]. destruct (path_match l1 _) as [args1|] eqn:Hp1; [|done].
    apply list_elem_of_lookup in Hin as [j Hj].
    pose proof (path_match_disjoint _ _ _ _ _ Hp1 Hp).
    assert (disjoint_pat l1 l = true); [|congruence].
    eapply (Hno 0 (S j)); [done|exact Hj|lia|congruence].
Qed.

Lemma find_row_elem {H} (rows : list (HttpMethod * list seg * H)) req h q : find_row rows req = Some (h, q) →
  ∃ m l args, (m, l, h) ∈ rows ∧ method_ req = m ∧ path_match l (c_str (path_ req)) = Some args.
Proof.
  induction rows as [|[[m1 l1] h1] rows IH]; [done|]. cbn [find_row]. intros Hf.
  assert (find_row rows req = Some (h, q) →
    ∃ m l args, (m, l, h) ∈ (m1, l1, h1) :: rows ∧ method_ req = m ∧ path_match l (c_str (path_ req)) = Some args).
  { intros (m&l&args&?&?&?)%IH. exists m, l, args. split; [by right|done]. }
  case_bool_decide; [|by auto]. destruct (path_match l1 _) as [args|] eqn:Hp; [|by auto].
  injection Hf as <- <-. exists m1, l1, args. split_and!; [by left|done|done].
Qed.

(** C33. Registering any list of well-formed patterns succeeds, and dispatching
    through the expressions they compile to is routing on path segments: the first
    route whose method is the request's and whose segments match the path's, with
    each parameter bound to the segment it stands for. *)
Theorem dispatch_by_segments {H} (rows : list (HttpMethod * list seg * H))
    (Hok : forallb row_ok rows = true) :
  ∃ rs, add_all (map row_text rows) [] = Ok rs ∧
    ∀ req, find_route rs req = find_row rows req.
Proof.
  eexists. split; [by apply add_all_rows|]. intros req. by apply find_route_rows.
Qed.

Lemma dispatch_by_segments_witness :
  let rows := [(GET, [Lit "a"; Par "x"; Lit "b"], 1); (GET, [Lit "a"; Par "y"], 2)] in
  ∃ rs, add_all (map row_text rows) [] = Ok rs ∧ ∀ req, find_route rs req = find_row rows req.
Proof. apply dispatch_by_segments. reflexivity. Defined.

End HttpRouter.

Module AuthMiddleware.

Definition public_files : list string :=
  ["/"; "/index.html"; "/app.js"; "/style.css"; "/favicon.ico"; "/login.html"; "/auth.js";
   "/session.js"; "/receive.html"; "/receive.js"; "/icons.js"; "/metrics.html"; "/metrics.js";
   "/share.html"; "/share.js"].

Definition api_whitelist : list string :=
  ["/api/v1/health"; "/api/v1/auth/register"; "/api/v1/auth/login"; "/metrics"].

Definition is_whitelisted (path : string) : bool :=
  if bool_decide (path ∈ public_files) then true
  else if existsb (λ prefix, starts_with prefix path) api_whitelist then true
  else if bool_decide (3 < slen path) && starts_with "/s/" path then true
  else false.

End AuthMiddleware.

Module Routes.
Import HttpRouter.

(** The handlers of the table. *)
Inductive endpoint :=
  | Health | MetricsDump | AuthRegister | AuthLogin
  | Upload | UploadInit | UploadPart | UploadComplete | UploadStatus | UploadAbort
  | FilesList | FilesDelete | FoldersList | FoldersCreate | FoldersRename | FoldersDelete
  | FileDownload | ShareCreate | ShareSave | ShareList | ShareRevoke | ShareDownload.

#[export] Instance endpoint_eq_dec : EqDecision endpoint.
Proof. solve_decision. Defined.

Definition route_table : list (HttpMethod * string * endpoint) :=
  [(GET, "/api/v1/health", Health);
   (GET, "/metrics", MetricsDump);
   (POST, "/api/v1/auth/register", AuthRegister);
   (POST, "/api/v1/auth/login", AuthLogin);
   (POST, "/api/v1/upload", Upload);
   (POST, "/api/v1/upload/init", UploadInit);
   (PUT, "/api/v1/upload/{upload_id}/part/{part_num}", UploadPart);
   (POST, "/api/v1/upload/{upload_id}/complete", UploadComplete);
   (GET, "/api/v1/upload/{upload_id}", UploadStatus);
   (DELETE, "/api/v1/upload/{upload_id}", UploadAbort);
   (GET, "/api/v1/files", FilesList);
   (DELETE, "/api/v1/files/{id}", FilesDelete);
   (GET, "/api/v1/folders", FoldersList);
   (POST, "/api/v1/folders", FoldersCreate);
   (PUT, "/api/v1/folders/{id}", FoldersRename);
   (DELETE, "/api/v1/folders/{id}", FoldersDelete);
   (GET, "/api/v1/files/{id}", FileDownload);
   (POST, "/api/v1/share", ShareCreate);
   (POST, "/api/v1/share/save", ShareSave);
   (GET, "/api/v1/shares", ShareList);
   (DELETE, "/api/v1/share/{token}", ShareRevoke);
   (GET, "/s/{token}", ShareDownload)].

(** [register_api_routes]; [h e] is the closure registered for [e]. *)
Definition register_api_routes {H} (h : endpoint → H) : result (list (Route H)) :=
  add_all (map (λ '(m, p, e), (m, p, h e)) route_table) [].

(** The same table with its patterns split. *)
Definition api_rows : list (HttpMethod * list seg * endpoint) :=
  let v1 (l : list seg) := Lit "api" :: Lit "v1" :: l in
  [(GET, v1 [Lit "health"], Health);
   (GET, [Lit "metrics"], MetricsDump);
   (POST, v1 [Lit "auth"; Lit "register"], AuthRegister);
   (POST, v1 [Lit "auth"; Lit "login"], AuthLogin);
   (POST, v1 [Lit "upload"], Upload);
   (POST, v1 [Lit "upload"; Lit "init"], UploadInit);
   (PUT, v1 [Lit "upload"; Par "upload_id"; Lit "part"; Par "part_num"], UploadPart);
   (POST, v1 [Lit "upload"; Par "upload_id"; Lit "complete"], UploadComplete);
   (GET, v1 [Lit "upload"; Par "upload_id"], UploadStatus);
   (DELETE, v1 [Lit "upload"; Par "upload_id"], UploadAbort);
   (GET, v1 [Lit "files"], FilesList);
   (DELETE, v1 [Lit "files"; Par "id"], FilesDelete);
   (GET, v1 [Lit "folders"], FoldersList);
   (POST, v1 [Lit "folders"], FoldersCreate);
   (PUT, v1 [Lit "folders"; Par "id"], FoldersRename);
   (DELETE, v1 [Lit "folders"; Par "id"], FoldersDelete);
   (GET, v1 [Lit "files"; Par "id"], FileDownload);
   (POST, v1 [Lit "share"], ShareCreate);
   (POST, v1 [Lit "share"; Lit "save"], ShareSave);
   (GET, v1 [Lit "shares"], ShareList);
   (DELETE, v1 [Lit "share"; Par "token"], ShareRevoke);
   (GET, [Lit "s"; Par "token"], ShareDownload)].

(** The registered table. *)
Definition api_routes : list (Route endpoint) :=
  match register_api_routes id with Ok rs => rs | Throw _ => [] end.

(** The endpoints a client reaches without a token. *)
Definition public_endpoint (e : endpoint) : bool :=
  match e with
  | Health | MetricsDump | AuthRegister | AuthLogin | ShareDownload => true
  | _ => false
  end.

Lemma api_rows_table : map row_text api_rows = route_table.
Proof. reflexivity. Qed.

Definition pairwise {A} (p : A → A → bool) : list A → bool :=
  fix go l := match l with [] => true | x :: l' => forallb (p x) l' && go l' end.

Lemma api_rows_no_overlap : no_overlap api_rows.
Proof.
  assert (pairwise (λ r1 r2 : HttpMethod * list seg * endpoint,
    negb (bool_decide (fst (fst r1) = fst (fst r2))) || disjoint_pat (snd (fst r1)) (snd (fst r2)))
    api_rows = true) as H by (vm_compute; reflexivity).
  revert H. generalize api_rows. induction l as [|r l IH]; [done|].
  cbn [pairwise]. intros [H1 H2]%andb_true_iff. intros i j m1 l1 h1 m2 l2 h2 Hi Hj Hij Hm.
  destruct i as [|i], j as [|j]; try lia; cbn in Hi, Hj.
  - injection Hi as ->. rewrite forallb_forall in H1.
    specialize (H1 (m2, l2, h2)). cbn in H1. rewrite bool_decide_eq_true_2 in H1 by done.
    apply H1. apply list_elem_of_In, list_elem_of_lookup. eauto.
  - eapply IH; eauto. lia.
Qed.

Definition map_row {A B} (f : A → B) (r : HttpMethod * list seg * A) : HttpMethod * list seg * B :=
  (fst r, f (snd r)).

Lemma register_rows {H} (h : endpoint → H) :
  ∃ rs, register_api_routes h = Ok rs ∧ ∀ req, find_route rs req = find_row (map (map_row h) api_rows) req.
Proof.
  unfold register_api_routes. rewrite <- api_rows_table, map_map.
  replace (map (λ x, let '(m, p, e) := row_text x in (m, p, h e)) api_rows)
    with (map row_text (map (map_row h) api_rows)).
  - eexists. split; [by apply add_all_rows|]. intros req. by apply find_route_rows.
  - rewrite map_map. apply map_ext. by intros [[m l] e].
Qed.

Lemma no_overlap_map {A B} (f : A → B) rows : no_overlap rows → no_overlap (map (map_row f) rows).
Proof.
  intros Hno i j m1 l1 h1 m2 l2 h2 Hi Hj.
  apply list_lookup_fmap_Some in Hi as ([[? ?] ?]&[= -> -> ->]&Hi).
  apply list_lookup_fmap_Some in Hj as ([[? ?] ?]&[= -> -> ->]&Hj). by eapply Hno.
Qed.

(** The API's table registers without an error, and no two of its routes
    overlap: a request whose method and path fit a route is handed to that route's
    handler, whatever the order of registration, with the route's parameters bound
    to the path's segments. *)
Theorem api_routes_exact {H} (h : endpoint → H) :
  ∃ rs, register_api_routes h = Ok rs ∧
    ∀ req m l e args, (m, l, e) ∈ api_rows → method_ req = m →
      path_match l (c_str (path_ req)) = Some args →
      find_route rs req = Some (h e, set_params (params l) args (clear_path_params req)).
Proof.
  destruct (register_rows h) as (rs&Hrs&Hf). exists rs. split; [done|].
  intros req m l e args Hin Hm Hp. rewrite Hf. eapply find_row_unique; [..|done|done].
  - apply no_overlap_map, api_rows_no_overlap.
  - apply (list_elem_of_fmap_2 (map_row h) _ _ Hin).
Qed.

(** ** Public paths *)

Definition comparable (p q : string) : bool := starts_with p q || starts_with q p.

Lemma starts_with_comparable p q s : starts_with p s = true → starts_with q s = true → comparable p q = true.
Proof.
  unfold comparable. revert q s. induction p as [|c p IH]; intros q s; [by destruct q|].
  destruct s as [|d s]; [done|]. destruct q as [|e q]; [by rewrite orb_true_r|]. cbn [starts_with].
  rewrite !andb_true_iff, !bool_decide_eq_true. intros [-> Hp] [-> Hq].
  rewrite !bool_decide_eq_true_2 by done. by eapply IH.
Qed.

Lemma starts_with_c_str p s : starts_with p (c_str s) = true → starts_with p s = true.
Proof.
  revert s. induction p as [|c p IH]; intros s; [done|]. destruct s as [|d s]; [done|].
  cbn [c_str starts_with]. case_bool_decide; [done|]. cbn [starts_with]. rewrite !andb_true_iff.
  intros [? ?]. auto.
Qed.

Lemma slen_c_str s : slen (c_str s) ≤ slen s.
Proof. induction s as [|c s IH]; cbn; [lia|]. case_bool_decide; cbn; lia. Qed.

(** No public path can start like a protected route. *)
Definition guarded (r : HttpMethod * list seg * endpoint) : bool :=
  let p := lit_prefix (snd (fst r)) in
  forallb (λ q, negb (starts_with p q)) AuthMiddleware.public_files &&
  forallb (λ q, negb (comparable p q)) ("/s/" :: AuthMiddleware.api_whitelist).

Lemma guarded_not_whitelisted r path : guarded r = true →
  starts_with (lit_prefix (snd (fst r))) path = true → AuthMiddleware.is_whitelisted path = false.
Proof.
  unfold guarded. rewrite andb_true_iff, !forallb_forall. intros [H1 H2] Hp.
  assert (∀ q, starts_with q path = true → negb (comparable (lit_prefix (snd (fst r))) q) = false) as Hc.
  { intros q Hq. by rewrite (starts_with_comparable _ _ _ Hp Hq). }
  unfold AuthMiddleware.is_whitelisted. rewrite bool_decide_eq_false_2.
  2:{ intros Hin%list_elem_of_In%H1. by rewrite Hp in Hin. }
  destruct (existsb _ _) eqn:Ex.
  - apply existsb_exists in Ex as (q&Hq&Hs). apply Hc in Hs.
    rewrite H2 in Hs; [done|by right].
  - destruct (starts_with "/s/" path) eqn:Es; [|by rewrite andb_false_r].
    apply Hc in Es. rewrite H2 in Es; [done|by left].
Qed.

Lemma share_path_long n s args : path_match [Lit "s"; Par n] s = Some args → 3 < slen s.
Proof.
  unfold path_match. pose proof (segments_join s) as Hj.
  destruct (segments s) as [|[|? ?] [|x [|a [|b bs]]]]; cbn; repeat case_bool_decide; try done.
  intros _. subst x. injection Hj as ->.
  destruct a as [|c a]; [done|]. rewrite !slen_app. cbn. lia.
Qed.

(** C37. The white list of paths that need no token and the route table agree: a
    request that reaches a handler was exempt from authentication exactly when
    the handler is one of the five public ones. *)
Theorem whitelist_exact (req q : HttpRequest) (e : endpoint) (rs : list (Route endpoint))
    (Hrs : register_api_routes id = Ok rs) (Hf : find_route rs req = Some (e, q)) :
  AuthMiddleware.is_whitelisted (path_ req) = public_endpoint e.
Proof.
  destruct (register_rows id) as (rs'&Hrs'&Hr). rewrite Hrs in Hrs'. injection Hrs' as <-.
  rewrite Hr in Hf. clear Hrs Hr. apply find_row_elem in Hf as (m&l&args&Hin&_&Hp).
  assert (map (map_row id) api_rows = api_rows) as Hid by reflexivity. rewrite Hid in Hin.
  pose proof (path_match_prefix _ _ _ Hp) as Hpre. apply starts_with_c_str in Hpre.
  destruct (public_endpoint e) eqn:Epub.
  - unfold AuthMiddleware.is_whitelisted. case_bool_decide; [done|].
    destruct (existsb _ _) eqn:Ex; [done|].
    assert (l = [Lit "s"; Par "token"] ∨ lit_prefix l ∈ AuthMiddleware.api_whitelist) as [->|Hl].
    { repeat (apply elem_of_cons in Hin as [[= -> -> ->]|Hin]; [try done; try (by left); right; cbn; set_solver|]).
      by apply elem_of_nil in Hin. }
    + change (starts_with "/s/" (path_ req) = true) in Hpre. rewrite Hpre, andb_true_r.
      apply share_path_long in Hp. pose proof (slen_c_str (path_ req)).
      rewrite bool_decide_eq_true_2 by lia. done.
    + exfalso. assert (existsb (λ p, starts_with p (path_ req)) AuthMiddleware.api_whitelist = true); [|congruence].
      apply existsb_exists. exists (lit_prefix l). by rewrite <- list_elem_of_In.
  - assert (guarded (m, l, e) = true) as Hg; [|exact (guarded_not_whitelisted _ _ Hg Hpre)].
    assert (forallb (λ r : HttpMethod * list seg * endpoint, public_endpoint (snd r) || guarded r) api_rows = true)
      as Hall by (vm_compute; reflexivity).
    rewrite forallb_forall in Hall. apply list_elem_of_In in Hin. specialize (Hall _ Hin).
    cbn [snd] in Hall. by rewrite Epub in Hall.
Qed.

Lemma whitelist_exact_witness :
  AuthMiddleware.is_whitelisted "/api/v1/files/f7" = false.
Proof.
  refine (whitelist_exact (set_path "/api/v1/files/f7" (set_method GET empty))
    (set_path_param "id" "f7" (set_path "/api/v1/files/f7" (set_method GET empty))) FileDownload api_routes _ _);
    vm_compute; reflexivity.
Defined.

End Routes.

Module StaticHandler.

(** The constructor strips one trailing slash. *)
Definition mk_root (root_dir : string) : string :=
  match slen root_dir with
  | S n => if bool_decide (sdrop n root_dir = "/") then stake n root_dir else root_dir
  | 0 => root_dir
  end.

Definition map_url_to_file (path : string) : string :=
  if bool_decide (path = "") || bool_decide (path = "/") then "index.html"
  else match path with String "/" rest => rest | _ => path end.

Definition guess_mime (file_path : string) : string :=
  match srfind "." file_path with
  | None => "application/octet-stream"
  | Some dot =>
      let ext := sdrop dot file_path in
      if bool_decide (ext = ".html") || bool_decide (ext = ".htm") then "text/html; charset=utf-8"
      else if bool_decide (ext = ".css") then "text/css; charset=utf-8"
      else if bool_decide (ext = ".js") then "application/javascript; charset=utf-8"
      else if bool_decide (ext = ".json") then "application/json; charset=utf-8"
      else if bool_decide (ext = ".svg") then "image/svg+xml"
      else if bool_decide (ext = ".png") then "image/png"
      else if bool_decide (ext = ".ico") then "image/x-icon"
      else "application/octet-stream"
  end.

Definition is_safe_relative_path (rel : string) : bool :=
  if sempty rel then false
  else if starts_with "/" rel then false
  else if bool_decide (is_Some (sfind ".." rel)) then false
  else true.

(** [try_serve]. [read p] is what a stream opened on the file [p] delivers,
    [None] when it cannot be opened. *)
Definition try_serve (read : string → option string) (root_dir_ : string) (req : HttpRequest)
    (resp : HttpResponse.HttpResponse) : bool * HttpResponse.HttpResponse :=
  if negb (bool_decide (method_ req = GET)) then (false, resp)
  else if starts_with "/api/" (path_ req) then (false, resp)
  else
    let rel := map_url_to_file (path_ req) in
    if negb (is_safe_relative_path rel) then (false, resp)
    else match read (c_str (root_dir_ +:+ "/" +:+ rel)) with
         | None => (false, resp)
         | Some data =>
             (true, HttpResponse.set_header "Cache-Control" "no-cache"
                (HttpResponse.set_header "Content-Type" (guess_mime rel)
                  (HttpResponse.set_body data (HttpResponse.set_status 200 "OK" resp))))
         end.

Lemma segments_infix x s : x ∈ HttpRouter.segments s → ∃ a b, s = a +:+ x +:+ b.
Proof.
  unfold HttpRouter.segments. intros Hx.
  assert (∃ a b, "" +:+ s = a +:+ x +:+ b) as H; [|exact H].
  revert Hx. generalize "". induction s as [|c s IH]; intros cur; cbn [HttpRouter.split_slash].
  - intros ->%list_elem_of_singleton. by exists "", "".
  - case_bool_decide.
    + subst c. intros [->|(a&b&Hs)%IH]%elem_of_cons; [by exists "", (String "/" s)|].
      rewrite sapp_nil_l in Hs. exists (cur +:+ String "/" a), b. by rewrite Hs, !sapp_assoc.
    + intros (a&b&Hs)%IH. exists a, b. by rewrite <- Hs, push_back_app.
Qed.

Lemma safe_no_dotdot rel : is_safe_relative_path rel = true →
  rel ≠ "" ∧ starts_with "/" rel = false ∧ ".." ∉ HttpRouter.segments rel.
Proof.
  unfold is_safe_relative_path, sempty. case_bool_decide; [done|].
  destruct (starts_with "/" rel); [done|]. case_bool_decide as Hf; [done|]. intros _.
  split_and!; [done|done|]. intros (a&b&->)%segments_infix. apply Hf.
  destruct (sfind _ _) eqn:E; [by eauto|exfalso].
  pose proof (proj1 (sfind_None _ _) E (slen a)) as Hn. rewrite sdrop_app, starts_with_app in Hn.
  rewrite slen_app in Hn. discriminate Hn. lia.
Qed.

(** C35. A request the static handler answers is a GET outside /api/, and the
    one file it opens is the root directory followed by a relative path with no
    ".." component, so it lies below the root; the response is that file's content
    with status 200. Any other request leaves the response untouched. *)
Theorem static_confined read root req resp :
  let '(served, resp') := try_serve read root req resp in
  if served then
    method_ req = GET ∧ starts_with "/api/" (path_ req) = false ∧
    ∃ rel data, rel ≠ "" ∧ starts_with "/" rel = false ∧ ".." ∉ HttpRouter.segments rel ∧
      (path_ req = String "/" rel ∨ path_ req = rel ∨ rel = "index.html") ∧
      read (c_str (root +:+ "/" +:+ rel)) = Some data ∧
      HttpResponse.body_ resp' = data ∧ HttpResponse.status_code_ resp' = 200%Z ∧
      HttpResponse.headers_ resp' !! "Content-Type" = Some (guess_mime rel)
  else resp' = resp.
Proof.
  unfold try_serve. case_bool_decide; [|done]. cbn [negb].
  destruct (starts_with "/api/" (path_ req)) eqn:Ea; [done|].
  destruct (is_safe_relative_path _) eqn:Es; [cbn [negb]|done].
  destruct (read _) as [data|] eqn:Er; [|done].
  apply safe_no_dotdot in Es as (H1&H2&H3). split_and!; [done..|].
  eexists _, data. split_and!; [exact H1|exact H2|exact H3| |exact Er|done|done|].
  - unfold map_url_to_file in *. destruct (_ || _); [by right; right|].
    destruct (path_ req) as [|c s]; [by right; left|].
    destruct (decide (c = "/"%char)) as [->|Hc]; [by left|right; left].
    destruct c as [[] [] [] [] [] [] [] []]; done.
  - cbn. by rewrite lookup_insert_ne, lookup_insert_eq by done.
Qed.

End StaticHandler.
