(* ===== verification/WsCodec.v ===== *)
(** WebSocket frames and sessions: [WsCodec] and [WsHandshake]
    (src/ws/websocket.h, websocket.cpp), [WsHandler] (ws_handler.h,
    ws_handler.cpp) and [WsSessionManager] (ws_session.h, ws_session.cpp). A
    connection is known by a number; what it is sent is logged in order. *)
From S2P Require Import Prelude HttpMessage.

Module WsCodec.

(** [OpCode] is an enumeration over a byte: any four-bit value can be stored. *)
Definition OpCode : Type := Z.
Definition kContinuation : OpCode := 0%Z.
Definition kText : OpCode := 1%Z.
Definition kBinary : OpCode := 2%Z.
Definition kClose : OpCode := 8%Z.
Definition kPing : OpCode := 9%Z.
Definition kPong : OpCode := 10%Z.

Record WsFrame := mk_frame {
  opcode : OpCode;
  fin : bool;
  masked : bool;
  payload : string
}.

(** [payload_len = (payload_len << 8) | byte] over the extended length. *)
Fixpoint be_val (acc : Z) (s : string) : Z :=
  match s with
  | "" => acc
  | String c s' => be_val (Z.lor (u64 (Z.shiftl acc 8)) (code c)) s'
  end.

(** [payload[i] ^= mask_key[i % 4]], with the key rotated as [i] advances. *)
Fixpoint unmask (k0 k1 k2 k3 : ascii) (s : string) : string :=
  match s with
  | "" => ""
  | String c s' => String (chr (Z.lxor (code c) (code k0))) (unmask k1 k2 k3 k0 s')
  end.

Definition unmask_with (key s : string) : string :=
  match key with
  | String k0 (String k1 (String k2 (String k3 ""))) => unmask k0 k1 k2 k3 s
  | _ => s
  end.

(** The largest [std::string] of the implementation. *)
Definition string_max : Z := 2 ^ 63 - 1.

(** The end of [decode], for a header of [header_len] bytes. The sum that is
    compared with the length is a 64-bit one; [assign] refuses a range longer
    than a string can be. *)
Definition decode_payload (s : string) (f : OpCode) (fi ma : bool) (header_len payload_len : Z) :
    result (option (WsFrame * Z)) :=
  let header_len := if ma then (header_len + 4)%Z else header_len in
  if bool_decide (Z.of_nat (slen s) < u64 (header_len + payload_len))%Z then Ok None
  else if bool_decide (string_max < payload_len)%Z then Throw (Exn ELengthError "basic_string::_M_replace")
  else
    let raw := substr s (Z.to_nat header_len) (Z.to_nat payload_len) in
    let data := if ma then unmask_with (substr s (Z.to_nat header_len - 4) 4) raw else raw in
    Ok (Some (mk_frame f fi ma data, u64 (header_len + payload_len))).

(** [decode]: [Ok None] is the return value 0 (the frame is incomplete),
    otherwise the frame and the number of bytes consumed. *)
Definition decode (s : string) : result (option (WsFrame * Z)) :=
  match s with
  | String b0 (String b1 _) =>
      let fi := Z.testbit (code b0) 7 in
      let op := Z.land (code b0) 15 in
      let ma := Z.testbit (code b1) 7 in
      let l := Z.land (code b1) 127 in
      if bool_decide (l = 126)%Z then
        if bool_decide (slen s < 4) then Ok None
        else decode_payload s op fi ma 4 (be_val 0 (substr s 2 2))
      else if bool_decide (l = 127)%Z then
        if bool_decide (slen s < 10) then Ok None
        else decode_payload s op fi ma 10 (be_val 0 (substr s 2 8))
      else decode_payload s op fi ma 2 l
  | _ => Ok None
  end.

(** The bytes [(v >> (i * 8)) & 0xFF] for [i] from [n - 1] down to 0. *)
Fixpoint be_bytes (n : nat) (v : Z) : string :=
  match n with
  | 0 => ""
  | S n' => String (chr (Z.land (Z.shiftr v (8 * Z.of_nat n')) 255)) (be_bytes n' v)
  end.

Definition first_byte (op : OpCode) (fi : bool) : ascii :=
  chr (Z.lor (if fi then 128 else 0) op).

Definition encode (op : OpCode) (data : string) (fi : bool) : string :=
  let payload_len := Z.of_nat (slen data) in
  String (first_byte op fi)
    ((if bool_decide (payload_len ≤ 125)%Z then String (chr (Z.land payload_len 127)) ""
      else if bool_decide (payload_len ≤ 65535)%Z then String (chr 126) (be_bytes 2 payload_len)
      else String (chr 127) (be_bytes 8 payload_len)) +:+ data).

(** ** Reference: the frames of RFC 6455 a client sends *)

Definition wire_len (mask_bit n : Z) : string :=
  if bool_decide (n ≤ 125)%Z then String (chr (mask_bit + n)) ""
  else if bool_decide (n ≤ 65535)%Z then String (chr (mask_bit + 126)) (be_bytes 2 n)
  else String (chr (mask_bit + 127)) (be_bytes 8 n).

Definition masked_frame (op : OpCode) (fi : bool) (k0 k1 k2 k3 : ascii) (data : string) : string :=
  String (first_byte op fi) (wire_len 128 (Z.of_nat (slen data))) +:+
  String k0 (String k1 (String k2 (String k3 ""))) +:+ unmask k0 k1 k2 k3 data.

(** The common shape of a frame, masked ([mb = 128]) or not ([mb = 0]). *)
Definition header (op : OpCode) (fi : bool) (mb n : Z) : string :=
  String (first_byte op fi) (wire_len mb n).
Definition header_size (n : Z) : nat :=
  if bool_decide (n ≤ 125)%Z then 2 else if bool_decide (n ≤ 65535)%Z then 4 else 10.

(** ** Lengths *)

Lemma be_val_bytes n v acc : (0 ≤ v)%Z → (0 ≤ acc)%Z → (acc * 256 ^ Z.of_nat n + v `mod` 256 ^ Z.of_nat n < two64)%Z →
  be_val acc (be_bytes n v) = (acc * 256 ^ Z.of_nat n + v `mod` 256 ^ Z.of_nat n)%Z.
Proof.
  intros Hv. revert acc. induction n as [|n IH]; intros acc Ha Hlt.
  - cbn. rewrite Z.mod_1_r. lia.
  - cbn [be_bytes be_val]. rewrite code_chr_small.
    2:{ change 255%Z with (Z.ones 8). rewrite Z.land_ones by lia. apply Z.mod_pos_bound. done. }
    set (b := Z.land (Z.shiftr v (8 * Z.of_nat n)) 255).
    assert (b = (v / 256 ^ Z.of_nat n) `mod` 256)%Z as Hb.
    { subst b. change 255%Z with (Z.ones 8). rewrite Z.land_ones, Z.shiftr_div_pow2 by lia.
      change 256%Z with (2 ^ 8)%Z. by rewrite <- Z.pow_mul_r by lia. }
    assert (0 < 256 ^ Z.of_nat n)%Z as Hp by (apply Z.pow_pos_nonneg; lia).
    assert (256 ^ Z.of_nat (S n) = 256 ^ Z.of_nat n * 256)%Z as Hpow.
    { rewrite Nat2Z.inj_succ, Z.pow_succ_r by lia. lia. }
    assert (v `mod` 256 ^ Z.of_nat (S n) = b * 256 ^ Z.of_nat n + v `mod` 256 ^ Z.of_nat n)%Z as Hm.
    { rewrite Hpow, Z.rem_mul_r, Hb by lia. lia. }
    rewrite Hm, Hpow in *. pose proof (Z.mod_pos_bound v (256 ^ Z.of_nat n) Hp).
    assert (0 ≤ b < 256)%Z by (rewrite Hb; apply Z.mod_pos_bound; done).
    assert (acc * 256 < two64)%Z by nia.
    unfold u64. rewrite Z.mod_small by (rewrite Z.shiftl_mul_pow2 by lia; cbn; lia).
    rewrite lor_shift_add by (done || lia). change (2 ^ 8)%Z with 256%Z. rewrite IH by nia. lia.
Qed.

Lemma slen_be_bytes n v : slen (be_bytes n v) = n.
Proof. induction n as [|n IH]; [done|]. cbn. by rewrite IH. Qed.

Lemma be_val_bound s acc : (0 ≤ acc < two64)%Z → (0 ≤ be_val acc s < two64)%Z.
Proof.
  revert acc. induction s as [|c s IH]; intros acc Ha; [done|]. cbn [be_val]. apply IH.
  pose proof (code_range c). apply (lor_bound _ _ 64); [done|by apply Z.mod_pos_bound|lia].
Qed.

Lemma be_val_small s acc m : (0 < m)%Z → (0 ≤ acc < 2 ^ m)%Z →
  (0 ≤ be_val acc s < 2 ^ (m + 8 * Z.of_nat (slen s)))%Z.
Proof.
  revert acc m. induction s as [|c s IH]; intros acc m Hm Ha.
  - cbn [be_val String.length]. replace (m + 8 * Z.of_nat 0)%Z with m by lia. done.
  - cbn [be_val String.length]. replace (m + 8 * Z.of_nat (S (slen s)))%Z with ((m + 8) + 8 * Z.of_nat (slen s))%Z by lia.
    apply IH; [lia|]. pose proof (code_range c) as Hc.
    assert (2 ^ (m + 8) = 2 ^ m * 256)%Z as E by (rewrite Z.pow_add_r by lia; done).
    apply lor_bound; [lia| |].
    + split; [by apply Z.mod_pos_bound|]. unfold u64. rewrite Z.shiftl_mul_pow2 by lia.
      change (2 ^ 8)%Z with 256%Z. eapply Z.le_lt_trans; [apply Z.mod_le; [lia|done]|]. lia.
    + assert (0 < 2 ^ m)%Z by (apply Z.pow_pos_nonneg; lia). lia.
Qed.

(** ** Masking *)

Lemma unmask_unmask k0 k1 k2 k3 s : unmask k0 k1 k2 k3 (unmask k0 k1 k2 k3 s) = s.
Proof.
  revert k0 k1 k2 k3. induction s as [|c s IH]; intros; [done|]. cbn [unmask]. rewrite IH. f_equal.
  assert (0 ≤ Z.lxor (code c) (code k0) < 256)%Z as Hx.
  { apply (lxor_bound _ _ 8); [done|apply code_range..]. }
  rewrite code_chr_small by done. rewrite Z.lxor_assoc, Z.lxor_nilpotent, Z.lxor_0_r. apply chr_code.
Qed.

Lemma slen_unmask k0 k1 k2 k3 s : slen (unmask k0 k1 k2 k3 s) = slen s.
Proof. revert k0 k1 k2 k3. induction s as [|c s IH]; intros; [done|]. cbn. by rewrite IH. Qed.

(** ** Headers *)

Lemma substr_mid a b c : substr (a +:+ b +:+ c) (slen a) (slen b) = b.
Proof. unfold substr. by rewrite sdrop_app, stake_app. Qed.

Lemma first_byte_bits op fi : (0 ≤ op < 16)%Z →
  Z.testbit (code (first_byte op fi)) 7 = fi ∧ Z.land (code (first_byte op fi)) 15 = op.
Proof.
  intros Hop. unfold first_byte.
  assert (op = 0 ∨ op = 1 ∨ op = 2 ∨ op = 3 ∨ op = 4 ∨ op = 5 ∨ op = 6 ∨ op = 7 ∨ op = 8 ∨ op = 9 ∨
    op = 10 ∨ op = 11 ∨ op = 12 ∨ op = 13 ∨ op = 14 ∨ op = 15)%Z as H by lia.
  by destruct fi; repeat destruct H as [->|H]; subst; vm_compute.
Qed.

Lemma len_byte_bits mb l : mb = 0%Z ∨ mb = 128%Z → (0 ≤ l < 128)%Z →
  Z.testbit (code (chr (mb + l))) 7 = bool_decide (mb = 128%Z) ∧ Z.land (code (chr (mb + l))) 127 = l.
Proof.
  intros Hmb Hl. rewrite code_chr_small by lia. change 127%Z with (Z.ones 7).
  rewrite Z.land_ones by lia. change (2 ^ 7)%Z with 128%Z.
  assert (Z.testbit (mb + l) 7 = Z.odd ((mb + l) / 128))%Z as ->.
  { rewrite <- Z.bit0_odd. change 128%Z with (2 ^ 7)%Z. by rewrite Z.div_pow2_bits by lia. }
  destruct Hmb as [->| ->].
  - rewrite Z.add_0_l, Z.div_small, Z.mod_small by lia. by rewrite bool_decide_eq_false_2.
  - rewrite bool_decide_eq_true_2 by done. replace (128 + l)%Z with (l + 1 * 128)%Z by lia.
    by rewrite Z.div_add, Z.mod_add, Z.div_small, Z.mod_small by lia.
Qed.

Lemma slen_header op fi mb n : slen (header op fi mb n) = header_size n.
Proof. unfold header, header_size, wire_len. by repeat case_bool_decide. Qed.

Lemma be_val_exact k v : (0 ≤ v < 256 ^ Z.of_nat k)%Z → (256 ^ Z.of_nat k ≤ two64)%Z →
  be_val 0 (be_bytes k v) = v.
Proof. intros Hv Hk. rewrite be_val_bytes; rewrite ?Z.mod_small by lia; lia. Qed.

Lemma decode_header op fi mb n t : (0 ≤ op < 16)%Z → mb = 0%Z ∨ mb = 128%Z → (0 ≤ n < two64)%Z →
  decode (header op fi mb n +:+ t) =
  decode_payload (header op fi mb n +:+ t) op fi (bool_decide (mb = 128%Z)) (Z.of_nat (header_size n)) n.
Proof.
  intros Hop Hmb Hn. destruct (first_byte_bits op fi Hop) as [Hb1 Hb2].
  pose proof (λ l, len_byte_bits mb l Hmb) as Hlen. revert Hlen.
  generalize (bool_decide (mb = 128%Z)) as m. intros m Hlen.
  unfold header, wire_len, header_size. repeat case_bool_decide; rewrite !sapp_cons; cbn [decode].
  - destruct (Hlen n) as [-> ->]; [lia|].
    rewrite Hb1, Hb2, !bool_decide_eq_false_2 by lia. done.
  - destruct (Hlen 126%Z) as [-> ->]; [lia|].
    rewrite Hb1, Hb2, bool_decide_eq_true_2, bool_decide_eq_false_2 by (done || (cbn [String.length]; rewrite ?slen_app, ?slen_be_bytes; lia)).
    change (substr (String ?a (String ?b (be_bytes 2 n +:+ t))) 2 2) with (stake 2 (be_bytes 2 n +:+ t)).
    assert (stake 2 (be_bytes 2 n +:+ t) = be_bytes 2 n) as ->
      by (rewrite <- (slen_be_bytes 2 n) at 1; apply stake_app).
    by rewrite be_val_exact by (change (256 ^ Z.of_nat 2)%Z with 65536%Z; unfold two64; lia).
  - destruct (Hlen 127%Z) as [-> ->]; [lia|].
    rewrite Hb1, Hb2, (bool_decide_eq_false_2 (127 = 126)%Z), bool_decide_eq_true_2, bool_decide_eq_false_2
      by (done || (cbn [String.length]; rewrite ?slen_app, ?slen_be_bytes; lia)).
    change (substr (String ?a (String ?b (be_bytes 8 n +:+ t))) 2 8) with (stake 8 (be_bytes 8 n +:+ t)).
    assert (stake 8 (be_bytes 8 n +:+ t) = be_bytes 8 n) as ->
      by (rewrite <- (slen_be_bytes 8 n) at 1; apply stake_app).
    rewrite be_val_exact; [done| |done]. change (256 ^ Z.of_nat 8)%Z with two64. lia.
Qed.

(** A frame that is not all there yet. *)
Lemma decode_short op fi mb n t : (0 ≤ op < 16)%Z → mb = 0%Z ∨ mb = 128%Z → (0 ≤ n ≤ string_max)%Z →
  (Z.of_nat (slen t) < (if bool_decide (mb = 128%Z) then 4 else 0) + n)%Z →
  decode (header op fi mb n +:+ t) = Ok None.
Proof.
  intros Hop Hmb Hn Ht. unfold string_max in Hn. rewrite decode_header by (unfold two64; lia || done).
  unfold decode_payload. rewrite slen_app, slen_header.
  assert (header_size n ≤ 10) by (unfold header_size; repeat case_bool_decide; lia).
  rewrite (bool_decide_eq_true_2 (_ < _)%Z); [done|].
  unfold u64. case_bool_decide; rewrite Z.mod_small by (unfold two64; lia); lia.
Qed.

Lemma decode_short_header op fi mb n k : (0 ≤ op < 16)%Z → mb = 0%Z ∨ mb = 128%Z →
  k < header_size n → decode (stake k (header op fi mb n)) = Ok None.
Proof.
  intros Hop Hmb Hk. unfold header, wire_len, header_size in *.
  destruct k as [|[|k]]; [done..|]. repeat case_bool_decide; [lia|..]; cbn [stake decode].
  - destruct (len_byte_bits mb 126 Hmb) as [-> ->]; [lia|].
    rewrite bool_decide_eq_true_2, bool_decide_eq_true_2; [done| |done].
    cbn [String.length]. rewrite slen_stake. lia.
  - destruct (len_byte_bits mb 127 Hmb) as [-> ->]; [lia|].
    rewrite bool_decide_eq_false_2, bool_decide_eq_true_2, bool_decide_eq_true_2; [done| |done|done].
    cbn [String.length]. rewrite slen_stake. lia.
Qed.

Lemma encode_header op data fi : encode op data fi = header op fi 0 (Z.of_nat (slen data)) +:+ data.
Proof.
  unfold encode, header, wire_len. repeat case_bool_decide; try done.
  assert (Z.land (Z.of_nat (slen data)) 127 = 0 + Z.of_nat (slen data))%Z as ->; [|done].
  change 127%Z with (Z.ones 7). rewrite Z.land_ones, Z.mod_small by (cbn; lia). lia.
Qed.

(** The end of [decode] on a complete frame. *)
Lemma decode_payload_full op fi mb n key raw rest f :
  (bool_decide (mb = 128%Z) = true ∧ slen key = 4 ∨ bool_decide (mb = 128%Z) = false ∧ key = "") →
  Z.of_nat (slen raw) = n → (n ≤ string_max)%Z →
  f = mk_frame op fi (bool_decide (mb = 128%Z)) (unmask_with key raw) →
  decode_payload (header op fi mb n +:+ key +:+ raw +:+ rest) op fi (bool_decide (mb = 128%Z))
    (Z.of_nat (header_size n)) n =
  Ok (Some (f, Z.of_nat (header_size n + slen key + slen raw))).
Proof.
  intros Hkey Hraw Hn ->. subst n. unfold decode_payload, string_max in *.
  set (s := header _ _ _ _ +:+ _).
  assert (slen s = header_size (Z.of_nat (slen raw)) + (slen key + (slen raw + slen rest))) as Hs
    by (unfold s; by rewrite !slen_app, slen_header).
  assert (header_size (Z.of_nat (slen raw)) ≤ 10) by (unfold header_size; repeat case_bool_decide; lia).
  assert (substr s (header_size (Z.of_nat (slen raw)) + slen key) (slen raw) = raw) as Hr.
  { unfold s. rewrite <- (slen_header op fi mb), <- slen_app, <- sapp_assoc. apply substr_mid. }
  assert (substr s (header_size (Z.of_nat (slen raw))) (slen key) = key) as Hk.
  { unfold s. rewrite <- (slen_header op fi mb). apply substr_mid. }
  rewrite (bool_decide_eq_false_2 (_ < Z.of_nat (slen raw))%Z) by lia.
  destruct Hkey as [[Hm H4]|[Hm ->]]; rewrite Hm.
  - rewrite H4 in *. unfold u64. rewrite Z.mod_small by (unfold two64; lia).
    rewrite bool_decide_eq_false_2 by lia.
    replace (Z.to_nat (Z.of_nat (header_size (Z.of_nat (slen raw))) + 4)) with (header_size (Z.of_nat (slen raw)) + 4) by lia.
    rewrite Nat2Z.id, Nat.add_sub, Hr, Hk. do 3 f_equal. lia.
  - cbn [String.length] in *. unfold u64. rewrite Z.mod_small by (unfold two64; lia).
    rewrite bool_decide_eq_false_2 by lia. rewrite Nat.add_0_r in *. rewrite !Nat2Z.id, Hr.
    do 3 f_equal. lia.
Qed.

(** ** Properties *)

Lemma ws_frame_ok op fi k0 k1 k2 k3 data rest : (0 ≤ op < 16)%Z → (Z.of_nat (slen data) ≤ string_max)%Z →
  let c := masked_frame op fi k0 k1 k2 k3 data in
  let e := encode op data fi in
  decode (c +:+ rest) = Ok (Some (mk_frame op fi true data, Z.of_nat (slen c))) ∧
  decode (e +:+ rest) = Ok (Some (mk_frame op fi false data, Z.of_nat (slen e))) ∧
  (∀ k, k < slen c → decode (stake k c) = Ok None) ∧
  (∀ k, k < slen e → decode (stake k e) = Ok None).
Proof.
  intros Hop Hlen.
  set (key := String k0 (String k1 (String k2 (String k3 "")))).
  set (n := Z.of_nat (slen data)) in *. set (raw := unmask k0 k1 k2 k3 data).
  assert (0 ≤ n < two64)%Z as Hn by (unfold n, string_max, two64 in *; lia).
  assert (slen raw = slen data) as Hraw by apply slen_unmask.
  cbv zeta. rewrite encode_header. fold n.
  change (masked_frame op fi k0 k1 k2 k3 data) with (header op fi 128 n +:+ key +:+ raw).
  split_and!.
  - rewrite !sapp_assoc, decode_header by (done || by right).
    rewrite (decode_payload_full _ _ _ _ _ _ _ (mk_frame op fi true data)).
    + rewrite !slen_app, slen_header. do 3 f_equal. lia.
    + by left.
    + by rewrite Hraw.
    + done.
    + unfold raw, key. cbn [unmask_with]. by rewrite unmask_unmask.
  - rewrite !sapp_assoc, decode_header by (done || by left). rewrite <- (sapp_nil_l (data +:+ rest)).
    rewrite (decode_payload_full _ _ _ _ _ _ _ (mk_frame op fi false data)).
    + rewrite !slen_app, slen_header. do 3 f_equal. cbn. lia.
    + by right.
    + done.
    + done.
    + done.
  - intros k Hk. rewrite !slen_app, slen_header in Hk.
    destruct (decide (k < header_size n)) as [Hs|Hs].
    + rewrite stake_app_lt by (by rewrite slen_header). apply decode_short_header; auto.
    + rewrite stake_app_ge by (rewrite slen_header; lia). apply decode_short; [done|by right|by split; [apply Hn|exact Hlen]|].
      rewrite slen_stake, slen_app, slen_header, bool_decide_eq_true_2 by done.
      change (slen key) with 4 in *. unfold n in *. lia.
  - intros k Hk. rewrite !slen_app, slen_header in Hk.
    destruct (decide (k < header_size n)) as [Hs|Hs].
    + rewrite stake_app_lt by (by rewrite slen_header). apply decode_short_header; auto.
    + rewrite stake_app_ge by (rewrite slen_header; lia). apply decode_short; [done|by left|by split; [apply Hn|exact Hlen]|].
      rewrite slen_stake, slen_header, bool_decide_eq_false_2 by done. unfold n in *. lia.
Qed.

(** C39. Frames survive the codec: a client's masked frame and the frame [encode]
    writes decode to the opcode, FIN bit and payload they were made from and
    consume exactly their own bytes, whatever follows them; a proper prefix of
    either is reported incomplete. Payloads of every length class are covered. *)
Theorem ws_frame_roundtrip (op : OpCode) (fi : bool) (k0 k1 k2 k3 : ascii) (data rest : string)
    (Hop : (0 ≤ op < 16)%Z) (Hlen : (Z.of_nat (slen data) ≤ string_max)%Z) :
  let c := masked_frame op fi k0 k1 k2 k3 data in
  let e := encode op data fi in
  decode (c +:+ rest) = Ok (Some (mk_frame op fi true data, Z.of_nat (slen c))) ∧
  decode (e +:+ rest) = Ok (Some (mk_frame op fi false data, Z.of_nat (slen e))) ∧
  (∀ k, k < slen c → decode (stake k c) = Ok None) ∧
  (∀ k, k < slen e → decode (stake k e) = Ok None).
Proof. exact (ws_frame_ok op fi k0 k1 k2 k3 data rest Hop Hlen). Qed.

Lemma ws_frame_roundtrip_witness :
  decode (masked_frame kPing true "a" "b" "c" "d" "hello" +:+ "tail") =
    Ok (Some (mk_frame kPing true true "hello", 11%Z)).
Proof.
  apply (ws_frame_roundtrip kPing true "a" "b" "c" "d" "hello" "tail"); [unfold kPing; lia|vm_compute; discriminate].
Defined.

Lemma land_ones_bound a n : (0 < n)%Z → (0 ≤ Z.land a (Z.ones n) < 2 ^ n)%Z.
Proof. intros. rewrite Z.land_ones by lia. apply Z.mod_pos_bound, Z.pow_pos_nonneg; lia. Qed.

(** What [decode] guarantees for a header of [hl] bytes it has read. *)
Lemma decode_payload_safe s op fi ma hl pl : (Z.of_nat (slen s) ≤ string_max)%Z →
  (2 ≤ hl ≤ 10)%Z → (0 ≤ pl < two64)%Z → (0 ≤ op < 16)%Z →
  match decode_payload s op fi ma hl pl with
  | Ok None => True
  | Ok (Some (f, n)) => (2 ≤ n ≤ Z.of_nat (slen s))%Z ∧
      (Z.of_nat (slen (payload f)) ≤ n - 2)%Z ∧ (0 ≤ opcode f < 16)%Z
  | Throw e => ex_kind e = ELengthError ∧ (two64 ≤ pl + 14)%Z
  end.
Proof.
  intros Hs Hhl Hpl Hop. unfold decode_payload, string_max in *.
  set (hl' := if ma then (hl + 4)%Z else hl). assert (hl ≤ hl' ≤ hl + 4)%Z by (unfold hl'; destruct ma; lia).
  case_bool_decide as H1; [done|]. case_bool_decide as H2.
  - split; [done|]. destruct (decide (two64 ≤ hl' + pl)%Z); [lia|].
    unfold u64 in H1. rewrite Z.mod_small in H1 by lia. lia.
  - unfold u64 in *. rewrite Z.mod_small in * by (unfold two64; lia).
    split_and!; [lia|lia| |cbn [opcode]; lia..]. cbn [payload].
    assert (slen (substr s (Z.to_nat hl') (Z.to_nat pl)) ≤ Z.to_nat pl) as Hsub
      by (unfold substr; rewrite slen_stake; lia).
    destruct ma; [|lia]. unfold unmask_with. repeat case_match; rewrite ?slen_unmask; lia.
Qed.

(** C40. On arbitrary bytes the decoder never reads past the data: a decoded
    frame consumes at least two and at most all of them and its payload lies
    within; the only exception is the length error raised when the announced
    64-bit length makes the bounds check wrap around. *)
Theorem decode_safe (s : string) (Hs : (Z.of_nat (slen s) ≤ string_max)%Z) :
  match decode s with
  | Ok None => True
  | Ok (Some (f, n)) => (2 ≤ n ≤ Z.of_nat (slen s))%Z ∧
      (Z.of_nat (slen (payload f)) ≤ n - 2)%Z ∧ (0 ≤ opcode f < 16)%Z
  | Throw e => ex_kind e = ELengthError ∧ 10 ≤ slen s ∧ (two64 ≤ be_val 0 (substr s 2 8) + 14)%Z
  end.
Proof.
  destruct s as [|b0 [|b1 t]]; [done..|]. unfold decode. set (s := String b0 (String b1 t)) in *.
  set (l := Z.land (code b1) 127). assert (0 ≤ l < 128)%Z as Hl by (apply (land_ones_bound (code b1) 7); done).
  pose proof (λ fi ma hl pl H1 H2, decode_payload_safe s (Z.land (code b0) 15) fi ma hl pl Hs H1 H2
    (land_ones_bound (code b0) 4 eq_refl)) as Hp.
  case_bool_decide as H126; [case_bool_decide; [done|]|case_bool_decide as H127; [case_bool_decide; [done|]|]].
  - assert (0 ≤ be_val 0 (substr s 2 2) < 2 ^ 17)%Z as Hb.
    { destruct (be_val_small (substr s 2 2) 0 1) as [Hb1 Hb2]; [done|done|]. split; [done|].
      eapply Z.lt_le_trans; [exact Hb2|]. apply Z.pow_le_mono_r; [done|].
      unfold substr. rewrite slen_stake. lia. }
    specialize (Hp (Z.testbit (code b0) 7) (Z.testbit (code b1) 7) 4%Z (be_val 0 (substr s 2 2)) ltac:(lia) ltac:(unfold two64; lia)).
    destruct (decode_payload _ _ _ _ _ _) as [[[f n]|]|e]; try done. unfold two64 in *. lia.
  - assert (0 ≤ be_val 0 (substr s 2 8) < two64)%Z as Hb by by apply be_val_bound.
    specialize (Hp (Z.testbit (code b0) 7) (Z.testbit (code b1) 7) 10%Z (be_val 0 (substr s 2 8)) ltac:(lia) Hb).
    destruct (decode_payload _ _ _ _ _ _) as [[[f n]|]|e]; try done. destruct Hp. split_and!; [done|lia|done].
  - specialize (Hp (Z.testbit (code b0) 7) (Z.testbit (code b1) 7) 2%Z l ltac:(lia) ltac:(unfold two64; lia)).
    destruct (decode_payload _ _ _ _ _ _) as [[[f n]|]|e]; try done. unfold two64 in *. lia.
Qed.

(** A fourteen-byte frame whose announced length overflows the check. *)
Definition overflow_frame : string :=
  String (chr 129) (String (chr 127) (be_bytes 8 (two64 - 1) +:+ "abcd")).

Lemma decode_safe_witness :
  decode overflow_frame = Throw (Exn ELengthError "basic_string::_M_replace") ∧
  match decode overflow_frame with
  | Ok _ => False
  | Throw e => ex_kind e = ELengthError ∧ 10 ≤ slen overflow_frame ∧
      (two64 ≤ be_val 0 (substr overflow_frame 2 8) + 14)%Z
  end.
Proof.
  split; [vm_compute; reflexivity|].
  assert (Z.of_nat (slen overflow_frame) ≤ string_max)%Z as H by (vm_compute; discriminate).
  pose proof (decode_safe overflow_frame H) as Hd. revert Hd.
  replace (decode overflow_frame) with (@Throw (option (WsFrame * Z)) (Exn ELengthError "basic_string::_M_replace"))
    by (vm_compute; reflexivity).
  exact (λ H, H).
Defined.

End WsCodec.

(** * Connections *)

Module WsHandler.
Import WsCodec.

(** [feed]: the bytes consumed and the frames sent to the connection. *)
Definition feed (data : string) : result (Z * list string) :=
  match decode data with
  | Throw e => Throw e
  | Ok None => Ok (0%Z, [])
  | Ok (Some (frame, consumed)) =>
      if bool_decide (opcode frame = kPing) then Ok (consumed, [encode kPong (payload frame) true])
      else if bool_decide (opcode frame = kClose) then Ok (consumed, [encode kClose "" true])
      else Ok (consumed, [])
  end.

(** [send]. *)
Definition send (data : string) : string := encode kText data true.

(** The message callback of main.cpp on an upgraded connection: [buf] is the
    input buffer after the read; what stays in it and what was sent. *)
Definition on_message (buf : string) : result (string * list string) :=
  if sempty buf then Ok (buf, [])
  else match feed buf with
       | Ok (consumed, out) => Ok (sdrop (Z.to_nat consumed) buf, out)
       | Throw e => Throw e
       end.

(** One callback per read event, with the bytes each event adds. *)
Fixpoint on_reads (buf : string) (reads : list string) : result (string * list string) :=
  match reads with
  | [] => Ok (buf, [])
  | r :: reads' =>
      match on_message (buf +:+ r) with
      | Throw e => Throw e
      | Ok (buf1, out1) =>
          match on_reads buf1 reads' with
          | Throw e => Throw e
          | Ok (buf2, out2) => Ok (buf2, out1 ++ out2)
          end
      end
  end.

(** ** Reference *)

(** A client frame: opcode, FIN, mask and payload. *)
Record client := Client { c_op : OpCode; c_fin : bool; c_k0 : ascii; c_k1 : ascii; c_k2 : ascii; c_k3 : ascii; c_data : string }.
Definition c_text (c : client) : string :=
  masked_frame (c_op c) (c_fin c) (c_k0 c) (c_k1 c) (c_k2 c) (c_k3 c) (c_data c).
Definition c_ok (c : client) : bool :=
  bool_decide (0 ≤ c_op c < 16)%Z && bool_decide (Z.of_nat (slen (c_data c)) ≤ string_max)%Z.
Definition reply (c : client) : list string :=
  if bool_decide (c_op c = kPing) then [encode kPong (c_data c) true]
  else if bool_decide (c_op c = kClose) then [encode kClose "" true] else [].
Definition texts (l : list client) : string := foldr (λ c s, c_text c +:+ s) "" l.

(** ** Lemmas *)

Lemma on_message_frame c rest : c_ok c = true →
  on_message (c_text c +:+ rest) = Ok (rest, reply c).
Proof.
  intros [Hop%bool_decide_eq_true Hl%bool_decide_eq_true]%andb_true_iff.
  destruct (ws_frame_ok (c_op c) (c_fin c) (c_k0 c) (c_k1 c) (c_k2 c) (c_k3 c) (c_data c) rest Hop Hl) as [Hd _].
  unfold on_message, feed. fold (c_text c) in Hd. rewrite Hd. cbn [opcode payload].
  assert (sempty (c_text c +:+ rest) = false) as ->.
  { unfold sempty. apply bool_decide_eq_false_2. done. }
  unfold reply. repeat case_bool_decide; by rewrite Nat2Z.id, sdrop_app.
Qed.

Lemma texts_app l1 l2 : texts (l1 ++ l2) = texts l1 +:+ texts l2.
Proof. induction l1 as [|c l1 IH]; [done|]. cbn [texts foldr app]. unfold texts in IH. by rewrite IH, sapp_assoc. Qed.

Lemma on_reads_backlog pending ds : forallb c_ok (pending ++ ds) = true →
  on_reads (texts pending) (map c_text ds) =
  Ok (texts (drop (length ds) (pending ++ ds)), concat (map reply (take (length ds) (pending ++ ds)))).
Proof.
  revert pending. induction ds as [|d ds IH]; intros p Hok; [by rewrite app_nil_r|].
  cbn [map on_reads length]. assert (texts p +:+ c_text d = texts (p ++ [d])) as ->.
  { rewrite texts_app. cbn. by rewrite sapp_nil_r. }
  replace (p ++ d :: ds) with ((p ++ [d]) ++ ds) in * by (by rewrite <- (assoc_L (++))).
  destruct (p ++ [d]) as [|f p'] eqn:E; [by destruct p|]. cbn [app forallb] in Hok.
  apply andb_true_iff in Hok as [Hf Hok].
  change (texts (f :: p')) with (c_text f +:+ texts p'). rewrite on_message_frame by done.
  by rewrite IH.
Qed.

(** A ping is answered by one pong with its payload and a close by one close
    frame, in order; but each read event handles a single frame: when one read
    brings the frames [cs] and each later read one more of [ds], only the first
    [1 + length ds] frames are answered and the others are still in the buffer. *)
Theorem ws_one_frame_per_event (cs ds : list client) (Hok : forallb c_ok (cs ++ ds) = true)
    (Hne : 0 < length cs) :
  on_reads "" (texts cs :: map c_text ds) =
  Ok (texts (drop (S (length ds)) (cs ++ ds)), concat (map reply (take (S (length ds)) (cs ++ ds)))).
Proof.
  destruct cs as [|c cs]; [cbn in Hne; lia|]. cbn [on_reads app forallb] in *. rewrite sapp_nil_l.
  apply andb_true_iff in Hok as [Hc Hok].
  change (texts (c :: cs)) with (c_text c +:+ texts cs).
  by rewrite on_message_frame, on_reads_backlog.
Qed.

Lemma ws_one_frame_per_event_witness :
  let p s := Client kPing true "k" "e" "y" "s" s in
  on_reads "" [texts [p "one"; p "two"]; c_text (p "three")] =
  Ok (texts [p "three"], [encode kPong "one" true; encode kPong "two" true]).
Proof.
  exact (ws_one_frame_per_event
    [Client kPing true "k" "e" "y" "s" "one"; Client kPing true "k" "e" "y" "s" "two"]
    [Client kPing true "k" "e" "y" "s" "three"] eq_refl (le_S _ _ (le_n 1))).
Defined.

End WsHandler.

Module WsHandshake.

(** SHA-1 and standard Base64 come from OpenSSL. *)
Class Handshake := {
  evp_sha1 : string → string;
  evp_encode_block : string → string
}.

Section with_openssl.
Context {O : Handshake}.

Definition is_ws_upgrade (sec_websocket_key : string) : bool := true.

Definition guid : string := "258EAFA5-E914-47DA-95CA-C5AB0DC85B11".

Definition build_upgrade_response (key : string) : string :=
  "HTTP/1.1 101 Switching Protocols" +:+ HttpResponse.CRLF +:+
  "Upgrade: websocket" +:+ HttpResponse.CRLF +:+
  "Connection: Upgrade" +:+ HttpResponse.CRLF +:+
  "Sec-WebSocket-Accept: " +:+ evp_encode_block (evp_sha1 (key +:+ guid)) +:+ HttpResponse.CRLF +:+
  HttpResponse.CRLF.

End with_openssl.

End WsHandshake.

(** ** The sessions: who is told about which upload *)

Module WsSession.
Import WsCodec.

(** Connections by number; the text of every frame sent, newest last. *)
Record WsSessionManager := mk {
  sessions_ : gmap string nat;
  metrics_subscribers_ : list nat;
  sent : list (nat * string)
}.

Definition empty : WsSessionManager := mk ∅ [] [].

Definition send_text_frame (conn : nat) (json : string) (m : WsSessionManager) : WsSessionManager :=
  mk (sessions_ m) (metrics_subscribers_ m) (sent m ++ [(conn, encode kText json true)]).

Definition register_session (upload_id : string) (conn : nat) (m : WsSessionManager) : WsSessionManager :=
  mk (<[upload_id := conn]> (sessions_ m)) (metrics_subscribers_ m) (sent m).

Definition register_metrics (conn : nat) (m : WsSessionManager) : WsSessionManager :=
  mk (sessions_ m) (metrics_subscribers_ m ++ [conn]) (sent m).

Definition remove_session (conn : nat) (m : WsSessionManager) : WsSessionManager :=
  mk (filter (λ kv, snd kv ≠ conn) (sessions_ m))
     (filter (λ c, c ≠ conn) (metrics_subscribers_ m)) (sent m).

Definition remove_session_by_id (upload_id : string) (m : WsSessionManager) : WsSessionManager :=
  mk (delete upload_id (sessions_ m)) (metrics_subscribers_ m) (sent m).

(** A member of the JSON text [push_progress] and [push_complete] write. *)
Definition qkey (k : string) : string := HttpResponse.quoted k +:+ ":".

Definition push_progress (upload_id : string) (percent bytes_uploaded total_size : Z)
    (m : WsSessionManager) : WsSessionManager :=
  match sessions_ m !! upload_id with
  | None => m
  | Some conn =>
      send_text_frame conn
        ("{" +:+ qkey "type" +:+ HttpResponse.quoted "progress" +:+ "," +:+
         qkey "upload_id" +:+ HttpResponse.quoted upload_id +:+ "," +:+
         qkey "percent" +:+ to_string percent +:+ "," +:+
         qkey "bytes_uploaded" +:+ to_string bytes_uploaded +:+ "," +:+
         qkey "total_size" +:+ to_string total_size +:+ "}") m
  end.

Definition push_complete (upload_id file_id : string) (m : WsSessionManager) : WsSessionManager :=
  match sessions_ m !! upload_id with
  | None => m
  | Some conn =>
      send_text_frame conn
        ("{" +:+ qkey "type" +:+ HttpResponse.quoted "complete" +:+ "," +:+
         qkey "upload_id" +:+ HttpResponse.quoted upload_id +:+ "," +:+
         qkey "file_id" +:+ HttpResponse.quoted file_id +:+ "," +:+
         qkey "percent" +:+ "100}") m
  end.

(** [dump_json] is the text [Metrics::dump_json] gives at that moment. *)
Definition push_metrics_snapshot (dump_json : string) (conn : nat) (m : WsSessionManager) : WsSessionManager :=
  send_text_frame conn dump_json m.

(** The subscribers are live shared pointers, and a failed send is swallowed by
    [send_text_frame]: the loop keeps every one. *)
Definition broadcast_metrics (dump_json : string) (m : WsSessionManager) : WsSessionManager :=
  foldl (λ m conn, send_text_frame conn dump_json m) m (metrics_subscribers_ m).

Inductive op :=
  | RegisterSession (upload_id : string) (conn : nat)
  | RegisterMetrics (conn : nat)
  | RemoveSession (conn : nat)
  | RemoveById (upload_id : string)
  | PushProgress (upload_id : string) (percent bytes total : Z)
  | PushComplete (upload_id file_id : string)
  | PushSnapshot (dump : string) (conn : nat)
  | Broadcast (dump : string).

Definition run (o : op) (m : WsSessionManager) : WsSessionManager :=
  match o with
  | RegisterSession u c => register_session u c m
  | RegisterMetrics c => register_metrics c m
  | RemoveSession c => remove_session c m
  | RemoveById u => remove_session_by_id u m
  | PushProgress u p b t => push_progress u p b t m
  | PushComplete u f => push_complete u f m
  | PushSnapshot d c => push_metrics_snapshot d c m
  | Broadcast d => broadcast_metrics d m
  end.

Definition run_all (os : list op) (m : WsSessionManager) : WsSessionManager := foldl (λ m o, run o m) m os.

(** No operation names the connection. *)
Definition silent (c : nat) (o : op) : Prop :=
  match o with
  | RegisterSession _ c' | RegisterMetrics c' | PushSnapshot _ c' => c' ≠ c
  | _ => True
  end.

(** A connection the manager does not know. *)
Definition unknown (c : nat) (m : WsSessionManager) : Prop :=
  (∀ u, sessions_ m !! u ≠ Some c) ∧ c ∉ metrics_subscribers_ m.

Definition sent_to (c : nat) (m : WsSessionManager) : list (nat * string) := filter (λ p, fst p = c) (sent m).

Lemma remove_unknown c m : unknown c (remove_session c m).
Proof.
  split; cbn.
  - intros u Hu%map_lookup_filter_Some. by destruct Hu as [_ Hu].
  - intros [H _]%list_elem_of_filter. done.
Qed.

Lemma send_other c c' j m : c' ≠ c → sent_to c (send_text_frame c' j m) = sent_to c m.
Proof.
  intros Hne. unfold sent_to. cbn. rewrite filter_app, filter_cons_False, filter_nil by done.
  by rewrite app_nil_r.
Qed.

Lemma send_unknown c c' j m : unknown c m → unknown c (send_text_frame c' j m).
Proof. done. Qed.

Lemma broadcast_other c d l m : c ∉ l → unknown c m →
  let m' := foldl (λ m conn, send_text_frame conn d m) m l in
  unknown c m' ∧ sent_to c m' = sent_to c m.
Proof.
  revert m. induction l as [|x l IH]; intros m Hl Hm; [done|]. apply not_elem_of_cons in Hl as [Hx Hl].
  cbn [foldl]. destruct (IH (send_text_frame x d m) Hl (send_unknown _ _ _ _ Hm)) as [H1 H2].
  split; [done|]. rewrite H2. by apply send_other.
Qed.

Lemma run_unknown c o m : unknown c m → silent c o →
  unknown c (run o m) ∧ sent_to c (run o m) = sent_to c m.
Proof.
  intros Hm Ho. pose proof Hm as [H1 H2]. destruct o as [u c'|c'|c'|u|u p b t|u f|d c'|d]; cbn in Ho |- *.
  - split; [|done]. split; [|done]. intros u'. cbn. destruct (decide (u = u')) as [->|].
    + rewrite lookup_insert_eq. congruence.
    + rewrite lookup_insert_ne by done. apply H1.
  - split; [|done]. split; [done|]. cbn. rewrite elem_of_app, list_elem_of_singleton. naive_solver.
  - split; [|done]. split; cbn.
    + intros u [Hu _]%map_lookup_filter_Some. by eapply H1.
    + intros [_ ?]%list_elem_of_filter. done.
  - split; [|done]. split; [|done]. cbn. intros u' [_ Hu]%lookup_delete_Some. by eapply H1.
  - unfold push_progress. case_match eqn:E; [|done].
    split; [done|]. apply send_other. intros ->. by eapply H1.
  - unfold push_complete. case_match eqn:E; [|done].
    split; [done|]. apply send_other. intros ->. by eapply H1.
  - split; [done|]. by apply send_other.
  - by apply broadcast_other.
Qed.

(** Once a closed connection has been removed from the session manager,
    nothing is sent to it any more: progress, completion and metrics pushes of any
    later sequence of operations reach other connections only. *)
Theorem removed_connection_silent (c : nat) (m : WsSessionManager) (os : list op)
    (Hos : Forall (silent c) os) :
  sent_to c (run_all os (remove_session c m)) = sent_to c m.
Proof.
  change (sent_to c m) with (sent_to c (remove_session c m)).
  pose proof (remove_unknown c m) as Hu. revert Hu. generalize (remove_session c m). clear m.
  induction Hos as [|o os Ho Hos IH]; intros m Hu; [done|].
  destruct (run_unknown c o m Hu Ho) as [H1 H2]. rewrite <- H2. by apply IH.
Qed.

Lemma removed_connection_silent_witness :
  let m := run_all [RegisterSession "u" 1; RegisterMetrics 1; RegisterMetrics 2] empty in
  sent_to 1 (run_all [PushProgress "u" 10 1 10; Broadcast "{}"] (remove_session 1 m)) = sent_to 1 m.
Proof.
  apply (removed_connection_silent 1 (run_all [RegisterSession "u" 1; RegisterMetrics 1; RegisterMetrics 2] empty)
    [PushProgress "u" 10 1 10; Broadcast "{}"]).
  repeat constructor.
Defined.

End WsSession.
