(* ===== verification/Jwt.v ===== *)
(** Tokens and authentication: [JwtUtil] (src/auth/jwt.h, jwt.cpp),
    [AuthMiddleware::authenticate] (auth_middleware.cpp) and [require_auth_user]
    (request_auth.h). HMAC-SHA256 (OpenSSL) and the clock are arguments. *)
From S2P Require Import Prelude JsonValue HttpMessage HttpRouter.

Module Base64.

Definition b64_table : string := "ABCDEFGHIJKLMNOPQRSTUVWXYZabcdefghijklmnopqrstuvwxyz0123456789-_".
Definition std_table : string := "ABCDEFGHIJKLMNOPQRSTUVWXYZabcdefghijklmnopqrstuvwxyz0123456789+/".

(** [table[i]]. *)
Definition at_table (table : string) (i : Z) : ascii := default "000"%char (String.get (Z.to_nat i) table).

(** The reverse table: 0xFF where no entry was written. *)
Fixpoint index_from (i : Z) (c : ascii) (table : string) : Z :=
  match table with
  | "" => 255
  | String d t => if bool_decide (c = d) then i else index_from (i + 1) c t
  end.
Definition dec (c : ascii) : Z := index_from 0 c b64_table.

(** The loop of [base64url_encode], three bytes a turn. *)
Fixpoint enc_groups (s : string) : string :=
  match s with
  | String a (String b (String c rest)) =>
      let '(b0, b1, b2) := (code a, code b, code c) in
      String (at_table std_table (Z.shiftr b0 2))
        (String (at_table std_table (Z.lor (Z.shiftl (Z.land b0 3) 4) (Z.shiftr b1 4)))
          (String (at_table std_table (Z.lor (Z.shiftl (Z.land b1 15) 2) (Z.shiftr b2 6)))
            (String (at_table std_table (Z.land b2 63)) (enc_groups rest))))
  | String a (String b "") =>
      let '(b0, b1, b2) := (code a, code b, 0%Z) in
      String (at_table std_table (Z.shiftr b0 2))
        (String (at_table std_table (Z.lor (Z.shiftl (Z.land b0 3) 4) (Z.shiftr b1 4)))
          (String (at_table std_table (Z.lor (Z.shiftl (Z.land b1 15) 2) (Z.shiftr b2 6))) ""))
  | String a "" =>
      let '(b0, b1) := (code a, 0%Z) in
      String (at_table std_table (Z.shiftr b0 2))
        (String (at_table std_table (Z.lor (Z.shiftl (Z.land b0 3) 4) (Z.shiftr b1 4))) "")
  | "" => ""
  end.

(** [while (!out.empty() && out.back() == '=') out.pop_back();] *)
Fixpoint strip_eq (s : string) : string :=
  match s with
  | "" => ""
  | String c s' =>
      let t := strip_eq s' in
      if bool_decide (c = "="%char) && sempty t then "" else String c t
  end.

Definition to_url (c : ascii) : ascii :=
  if bool_decide (c = "+"%char) then "-"%char
  else if bool_decide (c = "/"%char) then "_"%char else c.
Definition from_url (c : ascii) : ascii :=
  if bool_decide (c = "-"%char) then "+"%char
  else if bool_decide (c = "_"%char) then "/"%char else c.

Definition base64url_encode (data : string) : string := smap to_url (strip_eq (enc_groups data)).

(** Padding up to a multiple of four. *)
Definition pad (s : string) : string :=
  match slen s `mod` 4 with
  | 0 => s
  | 1 => s +:+ "==="
  | 2 => s +:+ "=="
  | _ => s +:+ "="
  end.

(** The loop of [base64url_decode], four characters a turn; the input's length
    is a multiple of four. *)
Fixpoint dec_groups (s : string) : option string :=
  match s with
  | "" => Some ""
  | String x0 (String x1 (String x2 (String x3 rest))) =>
      if bool_decide (dec x0 = 255%Z) || bool_decide (dec x1 = 255%Z) then None
      else
        let '(c0, c1) := (dec x0, dec x1) in
        let o0 := chr (Z.lor (Z.shiftl c0 2) (Z.shiftr c1 4)) in
        if negb (bool_decide (x2 = "="%char)) then
          if bool_decide (dec x2 = 255%Z) then None
          else
            let c2 := dec x2 in
            let o1 := chr (Z.lor (Z.shiftl (Z.land c1 15) 4) (Z.shiftr c2 2)) in
            if negb (bool_decide (x3 = "="%char)) then
              if bool_decide (dec x3 = 255%Z) then None
              else
                let o2 := chr (Z.lor (Z.shiftl (Z.land c2 3) 6) (dec x3)) in
                (λ t, String o0 (String o1 (String o2 t))) <$> dec_groups rest
            else (λ t, String o0 (String o1 t)) <$> dec_groups rest
        else (λ t, String o0 t) <$> dec_groups rest
  | _ => None
  end.

Definition base64url_decode (str : string) : option string := dec_groups (pad (smap from_url str)).

(** Does the encoding use one of the two digits that are not alphanumeric? *)
Definition url_digit (c : ascii) : bool := bool_decide (c = "-"%char) || bool_decide (c = "_"%char).
Definition has_url_digit (s : string) : bool := negb (sall (λ c, negb (url_digit c)) s).

(** Bytes that put no such digit in an encoding, wherever they stand. *)
Definition safe_byte (c : ascii) : bool :=
  bool_decide (code c < 128)%Z && negb (bool_decide (Z.land (code c) 63 = 62)%Z)
  && negb (bool_decide (Z.land (code c) 63 = 63)%Z).

(** ** Sextets *)

(** The two digits outside the alphanumerics. *)
Definition bad (v : Z) : bool := bool_decide (62 ≤ v)%Z.
Definition digit (v : Z) : ascii := at_table std_table v.

Lemma sextet_forall (P : Z → bool) v : (0 ≤ v < 64)%Z →
  forallb (λ n, P (Z.of_nat n)) (seq 0 64) = true → P v = true.
Proof.
  intros Hv H. rewrite forallb_forall in H. specialize (H (Z.to_nat v)).
  rewrite Z2Nat.id in H by lia. apply H, in_seq. lia.
Qed.

Lemma digit_facts v : (0 ≤ v < 64)%Z →
  dec (digit v) = (if bad v then 255 else v)%Z ∧ digit v ≠ "="%char ∧
  from_url (to_url (digit v)) = digit v ∧ url_digit (to_url (digit v)) = bad v ∧
  to_url (digit v) ≠ "."%char.
Proof.
  intros Hv.
  pose proof (sextet_forall (λ v, bool_decide (dec (digit v) = (if bad v then 255 else v)%Z) &&
    negb (bool_decide (digit v = "="%char)) && bool_decide (from_url (to_url (digit v)) = digit v) &&
    bool_decide (url_digit (to_url (digit v)) = bad v) &&
    negb (bool_decide (to_url (digit v) = "."%char))) v Hv) as H.
  specialize (H ltac:(vm_compute; reflexivity)). cbv beta in H.
  rewrite !andb_true_iff, !negb_true_iff, !bool_decide_eq_true, !bool_decide_eq_false in H. tauto.
Qed.

(** The sextets of three bytes. *)
Definition s0 (a : ascii) : Z := Z.shiftr (code a) 2.
Definition s1 (a : ascii) (b : Z) : Z := Z.lor (Z.shiftl (Z.land (code a) 3) 4) (Z.shiftr b 4).
Definition s2 (b : ascii) (c : Z) : Z := Z.lor (Z.shiftl (Z.land (code b) 15) 2) (Z.shiftr c 6).
Definition s3 (c : ascii) : Z := Z.land (code c) 63.

Lemma sextets_arith a b c (bz cz : Z) : bz = 0%Z ∨ bz = code b → cz = 0%Z ∨ cz = code c →
  s0 a = (code a / 4)%Z ∧ s1 a bz = (code a `mod` 4 * 16 + bz / 16)%Z ∧
  s2 b cz = (code b `mod` 16 * 4 + cz / 64)%Z ∧ s3 c = (code c `mod` 64)%Z.
Proof.
  intros Hb Hc. pose proof (code_range a). pose proof (code_range b). pose proof (code_range c).
  assert (0 ≤ bz < 256)%Z by (destruct Hb; lia). assert (0 ≤ cz < 256)%Z by (destruct Hc; lia).
  unfold s0, s1, s2, s3. change 3%Z with (Z.ones 2). change 15%Z with (Z.ones 4). change 63%Z with (Z.ones 6).
  rewrite !Z.land_ones, !Z.shiftr_div_pow2 by lia.
  change (2 ^ 2)%Z with 4%Z. change (2 ^ 4)%Z with 16%Z. change (2 ^ 6)%Z with 64%Z.
  rewrite !lor_shift_add; [done|..]; try lia; change (2 ^ 2)%Z with 4%Z; change (2 ^ 4)%Z with 16%Z;
    try (by apply Z.mod_pos_bound); split; try (apply Z.div_pos; lia); apply Z.div_lt_upper_bound; lia.
Qed.

Lemma sextets_range a b c (bz cz : Z) : bz = 0%Z ∨ bz = code b → cz = 0%Z ∨ cz = code c →
  (0 ≤ s0 a < 64)%Z ∧ (0 ≤ s1 a bz < 64)%Z ∧ (0 ≤ s2 b cz < 64)%Z ∧ (0 ≤ s3 c < 64)%Z.
Proof.
  intros Hb Hc. destruct (sextets_arith a b c bz cz Hb Hc) as (->&->&->&->).
  pose proof (code_range a). pose proof (code_range b). pose proof (code_range c).
  assert (0 ≤ bz < 256)%Z by (destruct Hb; lia). assert (0 ≤ cz < 256)%Z by (destruct Hc; lia).
  Z.to_euclidean_division_equations. lia.
Qed.

(** The bytes of four sextets. *)
Lemma bytes_of_sextets a b c (bz cz : Z) : bz = 0%Z ∨ bz = code b → cz = 0%Z ∨ cz = code c →
  chr (Z.lor (Z.shiftl (s0 a) 2) (Z.shiftr (s1 a bz) 4)) = a ∧
  (bz = code b → chr (Z.lor (Z.shiftl (Z.land (s1 a bz) 15) 4) (Z.shiftr (s2 b cz) 2)) = b) ∧
  (cz = code c → chr (Z.lor (Z.shiftl (Z.land (s2 b cz) 3) 6) (s3 c)) = c).
Proof.
  intros Hb Hc. destruct (sextets_arith a b c bz cz Hb Hc) as (->&->&->&->).
  pose proof (code_range a). pose proof (code_range b). pose proof (code_range c).
  assert (0 ≤ bz < 256)%Z by (destruct Hb; lia). assert (0 ≤ cz < 256)%Z by (destruct Hc; lia).
  change 3%Z with (Z.ones 2). change 15%Z with (Z.ones 4).
  rewrite !Z.land_ones, !Z.shiftr_div_pow2 by lia.
  change (2 ^ 2)%Z with 4%Z. change (2 ^ 4)%Z with 16%Z.
  split_and!; intros; subst; apply code_inj;
    (rewrite lor_shift_add; [|lia|try (by apply Z.mod_pos_bound)|];
      change (2 ^ 2)%Z with 4%Z; change (2 ^ 4)%Z with 16%Z; change (2 ^ 6)%Z with 64%Z);
    try (rewrite code_chr_small); Z.to_euclidean_division_equations; lia.
Qed.

(** ** Groups *)

Lemma string_ind3 (P : string → Prop) :
  P "" → (∀ a, P (String a "")) → (∀ a b, P (String a (String b ""))) →
  (∀ a b c s, P s → P (String a (String b (String c s)))) → ∀ s, P s.
Proof.
  intros H0 H1 H2 H3. fix IH 1. intros [|a [|b [|c s]]]; [done|done|done|]. apply H3, IH.
Qed.

Definition digits_ok (s : string) : bool := sall (λ c, negb (url_digit (to_url c))) (enc_groups s).

Lemma enc3 a b c s : enc_groups (String a (String b (String c s))) =
  String (digit (s0 a)) (String (digit (s1 a (code b))) (String (digit (s2 b (code c)))
    (String (digit (s3 c)) (enc_groups s)))).
Proof. done. Qed.
Lemma enc2 a b : enc_groups (String a (String b "")) =
  String (digit (s0 a)) (String (digit (s1 a (code b))) (String (digit (s2 b 0)) "")).
Proof. done. Qed.
Lemma enc1 a : enc_groups (String a "") = String (digit (s0 a)) (String (digit (s1 a 0)) "").
Proof. done. Qed.

(** Every character of an encoding is a digit. *)
Lemma enc_digits (p : ascii → bool) s : (∀ v, (0 ≤ v < 64)%Z → p (digit v) = true) → sall p (enc_groups s) = true.
Proof.
  intros Hp. induction s as [|a|a b|a b c s IH] using string_ind3; [done| | |].
  - destruct (sextets_range a a a 0 0) as (?&?&_&_); auto.
    rewrite enc1. cbn [sall]. by rewrite !Hp.
  - destruct (sextets_range a b b (code b) 0) as (?&?&?&_); auto.
    rewrite enc2. cbn [sall]. by rewrite !Hp.
  - destruct (sextets_range a b c (code b) (code c)) as (?&?&?&?); auto.
    rewrite enc3. cbn [sall]. by rewrite !Hp, IH.
Qed.

Lemma strip_eq_id s : sall (λ c, negb (bool_decide (c = "="%char))) s = true → strip_eq s = s.
Proof.
  induction s as [|c s IH]; [done|]. cbn [sall strip_eq]. intros [Hc Hs]%andb_true_iff.
  apply negb_true_iff in Hc. by rewrite IH, Hc.
Qed.

Lemma encode_alt s : base64url_encode s = smap to_url (enc_groups s).
Proof.
  unfold base64url_encode. rewrite strip_eq_id; [done|]. apply enc_digits.
  intros v Hv. apply negb_true_iff, bool_decide_eq_false, (digit_facts v Hv).
Qed.

(** What every digit of the URL alphabet satisfies. *)
Lemma encode_sall (p : ascii → bool) s : (∀ v, (0 ≤ v < 64)%Z → p (to_url (digit v)) = true) → sall p (base64url_encode s) = true.
Proof.
  intros Hp. rewrite encode_alt.
  assert (∀ t, sall (λ c, p (to_url c)) t = true → sall p (smap to_url t) = true) as Hm.
  { induction t as [|c t IH]; [done|]. cbn [sall smap]. rewrite !andb_true_iff. naive_solver. }
  by apply Hm, enc_digits.
Qed.

Lemma encode_no_dot s : sall (λ c, negb (bool_decide (c = "."%char))) (base64url_encode s) = true.
Proof. apply encode_sall. intros v Hv. apply negb_true_iff, bool_decide_eq_false, (digit_facts v Hv). Qed.

Lemma encode_ascii s : ascii7 (base64url_encode s) = true.
Proof.
  apply encode_sall. intros v Hv.
  apply (sextet_forall (λ v, bool_decide (code (to_url (digit v)) < 128)%Z) v Hv). vm_compute. reflexivity.
Qed.

Lemma from_to_enc s : smap from_url (base64url_encode s) = enc_groups s.
Proof.
  rewrite encode_alt, smap_smap. apply smap_id_on, enc_digits.
  intros v Hv. apply bool_decide_eq_true, (digit_facts v Hv).
Qed.

Lemma has_url_digit_encode s : has_url_digit (base64url_encode s) = negb (digits_ok s).
Proof.
  unfold has_url_digit, digits_ok. f_equal. rewrite encode_alt.
  induction (enc_groups s) as [|c t IH]; [done|]. cbn [sall smap]. by rewrite IH.
Qed.

Lemma pad4 a b c d s : pad (String a (String b (String c (String d s)))) =
  String a (String b (String c (String d (pad s)))).
Proof.
  unfold pad. cbn [String.length].
  replace (S (S (S (S (slen s))))) with (slen s + 1 * 4) by lia. rewrite Nat.Div0.mod_add.
  by repeat case_match.
Qed.

Lemma dec_quad v0 v1 v2 v3 rest : (0 ≤ v0 < 64)%Z → (0 ≤ v1 < 64)%Z → (0 ≤ v2 < 64)%Z → (0 ≤ v3 < 64)%Z →
  dec_groups (String (digit v0) (String (digit v1) (String (digit v2) (String (digit v3) rest)))) =
  if bad v0 || bad v1 || bad v2 || bad v3 then None
  else (λ t, String (chr (Z.lor (Z.shiftl v0 2) (Z.shiftr v1 4)))
    (String (chr (Z.lor (Z.shiftl (Z.land v1 15) 4) (Z.shiftr v2 2)))
      (String (chr (Z.lor (Z.shiftl (Z.land v2 3) 6) v3)) t))) <$> dec_groups rest.
Proof.
  intros H0 H1 H2 H3. cbn [dec_groups].
  destruct (digit_facts v0 H0) as (->&_&_&_&_). destruct (digit_facts v1 H1) as (->&_&_&_&_).
  destruct (digit_facts v2 H2) as (->&E2&_&_&_). destruct (digit_facts v3 H3) as (->&E3&_&_&_).
  rewrite (bool_decide_eq_false_2 _ E2), (bool_decide_eq_false_2 _ E3). cbn [negb].
  destruct (bad v0); [by rewrite (bool_decide_eq_true_2 (255 = 255)%Z)|].
  rewrite (bool_decide_eq_false_2 (v0 = 255)%Z) by lia. destruct (bad v1); [done|].
  rewrite (bool_decide_eq_false_2 (v1 = 255)%Z) by lia. destruct (bad v2); [done|].
  rewrite (bool_decide_eq_false_2 (v2 = 255)%Z) by lia. destruct (bad v3); [done|].
  by rewrite (bool_decide_eq_false_2 (v3 = 255)%Z) by lia.
Qed.

Lemma dec_triple v0 v1 v2 : (0 ≤ v0 < 64)%Z → (0 ≤ v1 < 64)%Z → (0 ≤ v2 < 64)%Z →
  dec_groups (String (digit v0) (String (digit v1) (String (digit v2) "="))) =
  if bad v0 || bad v1 || bad v2 then None
  else Some (String (chr (Z.lor (Z.shiftl v0 2) (Z.shiftr v1 4)))
    (String (chr (Z.lor (Z.shiftl (Z.land v1 15) 4) (Z.shiftr v2 2))) "")).
Proof.
  intros H0 H1 H2. cbn [dec_groups].
  destruct (digit_facts v0 H0) as (->&_&_&_&_). destruct (digit_facts v1 H1) as (->&_&_&_&_).
  destruct (digit_facts v2 H2) as (->&E2&_&_&_).
  rewrite (bool_decide_eq_false_2 _ E2). cbn [negb].
  destruct (bad v0); [by rewrite (bool_decide_eq_true_2 (255 = 255)%Z)|].
  rewrite (bool_decide_eq_false_2 (v0 = 255)%Z) by lia. destruct (bad v1); [done|].
  rewrite (bool_decide_eq_false_2 (v1 = 255)%Z) by lia. destruct (bad v2); [done|].
  by rewrite (bool_decide_eq_false_2 (v2 = 255)%Z) by lia.
Qed.

Lemma dec_pair v0 v1 : (0 ≤ v0 < 64)%Z → (0 ≤ v1 < 64)%Z →
  dec_groups (String (digit v0) (String (digit v1) "==")) =
  if bad v0 || bad v1 then None else Some (String (chr (Z.lor (Z.shiftl v0 2) (Z.shiftr v1 4))) "").
Proof.
  intros H0 H1. cbn [dec_groups].
  destruct (digit_facts v0 H0) as (->&_&_&_&_). destruct (digit_facts v1 H1) as (->&_&_&_&_).
  destruct (bad v0); [by rewrite (bool_decide_eq_true_2 (255 = 255)%Z)|].
  rewrite (bool_decide_eq_false_2 (v0 = 255)%Z) by lia. destruct (bad v1); [done|].
  by rewrite (bool_decide_eq_false_2 (v1 = 255)%Z) by lia.
Qed.

Lemma url_digit_bad v : (0 ≤ v < 64)%Z → url_digit (to_url (digit v)) = bad v.
Proof. intros Hv. apply (digit_facts v Hv). Qed.

Lemma dec_enc s : dec_groups (pad (enc_groups s)) = if digits_ok s then Some s else None.
Proof.
  unfold digits_ok. induction s as [|a|a b|a b c s IH] using string_ind3; [done| | |].
  - destruct (sextets_range a a a 0 0) as (?&?&_&_); auto.
    destruct (bytes_of_sextets a a a 0 0) as (E&_&_); auto.
    rewrite enc1. change (pad (String ?x (String ?y ""))) with (String x (String y "==")).
    rewrite dec_pair by done. cbn [sall]. rewrite !url_digit_bad, E by done.
    by destruct (bad (s0 a)), (bad (s1 a 0)).
  - destruct (sextets_range a b b (code b) 0) as (?&?&?&_); auto.
    destruct (bytes_of_sextets a b b (code b) 0) as (E1&E2&_); auto.
    rewrite enc2. change (pad (String ?x (String ?y (String ?z "")))) with (String x (String y (String z "="))).
    rewrite dec_triple by done. cbn [sall]. rewrite !url_digit_bad, E1, E2 by done.
    by destruct (bad (s0 a)), (bad (s1 a (code b))), (bad (s2 b 0)).
  - destruct (sextets_range a b c (code b) (code c)) as (?&?&?&?); auto.
    destruct (bytes_of_sextets a b c (code b) (code c)) as (E1&E2&E3); auto.
    rewrite enc3, pad4, dec_quad, IH by done. cbn [sall]. rewrite !url_digit_bad, E1, E2, E3 by done.
    destruct (bad (s0 a)), (bad (s1 a (code b))), (bad (s2 b (code c))), (bad (s3 c)), (sall _ _); done.
Qed.

Lemma decode_encode_eq s : base64url_decode (base64url_encode s) =
  if has_url_digit (base64url_encode s) then None else Some s.
Proof.
  unfold base64url_decode. rewrite from_to_enc, dec_enc, has_url_digit_encode. by destruct (digits_ok s).
Qed.

(** ASCII text without "~", ">", "?" and DEL is encoded in alphanumerics. *)
Lemma safe_no_url_digit s : sall safe_byte s = true → has_url_digit (base64url_encode s) = false.
Proof.
  rewrite has_url_digit_encode. intros Hs. apply negb_false_iff. unfold digits_ok.
  assert (∀ c, safe_byte c = true → (code c < 128)%Z ∧ (code c `mod` 64 < 62)%Z) as Hb.
  { intros c. unfold safe_byte. 
    assert (Z.land (code c) 63 = code c `mod` 64)%Z as -> by (exact (Z.land_ones (code c) 6 ltac:(lia))).
    rewrite !andb_true_iff, !negb_true_iff, bool_decide_eq_true, !bool_decide_eq_false.
    pose proof (Z.mod_pos_bound (code c) 64 eq_refl). lia. }
  revert Hs. induction s as [|a|a b|a b c s IH] using string_ind3; [done| | |]; cbn [sall]; rewrite ?andb_true_iff.
  - intros [Ha%Hb _].
    destruct (sextets_range a a a 0 0) as (?&?&_&_); auto.
    destruct (sextets_arith a a a 0 0) as (E0&E1&_&_); auto.
    rewrite enc1. cbn [sall]. rewrite !url_digit_bad by done. unfold bad.
    rewrite !bool_decide_eq_false_2; [done|..]; rewrite ?E0, ?E1; pose proof (code_range a);
      Z.to_euclidean_division_equations; lia.
  - intros (Ha%Hb&Hb'%Hb&_).
    destruct (sextets_range a b b (code b) 0) as (?&?&?&_); auto.
    destruct (sextets_arith a b b (code b) 0) as (E0&E1&E2&_); auto.
    rewrite enc2. cbn [sall]. rewrite !url_digit_bad by done. unfold bad.
    rewrite !bool_decide_eq_false_2; [done|..]; rewrite ?E0, ?E1, ?E2; pose proof (code_range a); pose proof (code_range b);
      Z.to_euclidean_division_equations; lia.
  - intros (Ha%Hb&Hb'%Hb&Hc%Hb&Hs).
    destruct (sextets_range a b c (code b) (code c)) as (?&?&?&?); auto.
    destruct (sextets_arith a b c (code b) (code c)) as (E0&E1&E2&E3); auto.
    rewrite enc3. cbn [sall]. rewrite !url_digit_bad, IH by done. unfold bad.
    rewrite !bool_decide_eq_false_2; [done|..]; rewrite ?E0, ?E1, ?E2, ?E3; pose proof (code_range a); pose proof (code_range b);
      pose proof (code_range c); Z.to_euclidean_division_equations; lia.
Qed.

(** Base64url decoding undoes encoding exactly when the encoding is
    alphanumeric; an encoding that uses either of the two other digits, "-" and
    "_", is refused by the decoder, which looks up "+" and "/" in a table that
    has no entry for them. *)
Theorem base64url_roundtrip (s : string) :
  base64url_decode (base64url_encode s) =
    (if has_url_digit (base64url_encode s) then None else Some s) ∧
  (sall safe_byte s = true → base64url_decode (base64url_encode s) = Some s).
Proof.
  split; [apply decode_encode_eq|]. intros Hs. by rewrite decode_encode_eq, safe_no_url_digit.
Qed.

Lemma base64url_roundtrip_witness :
  base64url_decode (base64url_encode "SolarDrive") = Some "SolarDrive" ∧
  base64url_decode (base64url_encode "ab?") = None.
Proof.
  split.
  - apply (base64url_roundtrip "SolarDrive"). vm_compute. reflexivity.
  - exact (proj1 (base64url_roundtrip "ab?")).
Defined.

End Base64.

Module Jwt.
Import Base64.

Record JwtClaims := mk_claims {
  user_id : string;
  username : string;
  exp : Z;
  iat : Z
}.

Section with_crypto.
Context {J : JsonText}.
(** HMAC-SHA256 of a key and a message, and the configured secret. *)
Variable hmac_sha256 : string → string → string.
Variable secret_ : string.

Definition header_value : json := JObj [("alg", JStr "HS256"); ("typ", JStr "JWT")].
Definition payload_value (c : JwtClaims) : json :=
  JObj [("exp", JInt (exp c)); ("iat", JInt (iat c));
        ("user_id", JStr (user_id c)); ("username", JStr (username c))].

(** The claims [generate] signs: a zero time stamp is filled in. *)
Definition complete_claims (now : Z) (c : JwtClaims) (ttl_hours : Z) : JwtClaims :=
  let i := if bool_decide (iat c = 0)%Z then now else iat c in
  let e := if bool_decide (exp c = 0)%Z then wrap_i64 (i + wrap_i32 (ttl_hours * 3600)) else exp c in
  mk_claims (user_id c) (username c) e i.

Definition sign (signing_input : string) : string := base64url_encode (hmac_sha256 secret_ signing_input).

Definition generate (now : Z) (c : JwtClaims) (ttl_hours : Z) : result string :=
  header_json ← json_dump header_value;
  payload_json ← json_dump (payload_value (complete_claims now c ttl_hours));
  let signing_input := base64url_encode header_json +:+ "." +:+ base64url_encode payload_json in
  Ok (signing_input +:+ "." +:+ sign signing_input).

(** The claims of a parsed payload; any exception is caught. *)
Definition claims_of (payload : json) : result JwtClaims :=
  ju ← jfield payload "user_id"; u ← jget_str ju;
  jn ← jfield payload "username"; n ← jget_str jn;
  ji ← jfield payload "iat"; i ← jget_i64 ji;
  je ← jfield payload "exp"; e ← jget_i64 je;
  Ok (mk_claims u n e i).

Definition verify (now : Z) (token : string) : option JwtClaims :=
  match sfind "." token with
  | None => None
  | Some dot1 =>
      match sfind_from "." token (dot1 + 1) with
      | None => None
      | Some dot2 =>
          let header_b64 := stake dot1 token in
          let payload_b64 := substr token (dot1 + 1) (dot2 - dot1 - 1) in
          let sig_b64 := sdrop (dot2 + 1) token in
          if negb (bool_decide (sig_b64 = sign (header_b64 +:+ "." +:+ payload_b64))) then None
          else match base64url_decode payload_b64 with
               | None => None
               | Some raw =>
                   match (payload ← json_parse raw; claims_of payload) with
                   | Throw _ => None
                   | Ok claims => if bool_decide (exp claims < now)%Z then None else Some claims
                   end
               end
      end
  end.

Definition extract_token (auth_header : string) : option string :=
  if bool_decide (slen auth_header ≤ 7) then None
  else
    let prefix := substr auth_header 0 7 in
    if negb (bool_decide (prefix = "Bearer ")) && negb (bool_decide (prefix = "bearer ")) then None
    else Some (sdrop 7 auth_header).

(** [AuthMiddleware::authenticate]. *)
Record AuthResult := mk_auth { authenticated : bool; auth_user : string; auth_name : string; error_msg : string }.

Definition refused (msg : string) : AuthResult := mk_auth false "" "" msg.

Definition authenticate (now : Z) (req : HttpRequest.HttpRequest) : AuthResult :=
  if AuthMiddleware.is_whitelisted (HttpRequest.path_ req) then mk_auth true "" "" ""
  else
    let auth_header := HttpRequest.get_header "Authorization" req in
    if sempty auth_header then refused "Missing Authorization header"
    else match extract_token auth_header with
         | None => refused "Invalid Authorization format, expected: Bearer <token>"
         | Some token =>
             match verify now token with
             | None => refused "Invalid or expired token"
             | Some claims => mk_auth true (user_id claims) (username claims) ""
             end
         end.

(** [require_auth_user]: whether the handler goes on. *)
Definition require_auth_user (req : HttpRequest.HttpRequest) : M HttpResponse.HttpResponse bool :=
  if HttpRequest.has_auth_user req then mret true
  else _ ← HttpResponse.set_error 401 "Unauthorized"; mret false.

(** ** Splitting a token *)

Lemma sfind_dot h t : sall (λ c, negb (bool_decide (c = "."%char))) h = true →
  sfind "." (h +:+ "." +:+ t) = Some (slen h).
Proof. apply sfind_char_app. Qed.

(** The three parts of a token with two dots. *)
Lemma split_token h p s : sall (λ c, negb (bool_decide (c = "."%char))) h = true →
  sall (λ c, negb (bool_decide (c = "."%char))) p = true →
  let token := h +:+ "." +:+ p +:+ "." +:+ s in
  sfind "." token = Some (slen h) ∧
  sfind_from "." token (slen h + 1) = Some (slen h + 1 + slen p) ∧
  stake (slen h) token = h ∧ substr token (slen h + 1) (slen h + 1 + slen p - slen h - 1) = p ∧
  sdrop (slen h + 1 + slen p + 1) token = s.
Proof.
  intros Hh Hp token.
  assert (sdrop (slen h + 1) token = p +:+ "." +:+ s) as Hd
    by (unfold token; by rewrite <- sdrop_sdrop, sdrop_app).
  split_and!.
  - by apply sfind_dot.
  - unfold sfind_from. rewrite Hd, sfind_dot by done. rewrite bool_decide_eq_true_2; [done|].
    unfold token. rewrite !slen_app. cbn. lia.
  - apply stake_app.
  - unfold substr. rewrite Hd. replace (slen h + 1 + slen p - slen h - 1) with (slen p) by lia. apply stake_app.
  - rewrite <- Nat.add_assoc, <- sdrop_sdrop, Hd, <- sdrop_sdrop, sdrop_app. done.
Qed.

Lemma claims_of_payload c : (i64_min ≤ iat c ≤ i64_max)%Z → (i64_min ≤ exp c ≤ i64_max)%Z →
  claims_of (payload_value c) = Ok c.
Proof.
  intros Hi He. unfold claims_of.
  change (jfield (payload_value c) "user_id") with (@Ok json (JStr (user_id c))).
  change (jfield (payload_value c) "username") with (@Ok json (JStr (username c))).
  change (jfield (payload_value c) "iat") with (@Ok json (JInt (iat c))).
  change (jfield (payload_value c) "exp") with (@Ok json (JInt (exp c))).
  cbn [mbind result_mbind jget_str jget_i64]. rewrite !wrap_i64_id by done. by destruct c.
Qed.

Lemma payload_canonical c : (i64_min ≤ iat c ≤ i64_max)%Z → (i64_min ≤ exp c ≤ i64_max)%Z →
  canonical (payload_value c) = true.
Proof.
  unfold i64_min, i64_max. intros Hi He. cbn [canonical payload_value fmap list_fmap fst snd forallb].
  rewrite !bool_decide_eq_true_2 by (unfold i64_min, two64; lia). done.
Qed.

(** A token issued by [generate] verifies, under the same secret, to the
    claims it was made from until they expire; unless the base64url text of its
    payload contains "-" or "_", in which case it never verifies. *)
Theorem jwt_verify_generate (now now' ttl : Z) (c : JwtClaims) (token : string)
    (Hi : (i64_min ≤ iat (complete_claims now c ttl) ≤ i64_max)%Z)
    (He : (i64_min ≤ exp (complete_claims now c ttl) ≤ i64_max)%Z)
    (Hgen : generate now c ttl = Ok token) :
  let c' := complete_claims now c ttl in
  ∃ payload, json_dump (payload_value c') = Ok payload ∧
    verify now' token =
      if has_url_digit (base64url_encode payload) then None
      else if bool_decide (exp c' < now')%Z then None else Some c'.
Proof.
  cbv zeta. set (c' := complete_claims now c ttl) in *. unfold generate in Hgen.
  destruct (json_dump header_value) as [h|]; [|done]. cbn [mbind result_mbind] in Hgen.
  fold c' in Hgen. destruct (json_dump (payload_value c')) as [p|] eqn:Hp; [|done]. injection Hgen as <-.
  exists p. split; [done|]. rewrite !sapp_assoc.
  destruct (split_token (base64url_encode h) (base64url_encode p)
    (sign (base64url_encode h +:+ "." +:+ base64url_encode p)) (encode_no_dot h) (encode_no_dot p))
    as (E1&E2&E3&E4&E5).
  unfold verify. rewrite E1, E2, E3, E4, E5, bool_decide_eq_true_2 by done. cbn [negb].
  rewrite decode_encode_eq. destruct (has_url_digit _); [done|].
  erewrite json_parse_dump; [|by apply payload_canonical|done].
  cbn [mbind result_mbind]. by rewrite claims_of_payload.
Qed.

(** C36. Whatever token is presented, the claims [verify] returns were signed with
    the server's secret, are exactly those of the signed payload, and have not
    expired. *)
Theorem jwt_verify_sound (now : Z) (token : string) (c : JwtClaims) (Hv : verify now token = Some c) :
  ∃ header_b64 payload_b64 raw payload,
    token = header_b64 +:+ "." +:+ payload_b64 +:+ "." +:+
            base64url_encode (hmac_sha256 secret_ (header_b64 +:+ "." +:+ payload_b64)) ∧
    base64url_decode payload_b64 = Some raw ∧ json_parse raw = Ok payload ∧
    claims_of payload = Ok c ∧ (now ≤ exp c)%Z.
Proof.
  unfold verify in Hv. destruct (sfind "." token) as [d1|] eqn:E1; [|done].
  destruct (sfind_from "." token (d1 + 1)) as [d2|] eqn:E2; [|done].
  case_bool_decide as Hs; [|done]. cbn [negb] in Hv.
  destruct (base64url_decode _) as [raw|] eqn:Er; [|done].
  destruct (json_parse raw) as [payload|] eqn:Ej; [|done]. cbn [mbind result_mbind] in Hv.
  destruct (claims_of payload) as [c'|] eqn:Ec; [|done].
  case_bool_decide as He; [done|]. injection Hv as ->.
  eexists _, _, raw, payload. split_and!; [|exact Er|done|done|lia].
  unfold sign in Hs. rewrite <- Hs.
  apply sfind_spec in E1 as (Hd1&_&_). apply starts_with_iff in Hd1 as [t1 Ht1].
  unfold sfind_from in E2. case_bool_decide; [|done].
  destruct (sfind "." (sdrop (d1 + 1) token)) as [k|] eqn:E3; [|done]. injection E2 as <-.
  apply sfind_spec in E3 as (Hd2&_&_). apply starts_with_iff in Hd2 as [t2 Ht2].
  replace (d1 + 1 + k - d1 - 1) with k by lia. unfold substr.
  rewrite <- (stake_sdrop d1 token) at 1. f_equal. rewrite Ht1. f_equal.
  assert (t1 = sdrop (d1 + 1) token) as -> by (by rewrite <- sdrop_sdrop, Ht1).
  rewrite <- (stake_sdrop k (sdrop (d1 + 1) token)) at 1. f_equal. rewrite Ht2. f_equal.
  by rewrite <- Nat.add_assoc, <- sdrop_sdrop, <- sdrop_sdrop, Ht2.
Qed.

(** A Bearer header is judged by its token. *)
Lemma authenticate_bearer (now : Z) (req : HttpRequest.HttpRequest) (token : string) :
  AuthMiddleware.is_whitelisted (HttpRequest.path_ req) = false →
  HttpRequest.get_header "Authorization" req = "Bearer " +:+ token ∨ HttpRequest.get_header "Authorization" req = "bearer " +:+ token →
  token ≠ "" →
  authenticate now req = match verify now token with
    | Some c => mk_auth true (user_id c) (username c) ""
    | None => refused "Invalid or expired token"
    end.
Proof.
  intros Hw Hh Hne. unfold authenticate. rewrite Hw. set (h := HttpRequest.get_header "Authorization" req) in *.
  assert (sempty h = false ∧ extract_token h = Some token) as [-> ->]; [|done].
  destruct token as [|x token]; [done|].
  split; [apply bool_decide_eq_false_2; destruct Hh as [-> | ->]; done|].
  unfold extract_token. rewrite bool_decide_eq_false_2; [by destruct Hh as [-> | ->]|].
  destruct Hh as [-> | ->]; rewrite slen_app; cbn; lia.
Qed.

(** A token is text of ASCII characters, and is not empty. *)
Lemma generate_text now c ttl token : generate now c ttl = Ok token → token ≠ "" ∧ ascii7 token = true.
Proof.
  unfold generate. destruct (json_dump header_value) as [h|]; [|done].
  destruct (json_dump (payload_value _)) as [p|]; [|done]. cbn [mbind result_mbind]. intros [= <-]. split.
  - intros Hn%(f_equal slen). rewrite !slen_app in Hn. cbn in Hn. lia.
  - unfold ascii7, sign. rewrite !sall_app. pose proof encode_ascii as He. unfold ascii7 in He. by rewrite !He.
Qed.

(** Plain names always get a token. *)
Lemma generate_plain now c ttl : ascii7 (user_id c) = true → ascii7 (username c) = true → ∃ token, generate now c ttl = Ok token.
Proof.
  intros Hi Hn. unfold generate. destruct (json_dump_ascii header_value) as (h&->&_); [done|].
  destruct (json_dump_ascii (payload_value (complete_claims now c ttl))) as (p&->&_); [|by eexists].
  cbn -[ascii7]. unfold complete_claims. cbn [user_id username]. by rewrite Hi, Hn.
Qed.

(** Outside the white list, authentication succeeds exactly for a Bearer
    header that carries a verifying token, and the identity it yields is the one
    the token's claims name. *)
Theorem authenticate_exact (now : Z) (req : HttpRequest.HttpRequest) (uid name : string)
    (Hw : AuthMiddleware.is_whitelisted (HttpRequest.path_ req) = false) :
  authenticate now req = mk_auth true uid name "" ↔
  ∃ token c, (HttpRequest.get_header "Authorization" req = "Bearer " +:+ token ∨
              HttpRequest.get_header "Authorization" req = "bearer " +:+ token) ∧
    token ≠ "" ∧ verify now token = Some c ∧ user_id c = uid ∧ username c = name.
Proof.
  unfold authenticate. rewrite Hw. set (h := HttpRequest.get_header "Authorization" req). split.
  - destruct (sempty h); [done|]. destruct (extract_token h) as [token|] eqn:Et; [|done].
    destruct (verify now token) as [c|] eqn:Ev; [|done]. intros [= <- <-].
    unfold extract_token in Et. case_bool_decide as Hl; [done|].
    assert (h = substr h 0 7 +:+ sdrop 7 h) as Hh by (symmetry; apply (stake_sdrop 7)).
    assert ((substr h 0 7 = "Bearer " ∨ substr h 0 7 = "bearer ") ∧ token = sdrop 7 h) as [Hpre ->].
    { repeat case_bool_decide; simplify_eq/=; auto. }
    exists (sdrop 7 h), c. split_and!; [|intros Hn|done..].
    + destruct Hpre as [Hpre|Hpre]; rewrite <- Hpre; auto.
    + apply (f_equal slen) in Hn. rewrite slen_sdrop in Hn. cbn in Hn. lia.
  - intros (token&c&Hh&Hne&Hv&<-&<-). pose proof (authenticate_bearer now req token Hw Hh Hne) as Ha.
    unfold authenticate in Ha. rewrite Hw in Ha. rewrite Hv in Ha. exact Ha.
Qed.

End with_crypto.

(** ** Witnesses, with the concrete text form and a concrete keyed function *)

Definition toy_hmac (k m : string) : string := k +:+ m.
Definition toy_claims : JwtClaims := mk_claims "u1" "bob" 200 100.
Definition toy_token : string :=
  match @generate bin_json toy_hmac "k" 100 toy_claims 1 with Ok t => t | Throw _ => "" end.

Lemma jwt_verify_generate_witness :
  ∃ payload, @json_dump bin_json (payload_value (complete_claims 100 toy_claims 1)) = Ok payload ∧
    @verify bin_json toy_hmac "k" 150 toy_token =
      if has_url_digit (base64url_encode payload) then None
      else if bool_decide (exp (complete_claims 100 toy_claims 1) < 150)%Z then None
      else Some (complete_claims 100 toy_claims 1).
Proof.
  apply (@jwt_verify_generate bin_json toy_hmac "k" 100 150 1 toy_claims toy_token).
  - split; vm_compute; discriminate.
  - split; vm_compute; discriminate.
  - vm_compute. reflexivity.
Defined.

Lemma jwt_verify_sound_witness :
  ∃ h p raw payload, toy_token = h +:+ "." +:+ p +:+ "." +:+ base64url_encode (toy_hmac "k" (h +:+ "." +:+ p)) ∧
    base64url_decode p = Some raw ∧ @json_parse bin_json raw = Ok payload ∧
    @claims_of bin_json payload = Ok toy_claims ∧ (150 ≤ exp toy_claims)%Z.
Proof.
  apply (@jwt_verify_sound bin_json toy_hmac "k" 150 toy_token toy_claims). vm_compute. reflexivity.
Defined.

Definition toy_request : HttpRequest.HttpRequest :=
  HttpRequest.add_header "Authorization" ("Bearer " +:+ toy_token)
    (HttpRequest.set_path "/api/v1/files" HttpRequest.empty).

Lemma authenticate_exact_witness :
  @authenticate bin_json toy_hmac "k" 150 toy_request = mk_auth true "u1" "bob" "".
Proof.
  apply (@authenticate_exact bin_json toy_hmac "k" 150 toy_request "u1" "bob").
  - vm_compute. reflexivity.
  - exists toy_token, toy_claims. split_and!; [left; vm_compute; reflexivity|vm_compute; discriminate|vm_compute; reflexivity..].
Defined.

End Jwt.
