(* ===== verification/Reactor.v ===== *)
(** The reactor of src/network: [Channel] (an fd's interest and its dispatch) and
    [EpollPoller] (the registrations, mirrored in the kernel). *)
From S2P Require Import Prelude Steps.
From stdpp Require Import relations.

(** Bits of [epoll_event::events]. *)
Definition EPOLLIN : Z := 1.
Definition EPOLLPRI : Z := 2.
Definition EPOLLOUT : Z := 4.
Definition EPOLLERR : Z := 8.
Definition EPOLLHUP : Z := 16.

(** [flags & bit] as a condition. *)
Definition has_bits (flags bits : Z) : bool := negb (bool_decide (Z.land flags bits = 0)%Z).

Module EpollPoller.

(** [channels_], the kernel's interest list (by fd: the events and the [Channel*]
    of [data.ptr]), the calls of [epoll_ctl] that failed, and the size of
    [events_]. A channel is known by its address, here a number. *)
Record EpollPoller := mk { channels_ : gmap Z nat; interest : gmap Z (Z * nat); failed : nat; events_size : Z }.

Definition kInitEventListSize : Z := 16.
Definition make : EpollPoller := mk ∅ ∅ 0 kInitEventListSize.

Inductive operation := EPOLL_CTL_ADD | EPOLL_CTL_MOD | EPOLL_CTL_DEL.

(** [epoll_ctl]: adding an fd that is there fails, as does changing or deleting
    one that is not; a failure is logged. *)
Definition epoll_update (op : operation) (fd events : Z) (channel : nat) (p : EpollPoller) : EpollPoller :=
  match op, interest p !! fd with
  | EPOLL_CTL_ADD, None | EPOLL_CTL_MOD, Some _ => mk (channels_ p) (<[fd := (events, channel)]> (interest p)) (failed p) (events_size p)
  | EPOLL_CTL_DEL, Some _ => mk (channels_ p) (delete fd (interest p)) (failed p) (events_size p)
  | _, _ => mk (channels_ p) (interest p) (S (failed p)) (events_size p)
  end.

Definition with_channels (c : gmap Z nat) (p : EpollPoller) : EpollPoller := mk c (interest p) (failed p) (events_size p).

Definition has_channel (fd : Z) (channel : nat) (p : EpollPoller) : bool := bool_decide (channels_ p !! fd = Some channel).

Definition update_channel (fd events : Z) (channel : nat) (p : EpollPoller) : EpollPoller :=
  if bool_decide (events = 0)%Z then
    if has_channel fd channel p then
      let p := epoll_update EPOLL_CTL_DEL fd events channel p in with_channels (delete fd (channels_ p)) p
    else p
  else if has_channel fd channel p then epoll_update EPOLL_CTL_MOD fd events channel p
  else epoll_update EPOLL_CTL_ADD fd events channel (with_channels (<[fd := channel]> (channels_ p)) p).

Definition remove_channel (fd events : Z) (channel : nat) (p : EpollPoller) : EpollPoller :=
  let p := with_channels (delete fd (channels_ p)) p in
  if bool_decide (events = 0)%Z then p else epoll_update EPOLL_CTL_DEL fd events channel p.

(** [poll], given what [epoll_wait] reports (at most [events_.size()] events, or
    nothing on a timeout or an error): the active channels with their [revents]. *)
Definition poll (ready : list (nat * Z)) (p : EpollPoller) : list (nat * Z) * EpollPoller :=
  (ready, if bool_decide (Z.of_nat (length ready) = events_size p)%Z
          then mk (channels_ p) (interest p) (failed p) (events_size p * 2) else p).

(** ** The contract with its channels *)

(** What a channel asks of its poller. *)
Inductive op := Update (fd events : Z) (channel : nat) | Remove (fd events : Z) (channel : nat).

Definition run_op (o : op) (p : EpollPoller) : EpollPoller :=
  match o with Update fd e c => update_channel fd e c p | Remove fd e c => remove_channel fd e c p end.

(** The specification: the interest of each fd, with the channel that has it. *)
Definition spec_op (o : op) (m : gmap Z (Z * nat)) : gmap Z (Z * nat) :=
  match o with
  | Update fd e c => if bool_decide (e = 0)%Z then delete fd m else <[fd := (e, c)]> m
  | Remove fd _ _ => delete fd m
  end.

(** The caller's part: no two channels share an fd while one is registered, and a
    channel is removed with the events it last announced. *)
Definition op_ok (m : gmap Z (Z * nat)) (o : op) : Prop :=
  match o with
  | Update fd e c => ∀ e' c', m !! fd = Some (e', c') → c' = c
  | Remove fd e c => m !! fd = (if bool_decide (e = 0)%Z then None else Some (e, c))
  end.

Fixpoint ops_ok (m : gmap Z (Z * nat)) (os : list op) : Prop :=
  match os with [] => True | o :: os => op_ok m o ∧ ops_ok (spec_op o m) os end.

Definition mirrors (m : gmap Z (Z * nat)) (p : EpollPoller) : Prop :=
  interest p = m ∧ channels_ p = snd <$> m ∧ failed p = 0 ∧ ∀ fd e c, m !! fd = Some (e, c) → e ≠ 0%Z.

Lemma run_op_mirrors o m p : op_ok m o → mirrors m p → mirrors (spec_op o m) (run_op o p).
Proof.
  intros Hok (Hi&Hc&Hf&Hn). assert (∀ fd c, has_channel fd c p = true → ∃ e, m !! fd = Some (e, c)) as Hin.
  { unfold has_channel. rewrite Hc. intros fd c Heq%bool_decide_eq_true. rewrite lookup_fmap in Heq.
    destruct (m !! fd) as [[e c']|]; naive_solver. }
  assert (∀ fd c, has_channel fd c p = false → (∀ e' c', m !! fd = Some (e', c') → c' = c) → m !! fd = None) as Hout.
  { unfold has_channel. rewrite Hc. intros fd c Heq%bool_decide_eq_false Hun. rewrite lookup_fmap in Heq.
    destruct (m !! fd) as [[e c']|]; [|done]. by rewrite (Hun e c') in Heq. }
  assert (∀ fd fd' e c, fd' ≠ fd → <[fd := (e, c)]> m !! fd' = m !! fd') as Hne by (intros; by apply lookup_insert_ne).
  destruct o as [fd e c|fd e c]; cbn in *; unfold update_channel, remove_channel, epoll_update.
  - case_bool_decide as He; [|].
    + destruct (has_channel fd c p) eqn:E.
      * destruct (Hin _ _ E) as [e' Hm]. rewrite Hi, Hm. split_and!; cbn; [done|by rewrite Hc, fmap_delete|done|].
        intros fd' e'' c' [_ H]%lookup_delete_Some. by eapply Hn.
      * pose proof (Hout _ _ E Hok) as Hm. rewrite (delete_id m fd Hm). by split_and!.
    + assert (∀ fd' e' c', <[fd := (e, c)]> m !! fd' = Some (e', c') → e' ≠ 0%Z) as Hn'.
      { intros fd' e' c' [[_ [= <- _]]|[_ H]]%lookup_insert_Some; [done|by eapply Hn]. }
      destruct (has_channel fd c p) eqn:E.
      * destruct (Hin _ _ E) as [e' Hm]. rewrite Hi, Hm. split_and!; cbn; [done| |done|done].
        rewrite Hc, fmap_insert. symmetry. apply insert_id. by rewrite lookup_fmap, Hm.
      * pose proof (Hout _ _ E Hok) as Hm. cbn. rewrite Hi, Hm. split_and!; cbn; [done| |done|done].
        by rewrite Hc, fmap_insert.
  - assert (∀ fd' e' c', delete fd m !! fd' = Some (e', c') → e' ≠ 0%Z) as Hn'.
    { intros fd' e'' c' [_ H]%lookup_delete_Some. by eapply Hn. }
    case_bool_decide; cbn; [rewrite delete_id in * by done|rewrite Hi, Hok]; split_and!; cbn; try done;
      by rewrite Hc, ?fmap_delete, ?delete_id by (by rewrite lookup_fmap, Hok).
Qed.

(** The poller keeps its contract: whatever its channels ask, one channel per fd at
    a time, the kernel's interest list is the map from fds to the events last
    announced, with fds of no interest absent, the poller's own map agrees with it,
    and no call of [epoll_ctl] ever fails. *)
Theorem poller_refines (os : list op) (H : ops_ok ∅ os) :
  mirrors (foldl (λ m o, spec_op o m) ∅ os) (foldl (λ p o, run_op o p) make os).
Proof.
  assert (∀ os m p, ops_ok m os → mirrors m p →
    mirrors (foldl (λ m o, spec_op o m) m os) (foldl (λ p o, run_op o p) p os)) as Hgo.
  { clear. induction os as [|o os IH]; intros m p; [done|]. intros [Ho Hos] Hm. apply IH; [done|]. by apply run_op_mirrors. }
  apply Hgo; [done|]. split_and!; [done|done|done|]. intros fd e c Hl. by rewrite lookup_empty in Hl.
Qed.

(** A connection's life on an fd, and the next one's on the same fd. *)
Definition sample_ops : list op :=
  [Update 7 3 1; Update 9 3 2; Update 7 7 1; Update 7 3 1; Update 7 0 1; Remove 7 0 1; Update 7 3 3; Remove 9 3 2]%Z.

Lemma poller_refines_witness :
  ops_ok ∅ sample_ops ∧ interest (foldl (λ p o, run_op o p) make sample_ops) = {[7%Z := (3%Z, 3)]}.
Proof.
  assert (ops_ok ∅ sample_ops) as H.
  { cbn. split_and!; try done; intros e' c' Heq; vm_compute in Heq; congruence. }
  split; [exact H|]. rewrite (proj1 (poller_refines sample_ops H)). by vm_compute.
Defined.

End EpollPoller.

Module Channel.

Definition kNoneEvent : Z := 0.
Definition kReadEvent : Z := Z.lor EPOLLIN EPOLLPRI.
Definition kWriteEvent : Z := EPOLLOUT.

(** A channel: its address, its fd and the events of interest. *)
Record Channel := mk { self : nat; fd_ : Z; events_ : Z }.

Definition make (self : nat) (fd : Z) : Channel := mk self fd kNoneEvent.

Definition is_none_event (c : Channel) : bool := bool_decide (events_ c = kNoneEvent).

(** Each change of [events_] is followed by [update], which goes through the loop
    to its poller. *)
Definition update (c : Channel) (p : EpollPoller.EpollPoller) : Channel * EpollPoller.EpollPoller :=
  (c, EpollPoller.update_channel (fd_ c) (events_ c) (self c) p).
Definition with_events (e : Z) (c : Channel) : Channel := mk (self c) (fd_ c) e.

Definition enable_reading (c : Channel) := update (with_events (Z.lor (events_ c) kReadEvent) c).
Definition enable_writing (c : Channel) := update (with_events (Z.lor (events_ c) kWriteEvent) c).
Definition disable_writing (c : Channel) := update (with_events (Z.land (events_ c) (Z.lnot kWriteEvent)) c).
Definition disable_all (c : Channel) := update (with_events kNoneEvent c).
Definition remove (c : Channel) (p : EpollPoller.EpollPoller) : EpollPoller.EpollPoller :=
  EpollPoller.remove_channel (fd_ c) (events_ c) (self c) p.

(** [handle_event]: the callbacks the reported events call for, one after the
    other, unless the tied owner is gone. *)
Inductive callback := ErrorCb | CloseCb | ReadCb | WriteCb.

Definition handle_event {S} (run : callback → M S ()) (alive : bool) (revents : Z) : M S () :=
  if negb alive then mret ()
  else
    _ ← (if has_bits revents EPOLLERR then run ErrorCb else mret ());
    _ ← (if has_bits revents EPOLLHUP && negb (has_bits revents EPOLLIN) then run CloseCb else mret ());
    _ ← (if has_bits revents (Z.lor EPOLLIN EPOLLPRI) then run ReadCb else mret ());
    if has_bits revents EPOLLOUT then run WriteCb else mret ().

End Channel.
