(* ===== verification/EventLoop.v ===== *)
(** The loop of one thread (src/network/event_loop.cpp), with the tasks and the
    stop other threads hand to it, and the thread that owns it
    (src/network/event_loop_thread.cpp), as steps of the threads involved. *)
From S2P Require Import Prelude Steps.
From stdpp Require Import relations.

Module EventLoop.

(** The cases of a step. *)
Ltac step_cases Hs := destruct Hs as
  [l Ha Hl|l Ha Hw|l Ha Hw|l Ha|l Ha|l Ha|l Ha|l Ha|l t ts Ha|l Ha|l t Ha|l ts Ha|l t|l|l Hw].

Section loop.
(** A task and the tasks it queues on this loop while it runs. *)
Context {Task : Type} (spawns : Task → list Task).

(** Where the loop's thread is: not in [loop()]; emptying the eventfd at its start;
    before the [exchange]; at the test of the [while]; in [epoll_wait]; at the
    callbacks of the events reported, the eventfd's among them or not; in
    [do_pending_tasks] with the tasks it took and has not run. *)
Inductive phase :=
  | Outside | Draining | Drained | Testing | Polling | Dispatching (woken : bool) | Running (tasks : list Task).

(** [waking] counts the threads between the first part of [queue_in_loop] or
    [stop] and their [wakeup]. For the statements: what was queued and what was run,
    in order, and the pending tasks other threads queued since the eventfd was emptied. *)
Record EventLoop := mk {
  pending_tasks_ : list Task; wakeup_count : Z; waking : nat; looping_ : bool; stop_ : bool; at_ : phase;
  queued : list Task; ran : list Task; announced : list Task }.

Definition make : EventLoop := mk [] 0 0 false false Outside [] [] [].

Definition at_phase (p : phase) (l : EventLoop) : EventLoop :=
  mk (pending_tasks_ l) (wakeup_count l) (waking l) (looping_ l) (stop_ l) p (queued l) (ran l) (announced l).
Definition with_looping (b : bool) (l : EventLoop) : EventLoop :=
  mk (pending_tasks_ l) (wakeup_count l) (waking l) b (stop_ l) (at_ l) (queued l) (ran l) (announced l).
Definition with_stop (b : bool) (l : EventLoop) : EventLoop :=
  mk (pending_tasks_ l) (wakeup_count l) (waking l) (looping_ l) b (at_ l) (queued l) (ran l) (announced l).
Definition with_waking (n : nat) (l : EventLoop) : EventLoop :=
  mk (pending_tasks_ l) (wakeup_count l) n (looping_ l) (stop_ l) (at_ l) (queued l) (ran l) (announced l).

(** Whether the eventfd was emptied and [loop()] has not returned. *)
Definition entered (l : EventLoop) : bool := match at_ l with Outside | Draining => false | _ => true end.

(** [queue_in_loop] up to the end of the lock, from another thread or from the
    loop's own, and the [wakeup] that follows in the first case. *)
Definition push (other : bool) (t : Task) (l : EventLoop) : EventLoop :=
  mk (pending_tasks_ l ++ [t]) (wakeup_count l) (if other then S (waking l) else waking l) (looping_ l) (stop_ l) (at_ l)
     (queued l ++ [t]) (ran l) (if other && entered l then announced l ++ [t] else announced l).
Definition wakeup (l : EventLoop) : EventLoop :=
  mk (pending_tasks_ l) (wakeup_count l + 1) (pred (waking l)) (looping_ l) (stop_ l) (at_ l) (queued l) (ran l) (announced l).

(** [stop] up to its [wakeup]. *)
Definition stop (other : bool) (l : EventLoop) : EventLoop :=
  let l := with_stop true l in if other then with_waking (S (waking l)) l else l.

(** [run_in_loop] in the loop's thread runs the task at once. *)
Definition run_task (t : Task) (l : EventLoop) : EventLoop :=
  let l := mk (pending_tasks_ l) (wakeup_count l) (waking l) (looping_ l) (stop_ l) (at_ l) (queued l) (ran l ++ [t]) (announced l) in
  foldl (λ l t, push false t l) l (spawns t).

(** A read of the eventfd: [handle_read], and the loop at the start of [loop()]. *)
Definition handle_read (l : EventLoop) : EventLoop :=
  mk (pending_tasks_ l) 0 (waking l) (looping_ l) (stop_ l) (at_ l) (queued l) (ran l) (announced l).

Definition take_tasks (l : EventLoop) : EventLoop :=
  mk [] (wakeup_count l) (waking l) (looping_ l) (stop_ l) (Running (pending_tasks_ l)) (queued l) (ran l) [].

(** The beginning of [loop()], which asserts that it is not running. *)
Definition enter (l : EventLoop) : EventLoop :=
  mk (pending_tasks_ l) (wakeup_count l) (waking l) true (stop_ l) Draining (queued l) (ran l) [].

(** [stop_.exchange(false)], and the test of the [while]. *)
Definition exchange (l : EventLoop) : EventLoop :=
  if stop_ l then at_phase Outside (with_looping false (with_stop false l)) else at_phase Testing l.
Definition test (l : EventLoop) : EventLoop :=
  if stop_ l then at_phase Outside (with_looping false l) else at_phase Polling l.

Definition readable (l : EventLoop) : bool := bool_decide (0 < wakeup_count l)%Z.

(** Where the loop's thread runs code of the program's own: the callbacks of its
    channels and what surrounds [loop()]. What tasks queue is in [spawns]. *)
Definition calling (l : EventLoop) : Prop :=
  match at_ l with Outside | Dispatching _ => True | _ => False end.

(** One step of the loop's thread, or of another thread. [epoll_wait] reports the
    eventfd when it is readable; events of other channels and the timeout end it
    at any time. *)
Inductive step : EventLoop → EventLoop → Prop :=
  | step_enter l : at_ l = Outside → looping_ l = false → step l (enter l)
  | step_drain l : at_ l = Draining → readable l = true → step l (handle_read l)
  | step_drained l : at_ l = Draining → readable l = false → step l (at_phase Drained l)
  | step_exchange l : at_ l = Drained → step l (exchange l)
  | step_test l : at_ l = Testing → step l (test l)
  | step_poll l : at_ l = Polling → step l (at_phase (Dispatching (readable l)) l)
  | step_wakeup_read l : at_ l = Dispatching true → step l (at_phase (Dispatching false) (handle_read l))
  | step_swap l : at_ l = Dispatching false → step l (take_tasks l)
  | step_task l t ts : at_ l = Running (t :: ts) → step l (run_task t (at_phase (Running ts) l))
  | step_again l : at_ l = Running [] → step l (at_phase Testing l)
  | step_push_self l t : calling l → step l (push false t l)
  | step_stop_self l ts : calling l ∨ at_ l = Running ts → step l (stop false l)
  | step_push l t : step l (push true t l)
  | step_stop l : step l (stop true l)
  | step_wake l : 0 < waking l → step l (wakeup l).

(** What is still to run of the tasks taken. *)
Definition batch (l : EventLoop) : list Task := match at_ l with Running ts => ts | _ => [] end.

(** * Order and wake-ups *)

Lemma run_task_fields t l :
  pending_tasks_ (run_task t l) = pending_tasks_ l ++ spawns t ∧ wakeup_count (run_task t l) = wakeup_count l ∧
  waking (run_task t l) = waking l ∧ looping_ (run_task t l) = looping_ l ∧ stop_ (run_task t l) = stop_ l ∧
  at_ (run_task t l) = at_ l ∧ queued (run_task t l) = queued l ++ spawns t ∧ ran (run_task t l) = ran l ++ [t] ∧
  announced (run_task t l) = announced l.
Proof.
  unfold run_task. set (l1 := mk _ _ _ _ _ _ _ _ _).
  assert (∀ ts k, let k' := foldl (λ l t, push false t l) k ts in
    pending_tasks_ k' = pending_tasks_ k ++ ts ∧ wakeup_count k' = wakeup_count k ∧ waking k' = waking k ∧
    looping_ k' = looping_ k ∧ stop_ k' = stop_ k ∧ at_ k' = at_ k ∧ queued k' = queued k ++ ts ∧ ran k' = ran k ∧
    announced k' = announced k) as H.
  { induction ts as [|u ts IH]; intros k; cbn; [by rewrite !app_nil_r|].
    specialize (IH (push false u k)). cbn in IH. rewrite <- !app_assoc in IH. exact IH. }
  apply (H (spawns t) l1).
Qed.

(** Tasks are run in the order in which they were queued, each one once: at any
    moment the tasks run, those taken by [do_pending_tasks] and those still queued
    are, in this order, the tasks queued so far, whichever threads queued them and
    however often the loop was stopped and entered again. *)
Theorem tasks_in_order (l : EventLoop) (Hr : rtc step make l) : ran l ++ batch l ++ pending_tasks_ l = queued l.
Proof.
  revert l Hr. apply rtc_ind_r; [done|]. intros l l' _ Hs IH. unfold batch in *. step_cases Hs; cbn in *.
  4: unfold exchange. 5: unfold test. 4,5: destruct (stop_ l).
  11: destruct (run_task_fields t (at_phase (Running ts) l)) as (->&_&_&_&_&->&->&->&_).
  all: try rewrite Ha in *; cbn in *; rewrite <- IH, ?app_nil_r, <- ?app_assoc; cbn; rewrite <- ?app_assoc; reflexivity.
Qed.

(** [epoll_wait] returns at once, or will when a thread has written the eventfd. *)
Definition awake (l : EventLoop) : Prop := (0 < wakeup_count l)%Z ∨ 0 < waking l.

Definition heeded (l : EventLoop) : Prop := (0 ≤ wakeup_count l)%Z ∧
  match at_ l with
  | Outside => True
  | Draining => looping_ l = true ∧ announced l = []
  | Dispatching _ => looping_ l = true
  | Polling => looping_ l = true ∧ (announced l = [] ∧ stop_ l = false ∨ awake l)
  | _ => looping_ l = true ∧ (announced l = [] ∨ awake l)
  end.

Lemma step_heeded l l' : heeded l → step l l' → heeded l'.
Proof.
  unfold heeded, awake. intros [H0 IH] Hs.
  step_cases Hs; unfold exchange, test, stop, push, calling, entered, readable in *;
    try destruct (run_task_fields t (at_phase (Running ts) l)) as (_&->&->&->&->&->&_&_&->); cbn; try rewrite Ha in IH; cbn in IH.
  all: try (repeat case_match; cbn in *; simplify_eq; repeat case_bool_decide; intuition (congruence || lia || auto); fail).
Qed.

Lemma reachable_heeded l : rtc step make l → heeded l.
Proof. revert l. apply rtc_ind_r; [by split|]. intros l l' _ Hs IH. by eapply step_heeded. Qed.

(** C28. No wake-up is lost: at any moment of any interleaving of the loop's thread
    with the threads that queue tasks and stop the loop, a loop that is in
    [epoll_wait] although it was stopped, or although another thread queued a task
    since it was entered, finds the eventfd written or a thread about to write it:
    it does not wait for an event or the timeout. *)
Theorem no_lost_wakeup (l : EventLoop) (Hr : rtc step make l) (Hp : at_ l = Polling) (Hw : announced l ≠ [] ∨ stop_ l = true) :
  awake l.
Proof.
  assert (heeded l) as [_ H].
  { apply reachable_heeded, Hr. }
  rewrite Hp in H. destruct H as [_ [[??]|H]]; [|done]. destruct Hw; congruence.
Qed.

(** ** Schedules: which thread moves next *)

Inductive act := Own | Callback (t : Task) | OwnStop | Push (t : Task) | Stop | Wake.

(** The loop's thread has one next step, except that callbacks may queue tasks. *)
Definition own (l : EventLoop) : option EventLoop :=
  match at_ l with
  | Outside => if looping_ l then None else Some (enter l)
  | Draining => Some (if readable l then handle_read l else at_phase Drained l)
  | Drained => Some (exchange l)
  | Testing => Some (test l)
  | Polling => Some (at_phase (Dispatching (readable l)) l)
  | Dispatching true => Some (at_phase (Dispatching false) (handle_read l))
  | Dispatching false => Some (take_tasks l)
  | Running (t :: ts) => Some (run_task t (at_phase (Running ts) l))
  | Running [] => Some (at_phase Testing l)
  end.

Definition exec (a : act) (l : EventLoop) : option EventLoop :=
  match a with
  | Own => own l
  | Callback t => match at_ l with Outside | Dispatching _ => Some (push false t l) | _ => None end
  | OwnStop => match at_ l with Outside | Dispatching _ | Running _ => Some (stop false l) | _ => None end
  | Push t => Some (push true t l)
  | Stop => Some (stop true l)
  | Wake => if bool_decide (0 < waking l) then Some (wakeup l) else None
  end.

Fixpoint exec_all (l : list act) (x : EventLoop) : option EventLoop :=
  match l with [] => Some x | a :: l => x' ← exec a x; exec_all l x' end.

Lemma own_step l l' : own l = Some l' → step l l'.
Proof.
  unfold own. destruct (at_ l) as [| | | | |[]|[|t ts]] eqn:E; repeat case_match; intros [= <-];
    try (econstructor; eauto; fail).
  all: by constructor.
Qed.

Lemma exec_step a l l' : exec a l = Some l' → step l l'.
Proof.
  destruct a as [|t| |t| |]; cbn; [apply own_step|..].
  - destruct (at_ l) eqn:E; intros [= <-]; constructor; unfold calling; by rewrite E.
  - unfold calling. destruct (at_ l) as [| | | | |b|ts] eqn:E; intros [= <-].
    1,2: apply (step_stop_self _ []); left; unfold calling; by rewrite E.
    apply (step_stop_self _ ts). by right.
  - intros [= <-]. constructor.
  - intros [= <-]. constructor.
  - case_bool_decide; intros [= <-]. by constructor.
Qed.

Lemma exec_reaches l x x' : exec_all l x = Some x' → rtc step x x'.
Proof.
  revert x. induction l as [|a l IH]; intros x; cbn; [by intros [= ->]|].
  destruct (exec a x) as [y|] eqn:E; cbn; [|done]. intros H. eapply rtc_l; [by eapply exec_step|by apply IH].
Qed.

End loop.

(** Two tasks, one queued while the first is taken. *)
Definition busy : list (@act bool) := [Push true; Own; Own; Own; Own; Own; Own; Push false; Own].
Lemma tasks_in_order_witness : ∃ l, exec_all (λ _, []) busy make = Some l ∧ ran l ++ batch l ++ pending_tasks_ l = [true; false].
Proof.
  destruct (exec_all (λ _, []) busy make) as [l|] eqn:E; [|discriminate]. exists l. pose proof E as E'. vm_compute in E'. injection E' as E'.
  split; [reflexivity|]. rewrite (tasks_in_order (λ _, []) l); [by rewrite <- E'|by eapply exec_reaches].
Defined.

(** A task queued from another thread while the loop sleeps. *)
Definition asleep : list (@act bool) := [Own; Own; Own; Own; Push true].
Lemma no_lost_wakeup_witness : ∃ l, exec_all (λ _, []) asleep make = Some l ∧ at_ l = Polling ∧ announced l = [true] ∧ awake l.
Proof.
  destruct (exec_all (λ _, []) asleep make) as [l|] eqn:E; [|discriminate]. exists l. pose proof E as E'. vm_compute in E'. injection E' as E'.
  split; [reflexivity|]. split; [by rewrite <- E'|]. split; [by rewrite <- E'|].
  apply (no_lost_wakeup (λ _, []) l); [by eapply exec_reaches|by rewrite <- E'|left; by rewrite <- E'].
Defined.

(** A loop in [epoll_wait] that nothing wakes, although a task waits. *)
Definition overslept (l : EventLoop) : Prop := at_ l = Polling ∧ pending_tasks_ l = [false] ∧ readable l = false ∧ waking l = 0.

(** A task that queues a task in the loop's own thread, as [remove_connection_in_loop]
    does without worker threads when it is itself a queued task: nobody writes the
    eventfd, and the new task waits for another event or for the timeout. *)
Lemma spawned_task_waits : ∃ l, rtc (step (λ b : bool, if b then [false] else [])) make l ∧ overslept l.
Proof.
  eexists. split; [apply (exec_reaches _ [Own; Own; Own; Own; Push true; Wake; Own; Own; Own; Own; Own; Own]); vm_compute; reflexivity|done].
Qed.

(** A task queued from another thread before the loop's own enters [loop()]: the
    eventfd it writes is emptied there, and the task waits in the same way. *)
Lemma early_task_waits : ∃ l, rtc (step (λ _ : bool, [])) make l ∧ overslept l.
Proof. eexists. split; [apply (exec_reaches _ [Push false; Wake; Own; Own; Own; Own; Own]); vm_compute; reflexivity|done]. Qed.

End EventLoop.

Module EventLoopThread.
Import EventLoop.

Section thread.
Context {Task : Type} (spawns : Task → list Task).

(** Where [thread_func] is: not started; before the loop's construction; before the
    assignment of [loop_]; at the initialisation callback; in [loop()]; behind it,
    with [loop_] still set; with [loop_] reset; ended, with the loop destroyed. *)
Inductive place := NotStarted | Building | Built | Published | InLoop | Left | Cleared | Ended.

(** Where the destructor is: not called; past its test of [loop_]; in
    [loop_->stop()] between the flag and [wakeup]; in [join]; done. [Undefined] is a
    [wakeup] on a destroyed loop. *)
Inductive closing := Open | Seen | Flagged | Joining | Destroyed | Undefined.

Record EventLoopThread := mk { loop : EventLoop (Task := Task); where_ : place; loop_ : bool; closing_ : closing }.

Definition make : EventLoopThread := mk EventLoop.make NotStarted false Open.

Definition at_place (p : place) (x : EventLoopThread) : EventLoopThread := mk (loop x) p (loop_ x) (closing_ x).
Definition with_loop (l : EventLoop) (x : EventLoopThread) : EventLoopThread := mk l (where_ x) (loop_ x) (closing_ x).
Definition with_closing (c : closing) (x : EventLoopThread) : EventLoopThread := mk (loop x) (where_ x) (loop_ x) c.
Definition publish (x : EventLoopThread) : EventLoopThread := mk (loop x) Published true (closing_ x).
Definition clear (x : EventLoopThread) : EventLoopThread := mk (loop x) Cleared false (closing_ x).

(** The destructor: [if (loop_ != nullptr)], [stop] in its two parts, and [join]. *)
Definition destroy (x : EventLoopThread) : EventLoopThread := with_closing (if loop_ x then Seen else Destroyed) x.
Definition raise_stop (x : EventLoopThread) : EventLoopThread := with_closing Flagged (with_loop (stop true (loop x)) x).
Definition wake (x : EventLoopThread) : EventLoopThread :=
  match where_ x with
  | Ended => with_closing Undefined x
  | _ => with_closing Joining (with_loop (wakeup (loop x)) x)
  end.

(** A step of the loop before, in and out of [loop()], by its thread or another one;
    only the destructor stops it, and the [wakeup] of its [stop] is its own. *)
Definition other_step (x : EventLoopThread) (l : EventLoop) : Prop :=
  EventLoop.step spawns (loop x) l ∧ (stop_ l = true → stop_ (loop x) = true) ∧ (closing_ x = Flagged → 0 < waking l).

Inductive step : EventLoopThread → EventLoopThread → Prop :=
  | step_start_loop x : where_ x = NotStarted → closing_ x = Open → step x (at_place Building x)
  | step_construct x : where_ x = Building → step x (at_place Built (with_loop EventLoop.make x))
  | step_publish x : where_ x = Built → step x (publish x)
  | step_before x l : where_ x = Published → other_step x l → at_ l = Outside → step x (with_loop l x)
  | step_enter x : where_ x = Published → step x (at_place InLoop (with_loop (enter (loop x)) x))
  | step_inside x l : where_ x = InLoop → other_step x l → at_ l ≠ Outside → step x (with_loop l x)
  | step_leave x l : where_ x = InLoop → other_step x l → at_ l = Outside → step x (at_place Left (with_loop l x))
  | step_clear x : where_ x = Left → step x (clear x)
  | step_end x : where_ x = Cleared → step x (at_place Ended x)
  (* the destructor is called once [start_loop] has returned, or without it *)
  | step_destroy x : closing_ x = Open → where_ x = NotStarted ∨ loop_ x = true → step x (destroy x)
  | step_raise_stop x : closing_ x = Seen → step x (raise_stop x)
  | step_wake x : closing_ x = Flagged → step x (wake x)
  | step_join x : closing_ x = Joining → where_ x = Ended → step x (with_closing Destroyed x).

(** * The thread ends *)

Lemma step_stop l l' : EventLoop.step spawns l l' →
  (at_ l ≠ Outside → at_ l' = Outside → stop_ l = true) ∧
  (stop_ l = true → at_ l' ≠ Outside ∨ at_ l = Outside → stop_ l' = true) ∧
  (at_ l = Outside → at_ l' = Outside → looping_ l' = looping_ l).
Proof.
  intros Hs. step_cases Hs; unfold exchange, test, stop, push in *;
    try destruct (run_task_fields spawns t (at_phase (Running ts) l)) as (_&_&_&->&->&->&_); cbn; rewrite ?Ha;
    repeat case_match; cbn in *; repeat split; intros; intuition congruence.
Qed.

(** Where the thread and the destructor can be together, and what [loop_] is then. *)
Definition place_ok (w : place) (b : bool) (c : closing) : bool :=
  match w, c with
  | NotStarted, (Open | Destroyed) | Building, Open | Built, Open => negb b
  | Published, (Open | Seen | Flagged | Joining) | InLoop, (Open | Seen | Flagged | Joining) => b
  | Left, (Flagged | Joining) => b
  | Cleared, (Flagged | Joining) => negb b
  | Ended, (Flagged | Joining | Undefined | Destroyed) => negb b
  | _, _ => false
  end.

(** What the loop's own state is then. *)
Definition loop_ok (w : place) (l : EventLoop (Task := Task)) : Prop :=
  match w with
  | NotStarted | Building | Built | Published => at_ l = Outside ∧ looping_ l = false
  | InLoop => at_ l ≠ Outside
  | _ => True
  end.
Definition stop_ok (w : place) (c : closing) (l : EventLoop (Task := Task)) : Prop :=
  match c, w with
  | (Open | Seen), _ => stop_ l = false
  | (Flagged | Joining), (Published | InLoop) => stop_ l = true
  | _, _ => True
  end ∧ (c = Flagged → 0 < waking l).

Record ok (x : EventLoopThread) : Prop := mk_ok {
  ok_reached : rtc (EventLoop.step spawns) EventLoop.make (loop x);
  ok_place : place_ok (where_ x) (loop_ x) (closing_ x) = true;
  ok_loop : loop_ok (where_ x) (loop x);
  ok_stop : stop_ok (where_ x) (closing_ x) (loop x)
}.

(** A step of the loop keeps the destructor's request. *)
Lemma other_step_ok x l w : ok x → other_step x l → at_ l ≠ Outside ∨ at_ (loop x) = Outside →
  rtc (EventLoop.step spawns) EventLoop.make l ∧ (w = where_ x → stop_ok w (closing_ x) l).
Proof.
  intros [H1 H2 H3 [H4 H5]] (Hl&Hstop&Hwake) Hat. split; [by eapply rtc_r|]. intros ->.
  destruct (step_stop _ _ Hl) as (_&Hs&_). split; [|done].
  destruct (closing_ x), (where_ x); try done; try (by apply Hs); destruct (stop_ l); auto; by rewrite Hstop in H4.
Qed.

Lemma thread_step_ok x x' : ok x → step x x' → ok x'.
Proof.
  intros Hok Hs. pose proof Hok as [H1 H2 H3 [H4 H5]].
  destruct Hs as [x Hw Hc|x Hw|x Hw|x l Hw Hl Ho|x Hw|x l Hw Hl Ho|x l Hw Hl Ho|x Hw|x Hw|x Hc Hw|x Hc|x Hc|x Hc Hw].
  4,6: destruct (other_step_ok x l (where_ x) Hok Hl) as [Hr Hst]; [rewrite ?Hw in H3; cbn in H3; tauto|]; specialize (Hst eq_refl).
  4,7: destruct Hl as (Hl&Hstop&Hwake); destruct (step_stop _ _ Hl) as (Hs1&_&Hs3).
  all: destruct x as [lp w b c]; cbn in *; subst.
  all: repeat match goal with w : place |- _ => destruct w | b : bool |- _ => destruct b | c : closing |- _ => destruct c end; try discriminate H2.
  all: split; unfold destroy, wake, raise_stop, stop_ok in *; cbn in *; try tauto; try apply rtc_refl.
  all: try (destruct Hw; discriminate); try (split; [done|intros; discriminate || lia]).
  all: try (eapply rtc_r; [exact H1|]; first [assumption | constructor; naive_solver]).
  all: try (split; [done|]; rewrite Hs3; naive_solver).
  all: try discriminate; by specialize (Hs1 H3 Ho); congruence.
Qed.

Lemma thread_reachable x : rtc step make x → ok x.
Proof. revert x. apply rtc_ind_r; [by repeat split|]. intros x x' _ Hs IH. by eapply thread_step_ok. Qed.

(** The thread of a loop ends when its owner is destroyed: once the destructor
    waits in [join], a loop that has not returned was told to stop and does not
    sleep in [epoll_wait]; the destructor returns only when the thread has ended, or
    was never started; and while [loop_] is set its loop is the one of the thread,
    constructed and not yet destroyed. *)
Theorem join_not_blocked (x : EventLoopThread) (Hr : rtc step make x) :
  (closing_ x = Joining → where_ x = InLoop → stop_ (loop x) = true ∧ (at_ (loop x) = Polling → awake (loop x))) ∧
  (closing_ x = Destroyed → where_ x = NotStarted ∨ where_ x = Ended) ∧
  (loop_ x = true ↔ where_ x = Published ∨ where_ x = InLoop ∨ where_ x = Left).
Proof.
  destruct (thread_reachable x Hr) as [H1 H2 H3 [H4 _]].
  split_and!; [|by destruct (where_ x), (loop_ x), (closing_ x); auto|destruct (where_ x), (loop_ x), (closing_ x); naive_solver].
  intros Hc Hw. rewrite Hc, Hw in H4. split; [done|]. intros Hp.
  destruct (reachable_heeded _ _ H1) as [_ H]. rewrite Hp in H. destruct H as [_ [[_ H]|H]]; [congruence|done].
Qed.

End thread.

Section runs.
Notation step := (step (λ _ : unit, [])).

(** The destructor of a thread whose loop sleeps. *)
Lemma run_own (x : EventLoopThread (Task := unit)) l : where_ x = InLoop → own (λ _, []) (loop x) = Some l → at_ l ≠ Outside →
  (stop_ l = true → stop_ (loop x) = true) → (closing_ x = Flagged → 0 < waking l) → step x (with_loop l x).
Proof. intros. apply step_inside; [done| |done]. split; [by apply own_step|done]. Qed.

(** Up to the loop's first test of [stop_]. *)
Lemma started : rtc step make (mk (at_phase Testing (enter EventLoop.make)) InLoop true Open).
Proof.
  eapply rtc_l; [by apply step_start_loop|]. eapply rtc_l; [by apply step_construct|]. eapply rtc_l; [by apply step_publish|].
  eapply rtc_l; [by apply step_enter|]. do 2 (eapply rtc_l; [by eapply run_own|]). apply rtc_refl.
Qed.

Lemma join_not_blocked_witness :
  ∃ x, rtc step make x ∧ at_ (loop x) = Polling ∧ awake (loop x).
Proof.
  assert (∃ x, rtc step make x ∧ closing_ x = Joining ∧ where_ x = InLoop ∧ at_ (loop x) = Polling) as (x&Hr&Hc&Hw&Hp).
  { eexists. split; [|split; [|split]].
    - etrans; [apply started|]. eapply rtc_l; [by eapply run_own|]. eapply rtc_l; [by apply step_destroy; [|right]|].
      eapply rtc_l; [by apply step_raise_stop|]. eapply rtc_l; [by apply step_wake|]. apply rtc_refl.
    - reflexivity.
    - reflexivity.
    - reflexivity. }
  exists x. split; [exact Hr|]. split; [exact Hp|]. destruct (join_not_blocked _ x Hr) as [H _]. apply (H Hc Hw), Hp.
Defined.

(** The destructor's [stop] sets the flag and writes the eventfd in two steps: a loop
    that sees the flag in between returns, its thread ends and destroys the loop, and
    the [wakeup] that follows uses a dead object. *)
Lemma stop_uses_dead_loop : ∃ x : EventLoopThread (Task := unit), rtc step make x ∧ closing_ x = Undefined.
Proof.
  eexists. split; [|shelve]. etrans; [apply started|]. eapply rtc_l; [by apply step_destroy; [|right]|].
  eapply rtc_l; [by apply step_raise_stop|].
  eapply rtc_l; [eapply step_leave; [done| |]; [split; [by apply own_step|by split; [|cbn; lia]]|done]|].
  eapply rtc_l; [by apply step_clear|]. eapply rtc_l; [by apply step_end|]. eapply rtc_l; [by apply step_wake|]. apply rtc_refl.
  Unshelve. done.
Qed.

End runs.

End EventLoopThread.
