(* ===== verification/TcpConnection.v ===== *)
(** One TCP connection, src/network/tcp_connection.cpp, in the thread of its loop
    and as other threads see it: its states, its input and output buffers, and the
    callbacks the server installs on it. *)
From S2P Require Import Prelude Steps NetBuffer Reactor.
From stdpp Require Import relations.

Module TcpConnection.

Inductive State := kConnecting | kConnected | kDisconnecting | kDisconnected.
#[export] Instance state_eq_dec : EqDecision State.
Proof. solve_decision. Defined.

(** What [::write] answers: how much it takes (never more than it is given), or
    that it would block, or another error. *)
Inductive write_result := Wrote (n : nat) | WriteAgain | WriteFail.

(** What [::readv] answers: bytes (none at the end of the stream), or an error that
    is [EAGAIN] or is not. *)
Inductive read_result := Got (bytes : list ascii) | ReadAgain | ReadFail.

(** The tasks a connection hands to its loop from other threads. *)
Inductive Task := TSend (msg : list ascii) | TShutdown | TForceClose | TEstablished | TDestroyed.

(** Where a call of another thread stands: [send] after its test, [shutdown] after its
    [compare_and_set_state], [force_close] after its load of the state, and after its
    store. Between two steps of a call anything may happen to the connection. *)
Inductive Call := CSend (msg : list ascii) | CShutdown | CStore | CForceClose.

(** The two callbacks [send_response] installs for the end of a write: none of
    consequence, or one that closes the connection. *)
Inductive completion := KeepOpen | CloseAfter.
#[export] Instance completion_eq_dec : EqDecision completion.
Proof. solve_decision. Defined.

(** What a client's message callback may do to its connection. *)
Inductive action := Send (data : list ascii) | Shutdown | ForceClose | SetWriteComplete (w : completion).

(** What a message callback does, given the readable bytes: it acts on its
    connection, reads and changes the clients' state in between, and in the end says
    how many bytes it takes; an exception it throws leaves the event loop. *)
Inductive Script (App : Type) :=
  | Return (taken : result nat)
  | Act (a : action) (k : Script App)
  | Ask (k : App → Script App)
  | Put (x : App) (k : Script App).
Arguments Return {App} _.
Arguments Act {App} _ _.
Arguments Ask {App} _.
Arguments Put {App} _ _.

(** It never asks for undefined behaviour. *)
Fixpoint defined {App : Type} (m : Script App) : Prop :=
  match m with
  | Return taken => ∀ e, taken = Throw e → ex_kind e ≠ EUndefined
  | Act _ k => defined k
  | Ask k => ∀ x, defined (k x)
  | Put _ k => defined k
  end.

(** For the statements: the calls of the callbacks and the bytes given to
    [send_in_loop] on a connected connection. *)
Inductive note := NConnection (s : State) | NClose | NSend (data : list ascii).

Section connection.
(** The clients' state, behind [context_] and the callbacks' captures. *)
Context {App : Type}.

Record TcpConnection := mk {
  state_ : State;
  socket_ : option Z;                   (* the fd, until the socket is reset *)
  channel_ : Channel.Channel;
  poller : EpollPoller.EpollPoller;     (* of the connection's loop *)
  input_buffer_ : Buffer.Buffer;
  output_buffer_ : Buffer.Buffer;
  app : App;
  write_complete_cb_ : option completion;
  pending : list Task;                  (* of its loop, the tasks of this connection *)
  wire : list ascii;                    (* taken by the kernel so far *)
  half_closed : bool;                   (* shutdown(SHUT_WR) *)
  writes : nat;                         (* calls of [::write] *)
  trace : list note;
  begun : list Call;                    (* of other threads, the calls under way *)
  late : nat                            (* stores of [force_close] that undid a [handle_close] *)
}.

Definition with_state (s : State) (c : TcpConnection) : TcpConnection :=
  mk s (socket_ c) (channel_ c) (poller c) (input_buffer_ c) (output_buffer_ c) (app c) (write_complete_cb_ c) (pending c) (wire c)
    (half_closed c) (writes c) (trace c) (begun c) (late c).
Definition with_socket (o : option Z) (c : TcpConnection) : TcpConnection :=
  mk (state_ c) o (channel_ c) (poller c) (input_buffer_ c) (output_buffer_ c) (app c) (write_complete_cb_ c) (pending c) (wire c)
    (half_closed c) (writes c) (trace c) (begun c) (late c).
Definition with_channel (x : Channel.Channel * EpollPoller.EpollPoller) (c : TcpConnection) : TcpConnection :=
  mk (state_ c) (socket_ c) (fst x) (snd x) (input_buffer_ c) (output_buffer_ c) (app c) (write_complete_cb_ c) (pending c) (wire c)
    (half_closed c) (writes c) (trace c) (begun c) (late c).
Definition with_input (b : Buffer.Buffer) (c : TcpConnection) : TcpConnection :=
  mk (state_ c) (socket_ c) (channel_ c) (poller c) b (output_buffer_ c) (app c) (write_complete_cb_ c) (pending c) (wire c)
    (half_closed c) (writes c) (trace c) (begun c) (late c).
Definition with_output (b : Buffer.Buffer) (c : TcpConnection) : TcpConnection :=
  mk (state_ c) (socket_ c) (channel_ c) (poller c) (input_buffer_ c) b (app c) (write_complete_cb_ c) (pending c) (wire c)
    (half_closed c) (writes c) (trace c) (begun c) (late c).
Definition with_app (a : App) (c : TcpConnection) : TcpConnection :=
  mk (state_ c) (socket_ c) (channel_ c) (poller c) (input_buffer_ c) (output_buffer_ c) a (write_complete_cb_ c) (pending c) (wire c)
    (half_closed c) (writes c) (trace c) (begun c) (late c).
Definition with_pending (l : list Task) (c : TcpConnection) : TcpConnection :=
  mk (state_ c) (socket_ c) (channel_ c) (poller c) (input_buffer_ c) (output_buffer_ c) (app c) (write_complete_cb_ c) l (wire c)
    (half_closed c) (writes c) (trace c) (begun c) (late c).
Definition with_write_complete (w : completion) (c : TcpConnection) : TcpConnection :=
  mk (state_ c) (socket_ c) (channel_ c) (poller c) (input_buffer_ c) (output_buffer_ c) (app c) (Some w) (pending c) (wire c)
    (half_closed c) (writes c) (trace c) (begun c) (late c).
Definition with_wire (w : list ascii) (n : nat) (c : TcpConnection) : TcpConnection :=
  mk (state_ c) (socket_ c) (channel_ c) (poller c) (input_buffer_ c) (output_buffer_ c) (app c) (write_complete_cb_ c) (pending c) w
    (half_closed c) n (trace c) (begun c) (late c).
Definition with_half_closed (c : TcpConnection) : TcpConnection :=
  mk (state_ c) (socket_ c) (channel_ c) (poller c) (input_buffer_ c) (output_buffer_ c) (app c) (write_complete_cb_ c) (pending c) (wire c)
    true (writes c) (trace c) (begun c) (late c).
Definition noted (n : note) (c : TcpConnection) : TcpConnection :=
  mk (state_ c) (socket_ c) (channel_ c) (poller c) (input_buffer_ c) (output_buffer_ c) (app c) (write_complete_cb_ c) (pending c) (wire c)
    (half_closed c) (writes c) (trace c ++ [n]) (begun c) (late c).
Definition with_begun (l : list Call) (c : TcpConnection) : TcpConnection :=
  mk (state_ c) (socket_ c) (channel_ c) (poller c) (input_buffer_ c) (output_buffer_ c) (app c) (write_complete_cb_ c) (pending c) (wire c)
    (half_closed c) (writes c) (trace c) l (late c).
Definition with_late (n : nat) (c : TcpConnection) : TcpConnection :=
  mk (state_ c) (socket_ c) (channel_ c) (poller c) (input_buffer_ c) (output_buffer_ c) (app c) (write_complete_cb_ c) (pending c) (wire c)
    (half_closed c) (writes c) (trace c) (begun c) n.

Notation Conn := (M TcpConnection).

Definition update (f : TcpConnection → TcpConnection) : Conn () := λ c, (Ok (), f c).

(** The callbacks: [connection_cb_] with the state it finds, [close_cb_], the
    optional [high_water_mark_cb_], and [message_cb_] on the readable bytes. *)
Record Callbacks := mk_callbacks {
  connection_cb_ : State → App → App;
  close_cb_ : App → App;
  high_water_mark_cb_ : option (nat → App → App);
  high_water_mark_ : Z;
  message_cb_ : list ascii → Script App
}.

(** [outcome n] is what the [n]-th [::write] on the socket meets. *)
Context (outcome : nat → write_result) (K : Callbacks).

(** [::write(socket_->fd(), d)]; a reset [socket_] is a null pointer. *)
Definition sys_write (d : list ascii) : Conn write_result := λ c,
  match socket_ c with
  | None => (Throw (Exn EUndefined "null socket"), c)
  | Some _ =>
      match outcome (writes c) with
      | Wrote n => (Ok (Wrote (min n (length d))), with_wire (wire c ++ take n d) (S (writes c)) c)
      | r => (Ok r, with_wire (wire c) (S (writes c)) c)
      end
  end.

Definition sys_shutdown : Conn () := λ c,
  match socket_ c with
  | None => (Throw (Exn EUndefined "null socket"), c)
  | Some _ => (Ok (), with_half_closed c)
  end.

Definition on_channel (f : Channel.Channel → EpollPoller.EpollPoller → Channel.Channel * EpollPoller.EpollPoller) : Conn () :=
  update (λ c, with_channel (f (channel_ c) (poller c)) c).

(** A failed assertion of the buffer ends the process. *)
Definition append_output (d : list ascii) : Conn () := λ c,
  match Buffer.append (output_buffer_ c) d with
  | Some b => (Ok (), with_output b c)
  | None => (Throw (Exn EUndefined "assert"), c)
  end.

Definition is_connected (c : TcpConnection) : bool := bool_decide (state_ c = kConnected).

Definition call_connection_cb : Conn () :=
  update (λ c, noted (NConnection (state_ c)) (with_app (connection_cb_ K (state_ c) (app c)) c)).

Definition handle_close : Conn () :=
  c ← get_st;
  let previous := state_ c in
  _ ← update (with_state kDisconnected);
  if negb (bool_decide (previous = kConnected)) && negb (bool_decide (previous = kDisconnecting)) then mret ()
  else
    _ ← on_channel Channel.disable_all;
    _ ← call_connection_cb;
    update (λ c, noted NClose (with_app (close_cb_ K (app c)) c)).

Definition handle_error : Conn () := handle_close.

Definition watches_writes (c : TcpConnection) : bool := has_bits (Channel.events_ (channel_ c)) EPOLLOUT.

Definition force_close_in_loop : Conn () := handle_close.

Definition queue (t : Task) : Conn () := update (λ c, with_pending (pending c ++ [t]) c).

(** [force_close], from the loop's thread or from another one. *)
Definition force_close (in_loop : bool) : Conn () :=
  c ← get_st;
  if negb (is_connected c) && negb (bool_decide (state_ c = kDisconnecting)) then mret ()
  else _ ← update (with_state kDisconnecting); if in_loop then force_close_in_loop else queue TForceClose.

(** [write_complete_cb_(shared_from_this())]: the closing one calls [force_close]. *)
Definition call_write_complete : Conn () :=
  c ← get_st;
  if bool_decide (write_complete_cb_ c = Some CloseAfter) then force_close true else mret ().

(** What is left after [send_in_loop] has written [nwrote] bytes of [data]. *)
Definition buffer_rest (data : list ascii) (nwrote : nat) : Conn () :=
  c ← get_st;
  let old_len := Buffer.readable_bytes (output_buffer_ c) in
  let remaining := length data - nwrote in
  if bool_decide (remaining = 0) then mret ()
  else
    _ ← update (λ c,
      match high_water_mark_cb_ K with
      | Some cb => if bool_decide (high_water_mark_ K ≤ Z.of_nat (old_len + remaining))%Z && bool_decide (Z.of_nat old_len < high_water_mark_ K)%Z
                   then with_app (cb (old_len + remaining) (app c)) c else c
      | None => c
      end);
    _ ← append_output (drop nwrote data);
    c ← get_st;
    if negb (Channel.is_none_event (channel_ c)) && negb (watches_writes c)
    then on_channel Channel.enable_writing else mret ().

Definition send_in_loop (data : list ascii) : Conn () :=
  c ← get_st;
  if negb (is_connected c) then mret ()
  else
    _ ← update (noted (NSend data));
    if negb (Channel.is_none_event (channel_ c)) && negb (watches_writes c) &&
       bool_decide (Buffer.readable_bytes (output_buffer_ c) = 0) then
      r ← sys_write data;
      match r with
      | Wrote n => _ ← (if bool_decide (length data - n = 0) then call_write_complete else mret ()); buffer_rest data n
      | WriteAgain => buffer_rest data 0
      | WriteFail => handle_error
      end
    else buffer_rest data 0.

Definition shutdown_in_loop : Conn () :=
  c ← get_st;
  if negb (bool_decide (state_ c = kDisconnecting)) then mret ()
  else if bool_decide (Buffer.readable_bytes (output_buffer_ c) = 0) then sys_shutdown else mret ().

(** [send] and [shutdown], from the loop's thread or from another one. *)
Definition send (in_loop : bool) (data : list ascii) : Conn () :=
  c ← get_st;
  if negb (is_connected c) then mret ()
  else if in_loop then send_in_loop data else queue (TSend data).

(** [send] of a buffer that is not the connection's own: it is emptied if the
    connection is open. *)
Definition send_buffer (in_loop : bool) (buffer : Buffer.Buffer) : Conn Buffer.Buffer :=
  c ← get_st;
  if negb (is_connected c) then mret buffer
  else if in_loop then _ ← send_in_loop (Buffer.data buffer); mret (Buffer.retrieve_all buffer)
  else
    match Buffer.retrieve_all_as_string buffer with
    | None => throw EUndefined "assert"
    | Some (buffer, msg) => _ ← queue (TSend msg); mret buffer
    end.

(** [fd], and [set_tcp_no_delay], which ignores its argument; [setsockopt] answers
    [answer]. *)
Definition fd_of (c : TcpConnection) : Z := default (-1)%Z (socket_ c).
Definition set_tcp_no_delay (answer : Z → Z) (on : bool) (c : TcpConnection) : option Z := answer <$> socket_ c.

Definition shutdown (in_loop : bool) : Conn () :=
  c ← get_st;
  if negb (is_connected c) then mret ()
  else _ ← update (with_state kDisconnecting); if in_loop then shutdown_in_loop else queue TShutdown.

Definition connection_established : Conn () :=
  c ← get_st;
  if negb (bool_decide (state_ c = kConnecting)) then mret ()
  else
    _ ← update (with_state kConnected);
    _ ← on_channel Channel.enable_reading;
    call_connection_cb.

Definition connection_destroyed : Conn () :=
  c ← get_st;
  _ ← (if bool_decide (state_ c = kConnected) || bool_decide (state_ c = kDisconnecting)
       then _ ← update (with_state kDisconnected); on_channel Channel.disable_all else mret ());
  _ ← update (λ c, with_channel (channel_ c, Channel.remove (channel_ c) (poller c)) c);
  update (with_socket None).

Definition run_action (a : action) : Conn () :=
  match a with
  | Send d => send true d
  | Shutdown => shutdown true
  | ForceClose => force_close true
  | SetWriteComplete w => update (with_write_complete w)
  end.

Fixpoint run_script (m : Script App) : Conn nat :=
  match m with
  | Return taken => lift_result taken
  | Act a k => _ ← run_action a; run_script k
  | Ask k => c ← get_st; run_script (k (app c))
  | Put x k => _ ← update (with_app x); run_script k
  end.

(** [message_cb_]: what it does, then what it has taken leaves the input buffer. *)
Definition call_message_cb : Conn () :=
  c ← get_st;
  n ← run_script (message_cb_ K (Buffer.data (input_buffer_ c)));
  update (λ c, with_input (Buffer.retrieve (input_buffer_ c) n) c).

Definition handle_read (r : read_result) : Conn () :=
  c ← get_st;
  if negb (is_connected c) then mret ()
  else
    match socket_ c with
    | None => throw EUndefined "null socket"
    | Some _ =>
        match r with
        | Got bytes =>
            match Buffer.read_from_fd (input_buffer_ c) (Buffer.RvBytes bytes) with
            | None => throw EUndefined "assert"
            | Some (b, n) =>
                _ ← update (with_input b);
                if bool_decide (0 < n)%Z then call_message_cb else handle_close
            end
        | ReadAgain => mret ()
        | ReadFail => handle_error
        end
    end.

Definition handle_write : Conn () :=
  c ← get_st;
  if Channel.is_none_event (channel_ c) || negb (watches_writes c) then mret ()
  else if bool_decide (Buffer.readable_bytes (output_buffer_ c) = 0) then mret ()
  else
    r ← sys_write (Buffer.data (output_buffer_ c));
    match r with
    | Wrote 0 => mret ()
    | Wrote n =>
        _ ← update (λ c, with_output (Buffer.retrieve (output_buffer_ c) n) c);
        c ← get_st;
        if bool_decide (Buffer.readable_bytes (output_buffer_ c) = 0) then
          _ ← on_channel Channel.disable_writing;
          _ ← call_write_complete;
          c ← get_st;
          if bool_decide (state_ c = kDisconnecting) then shutdown_in_loop else mret ()
        else mret ()
    | WriteAgain => mret ()
    | WriteFail => handle_error
    end.

(** The channel's callbacks, as the constructor sets them. *)
Definition channel_callback (r : read_result) (cb : Channel.callback) : Conn () :=
  match cb with
  | Channel.ErrorCb => handle_error
  | Channel.CloseCb => handle_close
  | Channel.ReadCb => handle_read r
  | Channel.WriteCb => handle_write
  end.

Definition run_task (t : Task) : Conn () :=
  match t with
  | TSend msg => c ← get_st; if is_connected c then send_in_loop msg else mret ()
  | TShutdown => shutdown_in_loop
  | TForceClose => force_close_in_loop
  | TEstablished => connection_established
  | TDestroyed => connection_destroyed
  end.

(** ** The connection among its loop, its server and other threads *)

(** As [TcpServer::new_connection] makes it: the first task is to establish it. *)
Definition fresh (self : nat) (fd : Z) (p : EpollPoller.EpollPoller) (a : App) : TcpConnection :=
  mk kConnecting (Some fd) (Channel.make self fd) p (Buffer.make 1024) (Buffer.make 1024) a None [TEstablished] [] false 0 [] [] 0.

(** What happens to a connection: its channel is reported ready, its loop runs its
    next task, a client in the loop's thread calls one of its operations, a client in
    another thread begins such a call, the [i]-th call begun so goes on, the server
    queues its destruction, other channels of the loop change the poller, and other
    connections and the timers change the clients' state. *)
Inductive event :=
  | Ready (revents : Z) (r : read_result)
  | NextTask
  | Client (in_loop : bool) (a : action)
  | Proceed (i : nat)
  | QueueDestroyed
  | OtherChannels (p : EpollPoller.EpollPoller)
  | OtherClients (a : App).

(** The first step of a call from another thread: it reads the state, and [shutdown]
    changes it, in one atomic operation. *)
Definition begin_call (a : action) : Conn () :=
  c ← get_st;
  let begins call := update (λ c, with_begun (begun c ++ [call]) c) in
  match a with
  | Send d => if is_connected c then begins (CSend d) else mret ()
  | Shutdown => if is_connected c then _ ← update (with_state kDisconnecting); begins CShutdown else mret ()
  | ForceClose => if is_connected c || bool_decide (state_ c = kDisconnecting) then begins CStore else mret ()
  | SetWriteComplete _ => mret ()
  end.

(** [state_.store(kDisconnecting)], whatever the state has become since the load. *)
Definition store_disconnecting : Conn () :=
  update (λ c, with_late (if bool_decide (state_ c = kDisconnected) then S (late c) else late c) (with_state kDisconnecting c)).

(** The next step of a call: [force_close]'s store, or the task handed to the loop. *)
Definition proceed (i : nat) : Conn () :=
  c ← get_st;
  let ends t := _ ← update (λ c, with_begun (delete i (begun c)) c); queue t in
  match begun c !! i with
  | None => mret ()
  | Some (CSend d) => ends (TSend d)
  | Some CShutdown => ends TShutdown
  | Some CStore => _ ← store_disconnecting; update (λ c, with_begun (<[i := CForceClose]> (begun c)) c)
  | Some CForceClose => ends TForceClose
  end.

Definition next_task : Conn () :=
  c ← get_st;
  match pending c with [] => mret () | t :: l => _ ← update (with_pending l); run_task t end.

Definition run_event (e : event) : Conn () :=
  match e with
  | Ready revents r => Channel.handle_event (channel_callback r) true revents
  | NextTask => next_task
  | Client true a => run_action a
  | Client false a => begin_call a
  | Proceed i => proceed i
  | QueueDestroyed => queue TDestroyed
  | OtherChannels p => update (λ c, with_channel (channel_ c, p) c)
  | OtherClients a => update (with_app a)
  end.

(** A call whose steps nothing comes between is the operation itself. *)
Lemma call_uninterrupted a c : begun c = [] → (_ ← begin_call a; _ ← proceed 0; proceed 0) c =
  match a with
  | Send d => send false d c
  | Shutdown => shutdown false c
  | ForceClose => force_close false c
  | SetWriteComplete _ => (Ok (), c)
  end.
Proof. intros H. destruct c as [st]. cbn in H. subst. by destruct a, st. Qed.

(** When each can happen: an fd is not reported before it is registered, the callbacks
    are set in the loop's thread, the server destroys a connection after its
    [close_cb_], and while the fd is open other channels have other fds. *)
Definition event_ok (c : TcpConnection) (e : event) : Prop :=
  match e with
  | Ready _ _ => state_ c ≠ kConnecting
  | Client b a => b = false → match a with SetWriteComplete _ => False | _ => True end
  | QueueDestroyed => NClose ∈ trace c
  | OtherChannels p => ∀ fd, socket_ c = Some fd →
      EpollPoller.interest p !! fd = EpollPoller.interest (poller c) !! fd ∧
      EpollPoller.channels_ p !! fd = EpollPoller.channels_ (poller c) !! fd
  | NextTask | Proceed _ | OtherClients _ => True
  end.

Definition step (c c' : TcpConnection) : Prop := ∃ e, event_ok c e ∧ c' = snd (run_event e c).

(** ** Its invariant *)

(** The bytes given to [send_in_loop], and the calls of the other callbacks. *)
Definition sent (l : list note) : list ascii :=
  concat (map (λ n, match n with NSend d => d | _ => [] end) l).
Definition calls (l : list note) : list note :=
  List.filter (λ n, match n with NSend _ => false | _ => true end) l.

(** The events a connection watches, and the callbacks it has called. *)
Definition events_of (s : State) (waiting : bool) : Z :=
  match s with
  | kConnected | kDisconnecting => if waiting then Z.lor Channel.kReadEvent EPOLLOUT else Channel.kReadEvent
  | _ => 0
  end.
Definition calls_of (s : State) : list note :=
  match s with
  | kConnecting => []
  | kConnected | kDisconnecting => [NConnection kConnected]
  | kDisconnected => [NConnection kConnected; NConnection kDisconnected; NClose]
  end.

Definition waiting (c : TcpConnection) : bool := negb (bool_decide (Buffer.data (output_buffer_ c) = [])).

(** The poller knows exactly these events of the fd. *)
Definition registered (self : nat) (fd events : Z) (p : EpollPoller.EpollPoller) : Prop :=
  EpollPoller.interest p !! fd = (if bool_decide (events = 0)%Z then None else Some (events, self)) ∧
  EpollPoller.channels_ p !! fd = (if bool_decide (events = 0)%Z then None else Some self).

(** [owed]: bytes given to [send_in_loop] that are neither written nor buffered,
    none between operations. *)
Record inv (self : nat) (fd : Z) (owed : list ascii) (c : TcpConnection) : Prop := mk_inv {
  i_buffers : Buffer.wf (input_buffer_ c) ∧ Buffer.wf (output_buffer_ c);
  i_channel : channel_ c = Channel.mk self fd (events_of (state_ c) (waiting c));
  i_socket : (socket_ c = Some fd ∧ registered self fd (events_of (state_ c) (waiting c)) (poller c)) ∨
             (socket_ c = None ∧ state_ c = kDisconnected);
  i_stream : state_ c ≠ kDisconnected → wire c ++ Buffer.data (output_buffer_ c) ++ owed = sent (trace c);
  i_prefix : wire c `prefix_of` sent (trace c);
  i_half : half_closed c = true → wire c = sent (trace c) ∧ (state_ c = kDisconnecting ∨ state_ c = kDisconnected);
  i_calls : calls (trace c) = calls_of (state_ c);
  i_destroy : TDestroyed ∈ pending c → state_ c = kDisconnected;
  i_new : state_ c = kConnecting → pending c = [TEstablished] ∧ trace c = [] ∧ Buffer.data (output_buffer_ c) = [] ∧ begun c = []
}.

#[local] Arguments sent : simpl never.
#[local] Arguments calls : simpl never.

Lemma sent_app l l' : sent (l ++ l') = sent l ++ sent l'.
Proof. unfold sent. by rewrite map_app, concat_app. Qed.
Lemma calls_app l l' : calls (l ++ l') = calls l ++ calls l'.
Proof. apply List.filter_app. Qed.

Lemma registered_update self fd e e' p : registered self fd e p →
  registered self fd e' (EpollPoller.update_channel fd e' self p).
Proof.
  unfold registered, EpollPoller.update_channel, EpollPoller.has_channel. intros [Hi Hc]. rewrite Hc. unfold EpollPoller.epoll_update.
  destruct (bool_decide (e = 0)%Z) eqn:E; case_bool_decide; repeat case_bool_decide; try done; cbn; rewrite Hi; cbn;
    rewrite ?lookup_insert_eq, ?lookup_delete_eq; done.
Qed.

Lemma fresh_inv self fd p a : registered self fd 0 p → inv self fd [] (fresh self fd p a).
Proof.
  intros Hp. pose proof (Buffer.wf_make 1024) as [Hw Hd].
  split; try done; try (by left); try (cbn [fresh output_buffer_ trace]; by rewrite Hd).
  by intros H%list_elem_of_singleton.
Qed.

(** ** Every operation keeps it *)

(** The run of [m] from [c] ends, or throws, in a good state, established or later,
    and its behaviour is defined. *)
Definition good_owing (self : nat) (fd : Z) (owed : list ascii) (c : TcpConnection) : Prop :=
  inv self fd owed c ∧ state_ c ≠ kConnecting.
Notation good self fd := (good_owing self fd []).
Definition safe {A} (self : nat) (fd : Z) (m : Conn A) (c : TcpConnection) : Prop :=
  good self fd (snd (m c)) ∧ ∀ e, fst (m c) = Throw e → ex_kind e ≠ EUndefined.

Section preserved.
Context (self : nat) (fd : Z)
  (HK : ∀ d, defined (message_cb_ K d)).

Lemma safe_ret {A} (a : A) c : good self fd c → safe self fd (mret a) c.
Proof. by split. Qed.

Lemma safe_bind {A B} (m : Conn A) (f : A → Conn B) c :
  safe self fd m c → (∀ a c', m c = (Ok a, c') → good self fd c' → safe self fd (f a) c') → safe self fd (m ≫= f) c.
Proof.
  unfold safe, mbind, M_mbind. destruct (m c) as [[a|e] c'] eqn:E; intros [Hg He] Hf; [|split; [done|]; cbn in *; intros e' [= ->]; by apply He].
  by apply Hf.
Qed.

Lemma safe_get {B} (f : TcpConnection → Conn B) c : safe self fd (f c) c → safe self fd (get_st ≫= f) c.
Proof. done. Qed.

Lemma safe_update (f : TcpConnection → TcpConnection) c : good self fd (f c) → safe self fd (update f) c.
Proof. by split. Qed.

(** A change of the fields the invariant does not mention. *)
Lemma good_app o a c : good_owing self fd o c → good_owing self fd o (with_app a c).
Proof. intros [[] Hs]. by split. Qed.

Lemma good_pending l c : good self fd c → (TDestroyed ∈ l → state_ c = kDisconnected) → good self fd (with_pending l c).
Proof. intros [[] Hs] Hl. by split; [split|]. Qed.

Lemma socket_of o c : good_owing self fd o c → state_ c ≠ kDisconnected →
  socket_ c = Some fd ∧ registered self fd (events_of (state_ c) (waiting c)) (poller c).
Proof. intros [[] _] Hs. destruct i_socket0 as [?|[_ ?]]; [done|congruence]. Qed.

(** [handle_close], in one step. *)
Definition closed (c : TcpConnection) : TcpConnection :=
  let c := with_channel (Channel.disable_all (channel_ c) (poller c)) (with_state kDisconnected c) in
  let c := noted (NConnection kDisconnected) (with_app (connection_cb_ K kDisconnected (app c)) c) in
  noted NClose (with_app (close_cb_ K (app c)) c).

Lemma handle_close_run c : handle_close c =
  (Ok (), match state_ c with kConnected | kDisconnecting => closed c | _ => with_state kDisconnected c end).
Proof. unfold handle_close. destruct c as [[] ? ? ? ? ? ? ? ? ? ? ? ? ?]; reflexivity. Qed.

Lemma closed_good o c : good_owing self fd o c → state_ c ≠ kDisconnected → good self fd (closed c).
Proof.
  intros Hg Hs. pose proof (socket_of _ _ Hg Hs) as [Hsk Hr]. destruct Hg as [[Hb Hch _ Hst Hp Hh Hc Hds Hn] Hnew].
  assert (sent (trace (closed c)) = sent (trace c)) as Hsent by (cbn; by rewrite !sent_app, !app_nil_r).
  split; [|done]. split; rewrite ?Hsent; cbn; rewrite ?Hch; try done.
  - left. split; [done|]. by apply registered_update with (e := events_of (state_ c) (waiting c)).
  - intros Hhc. split; [apply Hh, Hhc|by right].
  - rewrite !calls_app, Hc. by destruct (state_ c).
Qed.

Lemma handle_close_safe c : good self fd c → safe self fd handle_close c.
Proof.
  intros Hg. unfold safe. rewrite handle_close_run. cbn. split; [|done].
  destruct (state_ c) eqn:Es; [by destruct Hg|by eapply closed_good; [|rewrite Es]|by eapply closed_good; [|rewrite Es]|].
  replace (with_state kDisconnected c) with c; [done|]. destruct c; cbn in *. by subst.
Qed.

(** What [handle_error] leaves when a write fails. *)
Lemma handle_error_owing o c : good_owing self fd o c → state_ c = kConnected → safe self fd handle_error c.
Proof.
  intros Hg Es. unfold handle_error, safe. rewrite handle_close_run, Es. split; [|done]. by apply (closed_good o); [|rewrite Es].
Qed.

Lemma waiting_readable c : Buffer.wf (output_buffer_ c) →
  bool_decide (Buffer.readable_bytes (output_buffer_ c) = 0) = negb (waiting c).
Proof.
  intros Hw. unfold waiting. rewrite negb_involutive. apply bool_decide_ext. rewrite <- Buffer.length_data by done.
  by rewrite length_zero_iff_nil.
Qed.

Lemma append_output_run d c : Buffer.wf (output_buffer_ c) → ∃ b, append_output d c = (Ok (), with_output b c) ∧
  Buffer.wf b ∧ Buffer.data b = Buffer.data (output_buffer_ c) ++ d.
Proof. intros Hw. destruct (Buffer.append_refines _ d Hw) as (b&Hb&Hwb&Hd). exists b. unfold append_output. by rewrite Hb. Qed.

Lemma free_channel o c : good_owing self fd o c → state_ c = kConnected →
  negb (Channel.is_none_event (channel_ c)) && negb (watches_writes c) = negb (waiting c).
Proof.
  intros [[_ Hch _ _ _ _ _ _ _] _] Es. unfold Channel.is_none_event, watches_writes. rewrite Hch, Es. by destruct (waiting c).
Qed.

(** The two ways the rest is buffered: with the channel already watching for room,
    or by starting to watch. *)
Lemma output_good rest b c : good_owing self fd rest c → state_ c = kConnected → rest ≠ [] →
  Buffer.wf b → Buffer.data b = Buffer.data (output_buffer_ c) ++ rest →
  good self fd (if waiting c then with_output b c
    else with_channel (Channel.enable_writing (channel_ c) (poller c)) (with_output b c)).
Proof.
  intros Hg Es Hne Hw Hd. pose proof (socket_of _ _ Hg) as Hsk. rewrite Es in Hsk. destruct (Hsk ltac:(done)) as [Hs Hr]. clear Hsk.
  destruct Hg as [[[Hbi _] Hch _ Hst Hp Hh Hc Hds Hn] Hnew]. rewrite Es in *.
  assert (negb (bool_decide (Buffer.data b = [])) = true) as Hwait.
  { rewrite Hd. by destruct (Buffer.data (output_buffer_ c)), rest. }
  split; [|by destruct (waiting c); cbn; rewrite Es].
  destruct (waiting c) eqn:E; split; cbn; unfold waiting; cbn; rewrite ?Es, ?Hch, ?Hd, ?Hwait; rewrite <- ?Hd, ?Hwait;
    try done; try (by intros _; rewrite Hd, app_nil_r; apply Hst); try (by intros Hx; apply Hh in Hx as [? [?|?]]).
  - by left.
  - left. split; [done|]. by apply registered_update with (e := events_of kConnected false).
Qed.

Lemma buffer_rest_safe data n c : good_owing self fd (drop n data) c → state_ c = kConnected →
  safe self fd (buffer_rest data n) c.
Proof.
  intros Hg Es. unfold buffer_rest. apply safe_get. cbv zeta. case_bool_decide as Hz.
  { rewrite skipn_all2 in Hg by lia. by apply safe_ret. }
  assert (drop n data ≠ []) as Hne.
  { intros H%(f_equal length). rewrite length_drop in H. cbn in H. lia. }
  match goal with |- safe _ _ (update ?f ≫= _) _ => assert (good_owing self fd (drop n data) (f c) ∧ state_ (f c) = kConnected) as [Hg1 Es1] end.
  { split; repeat case_match; try done; by apply good_app. }
  unfold safe, mbind, M_mbind, update. cbn [fst snd]. revert Hg1 Es1.
  match goal with |- context [append_output _ ?x] => generalize x end.
  intros c1 Hg1 Es1. destruct (append_output_run (drop n data) c1) as (b&->&Hwb&Hd); [by destruct Hg1 as [[[]]]|].
  pose proof (output_good _ _ _ Hg1 Es1 Hne Hwb Hd) as Hout. cbv beta iota. unfold get_st. cbv beta iota.
  change (negb (Channel.is_none_event (channel_ (with_output b c1))) && negb (watches_writes (with_output b c1)))
    with (negb (Channel.is_none_event (channel_ c1)) && negb (watches_writes c1)).
  rewrite (free_channel _ _ Hg1 Es1). by destruct (waiting c1); split.
Qed.

Lemma safe_run {A B} (m : Conn A) (f : A → Conn B) c a c1 :
  m c = (Ok a, c1) → safe self fd (f a) c1 → safe self fd (m ≫= f) c.
Proof. unfold safe, mbind, M_mbind. by intros ->. Qed.

Lemma safe_update_bind {B} o (f : TcpConnection → TcpConnection) (m : Conn B) c :
  good_owing self fd o (f c) → (good_owing self fd o (f c) → safe self fd m (f c)) → safe self fd (update f ≫= λ _, m) c.
Proof. intros Hg Hm. by apply Hm. Qed.

Lemma noted_owing d c : good self fd c → state_ c = kConnected → good_owing self fd d (noted (NSend d) c).
Proof.
  intros [[Hb Hch Hs Hst Hp Hh Hc Hds Hn] Hnew] Es.
  assert (sent (trace (noted (NSend d) c)) = sent (trace c) ++ d) as Ht by (cbn; rewrite sent_app; unfold sent at 2; cbn; by rewrite app_nil_r).
  split; [|done]. split; rewrite ?Ht; cbn; rewrite ?Es in *; try done.
  - intros _. rewrite <- Hst by done. by rewrite app_nil_r, <- app_assoc.
  - by apply prefix_app_r.
  - intros Hx. by apply Hh in Hx as [? [?|?]].
  - by rewrite calls_app, Hc.
Qed.

Lemma wrote_owing n k d c : good_owing self fd d c → state_ c = kConnected → waiting c = false →
  good_owing self fd (drop n d) (with_wire (wire c ++ take n d) k c).
Proof.
  intros [[Hb Hch Hs Hst Hp Hh Hc Hds Hn] Hnew] Es Hw.
  assert (Buffer.data (output_buffer_ c) = []) as Hd by (unfold waiting in Hw; by case_bool_decide).
  specialize (Hst ltac:(by rewrite Es)). rewrite Hd in Hst. cbn in Hst.
  split; [|done]. split; try done; cbn.
  - intros _. by rewrite Hd, <- app_assoc; cbn; rewrite take_drop.
  - rewrite <- Hst. apply prefix_app. by exists (drop n d); rewrite take_drop.
  - intros Hx. by apply Hh in Hx as [? [?|?]]; rewrite Es in *.
Qed.

Lemma same_wire o k c : good_owing self fd o c → good_owing self fd o (with_wire (wire c) k c).
Proof. intros [[] Hn]. by split. Qed.

Lemma good_disconnecting c : good self fd c → state_ c = kConnected → good self fd (with_state kDisconnecting c).
Proof.
  intros [[Hb Hch Hs Hst Hp Hh Hc Hds Hn] Hnew] Es. rewrite Es in *. split; [|done]. split; cbn; rewrite ?Hch; try done.
  - destruct Hs as [?|[_ ?]]; [by left|done].
  - intros _. by apply Hst.
  - intros Hx. by apply Hh in Hx as [? [?|?]].
  - intros Hx. by apply Hds in Hx.
Qed.

Lemma queue_safe t c : t ≠ TDestroyed → good self fd c → safe self fd (queue t) c.
Proof.
  intros Ht Hg. apply safe_update, good_pending; [done|]. intros [H|H%list_elem_of_singleton]%elem_of_app; [by apply Hg|done].
Qed.

Lemma force_close_safe b c : good self fd c → safe self fd (force_close b) c.
Proof using HK.
  intros Hg. unfold force_close. apply safe_get. unfold is_connected.
  assert (bool_decide (state_ c = kConnected) || bool_decide (state_ c = kDisconnecting) = true →
    good self fd (with_state kDisconnecting c)) as Hgo.
  { intros [H%bool_decide_eq_true|H%bool_decide_eq_true]%orb_true_iff; [by apply good_disconnecting|].
    replace (with_state kDisconnecting c) with c; [done|]. destruct c; cbn in *. by subst. }
  rewrite <- negb_orb. destruct (bool_decide _ || bool_decide _); [|by apply safe_ret]. cbn [negb].
  eapply safe_update_bind; [by apply Hgo|]. intros Hg2.
  destruct b; [by apply handle_close_safe|by apply queue_safe].
Qed.

Lemma call_write_complete_safe c : good self fd c → safe self fd call_write_complete c.
Proof using HK.
  intros Hg. unfold call_write_complete. apply safe_get. case_bool_decide; [by apply force_close_safe|by apply safe_ret].
Qed.

Lemma buffer_rest_none data n c : length data - n = 0 → good self fd c → safe self fd (buffer_rest data n) c.
Proof. intros Hz Hg. unfold buffer_rest. apply safe_get. cbv zeta. rewrite bool_decide_eq_true_2 by done. by apply safe_ret. Qed.

Lemma good_write_complete o w c : good_owing self fd o c → good_owing self fd o (with_write_complete w c).
Proof. intros [[] Hs]. by split. Qed.

Lemma send_in_loop_safe d c : good self fd c → safe self fd (send_in_loop d) c.
Proof using HK.
  intros Hg. unfold send_in_loop. apply safe_get. unfold is_connected. case_bool_decide as Es; [|by apply safe_ret].
  cbn [negb]. pose proof (noted_owing d c Hg Es) as Ho. apply (safe_update_bind d); [done|]. clear Ho. intros Ho.
  assert (Buffer.wf (output_buffer_ c)) as Hw by apply Hg.
  rewrite (free_channel _ _ Hg Es), (waiting_readable _ Hw), andb_diag. set (c1 := noted (NSend d) c) in *.
  assert (state_ c1 = kConnected ∧ waiting c1 = waiting c) as [Es1 Hwt] by done.
  destruct (waiting c) eqn:E; cbn [negb]; [by apply buffer_rest_safe|].
  destruct (socket_of _ _ Ho) as [Hsk _]; [by rewrite Es1|].
  assert (sys_write d c1 = match outcome (writes c1) with
    | Wrote n => (Ok (Wrote (min n (length d))), with_wire (wire c1 ++ take n d) (S (writes c1)) c1)
    | r => (Ok r, with_wire (wire c1) (S (writes c1)) c1) end) as Hrun by (unfold sys_write; by rewrite Hsk).
  destruct (outcome (writes c1)) as [n| |]; eapply safe_run; try exact Hrun; cbn beta iota.
  - pose proof (wrote_owing (n `min` length d) (S (writes c1)) d c1 Ho Es1 Hwt) as H1.
    replace (take (n `min` length d) d) with (take n d) in H1 by (by rewrite <- firstn_firstn, firstn_all).
    case_bool_decide as Hz; [|by eapply safe_run, buffer_rest_safe; [|exact H1|]].
    rewrite skipn_all2 in H1 by lia. apply safe_bind; [by apply call_write_complete_safe|]. intros _ c3 _ Hg3.
    by apply buffer_rest_none.
  - by apply buffer_rest_safe; [apply same_wire|].
  - by apply (handle_error_owing d); [apply same_wire|].
Qed.

Lemma shutdown_in_loop_safe c : good self fd c → safe self fd shutdown_in_loop c.
Proof using HK.
  intros Hg. unfold shutdown_in_loop. apply safe_get. case_bool_decide as Es; [|by apply safe_ret]. cbn [negb].
  rewrite waiting_readable by apply Hg. destruct (waiting c) eqn:E; cbn [negb]; [by apply safe_ret|].
  destruct (socket_of _ _ Hg) as [Hsk _]; [by rewrite Es|]. unfold safe, sys_shutdown. rewrite Hsk. cbn. split; [|done].
  assert (Buffer.data (output_buffer_ c) = []) as Hd by (unfold waiting in E; by case_bool_decide).
  destruct Hg as [[Hb Hch Hs Hst Hp Hh Hc Hds Hn] Hnew]. split; [|done]. split; try done. cbn. intros _.
  specialize (Hst ltac:(by rewrite Es)). rewrite Hd, !app_nil_r in Hst. split; [exact Hst|by left].
Qed.

(** Sending a buffer is sending its bytes and emptying it. *)
Theorem send_buffer_sends (b : bool) (buffer : Buffer.Buffer) (c : TcpConnection) (Hw : Buffer.wf buffer) :
  ∃ rest, Buffer.wf rest ∧ Buffer.data rest = (if is_connected c then [] else Buffer.data buffer) ∧
  send_buffer b buffer c = (_ ← send b (Buffer.data buffer); mret rest) c.
Proof.
  unfold send_buffer, send. rewrite (bind_run get_st _ _ _ _ eq_refl). destruct (is_connected c) eqn:E; cbn [negb].
  2: { exists buffer. split_and!; [done..|]. unfold mbind, M_mbind. cbn. by rewrite E. }
  assert (∀ (m : M TcpConnection ()) (k : M TcpConnection Buffer.Buffer), (_ ← (c ← get_st; if negb (is_connected c) then mret () else m); k) c = (_ ← m; k) c) as Hs.
  { intros m k. unfold mbind, M_mbind. cbn. by rewrite E. }
  destruct b.
  - exists (Buffer.retrieve_all buffer). destruct (Buffer.retrieve_all_refines buffer Hw) as [? ?]. split_and!; [done..|]. by rewrite Hs.
  - unfold Buffer.retrieve_all_as_string, Buffer.retrieve_as_string, Buffer.assert. rewrite bool_decide_eq_true_2 by done.
    exists (Buffer.retrieve buffer (Buffer.readable_bytes buffer)).
    destruct (Buffer.retrieve_refines buffer (Buffer.readable_bytes buffer) Hw) as [? Hd]. split_and!; [done| |].
    + by rewrite Hd, drop_ge by (by rewrite Buffer.length_data).
    + rewrite Hs, take_ge by (by rewrite Buffer.length_data). done.
Qed.

Lemma send_safe b d c : good self fd c → safe self fd (send b d) c.
Proof using HK.
  intros Hg. unfold send. apply safe_get. destruct (is_connected c); [|by apply safe_ret]. cbn.
  destruct b; [by apply send_in_loop_safe|by apply queue_safe].
Qed.

Lemma shutdown_safe b c : good self fd c → safe self fd (shutdown b) c.
Proof using HK.
  intros Hg. unfold shutdown. apply safe_get. unfold is_connected. case_bool_decide as Es; [|by apply safe_ret]. cbn [negb].
  eapply safe_update_bind; [by apply good_disconnecting|]. intros Hg2.
  destruct b; [by apply shutdown_in_loop_safe|by apply queue_safe].
Qed.

Lemma run_action_safe a c : good self fd c → safe self fd (run_action a) c.
Proof using HK.
  intros Hg. destruct a; [by apply send_safe|by apply shutdown_safe|by apply force_close_safe|].
  by apply safe_update, good_write_complete.
Qed.

Lemma good_begun l n c : good self fd c → good self fd (with_begun l (with_late n c)).
Proof. intros [[] Hs]. by split. Qed.

Lemma begin_call_safe a c : good self fd c → safe self fd (begin_call a) c.
Proof.
  assert (∀ call c, good self fd c → safe self fd (update (λ c, with_begun (begun c ++ [call]) c)) c) as Hb.
  { intros call c1 Hg. apply safe_update. exact (good_begun (begun c1 ++ [call]) (late c1) c1 Hg). }
  intros Hg. unfold begin_call. apply safe_get. cbv zeta. destruct a; [| | |by apply safe_ret].
  - destruct (is_connected c); [by apply Hb|by apply safe_ret].
  - unfold is_connected. case_bool_decide as Es; [|by apply safe_ret].
    eapply safe_update_bind; [by apply good_disconnecting|]. intros Hg2. by apply Hb.
  - destruct (is_connected c || _); [by apply Hb|by apply safe_ret].
Qed.

Lemma proceed_safe i c : good self fd c → (begun c !! i = Some CStore → state_ c ≠ kDisconnected) → safe self fd (proceed i) c.
Proof.
  intros Hg Ht. unfold proceed. apply safe_get. cbv zeta.
  assert (∀ t, t ≠ TDestroyed → safe self fd (_ ← update (λ c, with_begun (delete i (begun c)) c); queue t) c) as Hq.
  { intros t Hne. eapply safe_update_bind; [by apply (good_begun (delete i (begun c)) (late c))|]. intros Hg2. by apply queue_safe. }
  destruct (begun c !! i) as [[d| | |]|]; [by apply Hq|by apply Hq| |by apply Hq|by apply safe_ret]. specialize (Ht eq_refl).
  assert (good self fd (with_state kDisconnecting c)) as Hgo.
  { destruct (state_ c) eqn:Es; [by destruct Hg|by apply good_disconnecting| |done].
    replace (with_state kDisconnecting c) with c; [done|]. destruct c; cbn in *. by subst. }
  set (n := if bool_decide (state_ c = kDisconnected) then S (late c) else late c).
  pose proof (good_begun (begun c) n _ Hgo) as H1. eapply safe_update_bind; [exact H1|]. intros _. apply safe_update.
  exact (good_begun (<[i := CForceClose]> (begun c)) n _ H1).
Qed.

Lemma run_script_safe m c : defined m → good self fd c → safe self fd (run_script m) c.
Proof using HK.
  revert c. induction m as [taken|a k IH|k IH|x k IH]; intros c Hm Hg; cbn [run_script defined] in *.
  - split; [done|exact Hm].
  - apply safe_bind; [by apply (run_action_safe a)|]. intros _ c1 _ Hg1. by apply IH.
  - apply safe_get. by apply IH.
  - eapply safe_update_bind; [by apply good_app|]. intros Hg1. by apply IH.
Qed.

Lemma good_input b c : good self fd c → Buffer.wf b → good self fd (with_input b c).
Proof. intros [[[_ Ho]] Hn] Hb. by split. Qed.

Lemma call_message_cb_safe c : good self fd c → safe self fd call_message_cb c.
Proof using HK.
  intros Hg. unfold call_message_cb. apply safe_get. apply safe_bind; [by apply run_script_safe|].
  intros n c1 _ Hg1. apply safe_update, good_input; [done|]. apply Buffer.retrieve_refines, Hg1.
Qed.

Lemma handle_read_safe r c : good self fd c → safe self fd (handle_read r) c.
Proof using HK.
  intros Hg. unfold handle_read. apply safe_get. unfold is_connected. case_bool_decide as Es; [|by apply safe_ret]. cbn [negb].
  destruct (socket_of _ _ Hg) as [Hsk _]; [by rewrite Es|]. rewrite Hsk.
  destruct r as [bytes| |]; [|by apply safe_ret|by apply handle_close_safe].
  destruct (Buffer.read_from_fd_refines (input_buffer_ c) bytes) as (b&->&Hwb&_); [apply Hg|].
  eapply safe_update_bind; [by apply good_input|]. intros Hg1. case_bool_decide; [by apply call_message_cb_safe|by apply handle_close_safe].
Qed.

(** Taking [n] bytes off the output buffer after a write of them. *)
Definition drained (n k : nat) (c : TcpConnection) : TcpConnection :=
  let d := Buffer.data (output_buffer_ c) in
  with_output (Buffer.retrieve (output_buffer_ c) n) (with_wire (wire c ++ take n d) k c).

Lemma half_open c : good self fd c → state_ c ≠ kDisconnected → waiting c = true → half_closed c = false.
Proof.
  intros [[_ _ _ Hst _ Hh _ _ _] _] Hs Hw. destruct (half_closed c); [|done]. destruct (Hh eq_refl) as [Heq _]. exfalso.
  specialize (Hst Hs). rewrite <- Heq, app_nil_r in Hst. rewrite <- (app_nil_r (wire c)) in Hst at 2.
  apply app_inv_head in Hst. unfold waiting in Hw. by rewrite Hst in Hw.
Qed.

Lemma drained_good n k c : good self fd c → state_ c ≠ kDisconnected → waiting c = true →
  good self fd (if waiting (drained n k c) then drained n k c
    else with_channel (Channel.disable_writing (channel_ c) (poller c)) (drained n k c)).
Proof.
  intros Hg Hs Hw. pose proof (socket_of _ _ Hg Hs) as [Hsk Hr]. pose proof (half_open _ Hg Hs Hw) as Hho.
  destruct Hg as [[[Hbi Hbo] Hch _ Hst _ _ Hc Hds Hn] Hnew]. specialize (Hst Hs).
  destruct (Buffer.retrieve_refines _ n Hbo) as [Hwb Hd]. rewrite Hw in *. rewrite app_nil_r in Hst.
  assert ((wire c ++ take n (Buffer.data (output_buffer_ c))) ++ Buffer.data (output_buffer_ (drained n k c)) ++ []
    = sent (trace c)) as Hst2.
  { cbn. by rewrite <- Hst, app_nil_r, <- app_assoc, Hd, take_drop. }
  assert (half_closed c = true → wire c ++ take n (Buffer.data (output_buffer_ c)) = sent (trace c) ∧
    (state_ c = kDisconnecting ∨ state_ c = kDisconnected)) as Hh by congruence.
  assert (wire c ++ take n (Buffer.data (output_buffer_ c)) `prefix_of` sent (trace c)) as Hp.
  { rewrite <- Hst2, app_nil_r. by apply prefix_app_r. }
  destruct (waiting (drained n k c)) eqn:E; (split; [|done]); split; try done; try (by left); cbn [state_ drained with_channel
    with_output with_wire waiting output_buffer_ channel_ fst snd socket_ poller Channel.disable_writing Channel.update].
  - change (waiting _) with (waiting (drained n k c)). by rewrite E.
  - change (waiting _) with (waiting (drained n k c)). rewrite E. by left.
  - change (waiting _) with (waiting (drained n k c)). rewrite E, Hch. by destruct (state_ c).
  - change (waiting _) with (waiting (drained n k c)). rewrite E, Hch. left. split; [done|].
    destruct (state_ c); try done; by apply (registered_update _ _ (events_of kConnected true)).
Qed.

Lemma handle_write_safe c : good self fd c → safe self fd handle_write c.
Proof using HK.
  intros Hg. unfold handle_write. apply safe_get.
  destruct (Channel.is_none_event (channel_ c) || negb (watches_writes c)) eqn:Ew; [by apply safe_ret|].
  rewrite waiting_readable by apply Hg. destruct (waiting c) eqn:Hw; cbn [negb]; [|by apply safe_ret].
  assert (state_ c ≠ kDisconnected) as Hs.
  { intros Hs. destruct Hg as [[_ Hch _ _ _ _ _ _ _] _]. unfold Channel.is_none_event in Ew. by rewrite Hch, Hs in Ew. }
  destruct (socket_of _ _ Hg Hs) as [Hsk _]. set (d := Buffer.data (output_buffer_ c)).
  assert (sys_write d c = match outcome (writes c) with
    | Wrote n => (Ok (Wrote (min n (length d))), with_wire (wire c ++ take n d) (S (writes c)) c)
    | r => (Ok r, with_wire (wire c) (S (writes c)) c) end) as Hrun by (unfold sys_write; by rewrite Hsk).
  destruct (outcome (writes c)) as [n| |]; eapply safe_run; try exact Hrun; cbn beta iota;
    [|by apply safe_ret, same_wire|by apply handle_close_safe, same_wire].
  replace (take n d) with (take (n `min` length d) d) by (by rewrite <- firstn_firstn, firstn_all).
  destruct (n `min` length d) as [|m] eqn:Em; [cbn; rewrite app_nil_r; by apply safe_ret, same_wire|].
  pose proof (drained_good (S m) (S (writes c)) c Hg Hs Hw) as Hdr. eapply safe_run; [reflexivity|]. cbv beta.
  change (with_output _ _) with (drained (S m) (S (writes c)) c). apply (safe_run get_st _ _ _ _ eq_refl).
  set (c1 := drained _ _ c) in *.
  assert (Buffer.wf (output_buffer_ c1)) as Hwb by (apply Buffer.retrieve_refines, Hg).
  rewrite (waiting_readable c1 Hwb). destruct (waiting c1); cbn [negb]; [by apply safe_ret|].
  eapply safe_run; [reflexivity|]. change (Channel.disable_writing (channel_ c1) (poller c1))
    with (Channel.disable_writing (channel_ c) (poller c)). revert Hdr. generalize (with_channel
      (Channel.disable_writing (channel_ c) (poller c)) c1). intros c2 Hg2.
  apply safe_bind; [by apply call_write_complete_safe|]. intros _ c3 _ Hg3.
  apply safe_get. case_bool_decide; [by apply shutdown_in_loop_safe|by apply safe_ret].
Qed.

Lemma established_good c : inv self fd [] c → state_ c = kConnecting →
  safe self fd connection_established (with_pending [] c).
Proof.
  intros [[Hbi Hbo] Hch Hs Hst Hp Hh Hc _ Hn] Es. destruct (Hn Es) as (_&Htr&Hd&_). destruct Hs as [[Hsk Hr]|[_ ?]]; [|congruence].
  assert (waiting c = false) as Hw by (unfold waiting; by rewrite Hd). specialize (Hst ltac:(by rewrite Es)).
  set (c1 := with_channel (Channel.enable_reading (channel_ c) (poller c)) (with_state kConnected (with_pending [] c))).
  assert (connection_established (with_pending [] c) =
    (Ok (), noted (NConnection kConnected) (with_app (connection_cb_ K kConnected (app c1)) c1))) as Hrun.
  { unfold connection_established. rewrite (bind_run get_st _ _ _ _ eq_refl). by rewrite bool_decide_eq_true_2. }
  unfold safe. rewrite Hrun. split; [|done]. split; [|done].
  assert (sent (trace c ++ [NConnection kConnected]) = sent (trace c)) as Hsent by (by rewrite sent_app, app_nil_r).
  split; cbn; rewrite ?Hsent, ?Hch, ?Es; unfold waiting; cbn; rewrite ?Hd; try done.
  - left. split; [done|]. apply (registered_update _ _ (events_of kConnecting false)). by rewrite Es, Hw in Hr.
  - by rewrite Hd in Hst.
  - intros Hx. apply Hh in Hx as [_ [?|?]]; congruence.
  - by rewrite calls_app, Hc, Es.
  - by intros Hx%elem_of_nil.
Qed.

Lemma connection_destroyed_safe c : good self fd c → state_ c = kDisconnected → safe self fd connection_destroyed c.
Proof.
  intros [[Hb Hch Hs Hst Hp Hh Hc Hds Hn] Hnew] Es.
  assert (connection_destroyed c =
    (Ok (), with_socket None (with_channel (channel_ c, Channel.remove (channel_ c) (poller c)) c))) as Hrun.
  { unfold connection_destroyed. rewrite (bind_run get_st _ _ _ _ eq_refl). by rewrite Es. }
  unfold safe. rewrite Hrun. split; [|done]. split; [|done]. split; try done. cbn. by right.
Qed.

Lemma closed_state c : good self fd c → NClose ∈ trace c → state_ c = kDisconnected.
Proof.
  intros [[_ _ _ _ _ _ Hc _ _] _] Hin. assert (NClose ∈ calls (trace c)) as Hin2.
  { unfold calls. apply list_elem_of_In, List.filter_In. split; [by apply list_elem_of_In|done]. }
  rewrite Hc in Hin2. destruct (state_ c); [| | |done]; cbn in Hin2; rewrite ?elem_of_cons, elem_of_nil in Hin2; by destruct Hin2.
Qed.

Lemma other_channels_inv o p c : event_ok c (OtherChannels p) → inv self fd o c → inv self fd o (with_channel (channel_ c, p) c).
Proof.
  intros Hok [Hb Hch Hs Hst Hp Hh Hc Hds Hn]. split; try done. cbn. destruct Hs as [[Hsk [Hi Hci]]|?]; [left|by right].
  split; [done|]. destruct (Hok _ Hsk) as [H1 H2]. split; [by rewrite H1|by rewrite H2].
Qed.

Lemma run_task_safe t c : good self fd c → (t = TDestroyed → state_ c = kDisconnected) → safe self fd (run_task t) c.
Proof using HK.
  intros Hg Ht. destruct t; cbn.
  - apply safe_get. destruct (is_connected c); [by apply send_in_loop_safe|by apply safe_ret].
  - by apply shutdown_in_loop_safe.
  - by apply handle_close_safe.
  - unfold connection_established. apply safe_get. rewrite bool_decide_eq_false_2 by apply Hg. by apply safe_ret.
  - by apply connection_destroyed_safe; [|apply Ht].
Qed.

Lemma handle_event_safe alive revents r c : good self fd c →
  safe self fd (Channel.handle_event (channel_callback r) alive revents) c.
Proof using HK.
  intros Hg. unfold Channel.handle_event. destruct alive; [|by apply safe_ret]. cbn [negb].
  assert (∀ cb c, good self fd c → safe self fd (channel_callback r cb) c) as Hcb.
  { intros [] c0 H0; [by apply handle_close_safe|by apply handle_close_safe|by apply handle_read_safe|by apply handle_write_safe]. }
  assert (∀ (b : bool) cb c, good self fd c → safe self fd (if b then channel_callback r cb else mret ()) c) as Hif.
  { intros [] cb c0 H0; [by apply Hcb|by apply safe_ret]. }
  apply safe_bind; [by apply Hif|]. intros _ c1 _ H1. apply safe_bind; [by apply Hif|]. intros _ c2 _ H2.
  apply safe_bind; [by apply Hif|]. intros _ c3 _ H3. by apply Hif.
Qed.

(** A step other than a late store. *)
Definition timely (c : TcpConnection) (e : event) : Prop :=
  match e with Proceed i => begun c !! i = Some CStore → state_ c ≠ kDisconnected | _ => True end.

Lemma early_safe e c : inv self fd [] c → state_ c = kConnecting → event_ok c e →
  inv self fd [] (snd (run_event e c)) ∧ ∀ x, fst (run_event e c) = Throw x → ex_kind x ≠ EUndefined.
Proof using HK.
  intros Hi Es Hok. pose proof (i_new _ _ _ _ Hi Es) as (Hp&Ht&_&Hb).
  destruct e as [revents r| |[] a|i| |p|a]; cbn in *.
  - done.
  - unfold next_task. rewrite (bind_run get_st _ _ _ _ eq_refl), Hp. destruct (established_good c Hi Es) as [[? _] ?]. done.
  - destruct a; cbn; [| | |by split; [destruct Hi|]]; unfold send, shutdown, force_close, is_connected;
      rewrite (bind_run get_st _ _ _ _ eq_refl); by rewrite Es.
  - unfold begin_call, is_connected. rewrite (bind_run get_st _ _ _ _ eq_refl), Es. by destruct a.
  - unfold proceed. rewrite (bind_run get_st _ _ _ _ eq_refl), Hb. by rewrite lookup_nil.
  - rewrite Ht in Hok. by apply elem_of_nil in Hok.
  - split; [|done]. by apply other_channels_inv.
  - split; [by destruct Hi|done].
Qed.

Lemma event_safe e c : inv self fd [] c → event_ok c e → timely c e →
  inv self fd [] (snd (run_event e c)) ∧ ∀ x, fst (run_event e c) = Throw x → ex_kind x ≠ EUndefined.
Proof using HK.
  intros Hi Hok Htm. destruct (decide (state_ c = kConnecting)) as [Es|Hnew]; [by apply early_safe|].
  assert (good self fd c) as Hg by done.
  assert (safe self fd (run_event e) c) as [[? _] ?]; [|done].
  destruct e as [revents r| |[] a|i| |p|a]; [by apply handle_event_safe| | | | | | |]; cbn in *.
  - unfold next_task. apply safe_get. destruct (pending c) as [|t l] eqn:Ep; [by apply safe_ret|].
    assert (TDestroyed ∈ l ∨ t = TDestroyed → state_ c = kDisconnected) as Hd.
    { intros H. apply (i_destroy _ _ _ _ Hi). rewrite Ep, elem_of_cons. destruct H; [by right|by left]. }
    apply (safe_update_bind []); [apply good_pending; auto|]. intros Hg2. apply run_task_safe; [done|]. cbn. auto.
  - by apply run_action_safe.
  - by apply begin_call_safe.
  - by apply proceed_safe.
  - unfold queue. apply safe_update, good_pending; [done|]. intros _. by apply closed_state.
  - apply safe_update. split; [by apply other_channels_inv|done].
  - apply safe_update. by apply good_app.
Qed.

(** *** The calls under way, and the late stores *)

(** The loop's own operations leave them alone. *)
Definition framed (c c' : TcpConnection) : Prop := begun c' = begun c ∧ late c' = late c.

#[local] Instance framed_preorder : PreOrder framed.
Proof. split; [done|]. intros c1 c2 c3 [? ?] [? ?]. split; congruence. Qed.

#[local] Hint Extern 1 (steps framed (update _)) => (intros ?; repeat case_match; done) : solar.
#[local] Hint Extern 1 (steps framed (on_channel _)) => done : solar.
#[local] Hint Extern 1 (steps framed (queue _)) => done : solar.
#[local] Hint Extern 1 (steps framed call_connection_cb) => done : solar.

Lemma sys_write_framed d : steps framed (sys_write d).
Proof. intros c. unfold sys_write. destruct (socket_ c); [|done]. by destruct (outcome _). Qed.
Lemma sys_shutdown_framed : steps framed sys_shutdown.
Proof. intros c. unfold sys_shutdown. by destruct (socket_ c). Qed.
Lemma append_output_framed d : steps framed (append_output d).
Proof. intros c. unfold append_output. by destruct (Buffer.append _ _). Qed.
#[local] Hint Resolve sys_write_framed sys_shutdown_framed append_output_framed : solar.

Lemma handle_close_framed : steps framed handle_close.
Proof. unfold handle_close. cbv zeta. step_rules. Qed.
#[local] Hint Resolve handle_close_framed : solar.
Lemma force_close_framed b : steps framed (force_close b).
Proof. unfold force_close, force_close_in_loop. step_rules. Qed.
#[local] Hint Resolve force_close_framed : solar.
Lemma send_in_loop_framed d : steps framed (send_in_loop d).
Proof. unfold send_in_loop, buffer_rest, call_write_complete, handle_error. cbv zeta. step_rules. Qed.
Lemma shutdown_in_loop_framed : steps framed shutdown_in_loop.
Proof. unfold shutdown_in_loop. step_rules. Qed.
#[local] Hint Resolve send_in_loop_framed shutdown_in_loop_framed : solar.
Lemma run_action_framed a : steps framed (run_action a).
Proof. destruct a; cbn [run_action]; unfold send, shutdown; step_rules. Qed.
#[local] Hint Resolve run_action_framed : solar.
Lemma run_script_framed m : steps framed (run_script m).
Proof. induction m; cbn [run_script]; step_rules. Qed.
#[local] Hint Resolve run_script_framed : solar.
Lemma channel_callback_framed r cb : steps framed (channel_callback r cb).
Proof.
  destruct cb; cbn [channel_callback];
    unfold handle_error, handle_read, handle_write, call_message_cb, call_write_complete; cbv zeta; step_rules.
Qed.
Lemma run_task_framed t : steps framed (run_task t).
Proof. destruct t; cbn [run_task]; unfold connection_established, connection_destroyed, force_close_in_loop; step_rules. Qed.
#[local] Hint Resolve channel_callback_framed run_task_framed : solar.

Lemma late_after e c : late (snd (run_event e c)) = late c ∨ ¬ timely c e ∧ late (snd (run_event e c)) = S (late c).
Proof.
  assert (∀ (m : Conn ()), steps framed m → late (snd (m c)) = late c) as Hf by (intros m Hm; apply Hm).
  destruct e as [revents r| |[] a|i| |p|a]; cbn [run_event].
  - left. apply Hf. unfold Channel.handle_event. step_rules.
  - left. apply Hf. unfold next_task. step_rules.
  - left. apply Hf. auto with solar.
  - left. unfold begin_call. rewrite (bind_run get_st _ _ _ _ eq_refl). cbv zeta. destruct a; by try case_match.
  - unfold proceed. rewrite (bind_run get_st _ _ _ _ eq_refl). cbv zeta.
    destruct (begun c !! i) as [[]|] eqn:E; try (by left). rewrite (bind_run store_disconnecting _ _ _ _ eq_refl). cbn.
    case_bool_decide; [right|by left]. split; [|done]. intros Ht. by apply Ht.
  - by left.
  - by left.
  - by left.
Qed.

Lemma late_timely e c : late (snd (run_event e c)) = late c → timely c e.
Proof.
  intros Hla. destruct e as [| | |i| | |]; try done. intros Hb Es.
  cbn [run_event] in Hla. unfold proceed in Hla. rewrite (bind_run get_st _ _ _ _ eq_refl) in Hla. cbv zeta in Hla.
  rewrite Hb, (bind_run store_disconnecting _ _ _ _ eq_refl) in Hla. cbn in Hla. rewrite bool_decide_eq_true_2 in Hla by done. lia.
Qed.

(** What is left of the invariant once a store has come late: a connection whose
    channel watches nothing, and at most one more closing than late stores. *)
Definition closings (l : list note) : nat :=
  length (List.filter (λ n, match n with NClose => true | _ => false end) l).

#[local] Arguments closings : simpl never.

Record gone (c : TcpConnection) : Prop := mk_gone {
  g_state : state_ c = kDisconnecting ∨ state_ c = kDisconnected;
  g_events : Channel.events_ (channel_ c) = 0%Z;
  g_prefix : wire c `prefix_of` sent (trace c);
  g_closings : closings (trace c) + (if bool_decide (state_ c = kDisconnecting) then 1 else 0) ≤ S (late c)
}.

Lemma closings_app l l' : closings (l ++ l') = closings l + closings l'.
Proof. unfold closings. by rewrite List.filter_app, length_app. Qed.

(** The note of a call is the closing callback's, or none of the sends. *)
Lemma closings_of l s : calls l = calls_of s → closings l = if bool_decide (s = kDisconnected) then 1 else 0.
Proof.
  intros H. assert (closings l = closings (calls l)) as ->.
  { unfold closings, calls. clear. induction l as [|[] l IH]; cbn; [done|exact IH|by f_equal|exact IH]. }
  rewrite H. by destruct s.
Qed.

Lemma gone_same (f : TcpConnection → TcpConnection) : (∀ c, state_ (f c) = state_ c ∧ channel_ (f c) = channel_ c ∧
    wire (f c) = wire c ∧ trace (f c) = trace c ∧ late (f c) = late c) → steps (keeps gone) (update f).
Proof.
  intros Hf c. destruct (Hf c) as (E1&E2&E3&E4&E5). cbn. intros []. split; rewrite ?E1, ?E2, ?E3, ?E4, ?E5; done.
Qed.

Lemma gone_not_connected c : gone c → is_connected c = false.
Proof. intros [Hs _ _ _]. apply bool_decide_eq_false_2. by destruct Hs as [-> | ->]. Qed.

Lemma handle_close_gone : steps (keeps gone) handle_close.
Proof.
  intros c [Hs He Hp Hc]. rewrite handle_close_run. cbn [snd]. destruct Hs as [Es|Es]; rewrite Es in *.
  - split; cbn; [by right|done| |].
    + rewrite !sent_app. by apply prefix_app_r, prefix_app_r.
    + rewrite !closings_app. change (closings [NConnection kDisconnected]) with 0. change (closings [NClose]) with 1.
      rewrite bool_decide_eq_true_2 in Hc by done. case_bool_decide; [done|lia].
  - replace (with_state kDisconnected c) with c by (destruct c; cbn in *; by subst).
    split; [by right|done..|]. by rewrite Es.
Qed.

Lemma store_gone : steps (keeps gone) store_disconnecting.
Proof.
  intros c [Hs He Hp Hc]. cbn. split; cbn; [by left|done..|].
  destruct Hs as [Es|Es]; rewrite Es in *; repeat case_bool_decide; try done; lia.
Qed.

Lemma shut_gone : steps (keeps gone) sys_shutdown.
Proof. intros c Hg. unfold sys_shutdown. destruct (socket_ c); [|done]. by apply (gone_same with_half_closed). Qed.

#[local] Hint Extern 1 (steps (keeps gone) (update _)) => (apply gone_same; done) : solar.
#[local] Hint Extern 1 (steps (keeps gone) (queue _)) => (apply gone_same; done) : solar.
#[local] Hint Resolve handle_close_gone store_gone shut_gone : solar.

Lemma force_close_gone b : steps (keeps gone) (force_close b).
Proof.
  intros c Hg. unfold force_close. rewrite (bind_run get_st _ _ _ _ eq_refl), (gone_not_connected c Hg). cbn [negb andb].
  case_bool_decide as Es; [|done]. cbn [negb]. rewrite (bind_run (update _) _ _ _ _ eq_refl).
  replace (with_state kDisconnecting c) with c by (destruct c; cbn in *; by subst). revert Hg.
  change (keeps gone c (snd ((if b then force_close_in_loop else queue TForceClose) c))).
  destruct b; [apply handle_close_gone|by apply gone_same].
Qed.
#[local] Hint Resolve force_close_gone : solar.

Lemma send_in_loop_gone d : steps (keeps gone) (send_in_loop d).
Proof. intros c Hg. unfold send_in_loop. by rewrite (bind_run get_st _ _ _ _ eq_refl), (gone_not_connected c Hg). Qed.
Lemma shutdown_in_loop_gone : steps (keeps gone) shutdown_in_loop.
Proof. unfold shutdown_in_loop. step_rules. Qed.
#[local] Hint Resolve send_in_loop_gone shutdown_in_loop_gone : solar.

Lemma run_action_gone a : steps (keeps gone) (run_action a).
Proof.
  destruct a; cbn [run_action]; [| |auto with solar|auto with solar]; intros c Hg; unfold send, shutdown;
    by rewrite (bind_run get_st _ _ _ _ eq_refl), (gone_not_connected c Hg).
Qed.

Lemma handle_write_gone : steps (keeps gone) handle_write.
Proof.
  intros c Hg. unfold handle_write. rewrite (bind_run get_st _ _ _ _ eq_refl). unfold Channel.is_none_event.
  rewrite (g_events _ Hg). done.
Qed.

Lemma channel_callback_gone r cb : steps (keeps gone) (channel_callback r cb).
Proof.
  destruct cb; cbn [channel_callback]; unfold handle_error; [auto with solar|auto with solar| |apply handle_write_gone].
  intros c Hg. unfold handle_read. by rewrite (bind_run get_st _ _ _ _ eq_refl), (gone_not_connected c Hg).
Qed.
#[local] Hint Resolve run_action_gone channel_callback_gone : solar.

Lemma connection_destroyed_gone : steps (keeps gone) connection_destroyed.
Proof.
  intros c Hg. pose proof (gone_not_connected c Hg) as Hn. unfold is_connected in Hn. destruct Hg as [Hs He Hp Hc].
  unfold connection_destroyed. rewrite (bind_run get_st _ _ _ _ eq_refl), Hn. destruct Hs as [Es|Es]; rewrite Es in *.
  - change (false || bool_decide (kDisconnecting = kDisconnecting)) with true. split; cbn; [by right|done..|].
    change (closings (trace c) + 0 ≤ S (late c)). lia.
  - change (false || bool_decide (kDisconnected = kDisconnecting)) with false. split; cbn; [by right|done..|].
    change (closings (trace c) + (if bool_decide (state_ c = kDisconnecting) then 1 else 0) ≤ S (late c)). by rewrite Es.
Qed.

Lemma run_task_gone t : steps (keeps gone) (run_task t).
Proof.
  destruct t; cbn [run_task]; [step_rules|step_rules|apply handle_close_gone| |apply connection_destroyed_gone].
  intros c Hg. unfold connection_established. rewrite (bind_run get_st _ _ _ _ eq_refl).
  destruct (g_state _ Hg) as [Es|Es]; by rewrite Es.
Qed.
#[local] Hint Resolve run_task_gone : solar.

Lemma event_gone e : steps (keeps gone) (run_event e).
Proof.
  destruct e as [revents r| |[] a|i| |p|a]; cbn [run_event].
  - unfold Channel.handle_event. step_rules.
  - unfold next_task. step_rules.
  - auto with solar.
  - intros c Hg. unfold begin_call. rewrite (bind_run get_st _ _ _ _ eq_refl), (gone_not_connected c Hg). cbv zeta.
    destruct a; try done. cbn [orb]. destruct (bool_decide _); [|done]. by apply (gone_same (λ c, with_begun (begun c ++ [CStore]) c)).
  - unfold proceed. cbv zeta. step_rules.
  - auto with solar.
  - auto with solar.
  - auto with solar.
Qed.

(** A late store is the first step out of the invariant. *)
Lemma late_gone e c : inv self fd [] c → late c = 0 → ¬ timely c e → gone (snd (run_event e c)).
Proof.
  intros [_ Hch _ _ Hp _ Hc _ _] Hl Ht. destruct e as [| | |i| | |]; try (by destruct Ht). unfold timely in Ht.
  destruct (begun c !! i) as [[]|] eqn:Eb; try (by destruct Ht).
  assert (state_ c = kDisconnected) as Es by (destruct (decide (state_ c = kDisconnected)); [done|by destruct Ht]).
  cbn [run_event]. unfold proceed. rewrite (bind_run get_st _ _ _ _ eq_refl). cbv zeta. rewrite Eb.
  rewrite (bind_run store_disconnecting _ _ _ _ eq_refl). rewrite Es in *. apply closings_of in Hc.
  split; cbn; [by left|by rewrite Hch|done|]. rewrite Hc, Hl. repeat case_bool_decide; try done; lia.
Qed.

Lemma reachable_cases p a c : registered self fd 0 p → rtc step (fresh self fd p a) c →
  (late c = 0 ∧ inv self fd [] c) ∨ (late c ≠ 0 ∧ gone c).
Proof using HK.
  intros Hp Hr. assert ((late (fresh self fd p a) = 0 ∧ inv self fd [] (fresh self fd p a)) ∨
    (late (fresh self fd p a) ≠ 0 ∧ gone (fresh self fd p a))) as H0 by (left; split; [done|by apply fresh_inv]). revert H0.
  induction Hr as [|c1 c2 c3 (e&Hok&->) _ IH]; [done|]. intros H. apply IH. clear IH.
  destruct H as [[Hl Hi]|[Hl Hg]].
  - destruct (late_after e c1) as [Hla|[Hnt Hla]].
    + left. split; [by rewrite Hla|]. apply event_safe; [done..|]. by apply late_timely.
    + right. split; [by rewrite Hla|]. by apply late_gone.
  - right. split; [destruct (late_after e c1) as [-> |[_ ->]]; [done|lia]|by apply event_gone].
Qed.

Lemma reachable_inv p a c : registered self fd 0 p → rtc step (fresh self fd p a) c → late c = 0 → inv self fd [] c.
Proof using HK. intros Hp Hr Hl. by destruct (reachable_cases p a c Hp Hr) as [[_ ?]|[? _]]. Qed.

(** No store comes late when the other threads never call [force_close]. *)
Theorem never_late p a c :
  rtc (λ c c', ∃ e, event_ok c e ∧ e ≠ Client false ForceClose ∧ c' = snd (run_event e c)) (fresh self fd p a) c → late c = 0.
Proof.
  intros Hr. assert (late (fresh self fd p a) = 0 ∧ CStore ∉ begun (fresh self fd p a)) as H0 by (split; [done|by apply not_elem_of_nil]).
  revert H0. induction Hr as [|c1 c2 c3 (e&_&Hne&->) _ IH]; [by intros [? _]|]. intros [Hl Hb]. apply IH. clear IH. split.
  - destruct (late_after e c1) as [-> |[Ht _]]; [done|]. destruct Ht. destruct e; try done. intros Hs.
    destruct Hb. by eapply list_elem_of_lookup_2.
  - assert (∀ (m : Conn ()), steps framed m → begun (snd (m c1)) = begun c1) as Hf by (intros m Hm; apply Hm).
    destruct e as [revents r| |[] b|i| |q|b]; cbn [run_event]; try done.
    + rewrite Hf; [done|]. unfold Channel.handle_event. step_rules.
    + rewrite Hf; [done|]. unfold next_task. step_rules.
    + rewrite Hf; [done|]. auto with solar.
    + unfold begin_call. rewrite (bind_run get_st _ _ _ _ eq_refl). cbv zeta.
      destruct b; try done; (destruct (is_connected c1); [|done]); cbn; by intros [?|?%list_elem_of_singleton]%elem_of_app.
    + unfold proceed. rewrite (bind_run get_st _ _ _ _ eq_refl). cbv zeta.
      assert (CStore ∉ delete i (begun c1)) as Hd.
      { intros (j&Hj)%list_elem_of_lookup_1. apply Hb. destruct (decide (j < i)) as [Hji|Hji].
        - rewrite list_lookup_delete_lt in Hj by done. by eapply list_elem_of_lookup_2.
        - rewrite list_lookup_delete_ge in Hj by lia. by eapply list_elem_of_lookup_2. }
      destruct (begun c1 !! i) as [[]|] eqn:E; try done. destruct Hb. by eapply list_elem_of_lookup_2.
Qed.

(** C9. What a connection sends is a stream: whatever the kernel accepts of each write
    and however reads, writes, errors, hang-ups, the tasks of the loop and the steps of
    other threads' calls follow each other, the bytes written are a prefix, in order
    and without gap or repetition, of those given to [send]. As long as no other
    thread's [force_close] has stored its state after the connection was closed (which
    cannot happen, [never_late], in a program that calls [force_close] in the loop's
    thread only, as this one does), it also holds that while the connection is open
    the rest is exactly the output buffer and the kernel is asked for write events if
    and only if that rest is not empty, and that the sending side is shut down only
    after everything has been written. *)
Theorem output_stream_exact (p : EpollPoller.EpollPoller) (a : App) (c : TcpConnection)
    (Hp : registered self fd 0 p) (Hr : rtc step (fresh self fd p a) c) :
  wire c `prefix_of` sent (trace c) ∧
  (late c = 0 →
    (half_closed c = true → wire c = sent (trace c)) ∧
    (state_ c = kConnected ∨ state_ c = kDisconnecting →
      wire c ++ Buffer.data (output_buffer_ c) = sent (trace c) ∧
      EpollPoller.interest (poller c) !! fd = Some (if waiting c then Z.lor Channel.kReadEvent EPOLLOUT else Channel.kReadEvent, self))).
Proof using HK.
  destruct (reachable_cases _ _ _ Hp Hr) as [[_ [Hb Hch Hs Hst Hpre Hh Hc Hds Hn]]|[Hl Hg]]; [|by split; [apply Hg|intros ?]].
  split; [done|]. intros _. split; [intros H; by apply Hh|].
  intros Ho. assert (state_ c ≠ kDisconnected) as Hne by (by destruct Ho as [-> | ->]).
  split; [by rewrite <- (app_nil_r (Buffer.data _)), Hst|]. destruct Hs as [[_ [Hi _]]|[_ ?]]; [|done].
  rewrite Hi. by destruct Ho as [-> | ->], (waiting c).
Qed.

(** C26. The life of a connection, under the steps of its loop and of other threads'
    calls: [close_cb_] is called at most once, and once more for each [force_close] of
    another thread that stores its state after the connection was closed. Where there
    is no such store, as in a program that calls [force_close] in the loop's thread
    only ([never_late]), the state and the callbacks called always agree: the
    connection callback is called once when the connection is established and once
    more when it is lost, [close_cb_] once after that and never before; and no
    operation, on any path, uses the socket after it was released or breaks an
    assertion of the buffers. *)
Theorem connection_lifecycle (p : EpollPoller.EpollPoller) (a : App) (c : TcpConnection)
    (Hp : registered self fd 0 p) (Hr : rtc step (fresh self fd p a) c) :
  closings (trace c) ≤ S (late c) ∧
  (late c = 0 →
    calls (trace c) = calls_of (state_ c) ∧
    (socket_ c = None → state_ c = kDisconnected) ∧
    ∀ e x, event_ok c e → fst (run_event e c) = Throw x → ex_kind x ≠ EUndefined).
Proof using HK.
  destruct (reachable_cases _ _ _ Hp Hr) as [[Hl Hi]|[Hl Hg]].
  2: { split; [|done]. destruct Hg as [_ _ _ Hc]. lia. }
  pose proof (i_calls _ _ _ _ Hi) as Hc. split; [rewrite (closings_of _ _ Hc), Hl; case_bool_decide; lia|].
  intros _. split_and!; [done| |].
  - intros H. destruct Hi as [_ _ [[? _]|[_ ?]] _ _ _ _ _ _]; congruence.
  - intros e x Hok. assert (timely c e ∨ ∃ i, e = Proceed i) as [Ht|[i ->]]; [|by apply event_safe|].
    { destruct e; try (left; exact I). right. eauto. }
    cbn [run_event]. unfold proceed. rewrite (bind_run get_st _ _ _ _ eq_refl). cbv zeta.
    by destruct (begun c !! i) as [[]|].
Qed.

(** What the last byte of the output does to a connection: the closing callback
    closes it; otherwise it stays as it is, half-closed if it is shutting down. *)
Definition finished (c c' : TcpConnection) : Prop :=
  if bool_decide (write_complete_cb_ c = Some CloseAfter) then state_ c' = kDisconnected
  else state_ c' = state_ c ∧ (state_ c = kDisconnecting → half_closed c' = true).

(** The end of [handle_write] once the output buffer is empty. *)
Lemma write_done_run c : socket_ c = Some fd → state_ c = kConnected ∨ state_ c = kDisconnecting →
  Buffer.wf (output_buffer_ c) → waiting c = false → ∃ c',
  (_ ← call_write_complete; c ← get_st; if bool_decide (state_ c = kDisconnecting) then shutdown_in_loop else mret ()) c
    = (Ok (), c') ∧ wire c' = wire c ∧ waiting c' = false ∧ finished c c'.
Proof.
  intros Hsk Ho Hwf Hw. unfold finished.
  destruct (bool_decide (write_complete_cb_ c = Some CloseAfter)) eqn:Ec.
  - assert (call_write_complete c = (Ok (), closed (with_state kDisconnecting c))) as Hcb.
    { unfold call_write_complete. rewrite (bind_run get_st _ _ _ _ eq_refl), Ec. unfold force_close, is_connected.
      rewrite (bind_run get_st _ _ _ _ eq_refl).
      destruct (negb _ && _) eqn:En; [by destruct Ho as [Ho|Ho]; rewrite Ho in En|].
      by rewrite (bind_run (update _) _ _ _ _ eq_refl). }
    exists (closed (with_state kDisconnecting c)). split; [|done]. rewrite (bind_run _ _ _ _ _ Hcb).
    by rewrite (bind_run get_st _ _ _ _ eq_refl).
  - assert (call_write_complete c = (Ok (), c)) as Hcb.
    { unfold call_write_complete. by rewrite (bind_run get_st _ _ _ _ eq_refl), Ec. }
    rewrite (bind_run _ _ _ _ _ Hcb), (bind_run get_st _ _ _ _ eq_refl). clear Hcb Ec. case_bool_decide as Es; [|by exists c].
    exists (with_half_closed c). split; [|done]. unfold shutdown_in_loop, sys_shutdown.
    rewrite (bind_run get_st _ _ _ _ eq_refl), bool_decide_eq_true_2, waiting_readable, Hw by done. cbn [negb]. by rewrite Hsk.
Qed.

(** One write event: some bytes leave the output buffer. *)
Lemma handle_write_progress c : good self fd c → state_ c ≠ kDisconnected → waiting c = true →
  (∃ k, outcome (writes c) = Wrote (S k)) →
  ∃ c', handle_write c = (Ok (), c') ∧
    if waiting c' then state_ c' = state_ c ∧ trace c' = trace c ∧ write_complete_cb_ c' = write_complete_cb_ c ∧
      length (Buffer.data (output_buffer_ c')) < length (Buffer.data (output_buffer_ c))
    else wire c' = sent (trace c) ∧ finished c c'.
Proof using HK.
  intros Hg Hs Hw [k Hk]. destruct (socket_of _ _ Hg Hs) as [Hsk _]. set (d := Buffer.data (output_buffer_ c)).
  assert (d ≠ []) as Hne by (unfold waiting in Hw; by case_bool_decide).
  assert (Buffer.wf (output_buffer_ c)) as Hwf by apply Hg.
  assert (Channel.is_none_event (channel_ c) || negb (watches_writes c) = false) as Ew.
  { destruct Hg as [[_ Hch _ _ _ _ _ _ _] Hn]. unfold Channel.is_none_event, watches_writes. rewrite Hch, Hw. by destruct (state_ c). }
  destruct (S k `min` length d) as [|m] eqn:Em; [destruct d; [done|cbn in Em; lia]|].
  assert (sys_write d c = (Ok (Wrote (S m)), with_wire (wire c ++ take (S m) d) (S (writes c)) c)) as Hrun.
  { unfold sys_write. rewrite Hsk, Hk, Em. replace (take (S k) d) with (take (S m) d); [done|].
    rewrite <- Em, <- firstn_firstn. by rewrite firstn_all. }
  destruct (Buffer.retrieve_refines _ (S m) Hwf) as [Hwb Hd]. fold d in Hd.
  assert (length (Buffer.data (Buffer.retrieve (output_buffer_ c) (S m))) < length d) as Hlt.
  { rewrite Hd, length_drop. destruct d; [done|cbn; lia]. }
  unfold handle_write. rewrite (bind_run get_st _ _ _ _ eq_refl), Ew, waiting_readable, Hw by done. cbn [negb].
  rewrite (bind_run _ _ _ _ _ Hrun). rewrite (bind_run (update _) _ _ _ _ eq_refl), (bind_run get_st _ _ _ _ eq_refl).
  change (with_output _ _) with (drained (S m) (S (writes c)) c). set (c1 := drained _ _ c).
  rewrite (waiting_readable c1 Hwb). destruct (waiting c1) eqn:E1; cbn [negb].
  { exists c1. split; [done|]. by rewrite E1. }
  rewrite (bind_run (on_channel _) _ _ _ _ eq_refl). set (c2 := with_channel _ c1).
  assert (state_ c = kConnected ∨ state_ c = kDisconnecting) as Ho.
  { destruct Hg as [_ Hn]. destruct (state_ c); try done; [by left|by right]. }
  destruct (write_done_run c2 Hsk Ho Hwb E1) as (c'&->&Hwire&Hwt&Hfin). exists c'. rewrite Hwt. split_and!; [done| |done].
  rewrite Hwire. destruct Hg as [[_ _ _ Hst _ _ _ _ _] _]. rewrite <- Hst by done. cbn. rewrite app_nil_r. f_equal.
  assert (drop (S m) d = []) as Hnil.
  { change (waiting c1) with (negb (bool_decide (Buffer.data (Buffer.retrieve (output_buffer_ c) (S m)) = []))) in E1.
    rewrite Hd in E1. by apply negb_false_iff, bool_decide_eq_true in E1. }
  pose proof (take_drop (S m) d) as Htd. by rewrite Hnil, app_nil_r in Htd.
Qed.

(** Write events alone empty the output buffer of an open connection. *)
Lemma good_drains c : good self fd c → (∀ n, ∃ k, outcome n = Wrote (S k)) →
  state_ c = kConnected ∨ state_ c = kDisconnecting → waiting c = true →
  ∃ n c', n ≤ length (Buffer.data (output_buffer_ c)) ∧ nsteps (λ c c', c' = snd (handle_write c)) n c c' ∧
    wire c' = sent (trace c) ∧ finished c c'.
Proof using HK.
  intros Hg Hk Hs Hw.
  remember (length (Buffer.data (output_buffer_ c))) as l eqn:El. revert c Hs Hw Hg El.
  induction l as [l IH] using lt_wf_ind. intros c Hs Hw Hg ->.
  assert (state_ c ≠ kDisconnected) as Hne by (destruct Hs as [-> | ->]; done).
  destruct (handle_write_progress c Hg Hne Hw (Hk _)) as (c1&Hrun&Hc1).
  pose proof (proj1 (handle_write_safe c Hg)) as Hg1. rewrite Hrun in Hg1. cbn in Hg1.
  destruct (waiting c1) eqn:E1.
  - destruct Hc1 as (Hst&Htr&Hcb&Hlt).
    destruct (IH _ Hlt c1) as (n&c2&Hn&Hstep&H2&H3); [by rewrite Hst|done|done|done|].
    exists (S n), c2. unfold finished in *. rewrite Hcb, Hst in H3. split_and!; [lia| |by rewrite H2, Htr|done].
    econstructor; [|done]. by rewrite Hrun.
  - destruct Hc1 as [Hwire Hfin]. exists 1, c1.
    assert (1 ≤ length (Buffer.data (output_buffer_ c))) by (unfold waiting in Hw; destruct (Buffer.data _); [done|cbn; lia]).
    split_and!; [done| |done|done]. econstructor; [|constructor]. by rewrite Hrun.
Qed.

(** C27. Pending output drains: if every [write] takes at least one byte, then from any
    reachable open connection with output pending (one that was not closed before: no
    [force_close] of another thread stored its state late) the write events alone empty the
    output buffer in at most as many steps as it holds bytes; by then everything given
    to [send] has been written, and the connection is closed if its last response
    asked for it, or half-closed if it was being shut down, or else as it was. *)
Theorem pending_output_drains (p : EpollPoller.EpollPoller) (a : App) (c : TcpConnection)
    (Hp : registered self fd 0 p) (Hr : rtc step (fresh self fd p a) c) (Hl : late c = 0)
    (Hk : ∀ n, ∃ k, outcome n = Wrote (S k)) (Hs : state_ c = kConnected ∨ state_ c = kDisconnecting) (Hw : waiting c = true) :
  ∃ n c', n ≤ length (Buffer.data (output_buffer_ c)) ∧ nsteps (λ c c', c' = snd (handle_write c)) n c c' ∧
    wire c' = sent (trace c) ∧ finished c c'.
Proof using HK.
  apply good_drains; [|done..]. split; [by eapply reachable_inv|destruct Hs as [-> | ->]; done].
Qed.

End preserved.

End connection.
Arguments TcpConnection : clear implicits.
Arguments Callbacks : clear implicits.

(** ** An echo client on a slow socket *)

Definition echo : Callbacks () :=
  mk_callbacks (λ _ a, a) (λ a, a) None (64 * 1024 * 1024) (λ d, Act (SetWriteComplete CloseAfter) (Act (Send d) (Return (Ok (length d))))).

(** Each write takes one byte. *)
Definition slow (n : nat) : write_result := Wrote 1.

Fixpoint run_events (es : list (event (App := ()))) (c : TcpConnection ()) : TcpConnection () :=
  match es with [] => c | e :: es => run_events es (snd (run_event slow echo e c)) end.

Definition fresh0 : TcpConnection () := fresh 1 7 EpollPoller.make ().
Definition heard : TcpConnection () := run_events [NextTask; Ready EPOLLIN (Got (String.list_ascii_of_string "abc"))] fresh0.

Lemma fresh0_heard : rtc (step slow echo) fresh0 heard.
Proof.
  eapply rtc_l; [exists NextTask; by split|]. eapply rtc_l; [|apply rtc_refl].
  exists (Ready EPOLLIN (Got (String.list_ascii_of_string "abc"))). by split.
Qed.

Lemma echo_defined d : defined (message_cb_ echo d).
Proof. done. Qed.

Lemma output_stream_exact_witness : wire heard ++ Buffer.data (output_buffer_ heard) = sent (trace heard).
Proof.
  apply (output_stream_exact slow echo 1 7 echo_defined EpollPoller.make () heard);
    [by vm_compute|apply fresh0_heard|by vm_compute|left; by vm_compute].
Defined.

Lemma connection_lifecycle_witness : calls (trace heard) = [NConnection kConnected].
Proof.
  apply (connection_lifecycle slow echo 1 7 echo_defined EpollPoller.make () heard); [by vm_compute|apply fresh0_heard|by vm_compute].
Defined.

Lemma pending_output_drains_witness : ∃ c', rtc (λ c c', c' = snd (handle_write slow echo c)) heard c' ∧
  wire c' = String.list_ascii_of_string "abc" ∧ state_ c' = kDisconnected.
Proof.
  destruct (pending_output_drains slow echo 1 7 echo_defined EpollPoller.make () heard) as (n&c'&_&Hn&H1&H3);
    [by vm_compute|apply fresh0_heard|by vm_compute|by exists 0|left; by vm_compute|by vm_compute|].
  exists c'. split; [by apply rtc_nsteps_2 with n|]. split; [rewrite H1; by vm_compute|exact H3].
Defined.

(** ** What a late store does *)

Fixpoint events_ok (es : list (event (App := ()))) (c : TcpConnection ()) : Prop :=
  match es with [] => True | e :: es => event_ok c e ∧ events_ok es (snd (run_event slow echo e c)) end.

Lemma events_ok_reach es c : events_ok es c → rtc (step slow echo) c (run_events es c).
Proof.
  revert c. induction es as [|e es IH]; intros c; cbn; [done|]. intros [He Hes]. eapply rtc_l; [by exists e|]. by apply IH.
Qed.

(** Another thread has loaded the state; then the peer closes the connection. *)
Definition hang_up : list (event (App := ())) := [NextTask; Client false ForceClose; Ready EPOLLIN (Got [])].

(** The store comes after that: the close callback is called again. *)
Lemma late_store_closes_twice : ∃ c, rtc (step slow echo) fresh0 c ∧
  calls (trace c) = [NConnection kConnected; NConnection kDisconnected; NClose; NConnection kDisconnected; NClose].
Proof.
  exists (run_events (hang_up ++ [Proceed 0; Proceed 0; NextTask]) fresh0). split; [|reflexivity].
  apply events_ok_reach. repeat split; by vm_compute.
Qed.

(** And a [shutdown] begun before finds the released socket. *)
Lemma late_store_uses_released_socket : ∃ c e, rtc (step slow echo) fresh0 c ∧ socket_ c = None ∧ event_ok c e ∧
  ∃ x, fst (run_event slow echo e c) = Throw x ∧ ex_kind x = EUndefined.
Proof.
  exists (run_events ([NextTask; Client false Shutdown; Client false ForceClose; Ready EPOLLIN (Got []); Ready EPOLLHUP (Got []);
    QueueDestroyed; NextTask; Proceed 1; Proceed 0]) fresh0), NextTask.
  split; [|split; [reflexivity|split; [exact I|eexists; split; reflexivity]]].
  apply events_ok_reach. repeat split; try (by vm_compute).
  change (NClose ∈ [NConnection kConnected; NConnection kDisconnected; NClose]). rewrite !elem_of_cons. auto.
Qed.

End TcpConnection.
