(* ===== verification/TimerQueue.v ===== *)
(** The timers of an event loop: src/network/timer.h, timer.cpp, timestamp.h and
    timer_queue.cpp. Times are nanoseconds of the steady clock. *)
From S2P Require Import Prelude Steps.
From Stdlib Require Import Sorted.

Module TimerQueue.

Definition kPollTimeoutMs : Z := 10000.
Definition UINTPTR_MAX : Z := 2 ^ 64 - 1.

(** [Timer]: the interval, a number of seconds in the source, is given in
    nanoseconds; it repeats when it is positive. *)
Record Timer {Cb : Type} := mk_timer { callback_ : Cb; expiration_ : Z; interval_ : Z; sequence_ : Z }.
Arguments Timer : clear implicits.

(** The state of the timerfd as [timerfd_settime] leaves it: a zero [it_value]
    disarms it. *)
Inductive timerfd := Disarmed | Armed (value interval : Z).

(** [TimerId]: the address and the sequence number; address 0 is the null pointer. *)
Record TimerId := mk_id { timer_ : Z; id_sequence_ : Z }.

Section queue.
Context {Cb App : Type}.

(** The queue, with the live [Timer] objects by address, the counter of the class,
    the clients' state, and how many times the clock was read. *)
Record TimerQueue := mk {
  heap : gmap Z (Timer Cb);
  timers_ : list (Z * Z);              (* std::set<std::pair<Timestamp, Timer*>> *)
  calling_expired_timers_ : bool;
  canceling_timers_ : gset Z;
  pending_cancel_timers_ : gset Z;
  fd : timerfd;
  s_num_created_ : Z;
  app : App;
  readings : nat
}.

Definition with_heap (h : gmap Z (Timer Cb)) (q : TimerQueue) : TimerQueue :=
  mk h (timers_ q) (calling_expired_timers_ q) (canceling_timers_ q) (pending_cancel_timers_ q) (fd q) (s_num_created_ q) (app q) (readings q).
Definition with_timers (l : list (Z * Z)) (q : TimerQueue) : TimerQueue :=
  mk (heap q) l (calling_expired_timers_ q) (canceling_timers_ q) (pending_cancel_timers_ q) (fd q) (s_num_created_ q) (app q) (readings q).
Definition with_calling (b : bool) (q : TimerQueue) : TimerQueue :=
  mk (heap q) (timers_ q) b (canceling_timers_ q) (pending_cancel_timers_ q) (fd q) (s_num_created_ q) (app q) (readings q).
Definition with_canceling (c : gset Z) (q : TimerQueue) : TimerQueue :=
  mk (heap q) (timers_ q) (calling_expired_timers_ q) c (pending_cancel_timers_ q) (fd q) (s_num_created_ q) (app q) (readings q).
Definition with_pending_cancel (c : gset Z) (q : TimerQueue) : TimerQueue :=
  mk (heap q) (timers_ q) (calling_expired_timers_ q) (canceling_timers_ q) c (fd q) (s_num_created_ q) (app q) (readings q).
Definition with_fd (x : timerfd) (q : TimerQueue) : TimerQueue :=
  mk (heap q) (timers_ q) (calling_expired_timers_ q) (canceling_timers_ q) (pending_cancel_timers_ q) x (s_num_created_ q) (app q) (readings q).
Definition with_created (n : Z) (q : TimerQueue) : TimerQueue :=
  mk (heap q) (timers_ q) (calling_expired_timers_ q) (canceling_timers_ q) (pending_cancel_timers_ q) (fd q) n (app q) (readings q).
Definition with_app (a : App) (q : TimerQueue) : TimerQueue :=
  mk (heap q) (timers_ q) (calling_expired_timers_ q) (canceling_timers_ q) (pending_cancel_timers_ q) (fd q) (s_num_created_ q) a (readings q).
Definition with_readings (n : nat) (q : TimerQueue) : TimerQueue :=
  mk (heap q) (timers_ q) (calling_expired_timers_ q) (canceling_timers_ q) (pending_cancel_timers_ q) (fd q) (s_num_created_ q) (app q) n.

Notation Q := (M TimerQueue).
Definition update (f : TimerQueue → TimerQueue) : Q () := λ q, (Ok (), f q).

(** The queue of a new loop. *)
Definition make (a : App) : TimerQueue := mk ∅ [] false ∅ ∅ Disarmed 0 a 0.

(** The readings of the steady clock, and the address [new] picks. *)
Context (steady : nat → Z) (alloc : gmap Z (Timer Cb) → Z).

Definition now : Q Z := λ q, (Ok (steady (readings q)), with_readings (S (readings q)) q).

(** Memory: using or deleting an object that is gone is undefined. *)
Definition deref (p : Z) : Q (Timer Cb) := λ q,
  match heap q !! p with Some t => (Ok t, q) | None => (Throw (Exn EUndefined "use after free"), q) end.
Definition free (p : Z) : Q () := λ q,
  match heap q !! p with
  | Some _ => (Ok (), with_heap (delete p (heap q)) q)
  | None => (Throw (Exn EUndefined "double free"), q)
  end.

(** The order of [TimerEntry], and insertion into the ordered set. *)
Definition entry_lt (a b : Z * Z) : bool :=
  bool_decide (fst a < fst b)%Z || (bool_decide (fst a = fst b) && bool_decide (snd a < snd b)%Z).

Fixpoint set_insert (x : Z * Z) (l : list (Z * Z)) : list (Z * Z) :=
  match l with
  | [] => [x]
  | y :: l' => if entry_lt x y then x :: l else if bool_decide (x = y) then l else y :: set_insert x l'
  end.

Definition set_erase (x : Z * Z) (l : list (Z * Z)) : list (Z * Z) := filter (λ y, y ≠ x) l.

(** [time_from_now] in whole microseconds, and the [timespec] as nanoseconds. *)
Definition time_from_now (when current : Z) : Z :=
  let usec := if bool_decide (current < when)%Z then Z.quot (when - current) 1000 else 100%Z in
  (Z.quot usec 1000000 * 1000000000 + Z.rem usec 1000000 * 1000)%Z.

Definition duration_to_spec (ms : Z) : Z :=
  if bool_decide (ms ≤ 0)%Z then 1%Z else (Z.quot ms 1000 * 1000000000 + Z.rem ms 1000 * 1000000)%Z.

(** [timerfd_settime] on the fd. *)
Definition timerfd_settime (value interval : Z) : timerfd :=
  if bool_decide (value = 0)%Z then Disarmed else Armed value interval.

Definition reset_timerfd (expiration : Z) : Q () :=
  current ← now; update (with_fd (timerfd_settime (time_from_now expiration current) (duration_to_spec 0))).

Definition insert (p : Z) : Q () :=
  t ← deref p;
  q ← get_st;
  let earliest_changed := match timers_ q with [] => true | x :: _ => bool_decide (expiration_ t < fst x)%Z end in
  _ ← update (λ q, with_timers (set_insert (expiration_ t, p) (timers_ q)) q);
  if (earliest_changed : bool) then reset_timerfd (expiration_ t) else mret ().

Definition add_timer_in_loop (p : Z) : Q () :=
  q ← get_st;
  if bool_decide (p ∈ pending_cancel_timers_ q) then
    _ ← update (λ q, with_pending_cancel (pending_cancel_timers_ q ∖ {[p]}) q); free p
  else insert p.

(** [new Timer] in [add_timer], and [add_timer] from the loop's thread. *)
Definition new_timer (cb : Cb) (when interval : Z) : Q TimerId :=
  q ← get_st;
  let p := alloc (heap q) in
  let seq := wrap_i64 (s_num_created_ q + 1) in
  _ ← update (λ q, with_created seq (with_heap (<[p := mk_timer _ cb when interval seq]> (heap q)) q));
  mret (mk_id p seq).

Definition add_timer (cb : Cb) (when interval : Z) : Q TimerId :=
  id ← new_timer cb when interval;
  _ ← add_timer_in_loop (timer_ id);
  mret id.

Definition run_after (delay : Z) (cb : Cb) : Q TimerId := t ← now; add_timer cb (t + delay) 0.
Definition run_every (interval : Z) (cb : Cb) : Q TimerId := t ← now; add_timer cb (t + interval) interval.

Definition reset_to_first : Q () :=
  q ← get_st;
  match timers_ q with [] => mret () | x :: _ => reset_timerfd (fst x) end.

Definition cancel_in_loop (id : TimerId) : Q () :=
  let p := timer_ id in
  if bool_decide (p = 0)%Z then mret ()
  else
    t ← deref p;
    if negb (bool_decide (sequence_ t = id_sequence_ id)) then mret ()
    else
      q ← get_st;
      let entry := (expiration_ t, p) in
      if negb (bool_decide (entry ∈ timers_ q)) then
        if calling_expired_timers_ q then update (λ q, with_canceling ({[p]} ∪ canceling_timers_ q) q)
        else update (λ q, with_pending_cancel ({[p]} ∪ pending_cancel_timers_ q) q)
      else
        let earliest := bool_decide (head (timers_ q) = Some entry) in
        _ ← update (λ q, with_timers (set_erase entry (timers_ q)) q);
        if calling_expired_timers_ q then update (λ q, with_canceling ({[p]} ∪ canceling_timers_ q) q)
        else _ ← free p; if (earliest : bool) then reset_to_first else mret ().

(** What [add_timer] and [cancel] hand to the loop when another thread calls them. *)
Inductive Task := TAdd (p : Z) | TCancel (id : TimerId).
Definition run_task (t : Task) : Q () :=
  match t with TAdd p => add_timer_in_loop p | TCancel id => cancel_in_loop id end.

(** The destructor, but for the descriptor and its channel. *)
Fixpoint free_all (l : list Z) : Q () :=
  match l with [] => mret () | p :: l => _ ← free p; free_all l end.

Definition destroy : Q () :=
  q ← get_st;
  _ ← free_all (map snd (timers_ q));
  _ ← update (with_timers []);
  q ← get_st;
  _ ← free_all (elements (pending_cancel_timers_ q));
  _ ← update (with_pending_cancel ∅);
  q ← get_st;
  _ ← free_all (elements (canceling_timers_ q));
  update (with_canceling ∅).

Definition get_next_timeout_ms : Q Z :=
  q ← get_st;
  match timers_ q with
  | [] => mret kPollTimeoutMs
  | x :: _ =>
      current ← now;
      if bool_decide (fst x ≤ current)%Z then mret 0%Z
      else let ms := Z.quot (fst x - current) 1000000 in mret (wrap_i32 (if bool_decide (0 < ms)%Z then ms else 0%Z))
  end.

(** [lower_bound] of the sentry, whose address is the largest one. *)
Definition due (current : Z) (x : Z * Z) : bool := entry_lt x (current, UINTPTR_MAX).

Fixpoint split_due (current : Z) (l : list (Z * Z)) : list (Z * Z) * list (Z * Z) :=
  match l with
  | x :: l' => if due current x then let '(a, b) := split_due current l' in (x :: a, b) else ([], l)
  | [] => ([], [])
  end.

Definition get_expired (current : Z) : Q (list Z) :=
  q ← get_st;
  let '(expired, rest) := split_due current (timers_ q) in
  _ ← update (with_timers rest); mret (map snd expired).

Section callbacks.
(** What a callback does, to the clients' state and, in the loop's thread, to the
    queue itself. *)
Context (run : Cb → Q ()).

Definition restart (p current : Z) : Q () :=
  t ← deref p;
  update (λ q, with_heap (<[p := mk_timer _ (callback_ t) (current + interval_ t) (interval_ t) (sequence_ t)]> (heap q)) q).

(** One turn of the first loop of [handle_read]. *)
Definition run_expired (current p : Z) : Q () :=
  q ← get_st;
  _ ← (if bool_decide (p ∈ canceling_timers_ q) then mret () else t ← deref p; run (callback_ t));
  t ← deref p;
  q ← get_st;
  if bool_decide (0 < interval_ t)%Z && negb (bool_decide (p ∈ canceling_timers_ q))
  then _ ← restart p current; insert p
  else free p.

Fixpoint run_all_expired (current : Z) (l : list Z) : Q () :=
  match l with [] => mret () | p :: l => _ ← run_expired current p; run_all_expired current l end.

(** One turn of the second. *)
Definition drop_canceled (p : Z) : Q () :=
  t ← deref p;
  _ ← update (λ q, with_timers (set_erase (expiration_ t, p) (timers_ q)) q);
  free p.

Fixpoint drop_all_canceled (l : list Z) : Q () :=
  match l with [] => mret () | p :: l => _ ← drop_canceled p; drop_all_canceled l end.

(** [handle_read]; what [read] answers is only logged. *)
Definition handle_read : Q () :=
  current ← now;
  expired ← get_expired current;
  _ ← update (with_calling true);
  _ ← run_all_expired current expired;
  _ ← update (with_calling false);
  q ← get_st;
  _ ← drop_all_canceled (elements (canceling_timers_ q));
  _ ← update (with_canceling ∅);
  reset_to_first.

End callbacks.

(** ** Its invariant between operations *)

Record wf (q : TimerQueue) : Prop := mk_wf {
  wf_sorted : StronglySorted (λ a b, entry_lt a b = true) (timers_ q);
  wf_heap : ∀ e p, (e, p) ∈ timers_ q ↔ ∃ t, heap q !! p = Some t ∧ expiration_ t = e;
  wf_address : ∀ p t, heap q !! p = Some t → (0 < p < UINTPTR_MAX)%Z;
  wf_quiet : calling_expired_timers_ q = false ∧ canceling_timers_ q = ∅ ∧ pending_cancel_timers_ q = ∅
}.

(** ** The ordered set *)

Lemma entry_lt_iff a b : entry_lt a b = true ↔ (fst a < fst b ∨ (fst a = fst b ∧ snd a < snd b))%Z.
Proof. unfold entry_lt. rewrite orb_true_iff, andb_true_iff, !bool_decide_eq_true. done. Qed.

Lemma set_insert_elem x y l : y ∈ set_insert x l ↔ y = x ∨ y ∈ l.
Proof.
  induction l as [|z l IH]; cbn; [set_solver|]. destruct (entry_lt x z); [set_solver|].
  case_bool_decide as Heq; [subst; set_solver|]. rewrite !elem_of_cons, IH. naive_solver.
Qed.

Lemma set_insert_sorted x l :
  StronglySorted (λ a b, entry_lt a b = true) l → StronglySorted (λ a b, entry_lt a b = true) (set_insert x l).
Proof.
  induction 1 as [|z l Hl IH Hz]; cbn; [by repeat constructor|]. destruct (entry_lt x z) eqn:E.
  - constructor; [by constructor|]. constructor; [done|]. eapply Forall_impl; [exact Hz|]. intros y Hy.
    rewrite entry_lt_iff in *. lia.
  - case_bool_decide as Heq; [by constructor|]. constructor; [done|]. apply Forall_forall. intros y [->|Hy]%set_insert_elem.
    + apply entry_lt_iff. apply not_true_iff_false in E. rewrite entry_lt_iff in E.
      destruct x as [x1 x2], z as [z1 z2]; cbn in *. assert (x1 ≠ z1 ∨ x2 ≠ z2) by (destruct (decide (x1 = z1)); [right|by left]; congruence). lia.
    + by eapply Forall_forall in Hy; [|exact Hz].
Qed.

Lemma set_erase_sorted x l :
  StronglySorted (λ a b, entry_lt a b = true) l → StronglySorted (λ a b, entry_lt a b = true) (set_erase x l).
Proof.
  induction 1 as [|z l Hl IH Hz]; [constructor|]. unfold set_erase in *. rewrite filter_cons. case_decide; [|done].
  constructor; [done|]. apply Forall_forall. intros y [_ Hy]%list_elem_of_filter. by eapply Forall_forall in Hy; [|exact Hz].
Qed.

Lemma due_iff current e p : (p < UINTPTR_MAX)%Z → due current (e, p) = true ↔ (e ≤ current)%Z.
Proof. intros Hp. unfold due. rewrite entry_lt_iff. cbn [fst snd]. lia. Qed.

(** On the entries of a queue the search of the end cuts the set at [current]. *)
Lemma split_due_spec current l :
  StronglySorted (λ a b, entry_lt a b = true) l → (∀ x, x ∈ l → (snd x < UINTPTR_MAX)%Z) →
  split_due current l = (filter (λ x, (fst x ≤ current)%Z) l, filter (λ x, (current < fst x)%Z) l).
Proof.
  induction 1 as [|[e p] l Hl IH Hz]; intros Hp; [done|]. cbn [split_due]. rewrite !filter_cons. cbn [fst].
  specialize (IH ltac:(intros; apply Hp; by right)). specialize (Hp (e, p) ltac:(by left)). cbn in Hp.
  destruct (due current (e, p)) eqn:E.
  - apply due_iff in E; [|done]. rewrite IH, decide_True, decide_False by lia. done.
  - assert (¬ (e ≤ current)%Z) as Hgt by (rewrite <- due_iff by done; by rewrite E).
    rewrite decide_False, decide_True by lia.
    assert (∀ x, x ∈ l → (current < fst x)%Z) as Hall.
    { intros x Hx. eapply Forall_forall in Hx; [|exact Hz]. apply entry_lt_iff in Hx. cbn in Hx. lia. }
    f_equal; [|f_equal].
    + clear -Hall. induction l as [|y l IH]; [done|]. rewrite filter_cons, decide_False by (specialize (Hall y ltac:(by left)); lia).
      apply IH. intros. apply Hall. by right.
    + clear -Hall. induction l as [|y l IH]; [done|]. rewrite filter_cons, decide_True by (apply Hall; by left). f_equal.
      apply IH. intros. apply Hall. by right.
Qed.

(** ** Expiry *)

(** The timerfd and the count of clock readings, which most operations change. *)
Definition clocked (x : timerfd) (n : nat) (q : TimerQueue) : TimerQueue := with_fd x (with_readings n q).

Lemma reset_run e q : reset_timerfd e q =
  (Ok (), clocked (timerfd_settime (time_from_now e (steady (readings q))) 1) (S (readings q)) q).
Proof. done. Qed.

Lemma insert_run p q t : heap q !! p = Some t → ∃ x n,
  insert p q = (Ok (), clocked x n (with_timers (set_insert (expiration_ t, p) (timers_ q)) q)).
Proof.
  intros Hp. assert (deref p q = (Ok t, q)) as Hd by (unfold deref; by rewrite Hp).
  unfold insert. rewrite (bind_run _ _ _ _ _ Hd), (bind_run get_st _ _ _ _ eq_refl), (bind_run (update _) _ _ _ _ eq_refl).
  destruct (match timers_ q with [] => true | x :: _ => _ end); [rewrite reset_run; by eexists _, _|].
  exists (fd q), (readings q). by destruct q.
Qed.

(** What becomes of a due timer's memory. *)
Definition aged (current : Z) (t : Timer Cb) : option (Timer Cb) :=
  if bool_decide (0 < interval_ t)%Z
  then Some (mk_timer _ (callback_ t) (current + interval_ t) (interval_ t) (sequence_ t)) else None.

Section effects.
Context (run : Cb → Q ()) (effect : Cb → App → App).
Context (Hrun : ∀ cb q, run cb q = (Ok (), with_app (effect cb (app q)) q)).

Lemma run_expired_run current p q t : heap q !! p = Some t → canceling_timers_ q = ∅ → ∃ x n,
  run_expired run current p q = (Ok (), clocked x n (with_app (effect (callback_ t) (app q))
    (with_heap (partial_alter (λ _, aged current t) p (heap q))
      (with_timers (match aged current t with Some t' => set_insert (expiration_ t', p) (timers_ q) | None => timers_ q end) q)))).
Proof using Hrun.
  intros Hp Hc. assert (deref p q = (Ok t, q)) as Hd by (unfold deref; by rewrite Hp).
  unfold run_expired. rewrite (bind_run get_st _ _ _ _ eq_refl), Hc, bool_decide_eq_false_2 by apply not_elem_of_empty.
  assert ((deref p ≫= (λ t, run (callback_ t))) q = (Ok (), with_app (effect (callback_ t) (app q)) q)) as Hcb.
  { rewrite (bind_run _ _ _ _ _ Hd). apply Hrun. }
  rewrite (bind_run _ _ _ _ _ Hcb). set (q1 := with_app _ q).
  assert (deref p q1 = (Ok t, q1)) as Hd1 by (unfold deref; change (heap q1) with (heap q); by rewrite Hp).
  rewrite (bind_run _ _ _ _ _ Hd1), (bind_run get_st _ _ _ _ eq_refl).
  change (canceling_timers_ q1) with (canceling_timers_ q). rewrite Hc, (bool_decide_eq_false_2 (p ∈ _)) by apply not_elem_of_empty.
  rewrite andb_true_r. unfold aged. destruct (bool_decide (0 < interval_ t)%Z) eqn:Ei.
  - set (t' := mk_timer Cb _ _ _ _). set (q2 := with_heap (<[p := t']> (heap q1)) q1).
    assert (restart p current q1 = (Ok (), q2)) as Hr by (unfold restart; by rewrite (bind_run _ _ _ _ _ Hd1)).
    rewrite (bind_run _ _ _ _ _ Hr). destruct (insert_run p q2 t') as (x&n&->); [apply lookup_insert_eq|].
    by exists x, n.
  - exists (fd q), (readings q). unfold free. change (heap q1) with (heap q). rewrite Hp. by destruct q.
Qed.

(** The whole loop over the expired timers [l]. *)
Lemma run_all_expired_run current l q : NoDup l → (∀ p, p ∈ l → is_Some (heap q !! p)) → canceling_timers_ q = ∅ →
  ∃ q', run_all_expired run current l q = (Ok (), q') ∧
    (∀ p, heap q' !! p = (if bool_decide (p ∈ l) then heap q !! p ≫= aged current else heap q !! p)) ∧
    app q' = foldl (λ a cb, effect cb a) (app q) (omap (λ p, callback_ <$> heap q !! p) l) ∧
    canceling_timers_ q' = ∅ ∧ pending_cancel_timers_ q' = pending_cancel_timers_ q ∧
    (StronglySorted (λ a b, entry_lt a b = true) (timers_ q) → StronglySorted (λ a b, entry_lt a b = true) (timers_ q')) ∧
    ∀ x, x ∈ timers_ q' ↔ x ∈ timers_ q ∨ ∃ t, snd x ∈ l ∧ heap q' !! snd x = Some t ∧ fst x = expiration_ t.
Proof using Hrun.
  revert q. induction l as [|p l IH]; intros q Hnd Hin Hc.
  { exists q. split_and!; try done. intros x. split; [by left|]. intros [?|(t&[]%elem_of_nil&_)]; done. }
  apply NoDup_cons in Hnd as [Hnp Hnd]. destruct (Hin p ltac:(by left)) as [t Hp].
  destruct (run_expired_run current p q t Hp Hc) as (x&n&Hrun1). cbn [run_all_expired]. rewrite (bind_run _ _ _ _ _ Hrun1).
  set (q1 := clocked _ _ _) in *.
  assert (∀ p', p' ≠ p → heap q1 !! p' = heap q !! p') as Hother by (intros; by apply lookup_partial_alter_ne).
  assert (heap q1 !! p = aged current t) as Hself by apply lookup_partial_alter_eq.
  assert (canceling_timers_ q1 = ∅ ∧ pending_cancel_timers_ q1 = pending_cancel_timers_ q ∧ app q1 = effect (callback_ t) (app q) ∧
    timers_ q1 = match aged current t with Some t' => set_insert (expiration_ t', p) (timers_ q) | None => timers_ q end)
    as (Hc1&Hpc1&Happ1&Ht1) by done.
  clearbody q1. clear Hrun1.
  assert (omap (λ p, callback_ <$> heap q1 !! p) l = omap (λ p, callback_ <$> heap q !! p) l) as Hom.
  { clear -Hother Hnp. induction l as [|p' l IH]; [done|]. apply not_elem_of_cons in Hnp as [Hne Hnp]. cbn.
    by rewrite Hother, IH. }
  destruct (IH q1) as (q'&Hrun2&Hh&Ha&Hc'&Hpc&Hs&Ht); [done| |done|].
  { intros p' Hp'. rewrite Hother by congruence. apply Hin. by right. }
  exists q'. split_and!; try done.
  - intros p'. rewrite Hh. destruct (decide (p' = p)) as [->|Hne].
    + rewrite Hself, Hp, (bool_decide_eq_false_2 (p ∈ l)), bool_decide_eq_true_2 by (done || by left). done.
    + rewrite Hother by done. apply (f_equal (λ b : bool, if b then _ else _)), bool_decide_ext. set_solver.
  - rewrite Ha, Hom, Happ1. cbn. by rewrite Hp.
  - by rewrite Hpc.
  - intros Hsq. apply Hs. rewrite Ht1. destruct (aged current t); [by apply set_insert_sorted|done].
  - intros [e p']. rewrite Ht, Ht1. cbn [snd fst].
    assert (heap q' !! p = aged current t) as Hfin.
    { rewrite Hh, (bool_decide_eq_false_2 (p ∈ l)) by done. done. }
    destruct (aged current t) as [t'|]; [rewrite set_insert_elem|]; split.
    + intros [[[= -> ->]|H]|(t0&H&H1&H2)]; [right; exists t'; by split_and!; [left| |]|by left|right; exists t0].
      by split_and!; [right| |].
    + intros [H|(t0&[->|H]%elem_of_cons&H1&H2)]; [by left; right|left; left; congruence|right; by exists t0].
    + intros [H|(t0&H&H1&H2)]; [by left|right; exists t0; by split_and!; [right| |]].
    + intros [H|(t0&[->|H]%elem_of_cons&H1&H2)]; [by left|congruence|right; by exists t0].
Qed.

(** The callbacks of the due timers, earliest first. *)
Definition due_callbacks (current : Z) (q : TimerQueue) : list Cb :=
  omap (λ x, callback_ <$> heap q !! snd x) (filter (λ x, (fst x ≤ current)%Z) (timers_ q)).

Lemma wf_bound q x : wf q → x ∈ timers_ q → (snd x < UINTPTR_MAX)%Z.
Proof. intros [_ Hh Ha _]. destruct x as [e p]. intros (t&Ht&_)%Hh. apply Ha in Ht. cbn. lia. Qed.

Lemma filter_sorted P `{∀ x : Z * Z, Decision (P x)} (l : list (Z * Z)) :
  StronglySorted (λ a b, entry_lt a b = true) l → StronglySorted (λ a b, entry_lt a b = true) (filter P l).
Proof.
  induction 1 as [|z l Hl IH Hz]; [constructor|]. rewrite filter_cons. case_decide; [|done].
  constructor; [done|]. apply Forall_forall. intros y [_ Hy]%list_elem_of_filter. by eapply Forall_forall in Hy; [|exact Hz].
Qed.

Lemma wf_nodup q current : wf q → NoDup (map snd (filter (λ x, (fst x ≤ current)%Z) (timers_ q))).
Proof.
  intros [Hs Hh _ _]. assert (∀ x y, x ∈ timers_ q → y ∈ timers_ q → snd x = snd y → x = y) as Hinj.
  { intros [e p] [e' p'] (t&Ht&<-)%Hh (t'&Ht'&<-)%Hh. cbn. intros <-. congruence. }
  clear Hh. induction Hs as [|z l Hl IH Hz]; [constructor|]. rewrite filter_cons.
  assert (∀ x y, x ∈ l → y ∈ l → snd x = snd y → x = y) as Hinj' by (intros; apply Hinj; by try right).
  case_decide; [|by apply IH]. cbn. constructor; [|by apply IH].
  intros ([e p]&Heq&[_ Hy]%list_elem_of_filter)%list_elem_of_fmap. assert (z = (e, p)) as -> by (apply Hinj; [by left|by right|done]).
  eapply Forall_forall in Hy; [|exact Hz]. apply entry_lt_iff in Hy. lia.
Qed.

Lemma omap_snd {A B} (f : Z → option B) (l : list (A * Z)) : omap f (map snd l) = omap (λ x, f (snd x)) l.
Proof. induction l as [|[e p] l IH]; [done|]. cbn. by rewrite IH. Qed.

Lemma due_elem q current p : wf q →
  p ∈ map snd (filter (λ x, (fst x ≤ current)%Z) (timers_ q)) ↔ ∃ t, heap q !! p = Some t ∧ (expiration_ t ≤ current)%Z.
Proof.
  intros [_ Hh _ _]. rewrite list_elem_of_fmap. split.
  - intros ([e p']&->&[Hle (t&Ht&Heq)%Hh]%list_elem_of_filter). cbn in *. exists t. by rewrite Heq.
  - intros (t&Ht&Hle). exists (expiration_ t, p). split; [done|]. apply list_elem_of_filter. split; [done|]. apply Hh. by exists t.
Qed.

(** The queue while the expired timers run. *)
Definition taken (q : TimerQueue) : TimerQueue :=
  with_calling true (with_timers (filter (λ x, (steady (readings q) < fst x)%Z) (timers_ q)) (with_readings (S (readings q)) q)).

(** What a live timer is after the expiry at [current]. *)
Definition after_expiry (current : Z) (t : Timer Cb) : option (Timer Cb) :=
  if bool_decide (expiration_ t ≤ current)%Z then aged current t else Some t.

Lemma expiry_loop q (current := steady (readings q)) (l := map snd (filter (λ x, (fst x ≤ current)%Z) (timers_ q))) :
  wf q → ∃ q2, run_all_expired run current l (taken q) = (Ok (), q2) ∧
    (∀ p, heap q2 !! p = heap q !! p ≫= after_expiry current) ∧
    app q2 = foldl (λ a cb, effect cb a) (app q) (due_callbacks current q) ∧
    canceling_timers_ q2 = ∅ ∧ pending_cancel_timers_ q2 = ∅ ∧ StronglySorted (λ a b, entry_lt a b = true) (timers_ q2) ∧
    (∀ e p, (e, p) ∈ timers_ q2 ↔ ∃ t, heap q2 !! p = Some t ∧ expiration_ t = e).
Proof using Hrun.
  intros Hw. assert (∀ p, p ∈ l ↔ ∃ t, heap q !! p = Some t ∧ (expiration_ t ≤ current)%Z) as Hl by (intros; by apply due_elem).
  destruct (run_all_expired_run current l (taken q)) as (q2&Hrun2&Hh&Ha&Hc&Hpc&Hs&Ht).
  { by apply wf_nodup. }
  { intros p (t&Hp&_)%Hl. by exists t. }
  { apply Hw. }
  assert (∀ p, heap q2 !! p = heap q !! p ≫= after_expiry current) as Hh'.
  { intros p. rewrite Hh. change (heap (taken q)) with (heap q). pose proof (Hl p) as Hlp. unfold after_expiry.
    destruct (heap q !! p) as [t|] eqn:Hp; cbn; [|by case_match].
    rewrite (bool_decide_ext (p ∈ l) (expiration_ t ≤ current)%Z); [done|]. rewrite Hlp. naive_solver. }
  exists q2. split_and!; [done|done| |done| |by apply Hs, filter_sorted, Hw|].
  - rewrite Ha. unfold due_callbacks, l. f_equal. apply (omap_snd (λ p, callback_ <$> heap q !! p)).
  - rewrite Hpc. apply Hw.
  - intros e p. rewrite Ht. cbn [timers_ taken with_calling with_timers snd fst]. rewrite list_elem_of_filter. cbn [fst].
    rewrite (wf_heap _ Hw), Hh'. unfold after_expiry. split.
    + intros [(Hgt&t&Hp&<-)|(t&Hpl&Hp&->)]; [|by exists t]. exists t. by rewrite Hp; cbn; rewrite bool_decide_eq_false_2 by lia.
    + intros (t&Hp&<-). destruct (decide (p ∈ l)) as [Hpl|Hpl]; [right; by exists t|left].
      destruct (heap q !! p) as [t0|] eqn:Hq; [|done]. cbn in Hp.
      assert (¬ (expiration_ t0 ≤ current)%Z) as Hgt by (intros Hle; apply Hpl, Hl; by exists t0).
      rewrite bool_decide_eq_false_2 in Hp by done. simplify_eq. split; [lia|]. by exists t.
Qed.

Lemma handle_read_run q q2 (current := steady (readings q)) (l := map snd (filter (λ x, (fst x ≤ current)%Z) (timers_ q))) :
  wf q → run_all_expired run current l (taken q) = (Ok (), q2) → canceling_timers_ q2 = ∅ →
  handle_read run q = reset_to_first (with_canceling ∅ (with_calling false q2)).
Proof.
  intros Hw Hloop Hc. unfold handle_read. rewrite (bind_run now _ _ _ _ eq_refl). fold current.
  assert (get_expired current (with_readings (S (readings q)) q) =
    (Ok l, with_timers (filter (λ x, (current < fst x)%Z) (timers_ q)) (with_readings (S (readings q)) q))) as Hg.
  { unfold get_expired. rewrite (bind_run get_st _ _ _ _ eq_refl). cbn [timers_ with_readings].
    rewrite split_due_spec; [done|apply Hw|]. intros x. by apply wf_bound. }
  rewrite (bind_run _ _ _ _ _ Hg), (bind_run (update _) _ _ _ _ eq_refl), (bind_run _ _ _ _ _ Hloop).
  rewrite (bind_run (update _) _ _ _ _ eq_refl), (bind_run get_st _ _ _ _ eq_refl). cbn [canceling_timers_ with_calling].
  rewrite Hc, elements_empty. change (drop_all_canceled []) with (mret () : Q ()).
  by rewrite (bind_run (mret ()) _ _ _ _ eq_refl), (bind_run (update _) _ _ _ _ eq_refl).
Qed.

(** C30. When the timerfd fires, the timers that are due, and no others, are run, the
    earliest first and each once, whatever the clients' callbacks do to their own
    state; afterwards a repeating timer is due one interval after the time at which
    the queue was read, a one-shot timer is gone from the queue and from memory, every
    other timer is unchanged, the timerfd is set for the earliest of them, and the
    queue's invariant holds: its entries are the live timers, in order of expiration. *)
Theorem expiry_exact (q : TimerQueue) (Hw : wf q) : ∃ q', handle_read run q = (Ok (), q') ∧ wf q' ∧
  (∀ p, heap q' !! p = heap q !! p ≫= after_expiry (steady (readings q))) ∧
  app q' = foldl (λ a cb, effect cb a) (app q) (due_callbacks (steady (readings q)) q) ∧
  ∀ x l, timers_ q' = x :: l →
    fd q' = timerfd_settime (time_from_now (fst x) (steady (pred (readings q')))) (duration_to_spec 0).
Proof using Hrun.
  destruct (expiry_loop q Hw) as (q2&Hloop&Hh&Ha&Hc&Hpc&Hs&Ht). rewrite (handle_read_run q q2 Hw Hloop Hc).
  set (q3 := with_canceling ∅ (with_calling false q2)).
  assert (∀ x n, wf (clocked x n q3)) as Hwf.
  { intros x n. split; [done|done| |done]. intros p t. cbn. rewrite Hh. intros Hp. destruct (heap q !! p) as [t0|] eqn:Hq; [|done].
    by eapply wf_address. }
  unfold reset_to_first. rewrite (bind_run get_st _ _ _ _ eq_refl). change (timers_ q3) with (timers_ q2).
  destruct (timers_ q2) as [|x ts] eqn:Ets.
  - exists (clocked (fd q3) (readings q3) q3). split; [by destruct q2|]. split_and!; [apply Hwf|done|done|]. cbn. by rewrite Ets.
  - rewrite reset_run. eexists. split; [reflexivity|]. split_and!; [apply Hwf|done|done|]. cbn. rewrite Ets. by intros ?? [= <- _].
Qed.

End effects.

(** How the timerfd is set for an expiration: one already reached is given 100
    microseconds, later ones the remaining whole microseconds; an expiration less than
    a microsecond ahead disarms the timerfd, so that the timer waits for another one;
    and each setting also asks for a period of one nanosecond. *)
Theorem reset_exact (e : Z) (q : TimerQueue) :
  fd (snd (reset_timerfd e q)) =
  let d := (e - steady (readings q))%Z in
  if bool_decide (d ≤ 0)%Z then Armed 100000 1
  else if bool_decide (d < 1000)%Z then Disarmed else Armed (1000 * (d / 1000)) 1.
Proof.
  rewrite reset_run. cbn -[Z.mul]. unfold time_from_now, timerfd_settime. set (c := steady (readings q)).
  destruct (bool_decide (e - c ≤ 0)%Z) eqn:Ed; [apply bool_decide_eq_true in Ed|apply bool_decide_eq_false in Ed].
  - by rewrite (bool_decide_eq_false_2 (c < e)%Z) by lia.
  - rewrite (bool_decide_eq_true_2 (c < e)%Z) by lia.
    pose proof (Z.quot_rem' (Z.quot (e - c) 1000) 1000000) as Hqr. rewrite (Z.quot_div_nonneg (e - c) 1000) in * by lia.
    replace (_ * 1000000000 + _)%Z with (1000 * ((e - c) / 1000))%Z by lia.
    pose proof (Z.div_mod (e - c) 1000 ltac:(lia)). pose proof (Z.mod_pos_bound (e - c) 1000 ltac:(lia)).
    case_bool_decide; case_bool_decide; done || lia.
Qed.

(** ** Adding and cancelling *)

Lemma make_wf a : wf (make a).
Proof. split; try done; [constructor|]. intros e p. cbn. rewrite elem_of_nil, lookup_empty. naive_solver. Qed.

Lemma wf_clocked x n q : wf q → wf (clocked x n q).
Proof. intros []. by split. Qed.

Lemma wf_added p t x n q : wf q → heap q !! p = None → (0 < p < UINTPTR_MAX)%Z →
  wf (clocked x n (with_timers (set_insert (expiration_ t, p) (timers_ q))
    (with_created (sequence_ t) (with_heap (<[p := t]> (heap q)) q)))).
Proof.
  clear steady alloc. intros [Hs Hh Ha Hq] Hf Hb. split; cbn; [by apply set_insert_sorted| | |done].
  - intros e p'. rewrite set_insert_elem, Hh. destruct (decide (p' = p)) as [->|Hne].
    + rewrite lookup_insert_eq, Hf. naive_solver.
    + rewrite lookup_insert_ne by done. naive_solver.
  - intros p' t' [[<- _]|[_ H]]%lookup_insert_Some; [done|by apply Ha in H].
Qed.

Lemma set_erase_cons x y l : set_erase x (y :: l) = if decide (y = x) then set_erase x l else y :: set_erase x l.
Proof. unfold set_erase. rewrite filter_cons. by repeat case_decide. Qed.

Lemma set_erase_id x l : x ∉ l → set_erase x l = l.
Proof.
  induction l as [|y l IH]; [done|]. intros [Hne Hn]%not_elem_of_cons.
  by rewrite set_erase_cons, decide_False, IH by congruence.
Qed.

Lemma erase_insert x l : x ∉ l → set_erase x (set_insert x l) = l.
Proof.
  induction l as [|y l IH]; intros Hn; cbn [set_insert]; [by rewrite set_erase_cons, decide_True|].
  destruct (entry_lt x y); [by rewrite set_erase_cons, decide_True, set_erase_id|].
  apply not_elem_of_cons in Hn as [Hne Hn]. rewrite bool_decide_eq_false_2 by done.
  by rewrite set_erase_cons, decide_False, IH by congruence.
Qed.

(** Cancelling a timer that was just added, between two expiries. *)
Lemma cancel_run p t x n q q0 q1 : wf q → heap q !! p = None → (0 < p < UINTPTR_MAX)%Z →
  q0 = with_created (sequence_ t) (with_heap (<[p := t]> (heap q)) q) →
  q1 = clocked x n (with_timers (set_insert (expiration_ t, p) (timers_ q)) q0) → ∃ x' n',
  cancel_in_loop (mk_id p (sequence_ t)) q1 = (Ok (), clocked x' n' (with_created (sequence_ t) q)).
Proof.
  intros Hw Hf Hb -> ->. set (q1 := clocked _ _ _).
  assert (heap q1 !! p = Some t) as Hp by apply lookup_insert_eq.
  assert ((expiration_ t, p) ∉ timers_ q) as Hnin by (intros (t'&Ht'&_)%(wf_heap _ Hw); congruence).
  assert (deref p q1 = (Ok t, q1)) as Hd by (unfold deref; by rewrite Hp).
  unfold cancel_in_loop. cbn [timer_ id_sequence_]. rewrite bool_decide_eq_false_2 by lia.
  rewrite (bind_run _ _ _ _ _ Hd), (bool_decide_eq_true_2 (sequence_ t = _)) by done. cbn [negb].
  rewrite (bind_run get_st _ _ _ _ eq_refl).
  rewrite (bool_decide_eq_true_2 (_ ∈ timers_ q1)) by (apply set_insert_elem; by left). cbn [negb].
  rewrite (bind_run (update _) _ _ _ _ eq_refl). change (calling_expired_timers_ q1) with (calling_expired_timers_ q).
  destruct (wf_quiet _ Hw) as (->&_&_). set (q2 := with_timers _ q1).
  assert (free p q2 = (Ok (), with_heap (delete p (heap q2)) q2)) as Hfree.
  { unfold free. change (heap q2) with (heap q1). by rewrite Hp. }
  rewrite (bind_run _ _ _ _ _ Hfree).
  assert (∀ x n, clocked x n (with_heap (delete p (heap q2)) q2) = clocked x n (with_created (sequence_ t) q)) as Heq.
  { assert (timers_ q2 = timers_ q) as Ht by (by apply erase_insert).
    assert (delete p (heap q2) = heap q) as Hh by (by apply delete_insert_id).
    intros x0 n0. rewrite Hh. unfold clocked, with_fd, with_readings, with_created, with_heap.
    cbn [heap timers_ calling_expired_timers_ canceling_timers_ pending_cancel_timers_ s_num_created_ app readings].
    by rewrite Ht. }
  destruct (bool_decide _); [|exists x, n; by rewrite <- Heq]. unfold reset_to_first. rewrite (bind_run get_st _ _ _ _ eq_refl).
  destruct (timers_ (with_heap (delete p (heap q2)) q2)) as [|y l]; [exists x, n; by rewrite <- Heq|]. rewrite reset_run. eexists _, _. by rewrite Heq.
Qed.

Lemma add_timer_run cb when interval q (p := alloc (heap q)) (t := mk_timer Cb cb when interval (wrap_i64 (s_num_created_ q + 1))) :
  wf q → ∃ x n, add_timer cb when interval q = (Ok (mk_id p (sequence_ t)),
    clocked x n (with_timers (set_insert (when, p) (timers_ q)) (with_created (sequence_ t) (with_heap (<[p := t]> (heap q)) q)))).
Proof.
  intros Hw. set (q0 := with_created (sequence_ t) (with_heap (<[p := t]> (heap q)) q)).
  destruct (insert_run p q0 t) as (x&n&Hins); [apply lookup_insert_eq|]. exists x, n. unfold add_timer.
  assert (new_timer cb when interval q = (Ok (mk_id p (sequence_ t)), q0)) as Hnew by done. rewrite (bind_run _ _ _ _ _ Hnew). cbn [timer_].
  assert (add_timer_in_loop p q0 = insert p q0) as Hl.
  { unfold add_timer_in_loop. rewrite (bind_run get_st _ _ _ _ eq_refl).
    change (pending_cancel_timers_ q0) with (pending_cancel_timers_ q). destruct (wf_quiet _ Hw) as (_&_&->).
    by rewrite bool_decide_eq_false_2 by apply not_elem_of_empty. }
  rewrite Hins in Hl. by rewrite (bind_run _ _ _ _ _ Hl).
Qed.

Lemma add_timer_wf cb when interval q : wf q → heap q !! alloc (heap q) = None → (0 < alloc (heap q) < UINTPTR_MAX)%Z →
  wf (snd (add_timer cb when interval q)).
Proof. intros Hw Hf Hb. destruct (add_timer_run cb when interval q Hw) as (x&n&->). by apply (wf_added _ (mk_timer Cb cb when interval _)). Qed.

Lemma wf_readings n q : wf q → wf (with_readings n q).
Proof. intros []. by split. Qed.

Lemma run_every_wf interval cb q : wf q → heap q !! alloc (heap q) = None → (0 < alloc (heap q) < UINTPTR_MAX)%Z →
  wf (snd (run_every interval cb q)).
Proof.
  intros Hw Hf Hb. unfold run_every. rewrite (bind_run now _ _ _ _ eq_refl). apply add_timer_wf; [|done|done].
  by apply wf_readings.
Qed.

(** Cancelling undoes adding: a timer added with any callback, time and interval
    is in the queue at its place and live, with the next sequence number; cancelling
    the returned id before it fires frees it and leaves the timers and the memory as
    they were; both keep the invariant. *)
Theorem add_cancel_roundtrip (q : TimerQueue) (cb : Cb) (when interval : Z) (Hw : wf q)
    (Hf : heap q !! alloc (heap q) = None) (Hb : (0 < alloc (heap q) < UINTPTR_MAX)%Z) :
  ∃ id q1 q2, add_timer cb when interval q = (Ok id, q1) ∧ wf q1 ∧
    heap q1 = <[timer_ id := mk_timer _ cb when interval (id_sequence_ id)]> (heap q) ∧
    timers_ q1 = set_insert (when, timer_ id) (timers_ q) ∧
    cancel_in_loop id q1 = (Ok (), q2) ∧ wf q2 ∧ heap q2 = heap q ∧ timers_ q2 = timers_ q.
Proof.
  set (t := mk_timer Cb cb when interval (wrap_i64 (s_num_created_ q + 1))).
  destruct (add_timer_run cb when interval q Hw) as (x&n&Hadd).
  destruct (cancel_run (alloc (heap q)) t x n q _ _ Hw Hf Hb eq_refl eq_refl) as (x2&n2&Hcancel).
  eexists _, _, _. split_and!; [exact Hadd|by apply (wf_added _ t)|done|done|exact Hcancel| |done|done].
  apply wf_clocked. by destruct Hw.
Qed.

(** A timer cancelled in the loop's thread before the task that inserts it, which
    another thread handed over, has run: it is never inserted, the task frees it, and
    nothing of it is left. *)
Theorem early_cancel (q : TimerQueue) (cb : Cb) (when interval : Z) (Hw : wf q)
    (Hf : heap q !! alloc (heap q) = None) (Hb : (0 < alloc (heap q) < UINTPTR_MAX)%Z) :
  ∃ id q1 q2, new_timer cb when interval q = (Ok id, q1) ∧
    (_ ← run_task (TCancel id); run_task (TAdd (timer_ id))) q1 = (Ok (), q2) ∧
    wf q2 ∧ heap q2 = heap q ∧ timers_ q2 = timers_ q ∧ fd q2 = fd q.
Proof.
  set (p := alloc (heap q)) in *. set (t := mk_timer Cb cb when interval (wrap_i64 (s_num_created_ q + 1))).
  set (q1 := with_created (sequence_ t) (with_heap (<[p := t]> (heap q)) q)). set (q2 := with_pending_cancel {[p]} q1).
  exists (mk_id p (sequence_ t)), q1, (with_created (sequence_ t) q). split; [done|].
  assert (deref p q1 = (Ok t, q1)) as Hd by (unfold deref; cbn; by rewrite lookup_insert_eq).
  assert (run_task (TCancel (mk_id p (sequence_ t))) q1 = (Ok (), q2)) as Hc.
  { cbn [run_task]. unfold cancel_in_loop. cbn [timer_ id_sequence_]. rewrite bool_decide_eq_false_2 by lia.
    rewrite (bind_run _ _ _ _ _ Hd), (bool_decide_eq_true_2 (sequence_ t = _)) by done. cbn [negb].
    rewrite (bind_run get_st _ _ _ _ eq_refl). change (timers_ q1) with (timers_ q).
    rewrite bool_decide_eq_false_2 by (intros (t'&Ht'&_)%(wf_heap _ Hw); congruence). cbn [negb].
    change (calling_expired_timers_ q1) with (calling_expired_timers_ q). destruct (wf_quiet _ Hw) as (->&_&Hp).
    unfold update, q2. change (pending_cancel_timers_ q1) with (pending_cancel_timers_ q). by rewrite Hp, union_empty_r_L. }
  rewrite (bind_run _ _ _ _ _ Hc). cbn [run_task timer_]. unfold add_timer_in_loop. rewrite (bind_run get_st _ _ _ _ eq_refl).
  change (pending_cancel_timers_ q2) with ({[p]} : gset Z).
  rewrite bool_decide_eq_true_2 by (by apply elem_of_singleton). rewrite (bind_run (update _) _ _ _ _ eq_refl).
  unfold free. cbn. rewrite lookup_insert_eq. split; [|by destruct Hw].
  destruct (wf_quiet _ Hw) as (_&_&Hp). rewrite difference_diag_L, delete_insert_id by done. by destruct q; cbn in *; subst.
Qed.

Lemma free_all_run l q : NoDup l → (∀ p, p ∈ l → is_Some (heap q !! p)) →
  free_all l q = (Ok (), with_heap (filter (λ x, x.1 ∉ l) (heap q)) q).
Proof.
  revert q. induction l as [|p l IH]; intros q Hnd Hin; cbn [free_all].
  - rewrite map_filter_id by (intros; apply not_elem_of_nil). by destruct q.
  - apply NoDup_cons in Hnd as [Hn Hnd]. destruct (Hin p) as [t Ht]; [by left|].
    assert (free p q = (Ok (), with_heap (delete p (heap q)) q)) as Hf by (unfold free; by rewrite Ht).
    rewrite (bind_run _ _ _ _ _ Hf), IH; [|done|].
    + f_equal. unfold with_heap. cbn. f_equal. apply map_eq. intros i. apply option_eq. intros x.
      rewrite !map_lookup_filter_Some, lookup_delete_Some. cbn. rewrite not_elem_of_cons. naive_solver.
    + intros p' Hp'. cbn. rewrite lookup_delete_ne by congruence. apply Hin. by right.
Qed.

Lemma wf_addresses q : wf q → NoDup (map snd (timers_ q)).
Proof.
  intros Hw. pose proof (wf_sorted _ Hw) as Hs. apply NoDup_fmap_2_strong.
  - intros [e p] [e' p'] (t&Ht&<-)%(wf_heap _ Hw) (t'&Ht'&<-)%(wf_heap _ Hw). cbn. intros <-. congruence.
  - clear Hw. induction Hs as [|z l Hl IH Hz]; constructor; [|done]. intros Hin. eapply Forall_forall in Hz; [|exact Hin].
    apply entry_lt_iff in Hz. lia.
Qed.

(** The destructor frees every timer once and leaves none, between two operations of
    the queue. *)
Theorem destroy_frees_all (q : TimerQueue) (Hw : wf q) :
  ∃ q', destroy q = (Ok (), q') ∧ heap q' = ∅ ∧ timers_ q' = [].
Proof.
  destruct (wf_quiet _ Hw) as (_&Hc&Hp). eexists. unfold destroy. rewrite (bind_run get_st _ _ _ _ eq_refl).
  assert (∀ p, p ∈ map snd (timers_ q) → is_Some (heap q !! p)) as Hin.
  { intros p ([e p']&->&(t&Ht&_)%(wf_heap _ Hw))%list_elem_of_fmap. by exists t. }
  rewrite (bind_run _ _ _ _ _ (free_all_run _ q (wf_addresses q Hw) Hin)).
  rewrite (bind_run (update _) _ _ _ _ eq_refl), (bind_run get_st _ _ _ _ eq_refl). cbn [pending_cancel_timers_ with_timers with_heap].
  rewrite Hp, elements_empty. cbn [free_all]. rewrite (bind_run (mret _) _ _ _ _ eq_refl), (bind_run (update _) _ _ _ _ eq_refl), (bind_run get_st _ _ _ _ eq_refl).
  cbn [canceling_timers_ with_timers with_heap with_pending_cancel]. rewrite Hc, elements_empty. cbn [free_all].
  rewrite (bind_run (mret _) _ _ _ _ eq_refl). split; [reflexivity|]. split; [|done]. cbn. apply map_eq. intros p. rewrite lookup_empty.
  apply eq_None_not_Some. intros [t [Ht Hn]%map_lookup_filter_Some]. apply Hn. cbn. apply list_elem_of_fmap.
  exists (expiration_ t, p). split; [done|]. apply (wf_heap _ Hw). by exists t.
Qed.

(** A one-shot timer that has run is gone, and cancelling it reads its memory. *)
Lemma late_cancel_undefined (p seq : Z) (q : TimerQueue) : p ≠ 0%Z → heap q !! p = None →
  cancel_in_loop (mk_id p seq) q = (Throw (Exn EUndefined "use after free"), q).
Proof.
  intros Hp Hn. unfold cancel_in_loop. cbn [timer_]. rewrite bool_decide_eq_false_2 by done.
  apply bind_throw. unfold deref. by rewrite Hn.
Qed.

(** A timer whose callback cancels it: the queue's set of cancelled timers is meant
    for this, but the timer is deleted when its callback returns and its address is
    used again, and deleted again, when the set is emptied. *)
Theorem cancel_in_own_callback (run : Cb → Q ()) (q : TimerQueue) (p : Z) (t : Timer Cb) (Hw : wf q)
    (Hts : timers_ q = [(expiration_ t, p)]) (Hp : heap q !! p = Some t) (Hdue : (expiration_ t ≤ steady (readings q))%Z)
    (Hcb : run (callback_ t) = cancel_in_loop (mk_id p (sequence_ t))) :
  ∃ q', handle_read run q = (Throw (Exn EUndefined "use after free"), q').
Proof.
  set (q0 := with_readings (S (readings q)) q). set (q1 := with_timers [] q0). set (q2 := with_calling true q1).
  destruct (wf_address _ Hw _ _ Hp) as [Hp0 Hpm]. destruct (wf_quiet _ Hw) as (_&Hcan&_).
  assert (get_expired (steady (readings q)) q0 = (Ok [p], q1)) as Hg.
  { unfold get_expired. rewrite (bind_run get_st _ _ _ _ eq_refl). cbn [timers_ q0 with_readings]. rewrite Hts. cbn [split_due].
    by rewrite (proj2 (due_iff _ _ _ Hpm) Hdue). }
  assert (deref p q2 = (Ok t, q2)) as Hd by (unfold deref; change (heap q2) with (heap q); by rewrite Hp).
  set (q3 := with_canceling ({[p]} ∪ canceling_timers_ q) q2).
  assert (run (callback_ t) q2 = (Ok (), q3)) as Hrun.
  { rewrite Hcb. unfold cancel_in_loop. cbn [timer_ id_sequence_]. rewrite bool_decide_eq_false_2 by lia.
    rewrite (bind_run _ _ _ _ _ Hd), (bool_decide_eq_true_2 (sequence_ t = _)) by done. cbn [negb].
    by rewrite (bind_run get_st _ _ _ _ eq_refl). }
  assert (deref p q3 = (Ok t, q3)) as Hd3 by (unfold deref; change (heap q3) with (heap q); by rewrite Hp).
  set (q4 := with_heap (delete p (heap q)) q3).
  assert (run_expired run (steady (readings q)) p q2 = (Ok (), q4)) as Hexp.
  { unfold run_expired. rewrite (bind_run get_st _ _ _ _ eq_refl). change (canceling_timers_ q2) with (canceling_timers_ q).
    rewrite Hcan, bool_decide_eq_false_2 by apply not_elem_of_empty.
    assert ((deref p ≫= (λ t, run (callback_ t))) q2 = (Ok (), q3)) as Hboth by (by rewrite (bind_run _ _ _ _ _ Hd)).
    rewrite (bind_run _ _ _ _ _ Hboth), (bind_run _ _ _ _ _ Hd3), (bind_run get_st _ _ _ _ eq_refl).
    rewrite (bool_decide_eq_true_2 (p ∈ canceling_timers_ q3)) by (apply elem_of_union_l, elem_of_singleton; done).
    rewrite andb_false_r. unfold free. change (heap q3) with (heap q). by rewrite Hp. }
  set (q5 := with_calling false q4). exists q5. unfold handle_read.
  rewrite (bind_run now _ _ _ _ eq_refl). fold q0. rewrite (bind_run _ _ _ _ _ Hg), (bind_run (update _) _ _ _ _ eq_refl).
  assert (run_all_expired run (steady (readings q)) [p] q2 = (Ok (), q4)) as Hall by (cbn; by rewrite (bind_run _ _ _ _ _ Hexp)).
  rewrite (bind_run _ _ _ _ _ Hall), (bind_run (update _) _ _ _ _ eq_refl), (bind_run get_st _ _ _ _ eq_refl).
  assert (elements (canceling_timers_ q5) = [p]) as Hel by (cbn; by rewrite Hcan, union_empty_r_L, elements_singleton).
  fold q5. rewrite Hel. cbn [drop_all_canceled]. apply bind_throw, bind_throw, bind_throw.
  unfold deref. change (heap q5) with (delete p (heap q)). by rewrite lookup_delete_eq.
Qed.

End queue.
Arguments TimerQueue : clear implicits.

(** ** The two timers of the main loop *)

Definition clock (n : nat) : Z := (Z.of_nat n * 3000000000)%Z.
Definition next_address (h : gmap Z (Timer string)) : Z := (4096 + 64 * Z.of_nat (size h))%Z.
Definition log (cb : string) : M (TimerQueue string (list string)) () := update (λ q, with_app (app q ++ [cb]) q).

Definition empty : TimerQueue string (list string) := make [].
Definition main_timers : TimerQueue string (list string) :=
  snd (run_every clock next_address 3600000000000 "collect" (snd (run_every clock next_address 5000000000 "push" empty))).

Lemma empty_wf : wf empty.
Proof. apply make_wf. Qed.

Lemma main_timers_wf : wf main_timers.
Proof. do 2 (apply run_every_wf; [|by vm_compute|by vm_compute]). apply empty_wf. Qed.

(** Nine seconds after the first reading. *)
Lemma expiry_exact_witness : ∃ q', handle_read clock log (with_readings 3 main_timers) = (Ok (), q') ∧ wf q' ∧ app q' = ["push"].
Proof.
  destruct (expiry_exact clock log (λ cb a, a ++ [cb]) ltac:(reflexivity) (with_readings 3 main_timers)) as (q'&H1&H2&_&H3&_).
  - apply wf_readings, main_timers_wf.
  - exists q'. split; [exact H1|]. split; [exact H2|]. rewrite H3. by vm_compute.
Defined.

Lemma add_cancel_roundtrip_witness : ∃ id q1 q2, add_timer clock next_address "push" 5 0 empty = (Ok id, q1) ∧
  cancel_in_loop clock id q1 = (Ok (), q2) ∧ timers_ q2 = [].
Proof.
  destruct (add_cancel_roundtrip clock next_address empty "push" 5 0 empty_wf) as (id&q1&q2&H1&_&_&_&H2&_&_&H3);
    [by vm_compute|by vm_compute|].
  exists id, q1, q2. exact (conj H1 (conj H2 H3)).
Defined.

(** A one-shot timer that cancels itself. *)
Definition self_timer : TimerQueue string (list string) := snd (add_timer clock next_address "cancel" 1 0 empty).

Lemma cancel_in_own_callback_witness :
  ∃ q', handle_read clock (λ _, cancel_in_loop clock (mk_id 4096 1)) self_timer = (Throw (Exn EUndefined "use after free"), q').
Proof.
  apply (cancel_in_own_callback clock _ self_timer 4096 (mk_timer string "cancel" 1 0 1));
    [|by vm_compute|by vm_compute|by vm_compute|reflexivity].
  apply add_timer_wf; [apply empty_wf|by vm_compute|by vm_compute].
Defined.

End TimerQueue.
