(* ===== verification/TcpServer.v ===== *)
(** The threads of the network layer: [Acceptor] (src/network/acceptor.cpp),
    [EventLoopThreadPool] (event_loop_thread_pool.cpp) and [TcpServer]
    (tcp_server.cpp), which takes connections in the main loop, gives each to a loop
    of the pool and, through the task queues of the loops, establishes, forgets and
    destroys them. *)
From S2P Require Import Prelude Steps NetBuffer Reactor TcpConnection.
From stdpp Require Import relations.

Module EventLoopThreadPool.

(** Loops by number; 0 is the main loop. A thread's loop is known once
    [start_loop] returns. *)
Record EventLoopThreadPool := mk {
  base_loop_ : nat; started_ : bool; num_threads_ : Z; next_index_ : nat; loops_ : list nat }.

Definition make (base_loop : nat) : EventLoopThreadPool := mk base_loop false 0 0 [].

Definition set_thread_num (n : Z) (p : EventLoopThreadPool) : EventLoopThreadPool :=
  mk (base_loop_ p) (started_ p) n (next_index_ p) (loops_ p).

(** One thread and its loop for each [i]; [assert(!started_)] ends the process. *)
Definition start (p : EventLoopThreadPool) : option EventLoopThreadPool :=
  if started_ p then None
  else Some (mk (base_loop_ p) true (num_threads_ p) (next_index_ p)
    (loops_ p ++ map (λ i, base_loop_ p + 1 + i) (seq 0 (Z.to_nat (num_threads_ p))))).

Definition get_next_loop (p : EventLoopThreadPool) : nat * EventLoopThreadPool :=
  if bool_decide (loops_ p = []) then (base_loop_ p, p)
  else (nth (next_index_ p) (loops_ p) 0,
        mk (base_loop_ p) (started_ p) (num_threads_ p) ((next_index_ p + 1) mod length (loops_ p)) (loops_ p)).

Definition get_loop (index : nat) (p : EventLoopThreadPool) : nat :=
  if bool_decide (index < length (loops_ p)) then nth index (loops_ p) 0 else base_loop_ p.

Definition get_all_loops (p : EventLoopThreadPool) : list nat :=
  if bool_decide (loops_ p = []) then [base_loop_ p] else loops_ p.

(** The loops the next [n] connections get. *)
Fixpoint assign (n : nat) (p : EventLoopThreadPool) : list nat * EventLoopThreadPool :=
  match n with
  | 0 => ([], p)
  | S n => let '(l, p) := get_next_loop p in let '(ls, p) := assign n p in (l :: ls, p)
  end.

Definition at_index (i : nat) (p : EventLoopThreadPool) : EventLoopThreadPool :=
  mk (base_loop_ p) (started_ p) (num_threads_ p) i (loops_ p).

(** What [make], [start] and [get_next_loop] keep. *)
Definition ready (p : EventLoopThreadPool) : Prop := loops_ p ≠ [] ∧ next_index_ p < length (loops_ p).

Lemma assign_app m n p : assign (m + n) p =
  let '(l, q) := assign m p in let '(l', q') := assign n q in (l ++ l', q').
Proof.
  revert p. induction m as [|m IH]; intros p; cbn [assign Nat.add]; [by destruct (assign n p)|].
  destruct (get_next_loop p) as [x p1]. rewrite IH. destruct (assign m p1) as [l q]. by destruct (assign n q).
Qed.

(** From an index to the end of the list. *)
Lemma assign_to_end n p : n ≤ length (loops_ p) → loops_ p ≠ [] → next_index_ p + n = length (loops_ p) →
  assign n p = (drop (next_index_ p) (loops_ p), if bool_decide (n = 0) then p else at_index 0 p).
Proof.
  revert p. induction n as [|n IH]; intros p Hle Hne Hi.
  { cbn. rewrite drop_ge by lia. done. }
  cbn [assign]. unfold get_next_loop. rewrite bool_decide_eq_false_2 by done.
  assert (∃ x, loops_ p !! next_index_ p = Some x) as [x Hx] by (apply lookup_lt_is_Some; lia).
  rewrite (drop_S _ _ _ Hx), (nth_lookup_Some _ _ _ _ Hx).
  destruct n as [|n].
  - cbn [assign]. rewrite Hi, Nat.Div0.mod_same, drop_ge by lia. done.
  - rewrite Nat.mod_small by lia. rewrite IH by (cbn; first [done|lia]). cbn. by rewrite Nat.add_1_r.
Qed.

(** Up to an index, from the beginning. *)
Lemma assign_from_start n p : next_index_ p = 0 → n < length (loops_ p) → assign n p = (take n (loops_ p), at_index n p).
Proof.
  assert (∀ n p, loops_ p ≠ [] → next_index_ p + n < length (loops_ p) →
    assign n p = (take n (drop (next_index_ p) (loops_ p)), at_index (next_index_ p + n) p)) as H.
  { clear. induction n as [|n IH]; intros p Hne Hlt; [cbn; rewrite Nat.add_0_r; by destruct p|].
    cbn [assign]. unfold get_next_loop. rewrite bool_decide_eq_false_2 by done.
    assert (∃ x, loops_ p !! next_index_ p = Some x) as [x Hx] by (apply lookup_lt_is_Some; lia).
    rewrite (drop_S _ _ _ Hx), (nth_lookup_Some _ _ _ _ Hx), Nat.mod_small, IH by (cbn; first [done|lia]).
    cbn. rewrite Nat.add_1_r. unfold at_index. cbn. repeat f_equal. lia. }
  intros H0 Hlt. assert (loops_ p ≠ []) as Hne by (by intros Heq; rewrite Heq in Hlt; cbn in Hlt; lia).
  rewrite H by (try done; lia). by rewrite H0, drop_0.
Qed.

(** Connections are spread evenly: whatever the position of the pool, the next
    connections, as many as there are loops, get each loop exactly once, and the
    pool is back at its position. *)
Theorem round_robin (p : EventLoopThreadPool) (Hp : ready p) :
  assign (length (loops_ p)) p = (drop (next_index_ p) (loops_ p) ++ take (next_index_ p) (loops_ p), p) ∧
  fst (assign (length (loops_ p)) p) ≡ₚ loops_ p.
Proof.
  destruct Hp as [Hne Hlt]. set (i := next_index_ p) in *. set (n := length (loops_ p)) in *.
  assert (assign n p = (drop i (loops_ p) ++ take i (loops_ p), p)) as H.
  { replace n with ((n - i) + i) by lia. rewrite assign_app, assign_to_end by (fold i n; first [done|lia]). fold i.
    rewrite bool_decide_eq_false_2 by lia. rewrite assign_from_start by (cbn; fold n; first [done|lia]).
    cbn. unfold at_index. subst i. by destruct p. }
  rewrite H. split; [done|]. cbn. by rewrite (comm (++)), take_drop.
Qed.

Definition three : EventLoopThreadPool := mk 0 true 3 2 [1; 2; 3].
Lemma round_robin_witness : assign 3 three = ([3; 1; 2], three).
Proof. apply (round_robin three). by split; [done|cbn; lia]. Defined.

End EventLoopThreadPool.

Module Acceptor.

Record Acceptor := mk {
  listening_ : bool; idle_fd_ : Z; channel_ : Channel.Channel; poller : EpollPoller.EpollPoller;
  closed : list Z              (* descriptors closed here, newest last *)
}.

(** The peer's address and port. *)
Definition Peer : Type := string * Z.

(** What [::accept4] answers: a descriptor; [EAGAIN]; [EMFILE], with what the
    second [::accept] and the reopening of /dev/null answer; another error. *)
Inductive answer := Accepted (fd : Z) (peer : Peer) | Again | NoFile (spare reopened : Z) | Failed (errno : Z).

Definition make (idle_fd : Z) (fd : Z) (p : EpollPoller.EpollPoller) : Acceptor :=
  mk false idle_fd (Channel.make 0 fd) p [].

Section acceptor.
Context {Server : Type}.

Notation Acc := (M (Acceptor * Server)).
Definition update (f : Acceptor → Acceptor) : Acc () := λ s, (Ok (), (f (fst s), snd s)).

Definition with_channel (x : Channel.Channel * EpollPoller.EpollPoller) (l : bool) (a : Acceptor) : Acceptor :=
  mk l (idle_fd_ a) (fst x) (snd x) (closed a).
Definition with_idle (fd : Z) (a : Acceptor) : Acceptor := mk (listening_ a) fd (channel_ a) (poller a) (closed a).
Definition close (fd : Z) (a : Acceptor) : Acceptor :=
  mk (listening_ a) (idle_fd_ a) (channel_ a) (poller a) (closed a ++ [fd]).

(** [listen], given whether [::listen] succeeds. *)
Definition listen (ok : bool) : Acc () :=
  update (λ a, if ok then with_channel (Channel.enable_reading (channel_ a) (poller a)) true a else a).

Definition stop_listening : Acc () :=
  update (λ a, if listening_ a then with_channel (Channel.disable_all (channel_ a) (poller a)) false a else a).

(** The destructor. *)
Definition destroy : Acc () :=
  _ ← update (λ a, with_channel (Channel.disable_all (channel_ a) (poller a)) (listening_ a) a);
  _ ← update (λ a, with_channel (channel_ a, Channel.remove (channel_ a) (poller a)) (listening_ a) a);
  update (λ a, if bool_decide (0 ≤ idle_fd_ a)%Z then close (idle_fd_ a) a else a).

(** [accept_one] on what the kernel answers: the connection, or none. *)
Definition accept_one (ans : answer) : Acc (option (Z * Peer)) :=
  match ans with
  | Accepted fd peer => mret (Some (fd, peer))
  | Again | Failed _ => mret None
  | NoFile spare reopened =>
      _ ← update (λ a, close (idle_fd_ a) a);
      _ ← (if bool_decide (0 ≤ spare)%Z then update (close spare) else mret ());
      _ ← update (with_idle reopened);
      mret None
  end.

Context (new_connection_cb_ : option (Z → Peer → M Server ())).

(** A member function of the server, called back. *)
Definition on_server {A} (m : M Server A) : Acc A := λ s, let '(r, x) := m (snd s) in (r, (fst s, x)).

(** [handle_read]: the connections waiting are taken until the kernel has none; an
    empty queue answers [EAGAIN]. *)
Fixpoint handle_read (answers : list answer) : Acc () :=
  match answers with
  | [] => _ ← accept_one Again; mret ()
  | ans :: answers =>
      conn ← accept_one ans;
      match conn with
      | None => mret ()
      | Some (fd, peer) =>
          _ ← match new_connection_cb_ with Some cb => on_server (cb fd peer) | None => update (close fd) end;
          handle_read answers
      end
  end.

End acceptor.

End Acceptor.

Module TcpServer.
Import TcpConnection.

(** What the server needs of a connection: the states it goes through, whether its
    socket is open, and whether its close callback is still the server's. *)
Record Conn := mk_conn {
  c_name : string; c_loop : nat; c_fd : Z; c_state : State; c_socket : bool; c_quiet : bool }.

Definition with_state (s : State) (c : Conn) : Conn := mk_conn (c_name c) (c_loop c) (c_fd c) s (c_socket c) (c_quiet c).
Definition no_socket (c : Conn) : Conn := mk_conn (c_name c) (c_loop c) (c_fd c) (c_state c) false (c_quiet c).
Definition quiet (c : Conn) : Conn := mk_conn (c_name c) (c_loop c) (c_fd c) (c_state c) (c_socket c) true.

(** What waits in the queues of the loops: of a connection (by its number) in its
    own loop, and of the server in the main one. *)
Inductive Task :=
  | Established (id : nat) | Destroyed (id : nat) | Closing (id : nat)
  | RemoveConnection (id : nat) | StopInLoop.

#[export] Instance task_eq_dec : EqDecision Task.
Proof. solve_decision. Defined.

Record TcpServer := mk {
  name_ : string;
  started_ : bool;
  acceptor_ : Acceptor.Acceptor;
  connections_ : gmap string nat;
  next_conn_id_ : Z;
  thread_pool_ : option EventLoopThreadPool.EventLoopThreadPool;   (* none once reset *)
  conns : list Conn;                 (* every connection made, by number *)
  queues : gmap nat (list Task);     (* [pending_tasks_] of each loop *)
  active : Z;                        (* what [connection_cb_] has counted *)
  cleanups : option (list nat);      (* the futures the main thread waits for *)
  done : gset nat;                   (* the promises that were kept *)
  refused : list Z                   (* descriptors closed at once *)
}.

Definition with_started (b : bool) (s : TcpServer) : TcpServer :=
  mk (name_ s) b (acceptor_ s) (connections_ s) (next_conn_id_ s) (thread_pool_ s) (conns s) (queues s) (active s) (cleanups s) (done s) (refused s).
Definition with_acceptor (a : Acceptor.Acceptor) (s : TcpServer) : TcpServer :=
  mk (name_ s) (started_ s) a (connections_ s) (next_conn_id_ s) (thread_pool_ s) (conns s) (queues s) (active s) (cleanups s) (done s) (refused s).
Definition with_connections (m : gmap string nat) (s : TcpServer) : TcpServer :=
  mk (name_ s) (started_ s) (acceptor_ s) m (next_conn_id_ s) (thread_pool_ s) (conns s) (queues s) (active s) (cleanups s) (done s) (refused s).
Definition with_next (n : Z) (s : TcpServer) : TcpServer :=
  mk (name_ s) (started_ s) (acceptor_ s) (connections_ s) n (thread_pool_ s) (conns s) (queues s) (active s) (cleanups s) (done s) (refused s).
Definition with_pool (p : option EventLoopThreadPool.EventLoopThreadPool) (s : TcpServer) : TcpServer :=
  mk (name_ s) (started_ s) (acceptor_ s) (connections_ s) (next_conn_id_ s) p (conns s) (queues s) (active s) (cleanups s) (done s) (refused s).
Definition with_conns (l : list Conn) (s : TcpServer) : TcpServer :=
  mk (name_ s) (started_ s) (acceptor_ s) (connections_ s) (next_conn_id_ s) (thread_pool_ s) l (queues s) (active s) (cleanups s) (done s) (refused s).
Definition with_queues (q : gmap nat (list Task)) (s : TcpServer) : TcpServer :=
  mk (name_ s) (started_ s) (acceptor_ s) (connections_ s) (next_conn_id_ s) (thread_pool_ s) (conns s) q (active s) (cleanups s) (done s) (refused s).
Definition with_active (n : Z) (s : TcpServer) : TcpServer :=
  mk (name_ s) (started_ s) (acceptor_ s) (connections_ s) (next_conn_id_ s) (thread_pool_ s) (conns s) (queues s) n (cleanups s) (done s) (refused s).
Definition with_cleanups (l : option (list nat)) (d : gset nat) (s : TcpServer) : TcpServer :=
  mk (name_ s) (started_ s) (acceptor_ s) (connections_ s) (next_conn_id_ s) (thread_pool_ s) (conns s) (queues s) (active s) l d (refused s).
Definition refuse (fd : Z) (s : TcpServer) : TcpServer :=
  mk (name_ s) (started_ s) (acceptor_ s) (connections_ s) (next_conn_id_ s) (thread_pool_ s) (conns s) (queues s) (active s) (cleanups s) (done s)
    (refused s ++ [fd]).

Definition make (name : string) (a : Acceptor.Acceptor) : TcpServer :=
  mk name false a ∅ 1 (Some (EventLoopThreadPool.make 0)) [] ∅ 0 None ∅ [].

Notation Srv := (M TcpServer).
Definition update (f : TcpServer → TcpServer) : Srv () := λ s, (Ok (), f s).
Definition undefined {A} (why : string) : Srv A := throw EUndefined why.

(** A call of the acceptor, which may call the server back. *)
Definition on_acceptor {A} (m : M (Acceptor.Acceptor * TcpServer) A) : Srv A := λ s,
  let '(r, (a, s)) := m (acceptor_ s, s) in (r, with_acceptor a s).

Definition queue (l : nat) (s : TcpServer) : list Task := default [] (queues s !! l).
Definition set_conn (id : nat) (c : Conn) (s : TcpServer) : TcpServer := with_conns (<[id := c]> (conns s)) s.

(** [loop->queue_in_loop(t)]: the loops of the pool are gone with it. *)
Definition queue_in_loop (l : nat) (t : Task) : Srv () :=
  s ← get_st;
  if negb (bool_decide (l = 0)) && bool_decide (thread_pool_ s = None) then undefined "loop destroyed"
  else update (λ s, with_queues (<[l := queue l s ++ [t]]> (queues s)) s).

(** [loop->run_in_loop(t)] called in the loop [cur]. *)
Definition run_in_loop (cur l : nat) (t : Task) (run : Srv ()) : Srv () :=
  if bool_decide (cur = l) then run else queue_in_loop l t.

Definition the_conn (id : nat) : Srv Conn := λ s,
  match conns s !! id with Some c => (Ok c, s) | None => (Throw (Exn EUndefined "no connection"), s) end.

(** * The connection's operations, as far as the server sees them *)

(** [connection_cb_] of main.cpp, which counts the active connections. *)
Definition connection_cb (st : State) : Srv () :=
  update (λ s, with_active (match st with kConnected => active s + 1 | kDisconnected => active s - 1 | _ => active s end)%Z s).

Definition connection_established (id : nat) : Srv () :=
  c ← the_conn id;
  if bool_decide (c_state c = kConnecting) then
    _ ← update (set_conn id (with_state kConnected c)); connection_cb kConnected
  else mret ().

(** [TcpConnection::connection_destroyed]: the socket closes with its owner. *)
Definition connection_destroyed (id : nat) : Srv () :=
  c ← the_conn id;
  update (set_conn id (no_socket (if bool_decide (c_state c = kConnected) || bool_decide (c_state c = kDisconnecting)
    then with_state kDisconnected c else c))).

(** * The server *)

Definition remove_connection_in_loop (id : nat) : Srv () :=
  c ← the_conn id;
  _ ← update (λ s, if bool_decide (is_Some (connections_ s !! c_name c)) then with_connections (delete (c_name c) (connections_ s)) s else s);
  queue_in_loop (c_loop c) (Destroyed id).

Definition remove_connection (cur id : nat) : Srv () :=
  run_in_loop cur 0 (RemoveConnection id) (remove_connection_in_loop id).

(** [TcpConnection::handle_close] with the two callbacks the server installs. *)
Definition handle_close (cur id : nat) : Srv () :=
  c ← the_conn id;
  _ ← update (set_conn id (with_state kDisconnected c));
  if negb (bool_decide (c_state c = kConnected)) && negb (bool_decide (c_state c = kDisconnecting)) then mret ()
  else
    _ ← connection_cb kDisconnected;
    if c_quiet c then mret () else remove_connection cur id.

(** The task [stop_in_loop] gives to the loop of a connection. *)
Definition close_task (cur id : nat) : Srv () :=
  c ← the_conn id;
  _ ← update (set_conn id (quiet c));
  _ ← (if bool_decide (c_state c = kConnected) || bool_decide (c_state c = kDisconnecting) then handle_close cur id else mret ());
  _ ← connection_destroyed id;
  update (λ s, with_cleanups (cleanups s) ({[id]} ∪ done s) s).

Definition conn_name (name : string) (n : Z) (peer : Acceptor.Peer) : string :=
  name +:+ "-" +:+ to_string n +:+ "#" +:+ fst peer +:+ ":" +:+ to_string (snd peer).

(** The counter of the names is an [int]. *)
Definition new_connection (fd : Z) (peer : Acceptor.Peer) : Srv () :=
  s ← get_st;
  if negb (started_ s) then update (refuse fd)
  else
    match thread_pool_ s with
    | None => undefined "null thread pool"
    | Some pool =>
        let '(io_loop, pool) := EventLoopThreadPool.get_next_loop pool in
        _ ← update (with_pool (Some pool));
        if bool_decide (next_conn_id_ s = int_max) then undefined "int overflow"
        else
          let conn_name := conn_name (name_ s) (next_conn_id_ s) peer in
          let id := length (conns s) in
          _ ← update (with_next (next_conn_id_ s + 1)%Z);
          _ ← update (with_conns (conns s ++ [mk_conn conn_name io_loop fd kConnecting true false]));
          _ ← update (λ s, with_connections (<[conn_name := id]> (connections_ s)) s);
          run_in_loop 0 io_loop (Established id) (connection_established id)
    end.

(** [start], in the main loop's thread; [ok] tells whether [::listen] succeeds. *)
Definition start (ok : bool) : Srv () :=
  s ← get_st;
  _ ← (if started_ s then mret ()
       else
         _ ← update (with_started true);
         match thread_pool_ s with
         | None => undefined "null thread pool"
         | Some p => match EventLoopThreadPool.start p with
                     | Some p => update (with_pool (Some p))
                     | None => undefined "assert"
                     end
         end);
  if Acceptor.listening_ (acceptor_ s) then mret () else on_acceptor (Acceptor.listen ok).

(** The listening socket is readable. *)
Definition accept (answers : list Acceptor.answer) : Srv () :=
  on_acceptor (Acceptor.handle_read (Some new_connection) answers).

Definition set_thread_num (n : Z) : Srv () :=
  update (λ s, with_pool (EventLoopThreadPool.set_thread_num n <$> thread_pool_ s) s).

(** [stop_in_loop], up to the wait for the futures. *)
Fixpoint close_all (ids : list nat) : Srv () :=
  match ids with
  | [] => mret ()
  | id :: ids => c ← the_conn id; _ ← run_in_loop 0 (c_loop c) (Closing id) (close_task 0 id); close_all ids
  end.

Definition stop_in_loop : Srv () :=
  s ← get_st;
  if negb (started_ s) then mret ()
  else
    _ ← update (with_started false);
    _ ← on_acceptor Acceptor.stop_listening;
    let ids := (map_to_list (connections_ s)).*2 in
    _ ← update (with_connections ∅);
    _ ← update (with_cleanups (Some ids) ∅);
    close_all ids.

(** [stop], in the main loop's thread or in another. *)
Definition stop (in_loop : bool) : Srv () :=
  s ← get_st;
  if negb (started_ s) then mret () else if in_loop then stop_in_loop else queue_in_loop 0 StopInLoop.

(** The futures are ready: [stop_in_loop] ends with the pool. *)
Definition stop_done : Srv () := update (λ s, with_pool None (with_cleanups None (done s) s)).

Definition run_task (l : nat) (t : Task) : Srv () :=
  match t with
  | Established id => connection_established id
  | Destroyed id => connection_destroyed id
  | Closing id => close_task l id
  | RemoveConnection id => remove_connection_in_loop id
  | StopInLoop => stop_in_loop
  end.

(** A loop takes its next task. *)
Definition next_task (l : nat) : Srv () :=
  s ← get_st;
  match queue l s with
  | [] => mret ()
  | t :: ts => _ ← update (with_queues (<[l := ts]> (queues s))); run_task l t
  end.

(** * What happens to the server *)

(** The listening socket is readable; a loop runs its next task; a connection is
    lost or closed ([handle_close], in its loop) or shut down by a client; the
    server is stopped, and the wait of [stop_in_loop] ends. *)
Inductive event :=
  | Accept (answers : list Acceptor.answer) | Run (l : nat) | Lost (id : nat) | ShutDown (id : nat)
  | Stop (in_loop : bool) | StopDone.

Definition shut_down (id : nat) : Srv () :=
  c ← the_conn id;
  if bool_decide (c_state c = kConnected) then update (set_conn id (with_state kDisconnecting c)) else mret ().

Definition lost (id : nat) : Srv () := c ← the_conn id; handle_close (c_loop c) id.

Definition run_event (e : event) : Srv () :=
  match e with
  | Accept answers => accept answers
  | Run l => next_task l
  | Lost id => lost id
  | ShutDown id => shut_down id
  | Stop b => stop b
  | StopDone => stop_done
  end.

(** The main loop runs unless it waits, the others as long as there is a pool. *)
Definition running (l : nat) (s : TcpServer) : Prop :=
  if bool_decide (l = 0) then cleanups s = None else is_Some (thread_pool_ s).

(** When each can happen. The counter of the names is assumed not to overflow. *)
Definition event_ok (e : event) (s : TcpServer) : Prop :=
  match e with
  | Accept answers => running 0 s ∧ Acceptor.listening_ (acceptor_ s) = true ∧
      (next_conn_id_ s + Z.of_nat (length answers) ≤ int_max)%Z
  | Run l => running l s
  | Lost id => ∃ c, conns s !! id = Some c ∧ c_state c ≠ kConnecting ∧ running (c_loop c) s
  | ShutDown id => ∃ c, conns s !! id = Some c
  | Stop b => b = true → running 0 s
  | StopDone => ∃ ids, cleanups s = Some ids ∧ ∀ id, id ∈ ids → id ∈ done s
  end.

Definition serving (e : event) : Prop := match e with Stop _ | StopDone => False | _ => True end.

Definition step (p : event → Prop) (s s' : TcpServer) : Prop :=
  ∃ e, p e ∧ event_ok e s ∧ s' = snd (run_event e s).

(** * Where a connection is *)

Definition about (id : nat) (t : Task) : Prop :=
  match t with Established i | Destroyed i | Closing i | RemoveConnection i => i = id | StopInLoop => False end.
#[export] Instance about_dec id t : Decision (about id t).
Proof. destruct t; cbn; apply _. Defined.

(** The tasks about a connection in the queue of a loop. *)
Definition tasks_of (id l : nat) (s : TcpServer) : list Task := filter (about id) (queue l s).
Definition only (id l : nat) (t : Task) (s : TcpServer) : Prop :=
  ∀ l', tasks_of id l' s = if bool_decide (l' = l) then [t] else [].
Definition none (id : nat) (s : TcpServer) : Prop := ∀ l, tasks_of id l s = [].

Definition known (id : nat) (c : Conn) (s : TcpServer) : Prop := connections_ s !! c_name c = Some id.
Definition forgotten (c : Conn) (s : TcpServer) : Prop := connections_ s !! c_name c = None.

(** A connection's state, the server's map and the queued tasks agree. *)
Definition place (id : nat) (c : Conn) (s : TcpServer) : Prop :=
  match c_state c with
  | kConnecting => c_socket c = true ∧ known id c s ∧ only id (c_loop c) (Established id) s
  | kConnected | kDisconnecting => c_socket c = true ∧ known id c s ∧ none id s
  | kDisconnected =>
      (c_socket c = true ∧ known id c s ∧ only id 0 (RemoveConnection id) s) ∨
      (c_socket c = true ∧ forgotten c s ∧ only id (c_loop c) (Destroyed id) s) ∨
      (c_socket c = false ∧ forgotten c s ∧ none id s)
  end.

Definition live (c : Conn) : bool := bool_decide (c_state c = kConnected) || bool_decide (c_state c = kDisconnecting).
Definition count (l : list Conn) : Z := Z.of_nat (length (List.filter live l)).

Record ok (s : TcpServer) : Prop := mk_ok {
  ok_started : started_ s = true;
  ok_running : cleanups s = None ∧ is_Some (thread_pool_ s);
  ok_names : next_conn_id_ s = Z.of_nat (length (conns s) + 1) ∧
    ∀ id c, conns s !! id = Some c → c_quiet c = false ∧ ∃ peer, c_name c = conn_name (name_ s) (Z.of_nat (id + 1)) peer;
  ok_map : ∀ n id, connections_ s !! n = Some id → ∃ c, conns s !! id = Some c ∧ c_name c = n;
  ok_tasks : ∀ l t, t ∈ queue l s → ∃ id c, about id t ∧ conns s !! id = Some c;
  ok_places : ∀ id c, conns s !! id = Some c → place id c s;
  ok_active : active s = count (conns s)
}.

(** ** What leaves other connections alone *)

(** Operations about one connection. *)
Record touches (id : nat) (s s' : TcpServer) : Prop := mk_touches {
  t_same : started_ s' = started_ s ∧ cleanups s' = cleanups s ∧ thread_pool_ s' = thread_pool_ s ∧ name_ s' = name_ s ∧
    next_conn_id_ s' = next_conn_id_ s ∧ acceptor_ s' = acceptor_ s ∧ done s' = done s;
  t_conns : (∀ id', id' ≠ id → conns s' !! id' = conns s !! id') ∧ length (conns s') = length (conns s) ∧
    ∀ c, conns s !! id = Some c → ∃ c', conns s' !! id = Some c' ∧ c_name c' = c_name c ∧ c_loop c' = c_loop c ∧ c_quiet c' = c_quiet c;
  t_map : ∀ n, connections_ s' !! n = connections_ s !! n ∨
    (∃ c, conns s !! id = Some c ∧ n = c_name c ∧ connections_ s' !! n = None);
  t_tasks : ∀ id' l, id' ≠ id → tasks_of id' l s' = tasks_of id' l s;
  t_queues : ∀ l t, t ∈ queue l s' → t ∈ queue l s ∨ about id t
}.

#[export] Instance touches_preorder id : PreOrder (touches id).
Proof.
  split; [intros s; split; eauto 10|]. intros s1 s2 s3 [A1 (B1&B2&B3) D1 E1 F1] [A2 (B4&B5&B6) D2 E2 F2]. split.
  - destruct_and!. split_and!; congruence.
  - split_and!; [intros i Hi; by rewrite B4, B1|congruence|]. intros c Hc. destruct (B3 c Hc) as (c2&Hc2&?&?&?).
    destruct (B6 c2 Hc2) as (c3&?&?&?&?). exists c3. split_and!; congruence.
  - intros n. destruct (D2 n) as [Hn|(c2&Hc2&Hn&Hn2)].
    + rewrite Hn. apply D1.
    + assert (∃ c, conns s1 !! id = Some c) as [c Hc].
      { apply lookup_lt_is_Some. rewrite <- B2. eapply lookup_lt_Some, Hc2. }
      destruct (B3 c Hc) as (c2'&Hc2'&Hnm&_). right. exists c. split_and!; congruence.
  - intros i l Hi. by rewrite E2, E1.
  - intros l t [Ht|Ht]%F2; [by apply F1|by right].
Qed.

Lemma queue_update l q s l' : queue l' (with_queues (<[l := q]> (queues s)) s) = if bool_decide (l' = l) then q else queue l' s.
Proof. unfold queue. cbn. case_bool_decide as H; [subst; by rewrite lookup_insert_eq|by rewrite lookup_insert_ne]. Qed.

Lemma touches_conn id c c' s : conns s !! id = Some c → c_name c' = c_name c → c_loop c' = c_loop c → c_quiet c' = c_quiet c →
  touches id s (set_conn id c' s).
Proof.
  intros Hc Hn Hl Hq. split; cbn; try done; [|by left|by left]. split_and!.
  - intros i Hi. by rewrite list_lookup_insert_ne.
  - by rewrite length_insert.
  - intros c0 Hc0. rewrite list_lookup_insert_eq by (by eapply lookup_lt_Some). exists c'. split_and!; congruence.
Qed.

Lemma touches_active id n s : touches id s (with_active n s).
Proof. split; eauto 10. Qed.

Lemma touches_queue id l t s : about id t → touches id s (with_queues (<[l := queue l s ++ [t]]> (queues s)) s).
Proof.
  intros Ht. split; cbn; try done; eauto 10.
  - intros i l' Hi. unfold tasks_of. rewrite queue_update. case_bool_decide as H; [|done]. subst.
    rewrite filter_app, filter_cons_False, filter_nil, app_nil_r; [done|]. destruct t; cbn in *; congruence.
  - intros l' t'. rewrite queue_update. case_bool_decide as H; [|by left]. subst.
    intros [?| ->%list_elem_of_singleton]%elem_of_app; [by left|by right].
Qed.

Lemma touches_pop id l t ts s : about id t → queue l s = t :: ts → touches id s (with_queues (<[l := ts]> (queues s)) s).
Proof.
  intros Ht Hq. split; cbn; try done; eauto 10.
  - intros i l' Hi. unfold tasks_of. rewrite queue_update. case_bool_decide as H; [|done]. subst.
    rewrite Hq, filter_cons_False; [done|]. destruct t; cbn in *; congruence.
  - intros l' t'. rewrite queue_update. case_bool_decide as H; [|by left]. subst. rewrite Hq. left. by right.
Qed.

Lemma touches_forget id c s : conns s !! id = Some c → touches id s (with_connections (delete (c_name c) (connections_ s)) s).
Proof.
  intros Hc. split; cbn; try done; eauto 10. intros n. destruct (decide (n = c_name c)) as [->|].
  - right. exists c. by rewrite lookup_delete_eq.
  - left. by rewrite lookup_delete_ne.
Qed.

(** Names of different connections differ: the number is part of the name. *)
Lemma conn_name_inj name n n' peer peer' : conn_name name n peer = conn_name name n' peer' → n = n'.
Proof.
  unfold conn_name. intros H%sapp_inj_l. rewrite !sapp_cons, !sapp_nil_l in H. injection H as H.
  apply to_string_inj. eapply sapp_delim; [..|exact H]; by apply to_string_lacks.
Qed.

Lemma live_of c : live c = match c_state c with kConnected | kDisconnecting => true | _ => false end.
Proof. unfold live. by destruct (c_state c). Qed.

Lemma names_differ s id id' c c' : ok s → conns s !! id = Some c → conns s !! id' = Some c' → c_name c = c_name c' → id = id'.
Proof.
  intros Hok Hc Hc' Hn. destruct (ok_names s Hok) as [_ H]. destruct (H id c Hc) as [_ [p Hp]], (H id' c' Hc') as [_ [p' Hp']].
  rewrite Hp, Hp' in Hn. apply conn_name_inj in Hn. lia.
Qed.

Lemma count_insert l id c c' : l !! id = Some c → count (<[id := c']> l) = (count l + Z.b2z (live c') - Z.b2z (live c))%Z.
Proof.
  intros Hc. rewrite (insert_take_drop _ _ _ (lookup_lt_Some _ _ _ Hc)). pose proof (take_drop_middle _ _ _ Hc) as Hl.
  revert Hl. generalize (take id l) (drop (S id) l). intros l1 l2 <-. unfold count. rewrite !List.filter_app. cbn [List.filter].
  destruct (live c), (live c'); rewrite !length_app; cbn [length Z.b2z]; lia.
Qed.

Lemma place_same id c s s' : connections_ s' !! c_name c = connections_ s !! c_name c →
  (∀ l, tasks_of id l s' = tasks_of id l s) → place id c s → place id c s'.
Proof.
  intros Hm Ht. unfold place, known, forgotten, only, none. rewrite Hm.
  assert (∀ P : list Task → nat → Prop, (∀ l, P (tasks_of id l s) l) → ∀ l, P (tasks_of id l s') l) as HP
    by (intros P H l; rewrite Ht; apply H).
  destruct (c_state c); intros H; destruct_and?; split_and?; try done; try by (intros l; rewrite Ht).
  destruct H as [(?&?&?)|[(?&?&?)|(?&?&?)]]; [left|right; left|right; right]; split_and!; try done; by (intros l; rewrite Ht).
Qed.

(** An operation about one connection is correct if it leaves that one in place. *)
Lemma ok_touched id c c' s s' : ok s → conns s !! id = Some c → touches id s s' → conns s' !! id = Some c' →
  place id c' s' → active s' = (active s + Z.b2z (live c') - Z.b2z (live c))%Z → ok s'.
Proof.
  intros Hok Hc Ht Hc' Hp Ha. pose proof Ht as [(E1&E2&E3&E4&E5&_) (Hother&Hlen&Hsame) Hmap Htasks Hq].
  destruct (Hsame c Hc) as (c1&Hc1&Hn&Hl&Hqt). assert (c1 = c') as -> by congruence. split.
  - rewrite E1. apply Hok.
  - rewrite E2, E3. apply Hok.
  - rewrite E5, Hlen, E4. destruct (ok_names s Hok) as [H1 H2]. split; [done|]. intros i ci Hi. destruct (decide (i = id)) as [->|].
    + assert (ci = c') as -> by congruence. rewrite Hn, Hqt. by apply H2.
    + apply H2. by rewrite <- Hother.
  - intros n i Hi. destruct (Hmap n) as [Hs|(c0&_&_&Hs)]; rewrite Hs in Hi; [|done]. destruct (ok_map s Hok n i Hi) as (ci&Hci&Hcn).
    destruct (decide (i = id)) as [->|]; [|exists ci; by rewrite Hother]. exists c'. split; [done|]. congruence.
  - intros l t [Ht0|Ht0]%Hq; [|by exists id, c']. destruct (ok_tasks s Hok l t Ht0) as (i&ci&Hi&Hci).
    destruct (decide (i = id)) as [->|]; [by exists id, c'|]. exists i, ci. by rewrite Hother.
  - intros i ci Hi. destruct (decide (i = id)) as [->|Hne]; [by assert (ci = c') as -> by congruence|]. rewrite Hother in Hi by done.
    apply (place_same i ci s s'); [|intros l; by apply Htasks|by apply (ok_places s Hok)].
    destruct (Hmap (c_name ci)) as [|(c0&Hc0&Hn0&_)]; [done|]. by destruct Hne; eapply names_differ.
  - rewrite Ha, (ok_active s Hok). assert (conns s' = <[id := c']> (conns s)) as ->; [|by rewrite (count_insert _ _ c)].
    apply list_eq. intros i. destruct (decide (i = id)) as [->|]; [|by rewrite list_lookup_insert_ne, Hother].
    by rewrite Hc', list_lookup_insert_eq by (by eapply lookup_lt_Some).
Qed.

(** The task at the head of a queue: whose it is, and that it is its only one. *)
Lemma task_place s l t ts : ok s → queue l s = t :: ts → ∃ id c,
  conns s !! id = Some c ∧ c_socket c = true ∧ about id t ∧ none id (with_queues (<[l := ts]> (queues s)) s) ∧
  ((t = Established id ∧ c_state c = kConnecting ∧ known id c s) ∨
   (t = RemoveConnection id ∧ l = 0 ∧ c_state c = kDisconnected ∧ known id c s) ∨
   (t = Destroyed id ∧ c_state c = kDisconnected ∧ forgotten c s)).
Proof.
  intros Hok Hq. destruct (ok_tasks s Hok l t) as (id&c&Ha&Hc); [rewrite Hq; by left|]. exists id, c.
  assert (tasks_of id l s = t :: filter (about id) ts) as Hl by (unfold tasks_of; by rewrite Hq, filter_cons_True).
  assert (∀ L T, only id L T s → t = T ∧ l = L ∧ none id (with_queues (<[l := ts]> (queues s)) s)) as Honly.
  { intros L T Ho. pose proof (Ho l) as H. rewrite Hl in H. case_bool_decide as E; [|done]. injection H as -> Hts. split_and!; [done..|].
    intros l'. unfold tasks_of. rewrite queue_update. case_bool_decide as E'; [by subst|]. specialize (Ho l').
    rewrite bool_decide_eq_false_2 in Ho by congruence. exact Ho. }
  assert (none id s → False) as Hnone by (intros H; specialize (H l); by rewrite Hl in H).
  pose proof (ok_places s Hok id c Hc) as Hp. unfold place in Hp. destruct (c_state c) eqn:Es.
  - destruct Hp as (H1&H2&(->&_&H3)%Honly). split_and!; try done. by left.
  - by destruct Hp as (_&_&?%Hnone).
  - by destruct Hp as (_&_&?%Hnone).
  - destruct Hp as [(H1&H2&(->&->&H3)%Honly)|[(H1&H2&(->&_&H3)%Honly)|(_&_&?%Hnone)]]; split_and!; try done; right; [left|right]; by split_and!.
Qed.

(** ** The runs of the operations *)

Lemma the_conn_run {A} id c (k : Conn → Srv A) s : conns s !! id = Some c → (the_conn id ≫= k) s = k c s.
Proof. intros Hc. apply bind_run. unfold the_conn. by rewrite Hc. Qed.

Lemma established_run id c s : conns s !! id = Some c → c_state c = kConnecting →
  connection_established id s = (Ok (), with_active (active s + 1) (set_conn id (with_state kConnected c) s)).
Proof. intros Hc Es. unfold connection_established. rewrite (the_conn_run _ _ _ _ Hc), Es. reflexivity. Qed.

Lemma destroyed_run id c s : conns s !! id = Some c → c_state c = kDisconnected →
  connection_destroyed id s = (Ok (), set_conn id (no_socket c) s).
Proof. intros Hc Es. unfold connection_destroyed. rewrite (the_conn_run _ _ _ _ Hc), Es. reflexivity. Qed.

Definition queued (l : nat) (t : Task) (s : TcpServer) : TcpServer := with_queues (<[l := queue l s ++ [t]]> (queues s)) s.

Lemma queue_run l t s : is_Some (thread_pool_ s) → queue_in_loop l t s = (Ok (), queued l t s).
Proof.
  intros Hp. unfold queue_in_loop. rewrite (bind_run get_st _ _ _ _ eq_refl), (bool_decide_eq_false_2 (thread_pool_ s = None)), andb_false_r; [done|].
  by destruct Hp as [p ->].
Qed.

Definition removed (id : nat) (c : Conn) (s : TcpServer) : TcpServer :=
  queued (c_loop c) (Destroyed id) (with_connections (delete (c_name c) (connections_ s)) s).

Lemma remove_run id c s : conns s !! id = Some c → known id c s → is_Some (thread_pool_ s) →
  remove_connection_in_loop id s = (Ok (), removed id c s).
Proof.
  intros Hc Hk Hp. unfold remove_connection_in_loop. rewrite (the_conn_run _ _ _ _ Hc), (bind_run (update _) _ _ _ _ eq_refl).
  rewrite bool_decide_eq_true_2 by (by exists id). by apply queue_run.
Qed.

(** A lost connection, until the server is told. *)
Definition disconnected (id : nat) (c : Conn) (s : TcpServer) : TcpServer :=
  with_active (active s - 1) (set_conn id (with_state kDisconnected c) s).

Lemma set_conn_lookup id c c' s : conns s !! id = Some c → conns (set_conn id c' s) !! id = Some c'.
Proof. intros Hc. cbn. by rewrite list_lookup_insert_eq by (by eapply lookup_lt_Some). Qed.

Lemma close_run cur id c s : conns s !! id = Some c → live c = true → c_quiet c = false → known id c s → is_Some (thread_pool_ s) →
  handle_close cur id s = (Ok (), if bool_decide (cur = 0) then removed id (with_state kDisconnected c) (disconnected id c s)
    else queued 0 (RemoveConnection id) (disconnected id c s)).
Proof.
  intros Hc Hl Hq Hk Hp. unfold handle_close. rewrite (the_conn_run _ _ _ _ Hc), (bind_run (update _) _ _ _ _ eq_refl).
  assert (negb (bool_decide (c_state c = kConnected)) && negb (bool_decide (c_state c = kDisconnecting)) = false) as ->.
  { unfold live in Hl. by destruct (bool_decide (c_state c = kConnected)), (bool_decide (c_state c = kDisconnecting)). }
  rewrite (bind_run (connection_cb _) _ _ _ _ eq_refl), Hq. unfold remove_connection, run_in_loop. case_bool_decide as H.
  - by apply remove_run; [eapply set_conn_lookup|..].
  - by apply queue_run.
Qed.

(** ** Every event keeps the invariant *)

Lemma only_queued id l t s : about id t → none id s → only id l t (queued l t s).
Proof.
  intros Ha Hn l'. unfold tasks_of, queued. rewrite queue_update. case_bool_decide as E; [|apply Hn]. subst.
  rewrite filter_app. unfold none, tasks_of in Hn. by rewrite Hn, filter_cons_True, filter_nil.
Qed.

Lemma removed_place id c s : conns s !! id = Some c → c_state c = kDisconnected → c_socket c = true → none id s →
  place id c (removed id c s).
Proof.
  intros Hc Es Hs Hn. unfold place. rewrite Es. right; left. split_and!; [done| |by apply only_queued].
  unfold forgotten. cbn. by rewrite lookup_delete_eq.
Qed.

Lemma removed_touches id c s : conns s !! id = Some c → touches id s (removed id c s).
Proof. intros Hc. etransitivity; [by eapply touches_forget|]. by apply touches_queue. Qed.

Lemma run_keeps l s : ok s → running l s → ∃ s', next_task l s = (Ok (), s') ∧ ok s' ∧ next_conn_id_ s' = next_conn_id_ s.
Proof.
  intros Hok Hr. unfold next_task. rewrite (bind_run get_st _ _ _ _ eq_refl). destruct (queue l s) as [|t ts] eqn:Hq; [by exists s|].
  rewrite (bind_run (update _) _ _ _ _ eq_refl). destruct (task_place s l t ts Hok Hq) as (id&c&Hc&Hsk&Ha&Hn&Ht).
  pose proof (touches_pop id l t ts s Ha Hq) as Htp. set (s1 := with_queues _ s) in *.
  assert (conns s1 !! id = Some c) as Hc1 by done. assert (is_Some (thread_pool_ s1)) as Hp1 by apply (ok_running s Hok).
  destruct Ht as [(->&Es&Hk)|[(->&->&Es&Hk)|(->&Es&Hf)]]; cbn [run_task].
  - rewrite (established_run _ _ _ Hc1 Es). eexists. split; [done|]. split; [|done].
    eapply (ok_touched id c (with_state kConnected c) s); [done..| | | |].
    + etransitivity; [exact Htp|]. etransitivity; [by apply (touches_conn id c (with_state kConnected c))|]. apply touches_active.
    + by eapply set_conn_lookup.
    + by split_and!.
    + rewrite !live_of. cbn. rewrite Es. cbn. lia.
  - rewrite (remove_run _ _ _ Hc1 Hk Hp1). eexists. split; [done|]. split; [|done].
    eapply (ok_touched id c c s); [done..| |done|by apply removed_place|cbn; lia].
    etransitivity; [exact Htp|by apply removed_touches].
  - rewrite (destroyed_run _ _ _ Hc1 Es). eexists. split; [done|]. split; [|done].
    eapply (ok_touched id c (no_socket c) s); [done..| | | |].
    + etransitivity; [exact Htp|by apply (touches_conn id c (no_socket c))].
    + by eapply set_conn_lookup.
    + unfold place. cbn. rewrite Es. right; right. by split_and!.
    + rewrite !live_of. cbn. lia.
Qed.

Lemma shut_down_keeps id c s : ok s → conns s !! id = Some c → ∃ s', shut_down id s = (Ok (), s') ∧ ok s' ∧ next_conn_id_ s' = next_conn_id_ s.
Proof.
  intros Hok Hc. unfold shut_down. rewrite (the_conn_run _ _ _ _ Hc). case_bool_decide as Es; [|by exists s].
  eexists. split; [done|]. split; [|done]. pose proof (ok_places s Hok id c Hc) as Hp. unfold place in Hp. rewrite Es in Hp.
  eapply (ok_touched id c (with_state kDisconnecting c) s); [done..|by apply (touches_conn id c)|by eapply set_conn_lookup|exact Hp|].
  rewrite !live_of. cbn. rewrite Es. cbn. lia.
Qed.

Lemma lost_keeps id c s : ok s → conns s !! id = Some c → c_state c ≠ kConnecting →
  ∃ s', lost id s = (Ok (), s') ∧ ok s' ∧ next_conn_id_ s' = next_conn_id_ s.
Proof.
  intros Hok Hc Hne. unfold lost. rewrite (the_conn_run _ _ _ _ Hc). pose proof (ok_places s Hok id c Hc) as Hp.
  destruct (live c) eqn:Hl.
  - assert (c_socket c = true ∧ known id c s ∧ none id s) as (Hsk&Hk&Hn).
    { unfold place in Hp. rewrite live_of in Hl. by destruct (c_state c). }
    destruct (ok_names s Hok) as [_ Hq]. destruct (Hq id c Hc) as [Hq' _].
    rewrite (close_run _ id c s) by (done || apply Hok). eexists. split; [done|].
    assert (conns (disconnected id c s) !! id = Some (with_state kDisconnected c)) as Hc1 by (by eapply set_conn_lookup).
    assert (touches id s (disconnected id c s)) as Ht1.
    { etransitivity; [by apply (touches_conn id c (with_state kDisconnected c))|apply touches_active]. }
    case_bool_decide; (split; [|done]).
    + eapply (ok_touched id c (with_state kDisconnected c) s); [done..| |exact Hc1|by apply removed_place|].
      * etransitivity; [exact Ht1|by apply removed_touches].
      * rewrite (live_of (with_state _ _)), Hl. cbn. lia.
    + eapply (ok_touched id c (with_state kDisconnected c) s); [done..| |exact Hc1| |].
      * etransitivity; [exact Ht1|by apply touches_queue].
      * unfold place. cbn. left. split_and!; [done..|by apply only_queued].
      * rewrite (live_of (with_state _ _)), Hl. cbn. lia.
  - assert (c_state c = kDisconnected) as Es by (rewrite live_of in Hl; by destruct (c_state c)).
    unfold handle_close. rewrite (the_conn_run _ _ _ _ Hc), (bind_run (update _) _ _ _ _ eq_refl), Es. exists s. split; [|done].
    unfold mret, M_mret. do 2 f_equal. unfold set_conn. rewrite list_insert_id; [by destruct s|]. rewrite Hc. f_equal. destruct c; cbn in *. by subst.
Qed.

(** One more connection, with the next number. *)
Lemma ok_added c peer s s' : ok s → c_quiet c = false → c_name c = conn_name (name_ s) (next_conn_id_ s) peer →
  started_ s' = started_ s ∧ cleanups s' = cleanups s ∧ is_Some (thread_pool_ s') ∧ name_ s' = name_ s ∧
    next_conn_id_ s' = (next_conn_id_ s + 1)%Z →
  conns s' = conns s ++ [c] → connections_ s' = <[c_name c := length (conns s)]> (connections_ s) →
  (∀ id l, id ≠ length (conns s) → tasks_of id l s' = tasks_of id l s) →
  (∀ l t, t ∈ queue l s' → t ∈ queue l s ∨ about (length (conns s)) t) →
  place (length (conns s)) c s' → active s' = (active s + Z.b2z (live c))%Z → ok s'.
Proof.
  intros Hok Hq Hn (E1&E2&E3&E4&E5) Hcs Hm Ht Htq Hp Ha. destruct (ok_names s Hok) as [Hnext Hnames].
  assert (∀ id ci, conns s' !! id = Some ci → (conns s !! id = Some ci ∧ id ≠ length (conns s)) ∨ (id = length (conns s) ∧ ci = c)) as Hcases.
  { intros id ci. rewrite Hcs. intros [H|[Hle H]]%lookup_app_Some; [left; apply lookup_lt_Some in H as ?; split; [done|lia]|].
    right. destruct (id - length (conns s)) as [|k] eqn:Ek; [|done]. cbn in H. split; [lia|congruence]. }
  assert (∀ id ci, conns s !! id = Some ci → conns s' !! id = Some ci) as Hold.
  { intros id ci H. rewrite Hcs. by apply lookup_app_l_Some. }
  assert (conns s' !! length (conns s) = Some c) as Hnew by (rewrite Hcs; by apply list_lookup_middle).
  assert (∀ id ci, conns s !! id = Some ci → c_name ci ≠ c_name c) as Hfresh.
  { intros id ci H He. destruct (Hnames id ci H) as [_ [pi Hpi]]. rewrite Hpi, Hn in He. apply conn_name_inj in He.
    apply lookup_lt_Some in H. lia. }
  split.
  - rewrite E1. apply Hok.
  - rewrite E2. split; [apply Hok|done].
  - rewrite E4, E5. split; [rewrite Hcs, length_app; cbn [length]; lia|]. intros id ci [[H _]|[-> ->]]%Hcases; [by apply Hnames|].
    split; [done|]. exists peer. rewrite Hn. f_equal. lia.
  - intros n id. rewrite Hm. intros [[<- <-]|[_ H]]%lookup_insert_Some; [by exists c|].
    destruct (ok_map s Hok n id H) as (ci&Hci&?). exists ci. auto.
  - intros l t [H|H]%Htq; [|by eexists _, c]. destruct (ok_tasks s Hok l t H) as (id&ci&?&?). exists id, ci. auto.
  - intros id ci [[H Hne]|[-> ->]]%Hcases; [|done]. apply (place_same id ci s s'); [|intros l; by apply Ht|by apply (ok_places s Hok)].
    rewrite Hm, lookup_insert_ne; [done|]. intros He. by eapply Hfresh.
  - rewrite Ha, (ok_active s Hok), Hcs. unfold count. rewrite List.filter_app. cbn [List.filter].
    destruct (live c); rewrite length_app; cbn [length Z.b2z]; lia.
Qed.

Lemma no_tasks s id : ok s → conns s !! id = None → none id s.
Proof.
  intros Hok Hc l. destruct (tasks_of id l s) as [|t ts] eqn:E; [done|].
  assert (t ∈ tasks_of id l s) as [Ha Ht]%list_elem_of_filter by (rewrite E; by left).
  destruct (ok_tasks s Hok l t Ht) as (i&c&Hi&Hci). assert (i = id) as -> by (destruct t; cbn in *; [congruence..|done]). congruence.
Qed.

Lemma new_connection_keeps fd peer s : ok s → (next_conn_id_ s < int_max)%Z →
  ∃ s', new_connection fd peer s = (Ok (), s') ∧ ok s' ∧ next_conn_id_ s' = (next_conn_id_ s + 1)%Z.
Proof.
  intros Hok Hmax. destruct (ok_running s Hok) as [_ [pool Hpool]]. unfold new_connection.
  rewrite (bind_run get_st _ _ _ _ eq_refl), (ok_started s Hok), Hpool. cbn [negb].
  destruct (EventLoopThreadPool.get_next_loop pool) as [io pool'].
  rewrite (bind_run (update _) _ _ _ _ eq_refl), bool_decide_eq_false_2 by lia. cbv zeta.
  do 3 rewrite (bind_run (update _) _ _ _ _ eq_refl). set (id := length (conns s)).
  set (c0 := mk_conn (conn_name (name_ s) (next_conn_id_ s) peer) io fd kConnecting true false).
  match goal with |- context [run_in_loop 0 io _ _ ?x] => set (s1 := x) end.
  assert (conns s1 !! id = Some c0) as Hc0 by (by apply list_lookup_middle).
  assert (none id s1) as Hn.
  { apply (no_tasks s id Hok). apply lookup_ge_None_2. done. }
  assert (∀ c, known id c s1 ↔ connections_ s1 !! c_name c = Some id) as _ by done.
  assert (connections_ s1 !! c_name c0 = Some id) as Hk by (cbn; by rewrite lookup_insert_eq).
  unfold run_in_loop. case_bool_decide as Hio.
  - rewrite (established_run id c0 s1 Hc0 eq_refl). eexists. split; [done|]. split; [|done].
    apply (ok_added (with_state kConnected c0) peer s); try done; try (by left).
    cbn. unfold id. by rewrite insert_app_r_alt, Nat.sub_diag by done.
  - rewrite (queue_run io (Established id) s1) by done. eexists. split; [done|]. split; [|done].
    pose proof (touches_queue id io (Established id) s1 eq_refl) as [_ _ _ Htk Htq].
    apply (ok_added c0 peer s); try done.
    + split_and!; [done|exact Hk|]. by apply only_queued.
    + rewrite live_of. cbn. lia.
Qed.

Lemma handle_read_keeps answers a s : ok s → (next_conn_id_ s + Z.of_nat (length answers) ≤ int_max)%Z →
  ∃ a' s', Acceptor.handle_read (Some new_connection) answers (a, s) = (Ok (), (a', s')) ∧ ok s'.
Proof.
  revert a s. induction answers as [|ans answers IH]; intros a s Hok Hmax; [by exists a, s|]. cbn [length] in Hmax.
  destruct ans as [fd peer| |spare reopened|e]; cbn [Acceptor.handle_read Acceptor.accept_one].
  - rewrite (bind_run (mret _) _ _ _ _ eq_refl). destruct (new_connection_keeps fd peer s Hok) as (s1&Hrun&Hok1&Hn1); [lia|].
    assert (Acceptor.on_server (new_connection fd peer) (a, s) = (Ok (), (a, s1))) as Hcb by (unfold Acceptor.on_server; cbn; by rewrite Hrun).
    rewrite (bind_run _ _ _ _ _ Hcb). apply IH; [done|lia].
  - by exists a, s.
  - case_bool_decide; eexists _, s; (split; [reflexivity|done]).
  - by exists a, s.
Qed.

Lemma with_acceptor_ok a s : ok s → ok (with_acceptor a s).
Proof. by intros []; split. Qed.

(** An event of a server that serves. *)
Lemma event_keeps e s : ok s → event_ok e s → serving e → ∃ s', run_event e s = (Ok (), s') ∧ ok s'.
Proof.
  intros Hok He Hs. destruct e as [answers|l|id|id|b|]; cbn [run_event event_ok serving] in *; [| | | |done|done].
  - destruct He as (_&_&Hmax). unfold accept, on_acceptor.
    destruct (handle_read_keeps answers (acceptor_ s) s Hok Hmax) as (a'&s'&->&Hok'). eexists. split; [done|]. by apply with_acceptor_ok.
  - destruct (run_keeps l s Hok He) as (s'&?&?&_). eauto.
  - destruct He as (c&Hc&Hne&_). destruct (lost_keeps id c s Hok Hc Hne) as (s'&?&?&_). eauto.
  - destruct He as (c&Hc). destruct (shut_down_keeps id c s Hok Hc) as (s'&?&?&_). eauto.
Qed.

(** The server as [main] starts it. *)
Definition started (name : string) (a : Acceptor.Acceptor) (threads : Z) : TcpServer :=
  snd ((_ ← set_thread_num threads; start true) (make name a)).

Lemma started_server_ok name a n : Acceptor.listening_ a = false → ok (started name a n).
Proof.
  intros Ha. unfold started, start. rewrite (bind_run (set_thread_num n) _ _ _ _ eq_refl), (bind_run get_st _ _ _ _ eq_refl). cbn.
  rewrite Ha. split; cbn; try done.
  by intros l t ?%elem_of_nil.
Qed.

Lemma serving_ok name a n s : Acceptor.listening_ a = false → rtc (step serving) (started name a n) s → ok s.
Proof.
  intros Ha Hr. pose proof (started_server_ok name a n Ha) as H. revert H. induction Hr as [|s1 s2 s3 (e&Hs&He&->) _ IH]; [done|].
  intros H. apply IH. by destruct (event_keeps e s1 H He Hs) as (s'&->&?).
Qed.

(** The queues hold no task. *)
Definition drained (s : TcpServer) : Prop := ∀ l, queue l s = [].

(** C12. While the server serves, every connection is accounted for: in every
    interleaving of the main loop, the loops of the pool and the clients in which the
    server has not been stopped (what a stop does is [stop_closes_all] and
    [stop_leaves_dangling_loop]), the [int] that numbers the connections has not
    reached its maximum, and connections change by the moves of [Life.connection_moves],
    no two have the same name; one whose socket is open is in the server's map or its
    destruction is queued in its loop; one whose socket is closed is disconnected,
    forgotten, and no queue mentions it; the connections counted as active are exactly
    those established and not lost; once the queues are empty the open sockets are
    those of the active connections and of no others, and these are the ones in the
    map; and no further step of serving has undefined behaviour. *)
Theorem connections_accounted (name : string) (a : Acceptor.Acceptor) (threads : Z) (s : TcpServer)
    (Ha : Acceptor.listening_ a = false) (Hr : rtc (step serving) (started name a threads) s) :
  (∀ id id' c c', conns s !! id = Some c → conns s !! id' = Some c' → c_name c = c_name c' → id = id') ∧
  (∀ id c, conns s !! id = Some c →
    if c_socket c then connections_ s !! c_name c = Some id ∨ Destroyed id ∈ queue (c_loop c) s
    else c_state c = kDisconnected ∧ connections_ s !! c_name c = None ∧ ∀ l t, t ∈ queue l s → ¬ about id t) ∧
  active s = count (conns s) ∧
  (drained s → ∀ id c, conns s !! id = Some c →
    c_socket c = live c ∧ (connections_ s !! c_name c = Some id ↔ live c = true)) ∧
  ∀ e, event_ok e s → serving e → fst (run_event e s) = Ok ().
Proof.
  pose proof (serving_ok name a threads s Ha Hr) as Hok. split_and!.
  - intros id id' c c'. by apply names_differ.
  - intros id c Hc. pose proof (ok_places s Hok id c Hc) as Hp. unfold place in Hp.
    assert (∀ l, only id l (Destroyed id) s → Destroyed id ∈ queue l s) as Hin.
    { intros l H. specialize (H l). rewrite bool_decide_eq_true_2 in H by done.
      assert (Destroyed id ∈ tasks_of id l s) as [_ Hd]%list_elem_of_filter by (rewrite H; by left). done. }
    destruct (c_state c) eqn:Es; [destruct Hp as (->&?&?); cbv iota; by left..|].
    destruct Hp as [(->&?&?)|[(->&?&?%Hin)|(->&?&Hn)]]; cbv iota; [by left|by right|]. split_and!; [done..|]. intros l t Ht Hab.
    exact (filter_nil_not_elem_of _ _ _ (Hn l) Hab Ht).
  - apply Hok.
  - intros Hd id c Hc. pose proof (ok_places s Hok id c Hc) as Hp. unfold place in Hp. rewrite live_of.
    assert (∀ l t, ¬ only id l t s) as Hno.
    { intros l t H. specialize (H l). unfold tasks_of in H. by rewrite Hd, bool_decide_eq_true_2 in H. }
    destruct (c_state c); [by destruct Hp as (_&_&?%Hno)|by destruct Hp as (->&?&_)|by destruct Hp as (->&?&_)|].
    destruct Hp as [(_&_&?%Hno)|[(_&_&?%Hno)|(->&Hf&_)]]; [done..|]. split; [done|]. by rewrite Hf.
  - intros e He Hs. by destruct (event_keeps e s Hok He Hs) as (s'&->&_).
Qed.

(** * Stopping *)

(** What any operation of a stopped server does: sockets are closed and tasks
    queued; promises are kept for connections whose socket is closed. *)
Record shrinks (s s' : TcpServer) : Prop := mk_shrinks {
  sh_same : started_ s' = started_ s ∧ cleanups s' = cleanups s ∧ thread_pool_ s' = thread_pool_ s ∧ acceptor_ s' = acceptor_ s;
  sh_conns : ∀ id c, conns s !! id = Some c → ∃ c', conns s' !! id = Some c' ∧ c_loop c' = c_loop c ∧
    (c_socket c = false → c_socket c' = false);
  sh_map : connections_ s = ∅ → connections_ s' = ∅;
  sh_keeps : ∀ l t, t ∈ queue l s → t ∈ queue l s';
  sh_adds : ∀ l t, t ∈ queue l s' → t ∈ queue l s ∨ ∃ id c, about id t ∧ conns s !! id = Some c;
  sh_done : done s ⊆ done s' ∧ ∀ id, id ∈ done s' → id ∈ done s ∨ ∃ c', conns s' !! id = Some c' ∧ c_socket c' = false;
  sh_old : ∀ id c', conns s' !! id = Some c' → ∃ c, conns s !! id = Some c
}.

#[export] Instance shrinks_preorder : PreOrder shrinks.
Proof.
  split; [intros s; split; eauto 10|]. intros s1 s2 s3 [A1 B1 C1 D1 E1 [F1 G1] H1] [A2 B2 C2 D2 E2 [F2 G2] H2]. split.
  - destruct_and!. split_and!; congruence.
  - intros id c (c2&Hc2&?&?)%B1. destruct (B2 id c2 Hc2) as (c3&?&?&?). exists c3. split_and!; [done|congruence|auto].
  - auto.
  - auto.
  - intros l t [Ht|(id&c&Ha&Hc)]%E2; [by apply E1|]. right. destruct (H1 id c Hc) as [c1 Hc1]. eauto.
  - split; [set_solver|]. intros id [Hd|Hd]%G2; [|by right]. apply G1 in Hd as [Hd|(c&Hc&Hs)]; [by left|]. right.
    destruct (B2 id c Hc) as (c'&?&_&?). eauto.
  - intros id c (c2&Hc2)%H2. by eapply H1.
Qed.

(** The run of an operation of a stopped server, from a state with a pool. *)
Definition closes (m : Srv ()) (s : TcpServer) : Prop := ∃ s', m s = (Ok (), s') ∧ shrinks s s'.

Lemma closes_bind (m k : Srv ()) s : closes m s → (∀ s', m s = (Ok (), s') → shrinks s s' → closes k s') → closes (_ ← m; k) s.
Proof.
  intros (s1&Hm&H1) Hk. destruct (Hk s1 Hm H1) as (s2&Hk2&H2). exists s2. rewrite (bind_run _ _ _ _ _ Hm). split; [done|by transitivity s1].
Qed.

Lemma set_conn_shrinks id c c' s : conns s !! id = Some c → c_loop c' = c_loop c → (c_socket c = false → c_socket c' = false) →
  shrinks s (set_conn id c' s).
Proof.
  intros Hc Hl Hs. split; cbn; try done; eauto.
  - intros i ci Hi. destruct (decide (i = id)) as [->|]; [|rewrite list_lookup_insert_ne by done; eauto].
    assert (ci = c) as -> by congruence. exists c'. by rewrite list_lookup_insert_eq by (by eapply lookup_lt_Some).
  - intros i ci Hi. destruct (decide (i = id)) as [->|]; [by exists c|]. rewrite list_lookup_insert_ne in Hi by done. eauto.
Qed.

Lemma active_shrinks n s : shrinks s (with_active n s).
Proof. split; eauto 10. Qed.

Lemma queued_shrinks l t id c s : about id t → conns s !! id = Some c → shrinks s (queued l t s).
Proof.
  intros Ha Hc. split; cbn; try done; eauto.
  - intros l' t' Ht. unfold queued. rewrite queue_update. case_bool_decide; [subst|done]. apply elem_of_app. by left.
  - intros l' t'. unfold queued. rewrite queue_update. case_bool_decide; [subst|by left].
    intros [?| ->%list_elem_of_singleton]%elem_of_app; [by left|]. right. eauto.
Qed.

Lemma queue_closes l t id c s : about id t → conns s !! id = Some c → is_Some (thread_pool_ s) → closes (queue_in_loop l t) s.
Proof. intros Ha Hc Hp. eexists. rewrite queue_run by done. split; [done|]. by eapply queued_shrinks. Qed.

Lemma pool_kept s s' : shrinks s s' → is_Some (thread_pool_ s) → is_Some (thread_pool_ s').
Proof. intros [(_&_&->&_) _ _ _ _ _ _]. done. Qed.

Lemma remove_closes id c s : conns s !! id = Some c → is_Some (thread_pool_ s) → closes (remove_connection_in_loop id) s.
Proof.
  intros Hc Hp. unfold remove_connection_in_loop, closes. rewrite (the_conn_run _ _ _ _ Hc). apply closes_bind.
  - eexists. split; [reflexivity|]. case_bool_decide; [|reflexivity]. split; cbn; eauto 10. intros ->. by rewrite delete_empty.
  - intros s' [= <-] Hs. apply (queue_closes _ _ id c); [done| |by eapply pool_kept]. by case_bool_decide.
Qed.

Lemma handle_close_closes cur id c s : conns s !! id = Some c → is_Some (thread_pool_ s) → closes (handle_close cur id) s.
Proof.
  intros Hc Hp. unfold handle_close, closes. rewrite (the_conn_run _ _ _ _ Hc). apply closes_bind.
  { eexists. split; [reflexivity|]. by apply (set_conn_shrinks id c). }
  intros s1 [= <-] _. destruct (negb _ && _); [eexists; split; [reflexivity|reflexivity]|].
  apply closes_bind; [eexists; split; [reflexivity|apply active_shrinks]|]. intros s1 [= <-] _.
  destruct (c_quiet c); [eexists; split; [reflexivity|reflexivity]|].
  assert (conns (disconnected id c s) !! id = Some (with_state kDisconnected c)) as Hc1 by (by eapply set_conn_lookup).
  unfold remove_connection, run_in_loop. case_bool_decide.
  - eapply remove_closes; [exact Hc1|done].
  - by eapply (queue_closes _ _ id); [|exact Hc1|].
Qed.

Lemma destroyed_closes id c s : conns s !! id = Some c → ∃ s' c', connection_destroyed id s = (Ok (), s') ∧ shrinks s s' ∧
  conns s' !! id = Some c' ∧ c_socket c' = false.
Proof.
  intros Hc. unfold connection_destroyed. rewrite (the_conn_run _ _ _ _ Hc).
  set (c1 := no_socket (if bool_decide (c_state c = kConnected) || bool_decide (c_state c = kDisconnecting)
    then with_state kDisconnected c else c)).
  exists (set_conn id c1 s), c1. split; [reflexivity|]. split_and!; [| |done].
  - apply (set_conn_shrinks id c); unfold c1; by destruct (_ || _).
  - by eapply set_conn_lookup.
Qed.

Lemma close_task_closes cur id c s : conns s !! id = Some c → is_Some (thread_pool_ s) →
  ∃ s', close_task cur id s = (Ok (), s') ∧ shrinks s s' ∧ id ∈ done s'.
Proof.
  intros Hc Hp. unfold close_task. rewrite (the_conn_run _ _ _ _ Hc), (bind_run (update _) _ _ _ _ eq_refl).
  assert (shrinks s (set_conn id (quiet c) s)) as H1 by (by apply (set_conn_shrinks id c)). set (s1 := set_conn id (quiet c) s) in *.
  assert (conns s1 !! id = Some (quiet c)) as Hc1 by (by eapply set_conn_lookup).
  assert (closes (if bool_decide (c_state c = kConnected) || bool_decide (c_state c = kDisconnecting) then handle_close cur id else mret ()) s1)
    as (s2&Hs2&H2).
  { destruct (_ || _); [by eapply handle_close_closes|]. by exists s1. }
  rewrite (bind_run _ _ _ _ _ Hs2). destruct (sh_conns _ _ H2 id _ Hc1) as (c2&Hc2&_).
  destruct (destroyed_closes id c2 s2 Hc2) as (s3&c3&Hs3&H3&Hc3&Hsk). rewrite (bind_run _ _ _ _ _ Hs3).
  eexists. split; [reflexivity|]. split; [|cbn; set_solver]. transitivity s1; [done|]. transitivity s2; [done|]. transitivity s3; [done|].
  split; cbn; eauto 10. split; [set_solver|]. intros i [->%elem_of_singleton|Hi]%elem_of_union; [right; eauto|by left].
Qed.

(** While [stop_in_loop] waits: what it waits for is done, or its task is queued in a
    loop of the pool. *)
Definition promised (s : TcpServer) (id : nat) : Prop := ∃ c, conns s !! id = Some c ∧
  (id ∈ done s ∨ Closing id ∈ queue (c_loop c) s ∧ c_loop c ≠ 0).

Record halted (ids : list nat) (s : TcpServer) : Prop := mk_halted {
  st_same : started_ s = false ∧ connections_ s = ∅ ∧ cleanups s = Some ids ∧ is_Some (thread_pool_ s) ∧
    Acceptor.listening_ (acceptor_ s) = false;
  st_done : ∀ id, id ∈ done s → ∃ c, conns s !! id = Some c ∧ c_socket c = false;
  st_tasks : ∀ l t, t ∈ queue l s → t = StopInLoop ∨ ∃ id c, about id t ∧ conns s !! id = Some c
}.
Definition stopping (ids : list nat) (s : TcpServer) : Prop := halted ids s ∧ ∀ id, id ∈ ids → promised s id.

Lemma promised_shrinks id s s' : shrinks s s' → promised s id → promised s' id.
Proof.
  intros [_ Hc _ Hk _ [Hd1 _] _] (c&Hci&H). destruct (Hc id c Hci) as (c'&Hci'&Hl&Hs). exists c'. split; [done|].
  destruct H as [H|[H ?]]; [left; set_solver|right]. rewrite Hl. auto.
Qed.

Lemma halted_shrinks ids s s' : shrinks s s' → halted ids s → halted ids s'.
Proof.
  intros Hs [(H1&H2&H3&H4&H5) Hd Ht]. pose proof Hs as [(E1&E2&E3&E4) Hc Hm Hk Ha [_ Hd2] _]. split.
  - rewrite E1, E2, E3, E4. split_and!; auto.
  - intros id [Hi|Hi]%Hd2; [|done]. destruct (Hd id Hi) as (c&Hci&Hsk). destruct (Hc id c Hci) as (c'&?&_&?). eauto.
  - intros l t [Hq|(id&c&Hab&Hci)]%Ha; [destruct (Ht l t Hq) as [->|(id&c&Hab&Hci)]; [by left|]|];
      right; destruct (Hc id c Hci) as (c'&?&_); eauto.
Qed.

Lemma stopping_shrinks ids s s' : shrinks s s' → stopping ids s → stopping ids s'.
Proof. intros Hs [Hh Hp]. split; [by eapply halted_shrinks|]. intros id Hid. eapply promised_shrinks; eauto. Qed.

(** Closing the known connections, one by one. *)
Lemma close_all_run ids s : (∀ id, id ∈ ids → ∃ c, conns s !! id = Some c) → is_Some (thread_pool_ s) →
  ∃ s', close_all ids s = (Ok (), s') ∧ shrinks s s' ∧ ∀ id, id ∈ ids → promised s' id.
Proof.
  revert s. induction ids as [|id ids IH]; intros s Hids Hp; [exists s; split_and!; [done|reflexivity|by intros ? ?%elem_of_nil]|].
  cbn [close_all]. destruct (Hids id) as [c Hc]; [by left|]. rewrite (the_conn_run _ _ _ _ Hc).
  assert (∃ s1, run_in_loop 0 (c_loop c) (Closing id) (close_task 0 id) s = (Ok (), s1) ∧ shrinks s s1 ∧ promised s1 id)
    as (s1&Hs1&H1&Hp1).
  { unfold run_in_loop. case_bool_decide as El.
    - destruct (close_task_closes 0 id c s Hc Hp) as (s1&Hs1&H1&Hd). exists s1. split_and!; [done..|].
      destruct (sh_conns _ _ H1 id c Hc) as (c1&Hc1&_). exists c1. auto.
    - exists (queued (c_loop c) (Closing id) s). split_and!; [by apply queue_run|by eapply queued_shrinks|]. exists c. split; [done|].
      right. split; [|congruence]. unfold queued. rewrite queue_update, bool_decide_eq_true_2 by done. apply elem_of_app. right. by left. }
  rewrite (bind_run _ _ _ _ _ Hs1). destruct (IH s1) as (s2&Hs2&H2&Hp2).
  - intros i Hi. destruct (Hids i) as [ci Hci]; [by right|]. destruct (sh_conns _ _ H1 i ci Hci) as (c1&?&_). eauto.
  - by eapply pool_kept.
  - exists s2. split_and!; [done|by transitivity s1|]. intros i [->|Hi]%elem_of_cons; [by eapply promised_shrinks|auto].
Qed.

Lemma stop_begins s : ok s → ∃ s', stop true s = (Ok (), s') ∧ stopping ((map_to_list (connections_ s)).*2) s'.
Proof.
  intros Hok. unfold stop, stop_in_loop. rewrite (bind_run get_st _ _ _ _ eq_refl), (ok_started s Hok). cbn [negb].
  rewrite (bind_run get_st _ _ _ _ eq_refl), (ok_started s Hok). cbn [negb]. rewrite (bind_run (update _) _ _ _ _ eq_refl).
  set (s1 := with_started false s).
  assert (∃ a, on_acceptor Acceptor.stop_listening s1 = (Ok (), with_acceptor a s1) ∧ Acceptor.listening_ a = false) as (a&Hs1&Ha).
  { eexists. split; [reflexivity|]. by destruct (Acceptor.listening_ (acceptor_ s)) eqn:E; cbn; rewrite ?E. }
  rewrite (bind_run _ _ _ _ _ Hs1). cbv zeta. set (ids := (map_to_list (connections_ s)).*2).
  do 2 rewrite (bind_run (update _) _ _ _ _ eq_refl).
  match goal with |- context [close_all ids ?x] => set (s2 := x) end.
  destruct (close_all_run ids s2) as (s3&Hs3&H3&Hp3).
  - intros id ([n i]&->&Hi%elem_of_map_to_list)%list_elem_of_fmap. destruct (ok_map s Hok n i Hi) as (c&Hc&_). by exists c.
  - apply (ok_running s Hok).
  - exists s3. split; [exact Hs3|]. split; [|exact Hp3]. apply (halted_shrinks ids s2); [done|].
    split; cbn; [|set_solver|intros l t Hq; right; by apply (ok_tasks s Hok l t)].
    split_and!; [done..|apply (ok_running s Hok)|done].
Qed.

(** ** While the main loop waits *)

Definition not_done (e : event) : Prop := e ≠ StopDone.

(** A task taken by a loop of the pool. *)
Lemma stopping_task ids l s : stopping ids s → l ≠ 0 → stopping ids (snd (next_task l s)).
Proof.
  intros [Hh Hp] Hl. unfold next_task. rewrite (bind_run get_st _ _ _ _ eq_refl). destruct (queue l s) as [|t ts] eqn:Hq; [by split|].
  rewrite (bind_run (update _) _ _ _ _ eq_refl). set (s1 := with_queues _ s). pose proof Hh as [(H1&H2&H3&H4&H5) Hd Ht].
  assert (∀ l' t', t' ∈ queue l' s1 → t' ∈ queue l' s) as Hq1.
  { intros l' t'. unfold s1. rewrite queue_update. case_bool_decide; [subst; rewrite Hq; by right|done]. }
  assert (halted ids s1) as Hh1 by (split; [done|done|intros l' t' Ht'; by apply (Ht l'), Hq1]).
  assert (∀ id, id ∈ ids → promised s1 id ∨ t = Closing id) as Hp1.
  { intros id Hid. destruct (Hp id Hid) as (c&Hc&[Hdn|[Hin Hne]]); [left; exists c; auto|].
    destruct (decide (t = Closing id)) as [->|Htc]; [by right|]. left. exists c. split; [done|]. right. split; [|done]. unfold s1.
    rewrite queue_update. case_bool_decide as E; [|done]. rewrite E, Hq in Hin. by apply elem_of_cons in Hin as [?|?]. }
  assert (∀ s', shrinks s1 s' → (∀ id, t = Closing id → id ∈ done s') → stopping ids s') as Hend.
  { intros s' Hs' Hdn. split; [by eapply halted_shrinks|]. intros id Hid. destruct (Hp1 id Hid) as [?|Hti]; [by eapply promised_shrinks|].
    destruct (Hp id Hid) as (c&Hc&_). destruct (sh_conns _ _ Hs' id c Hc) as (c'&?&_). exists c'. auto. }
  destruct (Ht l t) as [->|(id&c&Ha&Hc)]; [rewrite Hq; by left| |].
  - cbn [run_task]. unfold stop_in_loop. rewrite (bind_run get_st _ _ _ _ eq_refl). change (started_ s1) with (started_ s). rewrite H1. by apply Hend.
  - destruct t as [i|i|i|i|]; cbn [about] in Ha; try done; subst i; cbn [run_task].
    + apply Hend; [|done]. unfold connection_established. rewrite (the_conn_run id c _ s1 Hc). case_bool_decide; [|done].
      transitivity (set_conn id (with_state kConnected c) s1); [by apply (set_conn_shrinks id c)|apply active_shrinks].
    + destruct (destroyed_closes id c s1 Hc) as (s2&c2&->&H&_). by apply Hend.
    + destruct (close_task_closes l id c s1 Hc H4) as (s2&->&H&Hdn). apply Hend; [done|]. by intros i [= <-].
    + destruct (remove_closes id c s1 Hc H4) as (s2&->&H). by apply Hend.
Qed.

Lemma stopping_step ids e s : stopping ids s → not_done e → event_ok e s → stopping ids (snd (run_event e s)).
Proof.
  intros Hs Hnd He. pose proof Hs as [[(H1&H2&H3&H4&H5) _ _] _].
  assert (∀ l, running l s → l ≠ 0) as Hrun by (intros l Hr ->; unfold running in Hr; rewrite bool_decide_eq_true_2 in Hr by done; congruence).
  destruct e as [answers|l|id|id|b|]; cbn [run_event event_ok] in *.
  - destruct He as (?%Hrun&_). done.
  - by apply stopping_task, Hrun.
  - destruct He as (c&Hc&_&_). unfold lost. rewrite (the_conn_run _ _ _ _ Hc).
    destruct (handle_close_closes (c_loop c) id c s Hc H4) as (s'&->&Hs'). by eapply stopping_shrinks.
  - destruct He as (c&Hc). unfold shut_down. rewrite (the_conn_run _ _ _ _ Hc). case_bool_decide; [|done].
    eapply stopping_shrinks; [|done]. by apply (set_conn_shrinks id c).
  - unfold stop. rewrite (bind_run get_st _ _ _ _ eq_refl), H1. done.
  - done.
Qed.

(** C13. Stopping closes every connection: when a serving server is stopped, it takes no
    connection any more and forgets all of them at once; then, whatever the loops of
    the pool and the clients do, each connection it knew either is closed already or
    has its closing task waiting in a loop of the pool; so when these queues are
    empty the wait ends, and when the wait ends all of them are closed. *)
Theorem stop_closes_all (name : string) (a : Acceptor.Acceptor) (threads : Z) (s s' : TcpServer)
    (Ha : Acceptor.listening_ a = false) (Hr : rtc (step serving) (started name a threads) s)
    (Hr' : rtc (step not_done) (snd (run_event (Stop true) s)) s') :
  started_ s' = false ∧ Acceptor.listening_ (acceptor_ s') = false ∧ connections_ s' = ∅ ∧
  (∀ n id, connections_ s !! n = Some id → ∃ c, conns s' !! id = Some c ∧
    ((id ∈ done s' ∧ c_socket c = false) ∨ (Closing id ∈ queue (c_loop c) s' ∧ c_loop c ≠ 0))) ∧
  ((∀ l, l ≠ 0 → queue l s' = []) → event_ok StopDone s') ∧
  (event_ok StopDone s' → ∀ n id, connections_ s !! n = Some id → ∃ c, conns s' !! id = Some c ∧ c_socket c = false).
Proof.
  pose proof (serving_ok name a threads s Ha Hr) as Hok. destruct (stop_begins s Hok) as (s1&Hs1&Hst).
  cbn [run_event] in Hr'. rewrite Hs1 in Hr'. cbn [snd] in Hr'. set (ids := (map_to_list (connections_ s)).*2) in *.
  assert (stopping ids s') as [[(H1&H2&H3&H4&H5) Hd _] Hp].
  { clear Hs1. induction Hr' as [|x1 x2 x3 (e&Hn&He&->) _ IH]; [done|]. by apply IH, stopping_step. }
  assert (∀ n id, connections_ s !! n = Some id → id ∈ ids) as Hids.
  { intros n id Hi. apply list_elem_of_fmap. exists (n, id). split; [done|]. by apply elem_of_map_to_list. }
  split_and!; [done..| | |].
  - intros n id Hi. destruct (Hp id (Hids n id Hi)) as (c&Hc&[Hdn|?]); exists c; (split; [done|]); [left|by right].
    split; [done|]. destruct (Hd id Hdn) as (c'&?&?). congruence.
  - intros Hq. exists ids. split; [done|]. intros id Hid. destruct (Hp id Hid) as (c&_&[?|[Hin Hne]]); [done|].
    rewrite Hq in Hin by done. by apply elem_of_nil in Hin.
  - intros (ids'&Hids'&Hall) n id Hi. apply Hd, Hall. assert (ids' = ids) as -> by congruence. by eapply Hids.
Qed.

(** ** A server with two threads *)

Definition acceptor0 : Acceptor.Acceptor := Acceptor.make 3 4 EpollPoller.make.
Definition server0 : TcpServer := started "SolarDrive" acceptor0 2.
Definition run_events (es : list event) (s : TcpServer) : TcpServer := foldl (λ s e, snd (run_event e s)) s es.

(** Three clients; the first is established and leaves. *)
Definition arrivals : list Acceptor.answer :=
  [Acceptor.Accepted 7 ("10.0.0.1", 5000%Z); Acceptor.Accepted 8 ("10.0.0.2", 5000%Z); Acceptor.Accepted 9 ("10.0.0.1", 5001%Z)].
Definition busy : TcpServer := run_events [Accept arrivals; Run 1; Lost 0] server0.

Lemma busy_reached : rtc (step serving) server0 busy.
Proof.
  eapply rtc_l; [exists (Accept arrivals); split_and!; [done| |reflexivity]|].
  { split_and!; [done|vm_compute; reflexivity|vm_compute; discriminate]. }
  eapply rtc_l; [exists (Run 1); split_and!; [done|by eexists|reflexivity]|].
  apply rtc_once. exists (Lost 0). split_and!; [done| |reflexivity]. eexists. split_and!; [vm_compute; reflexivity|done|by eexists].
Qed.

Lemma connections_accounted_witness : active busy = count (conns busy).
Proof. apply (connections_accounted "SolarDrive" acceptor0 2 busy); [done|exact busy_reached]. Defined.

Definition stopped : TcpServer := run_events [Run 1; Run 2; Run 2] (snd (run_event (Stop true) busy)).

Lemma stop_closes_all_witness : started_ stopped = false ∧ connections_ stopped = ∅.
Proof.
  destruct (stop_closes_all "SolarDrive" acceptor0 2 busy stopped) as (H1&_&H3&_); [done|exact busy_reached| |exact (conj H1 H3)].
  unfold stopped, run_events. cbn [foldl].
  eapply rtc_l; [exists (Run 1); split_and!; [done|by eexists|reflexivity]|].
  eapply rtc_l; [exists (Run 2); split_and!; [done|by eexists|reflexivity]|].
  apply rtc_once. exists (Run 2). split_and!; [done|by eexists|reflexivity].
Defined.

(** A connection that is lost just before the server stops: the main loop runs the
    task that forgets it after the pool is gone, and hands its destruction to a
    loop that no longer exists. *)
Lemma stop_leaves_dangling_loop : ∃ s, rtc (step (λ _, True)) server0 s ∧ event_ok (Run 0) s ∧
  fst (run_event (Run 0) s) = Throw (Exn EUndefined "loop destroyed").
Proof.
  exists (run_events [Accept (take 1 arrivals); Run 1; Lost 0; Stop true; Run 1; StopDone] server0).
  split; [|split; vm_compute; reflexivity]. unfold run_events. cbn [foldl].
  eapply rtc_l; [exists (Accept (take 1 arrivals)); split_and!; [done| |reflexivity]|].
  { split_and!; [done|vm_compute; reflexivity|vm_compute; discriminate]. }
  eapply rtc_l; [exists (Run 1); split_and!; [done|by eexists|reflexivity]|].
  eapply rtc_l; [exists (Lost 0); split_and!; [done| |reflexivity]|].
  { eexists. split_and!; [vm_compute; reflexivity|done|by eexists]. }
  eapply rtc_l; [exists (Stop true); split_and!; [done|done|reflexivity]|].
  eapply rtc_l; [exists (Run 1); split_and!; [done|by eexists|reflexivity]|].
  apply rtc_once. exists StopDone. split_and!; [done| |reflexivity].
  exists [0]. split; [vm_compute; reflexivity|]. intros i ->%list_elem_of_singleton. apply (bool_decide_unpack _). vm_compute. exact I.
Qed.

End TcpServer.

(** The server's view of a connection is what [TcpConnection] does: every operation
    of a connection is one of the moves that [TcpServer] models. *)
Module Life.
Import TcpConnection.

(** A connection's state and whether its socket is open. *)
Definition view {App} (c : TcpConnection App) : State * bool := (state_ c, bool_decide (is_Some (socket_ c))).

(** [connection_established], [shutdown] and [force_close], [handle_close],
    [connection_destroyed]. *)
Inductive move : State * bool → State * bool → Prop :=
  | move_establish b : move (kConnecting, b) (kConnected, b)
  | move_shut b : move (kConnected, b) (kDisconnecting, b)
  | move_lose b st : st = kConnected ∨ st = kDisconnecting → move (st, b) (kDisconnected, b)
  | move_destroy b : move (kDisconnected, b) (kDisconnected, false).

Section life.
Context {App : Type} (outcome : nat → write_result) (K : Callbacks App).
Notation Conn := (TcpConnection App).

(** Once established, only [shutdown] and the ways to close change the state, and
    nothing but its destruction the socket. *)
Definition goes (c c' : Conn) : Prop := state_ c ≠ kConnecting → socket_ c' = socket_ c ∧
  (state_ c' = state_ c ∨ (state_ c = kConnected ∧ state_ c' = kDisconnecting) ∨
   ((state_ c = kConnected ∨ state_ c = kDisconnecting) ∧ state_ c' = kDisconnected)).

#[export] Instance goes_preorder : PreOrder goes.
Proof.
  split; [intros c _; auto|]. intros c1 c2 c3 H1 H2 Hn. destruct (H1 Hn) as [E1 S1].
  destruct H2 as [E2 S2]; [destruct S1 as [->|[[_ ->]|[_ ->]]]; done|]. split; [congruence|]. intuition congruence.
Qed.

Lemma update_goes (f : Conn → Conn) : (∀ c, state_ (f c) = state_ c ∧ socket_ (f c) = socket_ c) → steps goes (update f).
Proof. intros Hf c _. destruct (Hf c) as [H1 H2]. cbn. auto. Qed.

Lemma on_channel_goes f : steps goes (on_channel f).
Proof. by apply update_goes. Qed.

Lemma handle_close_goes : steps goes (handle_close K).
Proof.
  intros c Hn. rewrite handle_close_run. cbn [snd]. destruct (state_ c) eqn:E; [by destruct Hn| | |]; (split; [done|]); cbn; auto.
Qed.

Lemma queue_goes t : steps goes (queue t).
Proof. by apply update_goes. Qed.

Lemma force_close_goes b : steps goes (force_close K b).
Proof.
  intros c Hn. unfold force_close. rewrite (bind_run get_st _ _ _ _ eq_refl). unfold is_connected.
  destruct (negb _ && _) eqn:E; [cbn; auto|]. rewrite (bind_run (update _) _ _ _ _ eq_refl).
  assert (goes c (with_state kDisconnecting c)) as H1.
  { intros _. cbn. split; [done|]. destruct (state_ c); cbn in E; auto; done. }
  assert (steps goes (if b then force_close_in_loop K else queue TForceClose)) as H2 by (destruct b; [apply handle_close_goes|apply queue_goes]).
  exact (transitivity H1 (H2 _) Hn).
Qed.

Lemma sys_write_goes d : steps goes (sys_write outcome d).
Proof. intros c Hn. unfold sys_write. destruct (socket_ c) eqn:E; [|cbn; auto]. destruct (outcome _); cbn; auto. Qed.
Lemma sys_shutdown_goes : steps goes (sys_shutdown (App := App)).
Proof. intros c Hn. unfold sys_shutdown. destruct (socket_ c) eqn:E; cbn; auto. Qed.
Lemma append_output_goes d : steps goes (append_output (App := App) d).
Proof. intros c Hn. unfold append_output. destruct (Buffer.append _ _); cbn; auto. Qed.

#[local] Hint Resolve on_channel_goes handle_close_goes queue_goes force_close_goes sys_write_goes sys_shutdown_goes append_output_goes : solar.
#[local] Hint Extern 1 (steps goes (update _)) => (apply update_goes; intros ?; by repeat case_match) : solar.

Lemma buffer_rest_goes d n : steps goes (buffer_rest K d n).
Proof. unfold buffer_rest. cbv zeta. step_rules. Qed.
#[local] Hint Resolve buffer_rest_goes : solar.
Lemma write_complete_goes : steps goes (call_write_complete K).
Proof. unfold call_write_complete. step_rules. Qed.
#[local] Hint Resolve write_complete_goes : solar.
Lemma send_in_loop_goes d : steps goes (send_in_loop outcome K d).
Proof. unfold send_in_loop, handle_error. cbv zeta. step_rules. Qed.
#[local] Hint Resolve send_in_loop_goes : solar.
Lemma shutdown_in_loop_goes : steps goes (shutdown_in_loop (App := App)).
Proof. unfold shutdown_in_loop. step_rules. Qed.
#[local] Hint Resolve shutdown_in_loop_goes : solar.

Lemma shutdown_goes b : steps goes (shutdown (App := App) b).
Proof.
  intros c Hn. unfold shutdown. rewrite (bind_run get_st _ _ _ _ eq_refl). unfold is_connected.
  case_bool_decide as E; cbn [negb]; [|cbn; auto]. rewrite (bind_run (update _) _ _ _ _ eq_refl).
  assert (goes c (with_state kDisconnecting c)) as H1 by (intros _; cbn; auto).
  assert (steps goes (if b then shutdown_in_loop (App := App) else queue TShutdown)) as H2 by (destruct b; auto with solar).
  exact (transitivity H1 (H2 _) Hn).
Qed.

Lemma run_action_goes a : steps goes (run_action outcome K a).
Proof. destruct a; cbn [run_action]; [unfold send; step_rules|apply shutdown_goes|auto with solar|auto with solar]. Qed.

Lemma begin_call_goes a : steps goes (begin_call (App := App) a).
Proof.
  destruct a; unfold begin_call; cbv zeta; [step_rules| |step_rules|step_rules]. intros c Hn.
  rewrite (bind_run get_st _ _ _ _ eq_refl). unfold is_connected. case_bool_decide as E; cbn; auto.
Qed.

Lemma proceed_goes i c : timely c (Proceed i) → goes c (snd (proceed i c)).
Proof.
  intros Ht Hn. unfold proceed. rewrite (bind_run get_st _ _ _ _ eq_refl). cbv zeta. unfold timely in Ht.
  destruct (begun c !! i) as [[]|]; try (cbn; auto; fail). specialize (Ht eq_refl). cbn.
  split; [done|]. destruct (state_ c); auto; done.
Qed.

Lemma message_goes : steps goes (call_message_cb outcome K).
Proof.
  assert (∀ m, steps goes (run_script outcome K m)) as Hl.
  { induction m as [taken|a k IH|k IH|x k IH]; cbn [run_script]; [auto with solar| | |].
    - apply steps_bind; [exact (run_action_goes a)|done].
    - apply steps_bind; [apply steps_get|]. intros c. apply IH.
    - apply steps_bind; [by apply update_goes|done]. }
  unfold call_message_cb. step_rules.
Qed.
#[local] Hint Resolve message_goes : solar.

Lemma callback_goes r cb : steps goes (channel_callback outcome K r cb).
Proof. destruct cb; cbn [channel_callback]; unfold handle_error, handle_read, handle_write; cbv zeta; step_rules. Qed.

Lemma goes_moves c c' : goes c c' → state_ c ≠ kConnecting → rtc move (view c) (view c').
Proof.
  intros H Hn. destruct (H Hn) as [E S1]. unfold view. rewrite E. destruct S1 as [->|[[-> ->]|[Hl ->]]];
    [done|apply rtc_once, move_shut|by apply rtc_once, move_lose].
Qed.

Lemma same_moves (c c' : Conn) : view c' = view c → rtc move (view c) (view c').
Proof. by intros ->. Qed.

Lemma event_goes r revents : steps goes (Channel.handle_event (channel_callback outcome K r) true revents).
Proof.
  pose proof (callback_goes r) as Hcb. unfold Channel.handle_event. step_rules.
Qed.

(** Clients do nothing to a connection that is not established. *)
Lemma action_early a c : state_ c = kConnecting → view (snd (run_action outcome K a c)) = view c.
Proof.
  intros Es. destruct a; cbn [run_action]; unfold send, shutdown, force_close, is_connected;
    try (by rewrite (bind_run get_st _ _ _ _ eq_refl), Es). done.
Qed.

Lemma begin_call_early a (c : Conn) : state_ c = kConnecting → view (snd (begin_call a c)) = view c.
Proof. intros Es. unfold begin_call, is_connected. rewrite (bind_run get_st _ _ _ _ eq_refl), Es. by destruct a. Qed.

Lemma task_moves self fd t l c : inv self fd [] c → pending c = t :: l → rtc move (view c) (view (snd (run_task outcome K t (with_pending l c)))).
Proof.
  intros Hi Hp. set (c1 := with_pending l c).
  assert (∀ m : M Conn (), steps goes m → state_ c ≠ kConnecting → rtc move (view c) (view (snd (m c1)))) as Hg.
  { intros m Hm Hn. exact (goes_moves _ _ (Hm c1) Hn). }
  assert (t ≠ TEstablished → state_ c ≠ kConnecting) as Hne.
  { intros Ht Hs. destruct (i_new _ _ _ _ Hi Hs) as [Hpe _]. congruence. }
  destruct t; cbn [run_task].
  - apply Hg; [step_rules|by apply Hne].
  - apply Hg; [auto with solar|by apply Hne].
  - apply Hg; [apply handle_close_goes|by apply Hne].
  - unfold connection_established. rewrite (bind_run get_st _ _ _ _ eq_refl). case_bool_decide as Es; cbn [negb]; [|done].
    rewrite (bind_run (update _) _ _ _ _ eq_refl). cbn in Es. unfold view at 1. rewrite Es. apply rtc_once, move_establish.
  - assert (state_ c = kDisconnected) as Es by (apply (i_destroy _ _ _ _ Hi); rewrite Hp; by left).
    unfold connection_destroyed. rewrite (bind_run get_st _ _ _ _ eq_refl). change (state_ c1) with (state_ c). rewrite Es.
    match goal with |- rtc _ _ ?v => assert (v = (kDisconnected, false)) as -> end.
    { change (bool_decide (kDisconnected = kConnected) || bool_decide (kDisconnected = kDisconnecting)) with false.
      unfold view, mbind, M_mbind. cbn. by rewrite Es. }
    unfold view. rewrite Es. apply rtc_once, move_destroy.
Qed.

(** C25. The server's view of its connections is right: whatever happens to a
    connection, through its channel, its loop's tasks, its clients in the loop's thread
    and the steps of the calls of other threads, its state and its socket change only
    by the moves of [TcpServer]: establishing, shutting down, closing, and destroying
    once disconnected; and the close callback, from which the server learns of it, has
    been called exactly if the connection is disconnected. The one exception is a
    [force_close] of another thread that stores its state after the connection was
    closed; there is none in a program that calls it in the loop's thread only
    ([never_late]), as this one does. *)
Theorem connection_moves (self : nat) (fd : Z) (p : EpollPoller.EpollPoller) (a : App) (c : Conn) (e : event)
    (HK : ∀ d, defined (message_cb_ K d))
    (Hp : registered self fd 0 p) (Hr : rtc (step outcome K) (fresh self fd p a) c) (He : event_ok c e)
    (Hl : late (snd (run_event outcome K e c)) = 0) :
  rtc move (view c) (view (snd (run_event outcome K e c))) ∧ (NClose ∈ trace c ↔ state_ c = kDisconnected).
Proof.
  assert (late c = 0) as Hl0 by (destruct (late_after outcome K e c) as [H|[_ H]]; lia).
  pose proof (late_timely outcome K e c ltac:(congruence)) as Ht. clear Hl.
  pose proof (reachable_inv outcome K self fd HK p a c Hp Hr Hl0) as Hi. split.
  - destruct e as [revents r| |[] act|i| |p'|a']; cbn [run_event event_ok] in *.
    + exact (goes_moves _ _ (event_goes r revents c) He).
    + unfold next_task. rewrite (bind_run get_st _ _ _ _ eq_refl). destruct (pending c) as [|t l] eqn:Hpe; [done|].
      rewrite (bind_run (update _) _ _ _ _ eq_refl). by eapply task_moves.
    + destruct (decide (state_ c = kConnecting)) as [Es|Es]; [by apply same_moves, action_early|].
      exact (goes_moves _ _ (run_action_goes act c) Es).
    + destruct (decide (state_ c = kConnecting)) as [Es|Es]; [by apply same_moves, begin_call_early|].
      exact (goes_moves _ _ (begin_call_goes act c) Es).
    + destruct (decide (state_ c = kConnecting)) as [Es|Es]; [|exact (goes_moves _ _ (proceed_goes i c Ht) Es)].
      destruct (i_new _ _ _ _ Hi Es) as (_&_&_&Hb). unfold proceed. rewrite (bind_run get_st _ _ _ _ eq_refl), Hb. by rewrite lookup_nil.
    + by apply same_moves.
    + by apply same_moves.
    + by apply same_moves.
  - pose proof (i_calls _ _ _ _ Hi) as Hc. assert (NClose ∈ trace c ↔ NClose ∈ calls (trace c)) as ->.
    { unfold calls. rewrite !list_elem_of_In, filter_In. split; [done|by intros [? _]]. }
    rewrite Hc. destruct (state_ c); cbn; rewrite ?elem_of_cons, ?elem_of_nil; naive_solver.
Qed.

End life.

(** A connection that hears a request and answers it. *)
Lemma connection_moves_witness : rtc move (kConnected, true) (view (snd (run_event slow echo (Client true ForceClose) heard))).
Proof.
  apply (connection_moves slow echo 1 7 EpollPoller.make () heard (Client true ForceClose) echo_defined); [by vm_compute|apply fresh0_heard|done|by vm_compute].
Defined.

End Life.
