(* ===== verification/Sockets.v ===== *)
(** Descriptors and their owners: the class Socket (src/network/socket.h), and who
    owns each descriptor the server gets (src/network/acceptor.cpp and
    src/network/tcp_server.cpp, as TcpServer.v models them). *)
From S2P Require Import Prelude Steps Reactor TcpConnection TcpServer.
From stdpp Require Import relations.

(** The numbers that are descriptors: [-1] is none. *)
Definition fds (l : list Z) : list Z := filter (λ fd, 0 ≤ fd)%Z l.

Lemma fds_app l k : fds (l ++ k) = fds l ++ fds k.
Proof. apply filter_app. Qed.
Lemma fds_cons x l : fds (x :: l) = fds [x] ++ fds l.
Proof. apply (fds_app [x]). Qed.
Lemma fds_fds l : fds (fds l) = fds l.
Proof. unfold fds. rewrite list_filter_filter. apply list_filter_iff. naive_solver. Qed.
Lemma fds_perm l k : l ≡ₚ k → fds l ≡ₚ fds k.
Proof. intros H. unfold fds. by rewrite H. Qed.
Lemma fds_sublist l k : l `sublist_of` k → fds l `sublist_of` fds k.
Proof.
  unfold fds. induction 1 as [|x l k _ IH|x l k _ IH]; rewrite ?filter_cons; [done| |]; case_decide; auto using sublist_skip, sublist_cons.
Qed.
Lemma elem_of_fds x l : x ∈ fds l ↔ (0 ≤ x)%Z ∧ x ∈ l.
Proof. apply list_elem_of_filter. Qed.
Lemma fds_none x : (x < 0)%Z → fds [x] = [].
Proof. intros Hx. unfold fds. by rewrite filter_cons, decide_False by lia. Qed.
Lemma NoDup_fds l : NoDup l → NoDup (fds l).
Proof. intros H. exact (sublist_NoDup _ _ H (sublist_filter _ _)). Qed.
#[global] Arguments fds : simpl never.

Module Socket.

(** ** Options and addresses: one system call each *)

(** Of fcntl.h, socket.h and tcp.h on Linux. *)
Definition O_NONBLOCK : Z := 2048.
Definition SOL_SOCKET : Z := 1.
Definition SO_REUSEADDR : Z := 2.
Definition SO_KEEPALIVE : Z := 9.
Definition SO_REUSEPORT : Z := 15.
Definition IPPROTO_TCP : Z := 6.
Definition TCP_NODELAY : Z := 1.

(** [sockaddr_in]; the port is kept as the bytes in memory give it to a little-endian
    machine, the address as its dotted form. *)
Record sockaddr_in := mk_addr { sin_family : Z; sin_port : Z; sin_addr : string }.
Definition zero_addr : sockaddr_in := mk_addr 0 0 "0.0.0.0".

(** [ntohs] and [htons]: the two bytes swapped. *)
Definition ntohs (p : Z) : Z := Z.lor (Z.shiftl (Z.land p 255) 8) (Z.shiftr (Z.land p 65535) 8).

Section calls.
(** What the kernel answers: [fcntl] with [F_GETFL] and [F_SETFL], [setsockopt] by
    level, name and value, and the two names of a socket, none when the call fails. *)
Context (getfl : Z → Z) (setfl : Z → Z → Z) (setsockopt : Z → Z → Z → Z → Z).
Context (getsockname getpeername : Z → option sockaddr_in).

Definition set_non_blocking (fd : Z) : Z :=
  let flags := getfl fd in
  if bool_decide (flags = -1)%Z then (-1)%Z else setfl fd (Z.lor flags O_NONBLOCK).
Definition set_keep_alive (fd : Z) : Z := setsockopt fd SOL_SOCKET SO_KEEPALIVE 1.
Definition set_tcp_no_delay (fd : Z) : Z := setsockopt fd IPPROTO_TCP TCP_NODELAY 1.
Definition set_reuse_addr (fd : Z) : Z := setsockopt fd SOL_SOCKET SO_REUSEADDR 1.
Definition set_reuse_port (fd : Z) : Z := setsockopt fd SOL_SOCKET SO_REUSEPORT 1.

(** A call that fails leaves the zeros. *)
Definition get_local_addr (fd : Z) : sockaddr_in := default zero_addr (getsockname fd).
Definition get_peer_addr (fd : Z) : sockaddr_in := default zero_addr (getpeername fd).

(** [Acceptor::port]. *)
Definition port (listen_fd : Z) : Z := ntohs (sin_port (get_local_addr listen_fd)).

End calls.

(** Flags set before are kept. *)
Lemma set_non_blocking_sets getfl setfl fd : getfl fd ≠ (-1)%Z → ∃ flags, set_non_blocking getfl setfl fd = setfl fd flags ∧
  ∀ i, Z.testbit flags i = Z.testbit (getfl fd) i || bool_decide (i = 11)%Z.
Proof.
  intros Hn. eexists. unfold set_non_blocking. rewrite bool_decide_eq_false_2 by done. split; [done|]. intros i.
  rewrite Z.lor_spec. f_equal. change O_NONBLOCK with (2 ^ 11)%Z. destruct (decide (i = 11)%Z) as [->|Hi]; [done|].
  rewrite bool_decide_eq_false_2 by done. destruct (decide (0 ≤ i)%Z); [by apply Z.pow2_bits_false|by apply Z.testbit_neg_r; lia].
Qed.

Lemma ntohs_byte p i : (0 ≤ i)%Z → Z.testbit (ntohs p) i =
  if bool_decide (i < 8)%Z then Z.testbit p (i + 8) else bool_decide (i < 16)%Z && Z.testbit p (i - 8).
Proof.
  intros Hi. unfold ntohs. change 255%Z with (Z.ones 8). change 65535%Z with (Z.ones 16).
  rewrite Z.lor_spec, Z.shiftl_spec, Z.shiftr_spec, !Z.land_spec by lia. rewrite (Z.testbit_ones_nonneg 16) by lia.
  case_bool_decide.
  - rewrite (Z.testbit_neg_r p (i - 8)) by lia. replace (i + 8 <? 16)%Z with true by lia. by rewrite andb_true_r.
  - rewrite (Z.testbit_ones_nonneg 8) by lia. replace (i + 8 <? 16)%Z with false by lia.
    rewrite andb_false_r, orb_false_r, andb_comm. f_equal. case_bool_decide; lia.
Qed.

(** [htons] and [ntohs] undo each other on ports. *)
Lemma ntohs_involutive p : (0 ≤ p < 65536)%Z → ntohs (ntohs p) = p.
Proof.
  intros Hp. apply Z.bits_inj'. intros i Hi. rewrite ntohs_byte by done. repeat case_bool_decide; cbn [andb].
  - rewrite ntohs_byte by lia. rewrite bool_decide_eq_false_2, bool_decide_eq_true_2 by lia. cbn [andb]. f_equal. lia.
  - rewrite ntohs_byte by lia. rewrite bool_decide_eq_true_2 by lia. f_equal. lia.
  - symmetry. rewrite <- (Z.mod_small p (2 ^ 16)) by lia. apply Z.mod_pow2_bits_high. lia.
Qed.

(** ** Objects that own a descriptor *)

(** The live objects of the class by address, with their [fd_], and the descriptors
    closed, in order. *)
Record Sockets := mk { fd_ : gmap nat Z; closed : list Z }.

Definition undefined {A} : M Sockets A := throw EUndefined "no such object".
Definition with_fd (this : nat) (fd : Z) (s : Sockets) : Sockets := mk (<[this := fd]> (fd_ s)) (closed s).
Definition the_fd (this : nat) : M Sockets Z := λ s,
  match fd_ s !! this with Some fd => (Ok fd, s) | None => (Throw (Exn EUndefined "no such object"), s) end.
Definition set_fd (this : nat) (fd : Z) : M Sockets () := λ s, (Ok (), with_fd this fd s).
Definition sys_close (fd : Z) : M Sockets () := λ s, (Ok (), mk (fd_ s) (closed s ++ [fd])).
Definition forget (this : nat) : M Sockets () := λ s, (Ok (), mk (delete this (fd_ s)) (closed s)).

(** [Socket(fd)], the destructor, the move constructor and the move assignment. *)
Definition construct (this : nat) (fd : Z) : M Sockets () :=
  s ← get_st; if bool_decide (is_Some (fd_ s !! this)) then undefined else set_fd this fd.

Definition destroy (this : nat) : M Sockets () :=
  fd ← the_fd this;
  _ ← (if bool_decide (0 ≤ fd)%Z then sys_close fd else mret ());
  forget this.

Definition move_construct (this other : nat) : M Sockets () :=
  fd ← the_fd other;
  _ ← construct this fd;
  set_fd other (-1)%Z.

Definition move_assign (this other : nat) : M Sockets () :=
  fd ← the_fd this;
  if bool_decide (this = other) then mret ()
  else
    _ ← (if bool_decide (0 ≤ fd)%Z then sys_close fd else mret ());
    fd' ← the_fd other;
    _ ← set_fd this fd';
    set_fd other (-1)%Z.

Inductive op := Construct (this : nat) (fd : Z) | Destroy (this : nat) | MoveConstruct (this other : nat) | MoveAssign (this other : nat).

Definition run_op (o : op) : M Sockets () :=
  match o with
  | Construct this fd => construct this fd
  | Destroy this => destroy this
  | MoveConstruct this other => move_construct this other
  | MoveAssign this other => move_assign this other
  end.
Fixpoint run_ops (os : list op) : M Sockets () :=
  match os with [] => mret () | o :: os => _ ← run_op o; run_ops os end.

(** The descriptors handed to constructors, and those live objects hold. *)
Definition adopts (o : op) : list Z := match o with Construct _ fd => fds [fd] | _ => [] end.
Definition holds (m : gmap nat Z) : list Z := fds (map_to_list m).*2.
Definition held (s : Sockets) : list Z := holds (fd_ s).

Lemma holds_insert this fd m : m !! this = None → holds (<[this := fd]> m) ≡ₚ fds [fd] ++ holds m.
Proof. intros Hn. unfold holds. rewrite <- fds_cons. apply fds_perm. by rewrite map_to_list_insert. Qed.
Lemma holds_delete this fd m : m !! this = Some fd → holds m ≡ₚ fds [fd] ++ holds (delete this m).
Proof. intros Hm. unfold holds. rewrite <- fds_cons. apply fds_perm. by rewrite <- (map_to_list_delete m this fd). Qed.
Lemma holds_update this fd fd' m : m !! this = Some fd → fds [fd] ++ holds (<[this := fd']> m) ≡ₚ fds [fd'] ++ holds m.
Proof.
  intros Hs. rewrite (holds_delete this fd m Hs), <- insert_delete_eq, holds_insert by apply lookup_delete_eq.
  by rewrite !app_assoc, (Permutation_app_comm (fds [fd])).
Qed.
(** A descriptor moved between two objects. *)
Lemma holds_move this other fd m : m !! other = Some fd → m !! this = None →
  holds (<[other := (-1)%Z]> (<[this := fd]> m)) ≡ₚ holds m.
Proof.
  intros Ho Ht. assert (this ≠ other) by congruence. apply (Permutation_app_inv_l (fds [fd])).
  by rewrite (holds_update other fd), holds_insert by (by rewrite ?lookup_insert_ne).
Qed.

Lemma close_if fd s : (if bool_decide (0 ≤ fd)%Z then sys_close fd else mret ()) s = (Ok (), mk (fd_ s) (closed s ++ fds [fd])).
Proof. unfold fds. rewrite filter_cons. repeat case_decide; case_bool_decide; try done. cbn. rewrite app_nil_r. by destruct s. Qed.

Lemma the_fd_ok this s fd s' : the_fd this s = (Ok fd, s') → fd_ s !! this = Some fd ∧ s' = s.
Proof. unfold the_fd. destruct (fd_ s !! this); [by intros [= -> ->]|done]. Qed.
Lemma construct_ok this fd s s' : construct this fd s = (Ok (), s') → fd_ s !! this = None ∧ s' = with_fd this fd s.
Proof.
  unfold construct. rewrite (bind_run get_st _ _ _ _ eq_refl). case_bool_decide as E; [done|]. intros [= <-].
  by apply eq_None_not_Some in E.
Qed.

Lemma run_op_ledger o s s' : run_op o s = (Ok (), s') →
  held s' ++ fds (closed s') ≡ₚ adopts o ++ held s ++ fds (closed s).
Proof.
  destruct o as [this fd|this|this other|this other]; cbn [run_op adopts]; unfold held; intros Ho.
  - apply construct_ok in Ho as [Hn ->]. cbn [with_fd fd_ closed]. by rewrite holds_insert, <- app_assoc.
  - apply bind_ok in Ho as (fd&?&[Hfd ->]%the_fd_ok&Ho). rewrite (bind_run _ _ _ _ _ (close_if fd s)) in Ho. injection Ho as <-.
    cbn [fd_ closed]. rewrite (holds_delete this fd _ Hfd), fds_app, fds_fds. solve_Permutation.
  - apply bind_ok in Ho as (fd&?&[Hfd ->]%the_fd_ok&Ho). apply bind_ok in Ho as ([]&?&[Hn ->]%construct_ok&Ho). injection Ho as <-.
    cbn [with_fd fd_ closed]. by rewrite holds_move.
  - apply bind_ok in Ho as (fd&?&[Hfd ->]%the_fd_ok&Ho). case_bool_decide as Hne; [by injection Ho as <-|].
    rewrite (bind_run _ _ _ _ _ (close_if fd s)) in Ho. apply bind_ok in Ho as (fd'&?&[Hfd' ->]%the_fd_ok&Ho). injection Ho as <-.
    cbn [with_fd fd_ closed] in *. rewrite fds_app, fds_fds. apply (Permutation_app_inv_l (fds [fd'])).
    rewrite app_assoc, (holds_update other fd') by (by rewrite lookup_insert_ne).
    pose proof (holds_update this fd fd' (fd_ s) Hfd) as Hu. change (fds [-1]%Z) with (@nil Z). cbn [app].
    transitivity ((fds [fd] ++ holds (<[this:=fd']> (fd_ s))) ++ fds (closed s)); [solve_Permutation|]. rewrite Hu. solve_Permutation.
Qed.

(** Every descriptor given to a constructor is either held by one live object
    or was closed, once: whatever is constructed, moved (onto itself too) and
    destroyed, the descriptors adopted are those held and those closed. *)
Theorem sockets_close_once (os : list op) (s s' : Sockets) (Hr : run_ops os s = (Ok (), s')) :
  held s' ++ fds (closed s') ≡ₚ (os ≫= adopts) ++ held s ++ fds (closed s).
Proof.
  revert s Hr. induction os as [|o os IH]; intros s Hr; cbn [run_ops] in Hr; [by run_inv|].
  apply bind_ok in Hr as ([]&s1&Ho%run_op_ledger&Hr). rewrite (IH _ Hr). cbn [mbind list_bind].
  by rewrite Ho, !app_assoc, (Permutation_app_comm (adopts o)).
Qed.

End Socket.

Module Descriptors.
Import TcpServer.
Notation TcpServer := TcpServer.TcpServer.

(** ** What the server holds *)

Definition acc (s : TcpServer) : Acceptor.Acceptor := acceptor_ s.

(** The listening socket, the spare descriptor, and the sockets of connections. *)
Definition own (s : TcpServer) : list Z := [Channel.fd_ (Acceptor.channel_ (acc s)); Acceptor.idle_fd_ (acc s)].
Definition sockets (l : list Conn) : list Z := c_fd <$> filter (λ c, c_socket c = true) l.
Definition held (s : TcpServer) : list Z := fds (own s ++ sockets (conns s)).
(** What was closed: by the acceptor, by the server, and with a connection's socket. *)
Definition released (s : TcpServer) : list Z :=
  fds (Acceptor.closed (acc s) ++ refused s ++ (c_fd <$> filter (λ c, c_socket c = false) (conns s))).

(** What the kernel hands over when the listening socket is readable: connections,
    up to the first answer that is none, and on EMFILE the descriptor taken in place
    of the spare one and the new spare one. *)
Fixpoint handed (answers : list Acceptor.answer) : list Z :=
  match answers with
  | Acceptor.Accepted fd _ :: answers => fds [fd] ++ handed answers
  | Acceptor.NoFile spare reopened :: _ => fds [spare; reopened]
  | _ => []
  end.
Definition obtains (e : event) : list Z := match e with Accept answers => handed answers | _ => [] end.

(** No system call gives out a descriptor that is open: neither one of [l] nor, unless
    it was closed just before, the spare one. A connection that is refused is closed
    before the next call. *)
Fixpoint fresh (keeps : bool) (l : list Z) (idle : Z) (answers : list Acceptor.answer) : Prop :=
  match answers with
  | Acceptor.Accepted fd _ :: answers =>
      (0 ≤ fd)%Z ∧ fd ∉ l ∧ fd ≠ idle ∧ fresh keeps (if keeps then l ++ [fd] else l) idle answers
  | Acceptor.NoFile _ reopened :: _ => reopened ∉ l
  | _ => True
  end.
Definition others (s : TcpServer) : list Z := Channel.fd_ (Acceptor.channel_ (acc s)) :: sockets (conns s).
Definition event_fresh (e : event) (s : TcpServer) : Prop :=
  match e with Accept answers => fresh (started_ s) (others s) (Acceptor.idle_fd_ (acc s)) answers | _ => True end.

#[export] Instance fresh_dec keeps l idle answers : Decision (fresh keeps l idle answers).
Proof. revert l. induction answers as [|[] answers IH]; intros l; cbn; apply _. Defined.
#[export] Instance event_fresh_dec e s : Decision (event_fresh e s).
Proof. destruct e; cbn; apply _. Defined.

(** ** What every operation but accepting does to descriptors: it closes sockets. *)

Definition closer (c c' : Conn) : Prop := c_fd c' = c_fd c ∧ (c_socket c' = true → c_socket c = true).

#[export] Instance closer_preorder : PreOrder closer.
Proof. split; [done|]. intros c1 c2 c3 [H1 ?] [H2 ?]. split; [congruence|auto]. Qed.

Record closing (s s' : TcpServer) : Prop := mk_closing {
  cl_conns : Forall2 closer (conns s) (conns s');
  cl_own : own s' = own s ∧ Acceptor.closed (acc s') = Acceptor.closed (acc s) ∧ refused s' = refused s;
  cl_listens : Acceptor.listening_ (acc s') = true → Acceptor.listening_ (acc s) = true
}.

#[export] Instance closing_preorder : PreOrder closing.
Proof.
  split.
  - intros s. by split.
  - intros s1 s2 s3 [A1 (?&?&?) ?] [A2 (?&?&?) ?]. split; [by transitivity (conns s2)| |auto]. split_and!; congruence.
Qed.

Lemma update_closing f : (∀ s, closing s (f s)) → steps closing (update f).
Proof. intros Hf s. apply Hf. Qed.

Lemma the_conn_closing id (k : Conn → M TcpServer ()) :
  (∀ c s, conns s !! id = Some c → closing s (snd (k c s))) → steps closing (the_conn id ≫= k).
Proof.
  intros Hk s. destruct (conns s !! id) as [c|] eqn:E; [by rewrite (the_conn_run _ _ _ _ E); auto|].
  unfold mbind, M_mbind, the_conn. by rewrite E.
Qed.

Lemma set_conn_closing id c c' s : conns s !! id = Some c → c_fd c' = c_fd c → (c_socket c' = true → c_socket c = true) →
  closing s (set_conn id c' s).
Proof.
  intros Hc Hf Hs. split; [|done|done]. cbn. rewrite <- (list_insert_id (conns s) id c) at 1 by done.
  by apply Forall2_insert.
Qed.

(** Operations that leave the connections and the acceptor alone. *)
Lemma queue_closing l t : steps closing (queue_in_loop l t).
Proof. unfold queue_in_loop. apply steps_bind; [apply steps_get|]. intros s. case_match; [apply steps_throw|by apply update_closing]. Qed.

Lemma callback_closing st : steps closing (connection_cb st).
Proof. by apply update_closing. Qed.

Lemma run_closing cur l t run : steps closing run → steps closing (run_in_loop cur l t run).
Proof. intros H. unfold run_in_loop. case_match; [done|apply queue_closing]. Qed.

#[local] Hint Resolve queue_closing callback_closing run_closing : solar.
#[local] Hint Extern 1 (steps closing (update _)) => (apply update_closing; intros ?; by repeat case_match) : solar.

(** Setting a connection just read, before the rest. *)
Lemma set_then id c c' s (k : M TcpServer ()) : conns s !! id = Some c → c_fd c' = c_fd c → (c_socket c' = true → c_socket c = true) →
  steps closing k → closing s (snd ((_ ← update (set_conn id c'); k) s)).
Proof. intros Hc Hf Hs Hk. rewrite (bind_run (update _) _ _ _ _ eq_refl). etransitivity; [by eapply set_conn_closing|apply Hk]. Qed.

Lemma established_closing id : steps closing (connection_established id).
Proof. apply the_conn_closing. intros c s Hc. case_match; [|done]. eapply set_then; eauto with solar. Qed.

Lemma destroyed_closing id : steps closing (connection_destroyed id).
Proof. apply the_conn_closing. intros c s Hc. by apply (set_conn_closing id c); [|case_match|]. Qed.

Lemma remove_closing id : steps closing (remove_connection_in_loop id).
Proof. apply the_conn_closing. intros c s _. revert s. change (steps closing (_ ← update (λ s, if bool_decide (is_Some (connections_ s !! c_name c))
  then with_connections (delete (c_name c) (connections_ s)) s else s); queue_in_loop (c_loop c) (Destroyed id))). step_rules. Qed.

#[local] Hint Resolve established_closing destroyed_closing remove_closing : solar.

Lemma close_closing cur id : steps closing (handle_close cur id).
Proof. apply the_conn_closing. intros c s Hc. eapply set_then; [done..|]. unfold remove_connection. step_rules. Qed.
#[local] Hint Resolve close_closing : solar.

Lemma close_task_closing cur id : steps closing (close_task cur id).
Proof. apply the_conn_closing. intros c s Hc. eapply set_then; [done..|]. step_rules. Qed.
#[local] Hint Resolve close_task_closing : solar.

Lemma close_all_closing ids : steps closing (close_all ids).
Proof.
  induction ids as [|id ids IH]; cbn [close_all]; [step_rules|]. apply the_conn_closing. intros c s _. revert s.
  apply (steps_bind (run_in_loop _ _ _ _)); auto with solar.
Qed.

Lemma shut_down_closing id : steps closing (shut_down id).
Proof. apply the_conn_closing. intros c s Hc. case_match; [|done]. by apply (set_conn_closing id c). Qed.
Lemma lost_closing id : steps closing (lost id).
Proof. apply the_conn_closing. intros c s _. apply close_closing. Qed.

Lemma stop_in_loop_closing : steps closing stop_in_loop.
Proof.
  intros s. unfold stop_in_loop. rewrite (bind_run get_st _ _ _ _ eq_refl). destruct (started_ s); cbn [negb]; [|done].
  rewrite (bind_run (update _) _ _ _ _ eq_refl). set (s1 := with_started false s).
  assert (∃ a, on_acceptor Acceptor.stop_listening s1 = (Ok (), with_acceptor a s1) ∧ Channel.fd_ (Acceptor.channel_ a) = Channel.fd_ (Acceptor.channel_ (acc s)) ∧
    Acceptor.idle_fd_ a = Acceptor.idle_fd_ (acc s) ∧ Acceptor.closed a = Acceptor.closed (acc s) ∧ Acceptor.listening_ a = false) as (a&Ha&H1&H2&H3&H4).
  { eexists. split; [reflexivity|]. cbn. unfold acc. by destruct (Acceptor.listening_ (acceptor_ s)) eqn:E; cbn; rewrite ?E. }
  rewrite (bind_run _ _ _ _ _ Ha). cbv zeta. do 2 rewrite (bind_run (update _) _ _ _ _ eq_refl).
  etransitivity; [|apply close_all_closing]. split; [done| |]; unfold own, acc in *; cbn; [by rewrite H1, H2, H3|by rewrite H4].
Qed.
#[local] Hint Resolve stop_in_loop_closing close_task_closing shut_down_closing lost_closing : solar.

Definition accepts (e : event) : Prop := match e with Accept _ => True | _ => False end.

Lemma event_closing e : ¬ accepts e → steps closing (run_event e).
Proof.
  intros He. destruct e as [answers|l|id|id|b|]; cbn [run_event]; [by destruct He|unfold next_task|..|unfold stop|unfold stop_done]; auto with solar; step_rules.
  match goal with |- steps _ (run_task _ ?t) => destruct t end; cbn [run_task]; auto with solar.
Qed.

(** ** The books: what was obtained is held or was closed *)

Definition ledger (s : TcpServer) : list Z := held s ++ released s.

Lemma sockets_split (l : list Conn) :
  sockets l ++ (c_fd <$> filter (λ c, c_socket c = false) l) ≡ₚ c_fd <$> l.
Proof.
  induction l as [|c l IH]; [done|]. unfold sockets in *. rewrite !filter_cons. destruct (c_socket c); repeat case_decide; try done; cbn.
  - by rewrite IH.
  - by rewrite <- Permutation_middle, IH.
Qed.

Lemma ledger_total s : ledger s ≡ₚ fds (own s ++ (c_fd <$> conns s) ++ Acceptor.closed (acc s) ++ refused s).
Proof.
  unfold ledger, held, released. rewrite <- fds_app. apply fds_perm. rewrite <- (sockets_split (conns s)). solve_Permutation.
Qed.

Lemma closing_ledger s s' : closing s s' → ledger s' ≡ₚ ledger s.
Proof.
  intros [Hc (Ho&Ha&Hr) _]. rewrite !ledger_total, Ho, Ha, Hr. replace (c_fd <$> conns s') with (c_fd <$> conns s); [done|].
  induction Hc as [|c c' l l' [E _] _ IH]; [done|]. cbn. by rewrite E, IH.
Qed.

Lemma closing_sockets s s' : closing s s' → sockets (conns s') `sublist_of` sockets (conns s).
Proof.
  intros [Hc _ _]. unfold sockets. induction Hc as [|c c' l l' [E H] _ IH]; [done|]. rewrite !filter_cons.
  destruct (c_socket c') eqn:E'; [rewrite H by done|destruct (c_socket c)]; repeat case_decide; try done; cbn.
  - rewrite E. by apply sublist_skip.
  - by apply sublist_cons.
Qed.

Lemma closing_held s s' : closing s s' → NoDup (held s) → NoDup (held s').
Proof.
  intros Hc Hn. eapply sublist_NoDup; [exact Hn|]. unfold held. apply fds_sublist. rewrite (proj1 (cl_own _ _ Hc)).
  by apply sublist_app, closing_sockets.
Qed.

(** ** Accepting *)

Definition same_started (s s' : TcpServer) : Prop := started_ s' = started_ s.
#[export] Instance same_started_preorder : PreOrder same_started.
Proof. split; [done|]. unfold same_started. congruence. Qed.

Lemma update_started f : (∀ s, started_ (f s) = started_ s) → steps same_started (update f).
Proof. intros Hf s. apply Hf. Qed.
#[local] Hint Extern 1 (steps same_started (update _)) => (apply update_started; intros ?; done) : solar.

Lemma new_connection_started fd peer : steps same_started (new_connection fd peer).
Proof.
  assert (∀ id, steps same_started (the_conn id)) as Hc by (intros id s; unfold the_conn; by case_match).
  unfold new_connection, run_in_loop, queue_in_loop, connection_established, connection_cb, undefined. cbv zeta.
  repeat first [step_rule | apply Hc].
Qed.

Lemma new_connection_ok fd peer s s' : new_connection fd peer s = (Ok (), s') →
  if started_ s then ∃ s1 c, closing s1 s' ∧ conns s1 = conns s ++ [c] ∧ c_fd c = fd ∧ c_socket c = true ∧
    acceptor_ s1 = acceptor_ s ∧ refused s1 = refused s
  else s' = refuse fd s.
Proof.
  unfold new_connection. rewrite (bind_run get_st _ _ _ _ eq_refl). destruct (started_ s); cbn [negb]; [|by intros [= <-]].
  destruct (thread_pool_ s) as [pool|]; [|done]. destruct (EventLoopThreadPool.get_next_loop pool) as [io_loop pool'].
  rewrite (bind_run (update _) _ _ _ _ eq_refl). case_bool_decide; [done|]. cbv zeta.
  do 3 rewrite (bind_run (update _) _ _ _ _ eq_refl). intros Hrun.
  match type of Hrun with run_in_loop ?c ?l ?t ?r ?x = _ =>
    pose proof (run_closing c l t r (established_closing _) x) as Hc end.
  rewrite Hrun in Hc. cbn [snd] in Hc. eexists _, _. split; [exact Hc|]. done.
Qed.

Lemma closing_with a s s' : closing s s' → closing (with_acceptor a s) (with_acceptor a s').
Proof. intros [Hc (_&_&Hr) _]. by split. Qed.

Lemma fresh_mono keeps l l' idle answers : l' ⊆ l → fresh keeps l idle answers → fresh keeps l' idle answers.
Proof.
  revert l l'. induction answers as [|[fd peer| |spare reopened|n] answers IH]; intros l l' Hl; cbn; [done| |done|set_solver|done].
  intros (?&?&?&Hf). split_and!; [done|set_solver|done|]. eapply IH; [|exact Hf]. destruct keeps; set_solver.
Qed.

(** What a state may become as the given descriptors are obtained. *)
Definition books (got : list Z) (s s' : TcpServer) : Prop := ledger s' ≡ₚ got ++ ledger s.

(** One more connection. *)
Lemma opened_books fd a s s1 c : conns s1 = conns s ++ [c] → c_fd c = fd → c_socket c = true → refused s1 = refused s →
  books (fds [fd]) (with_acceptor a s) (with_acceptor a s1) ∧ sockets (conns s1) = sockets (conns s) ++ [fd].
Proof.
  intros Hc Hf Hs Hr. split.
  - unfold books. rewrite !ledger_total. cbn. rewrite Hc, Hr, fmap_app, <- !fds_app. apply fds_perm. cbn. rewrite Hf. solve_Permutation.
  - unfold sockets. rewrite Hc, filter_app, fmap_app, filter_cons, decide_True by done. cbn. by rewrite Hf.
Qed.

Lemma held_opened fd a s s1 : sockets (conns s1) = sockets (conns s) ++ [fd] → (0 ≤ fd)%Z →
  fd ∉ others (with_acceptor a s) → fd ≠ Acceptor.idle_fd_ a → NoDup (held (with_acceptor a s)) → NoDup (held (with_acceptor a s1)).
Proof.
  intros Hk H0 Hn Hi Hd. unfold held in *. cbn [with_acceptor conns] in *. rewrite Hk, app_assoc, fds_app. apply NoDup_app. split_and!; [exact Hd| |].
  - unfold others, own in *. cbn in *. intros x [_ Hx]%elem_of_fds [_ ->%list_elem_of_singleton]%elem_of_fds. set_solver.
  - apply NoDup_fds, NoDup_singleton.
Qed.

Lemma refuse_books fd a s : books (fds [fd]) (with_acceptor a s) (with_acceptor a (refuse fd s)).
Proof. unfold books. rewrite !ledger_total, <- fds_app. apply fds_perm. cbn. solve_Permutation. Qed.

(** EMFILE: the spare descriptor makes room for a connection that is closed at once. *)
Definition relieved (spare reopened : Z) (a : Acceptor.Acceptor) : Acceptor.Acceptor :=
  Acceptor.with_idle reopened (if bool_decide (0 ≤ spare)%Z then Acceptor.close spare (Acceptor.close (Acceptor.idle_fd_ a) a)
    else Acceptor.close (Acceptor.idle_fd_ a) a).

Lemma relieved_run {S} spare reopened a (s : S) : Acceptor.accept_one (Acceptor.NoFile spare reopened) (a, s) = (Ok None, (relieved spare reopened a, s)).
Proof. unfold Acceptor.accept_one, relieved. by case_bool_decide. Qed.

Lemma relieved_books spare reopened a s : books (fds [spare; reopened]) (with_acceptor a s) (with_acceptor (relieved spare reopened a) s).
Proof.
  unfold books. rewrite !ledger_total, <- fds_app. unfold relieved. case_bool_decide; cbn; [apply fds_perm; solve_Permutation|].
  rewrite (fds_cons spare), (fds_none spare) by lia. apply fds_perm. cbn. solve_Permutation.
Qed.

Lemma relieved_held spare reopened a s : reopened ∉ others (with_acceptor a s) →
  NoDup (held (with_acceptor a s)) → NoDup (held (with_acceptor (relieved spare reopened a) s)).
Proof.
  intros Hn Hd. assert (held (with_acceptor (relieved spare reopened a) s) ≡ₚ fds [reopened] ++ fds (others (with_acceptor a s))) as ->.
  { unfold held. rewrite <- fds_app. apply fds_perm. unfold relieved, others, own. case_bool_decide; cbn; constructor. }
  assert (held (with_acceptor a s) ≡ₚ fds [Acceptor.idle_fd_ a] ++ fds (others (with_acceptor a s))) as He.
  { unfold held. rewrite <- fds_app. apply fds_perm. unfold others, own. cbn. constructor. }
  rewrite He in Hd. apply NoDup_app in Hd as (_&_&Hd). apply NoDup_app. split_and!; [apply NoDup_fds, NoDup_singleton| |done].
  intros x [_ ->%list_elem_of_singleton]%elem_of_fds [_ ?]%elem_of_fds. done.
Qed.

Lemma books_refl s : books [] s s.
Proof. unfold books. done. Qed.
Lemma books_trans l k s1 s2 s3 : books l s1 s2 → books k s2 s3 → books (l ++ k) s1 s3.
Proof. unfold books. intros H1 H2. rewrite H2, H1. solve_Permutation. Qed.

Lemma handle_read_books answers a s a' s' :
  Acceptor.handle_read (Some new_connection) answers (a, s) = (Ok (), (a', s')) →
  books (handed answers) (with_acceptor a s) (with_acceptor a' s') ∧
  (fresh (started_ s) (others (with_acceptor a s)) (Acceptor.idle_fd_ a) answers →
   NoDup (held (with_acceptor a s)) → NoDup (held (with_acceptor a' s'))).
Proof.
  revert s. induction answers as [|[fd peer| |spare reopened|n] answers IH]; intros s Hr; cbn [Acceptor.handle_read] in Hr.
  2: rewrite (bind_run _ _ _ (Some (fd, peer)) (a, s) eq_refl) in Hr.
  4: rewrite (bind_run _ _ _ _ _ (relieved_run spare reopened a s)) in Hr.
  1,3-5: injection Hr as <- <-; cbn [handed fresh]; (split; [first [apply relieved_books|apply books_refl]|intros; first [done|by apply relieved_held]]).
  apply bind_ok in Hr as ([]&[a1 s1]&Hn&Hr). unfold Acceptor.on_server in Hn. cbn [fst snd] in Hn.
  destruct (new_connection fd peer s) as [r s2] eqn:E. injection Hn as -> <- <-. cbn [handed fresh].
  pose proof (new_connection_started fd peer s) as Hst. rewrite E in Hst. cbn [snd] in Hst. unfold same_started in Hst.
  apply new_connection_ok in E. apply IH in Hr as [Hb Hd]. rewrite Hst in Hd. clear IH. destruct (started_ s).
  - destruct E as (s3&c&Hcl%(closing_with a)&Hco&Hf&Hs&Ha&Hre). destruct (opened_books fd a s s3 c) as [Hb1 Hk]; [done..|].
    pose proof (closing_ledger _ _ Hcl) as Hb2. split.
    + eapply books_trans; [|exact Hb]. unfold books in *. by rewrite Hb2.
    + intros (H0&Hn&Hi&Hfr) Hnd. apply Hd; [|eapply closing_held, held_opened; done]. eapply fresh_mono; [|exact Hfr].
      intros x [->|Hx]%elem_of_cons; [by left|]. right.
      assert (x ∈ sockets (conns s3)) as Hx3 by (eapply elem_of_sublist; [exact Hx|exact (closing_sockets _ _ Hcl)]).
      by rewrite Hk in Hx3.
  - subst s2. split; [eapply books_trans; [apply refuse_books|exact Hb]|]. intros (_&_&_&Hfr) Hnd. by apply Hd.
Qed.

(** ** Every run of the server *)

(** Events one after the other, as long as the behaviour is defined. *)
Inductive runs : list event → TcpServer → TcpServer → Prop :=
  | runs_nil s : runs [] s s
  | runs_cons e es s s1 s2 : event_fresh e s → run_event e s = (Ok (), s1) → runs es s1 s2 → runs (e :: es) s s2.

Lemma event_books e s s' : event_fresh e s → run_event e s = (Ok (), s') → books (obtains e) s s' ∧ (NoDup (held s) → NoDup (held s')).
Proof.
  intros Hf Hr. assert (accepts e ∨ ¬ accepts e) as [Ha|Ha] by (destruct e; cbn; auto).
  - destruct e as [answers| | | | |]; try done. cbn [run_event obtains event_fresh] in *. unfold accept, on_acceptor in Hr.
    destruct (Acceptor.handle_read _ answers (acceptor_ s, s)) as [r [a s1]] eqn:E. injection Hr as -> <-.
    apply handle_read_books in E as [Hb Hd]. destruct s. split; [exact Hb|]. by apply Hd.
  - pose proof (event_closing e Ha s) as Hc. rewrite Hr in Hc. cbn [snd] in Hc. split; [|by apply closing_held].
    replace (obtains e) with (@nil Z) by (by destruct e). by apply closing_ledger.
Qed.

Lemma runs_books es s s' : runs es s s' → books (es ≫= obtains) s s' ∧ (NoDup (held s) → NoDup (held s')).
Proof.
  induction 1 as [s|e es s s1 s2 Hf He _ [Hb Hd]]; [by split; [apply books_refl|]|]. destruct (event_books e s s1 Hf He) as [Hb1 Hd1].
  split; [by eapply books_trans|auto].
Qed.

(** C18. Descriptors are owned once: whatever the kernel answers to accept, EMFILE with
    its spare descriptor included, and however connections come, are lost, shut down
    and destroyed by the loops and the server is stopped, every descriptor the server
    ever got is either held now, by exactly one owner, or was closed as often as it
    was got; so none leaks, none is closed twice, and no owner closes or writes to
    a number that the kernel has given to another. *)
Theorem descriptors_owned_once (name : string) (idle fd : Z) (p : EpollPoller.EpollPoller) (threads : Z)
    (es : list event) (s : TcpServer) (Hne : idle ≠ fd)
    (Hr : runs es (started name (Acceptor.make idle fd p) threads) s) :
  held s ++ released s ≡ₚ (es ≫= obtains) ++ fds [fd; idle] ∧ NoDup (held s).
Proof.
  apply runs_books in Hr as [Hb Hd]. split.
  - unfold books, ledger in Hb. rewrite Hb. apply Permutation_app_head. unfold held, released. rewrite <- fds_app. done.
  - apply Hd, NoDup_fds. unfold own. repeat constructor; set_solver.
Qed.

(** Two clients, and a third for which there is no descriptor left; the first
    leaves, and its number goes to the next client. *)
Definition rush : list event :=
  [Accept [Acceptor.Accepted 7 ("10.0.0.1", 5000%Z); Acceptor.Accepted 8 ("10.0.0.2", 5000%Z); Acceptor.NoFile 3 3];
   Run 1; Lost 0; Run 0; Run 1; Accept [Acceptor.Accepted 7 ("10.0.0.3", 5000%Z)]].

(** Runs of concrete events. *)
Fixpoint try_runs (es : list event) (s : TcpServer) : option TcpServer :=
  match es with
  | [] => Some s
  | e :: es => if bool_decide (event_fresh e s) then match run_event e s with (Ok _, s1) => try_runs es s1 | _ => None end else None
  end.

Lemma try_runs_ok es s s' : try_runs es s = Some s' → runs es s s'.
Proof.
  revert s. induction es as [|e es IH]; intros s; cbn; [intros [= ->]; constructor|]. case_bool_decide as Hf; [|done].
  destruct (run_event e s) as [[[]|?] s1] eqn:E; [|done]. intros Hr%IH. by econstructor.
Qed.

Definition after_rush : TcpServer := default server0 (try_runs rush server0).

Lemma descriptors_owned_once_witness :
  NoDup (held after_rush) ∧ held after_rush = [4; 3; 8; 7]%Z ∧ released after_rush = [3; 3; 7]%Z.
Proof.
  split; [|by split; vm_compute].
  apply (descriptors_owned_once "SolarDrive" 3 4 EpollPoller.make 2 rush after_rush); [done|].
  apply try_runs_ok. vm_compute. reflexivity.
Defined.

(** An object moved onto itself, moved away, and destroyed. *)
Example sockets_moved : Socket.run_ops [Socket.Construct 1 7; Socket.MoveAssign 1 1; Socket.Construct 2 8; Socket.MoveAssign 2 1; Socket.Destroy 1; Socket.Destroy 2]
  (Socket.mk ∅ []) = (Ok (), Socket.mk ∅ [8; 7]%Z).
Proof. vm_compute. reflexivity. Qed.

End Descriptors.
