(* ===== verification/ObjectStore.v ===== *)
(** The content-addressed object store: [ObjectStore] (src/storage/object_store.h,
    object_store.cpp). The file system is a finite map from paths to nodes; what
    reaches the disk of a write is an argument ([disk_write]), because the code
    does not look at the outcome of [ofstream::write]. SHA-256 (OpenSSL) is the
    class [Evp]. *)
From S2P Require Import Prelude.

(** SHA-256 produces 32 bytes. *)
Class Evp := {
  evp_sha256 : string → string;
  evp_sha256_len d : slen (evp_sha256 d) = 32
}.

Module Fs.

Inductive node := Dir | File (data : string).

#[export] Instance node_eq_dec : EqDecision node.
Proof. solve_decision. Defined.

Abbreviation t := (gmap string node).

Definition parent (p : string) : option string := (λ k, stake k p) <$> srfind "/" p.

(** A name can be created in a directory that exists; the root and the current
    directory do. *)
Definition parent_ok (p : string) (fs : t) : bool :=
  match parent p with
  | None => true
  | Some d => sempty d || bool_decide (fs !! d = Some Dir)
  end.

(** [::mkdir]: errors are ignored by the callers. *)
Definition mkdir (p : string) (fs : t) : t :=
  if negb (sempty p) && bool_decide (fs !! p = None) && parent_ok p fs then <[p := Dir]> fs else fs.

(** [std::ofstream] with [trunc]: an empty file; [None] when it cannot be opened. *)
Definition open_trunc (p : string) (fs : t) : option t :=
  if parent_ok p fs && negb (bool_decide (fs !! p = Some Dir)) then Some (<[p := File ""]> fs) else None.

(** A file's bytes after [::write] of [piece] at [off]: a gap reads as zeros. *)
Fixpoint zeros (n : nat) : string := match n with O => "" | S n => String (chr 0) (zeros n) end.
Definition overlay (off : nat) (piece d : string) : string :=
  stake off d +:+ zeros (off - slen d) +:+ piece +:+ sdrop (off + slen piece) d.

(** A write on the open file. *)
Definition write_at (p : string) (off : nat) (piece : string) (fs : t) : t :=
  match fs !! p with Some (File d) => <[p := File (overlay off piece d)]> fs | _ => fs end.

(** What a stream opened on the path delivers. *)
Definition read_file (p : string) (fs : t) : option string :=
  match fs !! p with Some (File d) => Some d | Some Dir => Some "" | None => None end.

Inductive unlink_result := Unlinked | NoEntry | UnlinkError.
Definition unlink (p : string) (fs : t) : unlink_result * t :=
  match fs !! p with
  | Some (File _) => (Unlinked, delete p fs)
  | Some Dir => (UnlinkError, fs)
  | None => (NoEntry, fs)
  end.

Lemma slen_zeros n : slen (zeros n) = n.
Proof. induction n as [|n IH]; [done|]. cbn. by rewrite IH. Qed.

Lemma slen_overlay off piece d : slen (overlay off piece d) = slen d `max` (off + slen piece).
Proof. unfold overlay. rewrite !slen_app, slen_stake, slen_zeros, slen_sdrop. lia. Qed.

Lemma overlay_new off piece d k : off ≤ k < off + slen piece → String.get k (overlay off piece d) = String.get (k - off) piece.
Proof.
  intros Hk. unfold overlay. rewrite !get_app, slen_stake, slen_zeros. repeat case_decide; try lia. f_equal. lia.
Qed.

Lemma overlay_old off piece d k : k < slen d → ¬ (off ≤ k < off + slen piece) → String.get k (overlay off piece d) = String.get k d.
Proof.
  intros Hk Hn. unfold overlay. rewrite !get_app, slen_stake, slen_zeros. repeat case_decide; try lia.
  - apply get_stake. lia.
  - rewrite get_sdrop. f_equal. lia.
Qed.

Lemma overlay_empty d : overlay 0 d "" = d.
Proof. unfold overlay. cbn. rewrite sdrop_ge by (cbn; lia). apply sapp_nil_r. Qed.

End Fs.

Module ObjectStore.
Import Fs.

Section with_evp.
Context {E : Evp}.
(** What of the data the disk keeps. *)
Variable disk_write : string → string.
(** The members, after the constructor. *)
Variable base_path_ : string.
Variable chunk_size_ : nat.

Definition DEFAULT_CHUNK_SIZE : Z := 4 * 1024 * 1024.

Definition hex_digit (z : Z) : ascii := if bool_decide (z < 10)%Z then chr (48 + z) else chr (87 + z).

(** [std::hex], width 2, filled with '0'. *)
Fixpoint hex (s : string) : string :=
  match s with
  | "" => ""
  | String c s' => String (hex_digit (Z.shiftr (code c) 4)) (String (hex_digit (Z.land (code c) 15)) (hex s'))
  end.

Definition sha256 (data : string) : string := hex (evp_sha256 data).

Definition hash_to_path (hash : string) : result string :=
  if bool_decide (slen hash < 4) then Throw (Exn ERuntime ("hash too short: " +:+ hash))
  else Ok (base_path_ +:+ "/" +:+ substr hash 0 2 +:+ "/" +:+ substr hash 2 2 +:+ "/" +:+ hash).

Definition exists_ (hash : string) : M Fs.t bool := λ fs,
  match hash_to_path hash with
  | Throw e => (Throw e, fs)
  | Ok path => (Ok (bool_decide (is_Some (fs !! path))), fs)
  end.

(** The two directories above the object. *)
Definition make_dirs (path : string) (fs : Fs.t) : Fs.t :=
  match parent path with
  | None => fs
  | Some dir => mkdir dir (match parent dir with Some pd => mkdir pd fs | None => fs end)
  end.

(** The new object's directories and its file, opened and empty. *)
Definition open_object (path : string) : M Fs.t () := λ fs,
  let fs1 := make_dirs path fs in
  match open_trunc path fs1 with
  | None => (Throw (Exn ERuntime ("cannot open file for writing: " +:+ path)), fs1)
  | Some fs2 => (Ok (), fs2)
  end.

Definition write_object (path : string) (off : nat) (piece : string) : M Fs.t () := λ fs, (Ok (), write_at path off piece fs).

(** The file of a new object, when nothing comes between. *)
Definition create (path data hash : string) : M Fs.t string :=
  _ ← open_object path; _ ← write_object path 0 (disk_write data); mret hash.

Definition put (data : string) : M Fs.t string :=
  let hash := sha256 data in
  e ← exists_ hash;
  if (e : bool) then mret hash
  else path ← lift_result (hash_to_path hash); create path data hash.

Definition get (hash : string) : M Fs.t string := λ fs,
  match hash_to_path hash with
  | Throw e => (Throw e, fs)
  | Ok path =>
      match read_file path fs with
      | None => (Throw (Exn ERuntime ("object not found: " +:+ hash)), fs)
      | Some d => (Ok d, fs)
      end
  end.

Definition remove (hash : string) : M Fs.t bool := λ fs,
  if sempty hash then (Ok false, fs)
  else match hash_to_path hash with
       | Throw e => (Throw e, fs)
       | Ok path =>
           match unlink path fs with
           | (Unlinked, fs') => (Ok true, fs')
           | (NoEntry, fs') => (Ok false, fs')
           | (UnlinkError, fs') => (Throw (Exn ERuntime ("cannot remove object: " +:+ hash)), fs')
           end
       end.

(** The loop of [put_chunked] from [offset]; every turn but the first of a
    zero chunk size consumes a byte, so [fuel = slen data] turns are enough. *)
Fixpoint put_loop (fuel : nat) (data : string) (offset : nat) (hashes : list string) :
    M Fs.t (list string) :=
  match fuel with
  | 0 => mret hashes
  | S fuel' =>
      if bool_decide (offset < slen data) then
        let chunk_len := (slen data - offset) `min` chunk_size_ in
        h ← put (substr data offset chunk_len);
        put_loop fuel' data (offset + chunk_len) (hashes ++ [h])
      else mret hashes
  end.

Definition put_chunked (data : string) : M Fs.t (list string) :=
  hashes ← put_loop (slen data) data 0 [];
  if bool_decide (hashes = []) then h ← put ""; mret [h] else mret hashes.

Fixpoint get_loop (acc : string) (hashes : list string) : M Fs.t string :=
  match hashes with
  | [] => mret acc
  | h :: hs => d ← get h; get_loop (acc +:+ d) hs
  end.
Definition get_chunked (hashes : list string) : M Fs.t string := get_loop "" hashes.

(** ** Reference *)

(** The chunks of some data. *)
Fixpoint chunks (fuel : nat) (data : string) : list string :=
  match fuel, data with
  | _, "" => []
  | S fuel', _ => stake chunk_size_ data :: chunks fuel' (sdrop chunk_size_ data)
  | 0, _ => []
  end.
Definition chunks_of (data : string) : list string :=
  match chunks (slen data) data with [] => [""] | l => l end.

(** Storing a list of chunks in order. *)
Fixpoint put_list (l : list string) : M Fs.t (list string) :=
  match l with
  | [] => mret []
  | c :: l' => h ← put c; hs ← put_list l'; mret (h :: hs)
  end.

(** The path of an object, when its name is long enough. *)
Definition path_of (hash : string) : string :=
  base_path_ +:+ "/" +:+ substr hash 0 2 +:+ "/" +:+ substr hash 2 2 +:+ "/" +:+ hash.

(** The object a store holds under a hash. *)
Definition object (fs : Fs.t) (hash : string) : option string :=
  match fs !! path_of hash with Some (File d) => Some d | _ => None end.

(** Names of objects: 64 hexadecimal digits. *)
Definition is_hex (c : ascii) : bool :=
  bool_decide (48 ≤ code c ≤ 57)%Z || bool_decide (97 ≤ code c ≤ 102)%Z.
Definition is_hash (h : string) : bool := bool_decide (slen h = 64) && sall is_hex h.

(** A sound store: the base directory exists, the places of objects and of their
    directories hold nothing of the other kind, and every object's content has the
    hash it is stored under. *)
Definition dir_or_absent (fs : Fs.t) (p : string) : Prop := fs !! p = None ∨ fs !! p = Some Dir.

Definition sound (fs : Fs.t) : Prop :=
  (sempty base_path_ || bool_decide (fs !! base_path_ = Some Dir)) = true ∧
  (∀ h, is_hash h = true →
     fs !! path_of h ≠ Some Dir ∧
     dir_or_absent fs (base_path_ +:+ "/" +:+ substr h 0 2) ∧
     dir_or_absent fs (base_path_ +:+ "/" +:+ substr h 0 2 +:+ "/" +:+ substr h 2 2)) ∧
  (∀ h d, is_hash h = true → object fs h = Some d → sha256 d = h).

(** The first two. *)
Definition shaped (fs : Fs.t) : Prop :=
  (sempty base_path_ || bool_decide (fs !! base_path_ = Some Dir)) = true ∧
  ∀ h, is_hash h = true →
     fs !! path_of h ≠ Some Dir ∧
     dir_or_absent fs (base_path_ +:+ "/" +:+ substr h 0 2) ∧
     dir_or_absent fs (base_path_ +:+ "/" +:+ substr h 0 2 +:+ "/" +:+ substr h 2 2).

Lemma sound_shaped fs : sound fs → shaped fs.
Proof. intros (Hb&Hp&_). by split. Qed.

(** ** Paths *)

Lemma hex_digit_hex z : (0 ≤ z < 16)%Z → is_hex (hex_digit z) = true.
Proof.
  intros Hz. unfold is_hex, hex_digit. destruct (decide (z < 10)%Z).
  - rewrite (bool_decide_eq_true_2 (z < 10)%Z), code_chr_small by lia. by rewrite bool_decide_eq_true_2 by lia.
  - rewrite (bool_decide_eq_false_2 (z < 10)%Z), code_chr_small by lia.
    rewrite (bool_decide_eq_true_2 (97 ≤ _ ≤ 102)%Z) by lia. by rewrite orb_true_r.
Qed.

Lemma hex_facts s : slen (hex s) = 2 * slen s ∧ sall is_hex (hex s) = true.
Proof.
  induction s as [|c s [IH1 IH2]]; [done|]. cbn [hex String.length sall]. split; [lia|].
  pose proof (code_range c). rewrite IH2, !hex_digit_hex; [done|..].
  - change 15%Z with (Z.ones 4). rewrite Z.land_ones by lia. by apply Z.mod_pos_bound.
  - rewrite Z.shiftr_div_pow2 by lia. change (2 ^ 4)%Z with 16%Z.
    split; [apply Z.div_pos; lia|apply Z.div_lt_upper_bound; lia].
Qed.

Lemma sha256_hash d : is_hash (sha256 d) = true.
Proof.
  unfold is_hash, sha256. destruct (hex_facts (evp_sha256 d)) as [-> ->].
  by rewrite evp_sha256_len.
Qed.

Lemma is_hash_length h : is_hash h = true → slen h = 64.
Proof. unfold is_hash. by intros [?%bool_decide_eq_true _]%andb_true_iff. Qed.

Lemma is_hash_hex h : is_hash h = true → sall is_hex h = true.
Proof. unfold is_hash. by intros [_ ?]%andb_true_iff. Qed.

Lemma hash_to_path_of h : is_hash h = true → hash_to_path h = Ok (path_of h).
Proof.
  intros Hh%is_hash_length. unfold hash_to_path. by rewrite bool_decide_eq_false_2 by lia.
Qed.

Definition no_slash (s : string) : bool := sall (λ c, negb (bool_decide (c = "/"%char))) s.

Lemma hex_no_slash s : sall is_hex s = true → no_slash s = true.
Proof.
  apply sall_impl. intros c Hc. apply negb_true_iff, bool_decide_eq_false. intros ->. done.
Qed.

Lemma srfind_absent s : no_slash s = true → srfind "/" s = None.
Proof.
  induction s as [|c s IH]; [done|]. unfold no_slash in *. cbn [sall srfind].
  intros [Hc Hs]%andb_true_iff. rewrite IH by done.
  apply negb_true_iff, bool_decide_eq_false in Hc. by rewrite bool_decide_eq_false_2 by congruence.
Qed.

Lemma srfind_last s t : no_slash t = true → srfind "/" (s +:+ String "/" t) = Some (slen s).
Proof.
  intros Ht. induction s as [|c s IH].
  - rewrite sapp_nil_l. cbn [srfind]. by rewrite srfind_absent.
  - rewrite sapp_cons. cbn [srfind]. by rewrite IH.
Qed.

Lemma parent_last s t : no_slash t = true → parent (s +:+ String "/" t) = Some s.
Proof. intros Ht. unfold parent. rewrite srfind_last by done. cbn. by rewrite stake_app. Qed.

Definition dir1 (h : string) : string := base_path_ +:+ "/" +:+ substr h 0 2.
Definition dir2 (h : string) : string := dir1 h +:+ "/" +:+ substr h 2 2.

Lemma path_of_dir2 h : path_of h = dir2 h +:+ "/" +:+ h.
Proof. unfold path_of, dir2, dir1. by rewrite !sapp_assoc. Qed.

Lemma hash_no_slash h : is_hash h = true →
  no_slash h = true ∧ no_slash (substr h 0 2) = true ∧ no_slash (substr h 2 2) = true.
Proof.
  intros Hh%is_hash_hex. split_and!; apply hex_no_slash; [done|..]; unfold substr;
    by apply sall_stake, sall_sdrop.
Qed.

Lemma parents_of h : is_hash h = true →
  parent (path_of h) = Some (dir2 h) ∧ parent (dir2 h) = Some (dir1 h) ∧ parent (dir1 h) = Some base_path_.
Proof.
  intros Hh. destruct (hash_no_slash h Hh) as (H1&H2&H3). rewrite path_of_dir2.
  split_and!; by apply parent_last.
Qed.

Lemma slen_dir1 h : is_hash h = true → slen (dir1 h) = slen base_path_ + 3.
Proof.
  intros Hh%is_hash_length. unfold dir1, substr. rewrite !slen_app, slen_stake, slen_sdrop, Hh. done.
Qed.

Lemma slen_dir2 h : is_hash h = true → slen (dir2 h) = slen base_path_ + 6.
Proof.
  intros Hh. unfold dir2. rewrite !slen_app, slen_dir1 by done. apply is_hash_length in Hh.
  unfold substr. rewrite slen_stake, slen_sdrop, Hh. cbn. lia.
Qed.

Lemma slen_path_of h : is_hash h = true → slen (path_of h) = slen base_path_ + 71.
Proof.
  intros Hh. rewrite path_of_dir2, !slen_app, slen_dir2 by done. apply is_hash_length in Hh. rewrite Hh. cbn. lia.
Qed.

Lemma path_of_inj h h' : is_hash h = true → is_hash h' = true → path_of h = path_of h' → h = h'.
Proof.
  intros Hh Hh' Heq. rewrite !path_of_dir2 in Heq.
  apply (f_equal (sdrop (slen (dir2 h) + 1))) in Heq.
  assert (slen (dir2 h) = slen (dir2 h')) as Hl by (by rewrite !slen_dir2).
  rewrite Hl in Heq at 2. rewrite <- !sdrop_sdrop, !sdrop_app in Heq. exact Heq.
Qed.

(** ** Directories and objects *)

Lemma mkdir_other p q fs : q ≠ p → mkdir p fs !! q = fs !! q.
Proof. intros Hq. unfold mkdir. destruct (_ && parent_ok p fs); [by rewrite lookup_insert_ne by done|done]. Qed.

Lemma mkdir_dir p fs : p ≠ "" → parent_ok p fs = true → dir_or_absent fs p → mkdir p fs !! p = Some Dir.
Proof.
  intros Hp Hpar Hd. unfold mkdir, sempty. rewrite (bool_decide_eq_false_2 (p = "")), Hpar by done.
  destruct Hd as [Hd|Hd]; rewrite ?Hd.
  - rewrite bool_decide_eq_true_2 by done. cbn. by rewrite lookup_insert_eq.
  - by rewrite bool_decide_eq_false_2 by done.
Qed.

Lemma sound_dirs fs h : shaped fs → is_hash h = true →
  let fs1 := make_dirs (path_of h) fs in
  fs1 !! dir1 h = Some Dir ∧ fs1 !! dir2 h = Some Dir ∧
  ∀ q, q ≠ dir1 h → q ≠ dir2 h → fs1 !! q = fs !! q.
Proof.
  intros [Hb Hp] Hh fs1. destruct (parents_of h Hh) as (P1&P2&P3).
  destruct (Hp h Hh) as (_&Hd1&Hd2).
  assert (fs1 = mkdir (dir2 h) (mkdir (dir1 h) fs)) as -> by (unfold fs1, make_dirs; by rewrite P1, P2).
  assert (dir1 h ≠ dir2 h) as Hne by (intros Heq; apply (f_equal slen) in Heq; rewrite slen_dir1, slen_dir2 in Heq by done; lia).
  assert (dir1 h ≠ "") by (intros Heq; apply (f_equal slen) in Heq; rewrite slen_dir1 in Heq by done; cbn in Heq; lia).
  assert (dir2 h ≠ "") by (intros Heq; apply (f_equal slen) in Heq; rewrite slen_dir2 in Heq by done; cbn in Heq; lia).
  assert (mkdir (dir1 h) fs !! dir1 h = Some Dir) as H1.
  { apply mkdir_dir; [done| |exact Hd1]. unfold parent_ok. by rewrite P3. }
  split_and!.
  - by rewrite mkdir_other.
  - apply mkdir_dir; [done| |].
    + unfold parent_ok. rewrite P2, H1, (bool_decide_eq_true_2 (Some Dir = Some Dir)) by done. apply orb_true_r.
    + unfold dir_or_absent. rewrite mkdir_other by done. unfold dir2. rewrite <- sapp_assoc in Hd2 |- *.
      unfold dir1. rewrite !sapp_assoc in *. exact Hd2.
  - intros q Hq1 Hq2. by rewrite !mkdir_other.
Qed.

(** Opening and writing at once. *)
Lemma create_run path data hash fs : create path data hash fs =
  if parent_ok path (make_dirs path fs) && negb (bool_decide (make_dirs path fs !! path = Some Dir))
  then (Ok hash, <[path := File (disk_write data)]> (make_dirs path fs))
  else (Throw (Exn ERuntime ("cannot open file for writing: " +:+ path)), make_dirs path fs).
Proof.
  unfold create, mbind, M_mbind, open_object, open_trunc. cbv zeta. destruct (_ && _); [|done].
  unfold write_object, write_at, mret, M_mret. by rewrite lookup_insert_eq, overlay_empty, insert_insert_eq.
Qed.

(** Writing the object of a hash, whether its place is free or not. *)
Lemma create_spec fs data h : sound fs → is_hash h = true →
  ∃ fs', create (path_of h) data h fs = (Ok h, fs') ∧
    fs' !! path_of h = Some (File (disk_write data)) ∧
    (∀ q, q ≠ path_of h → q ≠ dir1 h → q ≠ dir2 h → fs' !! q = fs !! q) ∧
    fs' !! dir1 h = Some Dir ∧ fs' !! dir2 h = Some Dir.
Proof.
  intros Hs Hh. pose proof (proj1 (proj1 (proj2 Hs) h Hh)) as Hfree. destruct (sound_dirs fs h (sound_shaped fs Hs) Hh) as (H1&H2&H3). destruct (parents_of h Hh) as (P1&_&_).
  assert (slen (path_of h) = slen base_path_ + 71) as L1 by by apply slen_path_of.
  assert (path_of h ≠ dir1 h) as N1 by (intros Heq; apply (f_equal slen) in Heq; rewrite slen_dir1 in Heq by done; lia).
  assert (path_of h ≠ dir2 h) as N2 by (intros Heq; apply (f_equal slen) in Heq; rewrite slen_dir2 in Heq by done; lia).
  rewrite create_run. unfold parent_ok. rewrite P1, H2, H3 by done.
  rewrite (bool_decide_eq_true_2 (Some Dir = Some Dir)), orb_true_r, bool_decide_eq_false_2 by done. cbn [andb negb].
  eexists. split; [done|]. split_and!.
  - by rewrite lookup_insert_eq.
  - intros q Hq Hq1 Hq2. rewrite lookup_insert_ne by done. by apply H3.
  - by rewrite lookup_insert_ne.
  - by rewrite lookup_insert_ne.
Qed.

Lemma create_sound fs data h : sound fs → is_hash h = true →
  ∃ fs', create (path_of h) data h fs = (Ok h, fs') ∧ object fs' h = Some (disk_write data) ∧
    (∀ h', is_hash h' = true → h' ≠ h → object fs' h' = object fs h') ∧
    (sha256 (disk_write data) = h → sound fs').
Proof.
  intros Hs Hh. pose proof Hs as (Hb&Hp&Hc). destruct (create_spec fs data h Hs Hh) as (fs'&Hcr&E1&E2&E3&E4).
  exists fs'. unfold object. rewrite Hcr, E1.
  assert (∀ h', is_hash h' = true → h' ≠ h → fs' !! path_of h' = fs !! path_of h') as Hoth.
  { intros h' Hh' Hne. apply E2; [by intros ?%path_of_inj|..];
      intros Heq; apply (f_equal slen) in Heq; rewrite slen_path_of, ?slen_dir1, ?slen_dir2 in Heq by done; lia. }
  split_and!; [done|done| |intros Hsha].
  + intros h' Hh' Hne. by rewrite Hoth.
  + split_and!.
    * destruct (sempty base_path_); [done|]. cbn [orb] in *. apply bool_decide_eq_true in Hb.
      apply bool_decide_eq_true. rewrite E2; [done|..];
        intros Heq; apply (f_equal slen) in Heq; rewrite ?slen_path_of, ?slen_dir1, ?slen_dir2 in Heq by done; lia.
    * intros h' Hh'. destruct (Hp h' Hh') as (D1&D2&D3). split_and!.
      -- destruct (decide (h' = h)) as [->|]; [by rewrite E1|]. by rewrite Hoth.
      -- unfold dir_or_absent. fold (dir1 h'). destruct (decide (dir1 h' = dir1 h)) as [->|]; [by right|].
         rewrite E2; [exact D2| |done|];
           intros Heq; apply (f_equal slen) in Heq; rewrite ?slen_path_of, ?slen_dir1, ?slen_dir2 in Heq by done; lia.
      -- unfold dir_or_absent.
         assert (base_path_ +:+ "/" +:+ substr h' 0 2 +:+ "/" +:+ substr h' 2 2 = dir2 h') as Hd2
           by (unfold dir2, dir1; by rewrite !sapp_assoc).
         rewrite Hd2 in *. destruct (decide (dir2 h' = dir2 h)) as [->|]; [by right|].
         rewrite E2; [exact D3| | |done];
           intros Heq; apply (f_equal slen) in Heq; rewrite ?slen_path_of, ?slen_dir1, ?slen_dir2 in Heq by done; lia.
    * intros h' d Hh' Hobj. unfold object in Hobj. destruct (decide (h' = h)) as [->|Hne].
      -- rewrite E1 in Hobj. by injection Hobj as <-.
      -- rewrite Hoth in Hobj by done. by apply Hc.
Qed.

Lemma put_spec fs data : sound fs →
  let h := sha256 data in
  ∃ fs', put data fs = (Ok h, fs') ∧
    (if bool_decide (is_Some (object fs h)) then fs' = fs
     else object fs' h = Some (disk_write data)) ∧
    (∀ h', is_hash h' = true → h' ≠ h → object fs' h' = object fs h') ∧
    (sha256 (disk_write data) = h → sound fs').
Proof.
  intros Hs h. pose proof (sha256_hash data) as Hh. fold h in Hh.
  unfold put. fold h. unfold mbind, M_mbind, exists_. rewrite hash_to_path_of by done.
  destruct (create_sound fs data h Hs Hh) as (fs'&Hcr&E1&E2&E3). unfold object in *.
  destruct (fs !! path_of h) as [[|d]|] eqn:Ef.
  - by destruct (proj1 (proj2 Hs) h Hh) as [? _].
  - rewrite (bool_decide_eq_true_2 (is_Some (Some (File d)))) by eauto. exists fs.
    rewrite bool_decide_eq_true_2 by eauto. by split_and!.
  - rewrite (bool_decide_eq_false_2 (is_Some None)) by by intros [].
    unfold lift_result. exists fs'. rewrite Hcr, bool_decide_eq_false_2 by by intros []. by split_and!.
Qed.

(** A file at the object's place is taken for the object: what a write that was cut
    short has left there stays, is reported as stored and is what [get] returns. *)
Lemma torn_object_kept fs data torn : fs !! path_of (sha256 data) = Some (File torn) →
  put data fs = (Ok (sha256 data), fs) ∧ get (sha256 data) fs = (Ok torn, fs).
Proof.
  intros Ht. pose proof (sha256_hash data) as Hh. unfold put, get, exists_, read_file, mbind, M_mbind. rewrite !hash_to_path_of, Ht by done.
  by rewrite bool_decide_eq_true_2 by eauto.
Qed.

Lemma get_spec fs h : is_hash h = true → sound fs →
  get h fs = match object fs h with
    | Some d => (Ok d, fs)
    | None => (Throw (Exn ERuntime ("object not found: " +:+ h)), fs)
    end.
Proof.
  intros Hh (_&Hp&_). unfold get, object, read_file. rewrite hash_to_path_of by done.
  destruct (fs !! path_of h) as [[|d]|]  eqn:Ef; [|done|done]. by destruct (Hp h Hh) as [? _].
Qed.

Lemma is_hash_nonempty h : is_hash h = true → sempty h = false.
Proof.
  intros Hh%is_hash_length. apply bool_decide_eq_false. by intros ->.
Qed.

Lemma remove_spec fs h : is_hash h = true → sound fs →
  ∃ fs', remove h fs = (Ok (bool_decide (is_Some (object fs h))), fs') ∧ sound fs' ∧
    object fs' h = None ∧ ∀ h', is_hash h' = true → h' ≠ h → object fs' h' = object fs h'.
Proof.
  intros Hh Hs. pose proof Hs as (Hb&Hp&Hc). unfold remove, unlink, object.
  rewrite is_hash_nonempty, hash_to_path_of by done.
  destruct (fs !! path_of h) as [[|d]|] eqn:Ef.
  - by destruct (Hp h Hh) as [? _].
  - exists (delete (path_of h) fs). rewrite bool_decide_eq_true_2 by eauto. rewrite lookup_delete_eq.
    assert (∀ q, slen q ≠ slen base_path_ + 71 → delete (path_of h) fs !! q = fs !! q) as Hlen.
    { intros q Hq. apply lookup_delete_ne. intros <-. by rewrite slen_path_of in Hq. }
    split_and!; [done| |done|].
    + split_and!.
      * destruct (sempty base_path_); [done|]. cbn [orb] in *. by rewrite Hlen by lia.
      * intros h' Hh'. destruct (Hp h' Hh') as (D1&D2&D3). split_and!.
        -- destruct (decide (h' = h)) as [->|Hne]; [by rewrite lookup_delete_eq|].
           rewrite lookup_delete_ne by (intros Heq%path_of_inj; congruence). done.
        -- unfold dir_or_absent. rewrite Hlen; [done|]. change (slen (dir1 h') ≠ slen base_path_ + 71).
           rewrite slen_dir1 by done. lia.
        -- unfold dir_or_absent. rewrite Hlen; [done|].
           assert (base_path_ +:+ "/" +:+ substr h' 0 2 +:+ "/" +:+ substr h' 2 2 = dir2 h') as ->
             by (unfold dir2, dir1; by rewrite !sapp_assoc).
           rewrite slen_dir2 by done. lia.
      * intros h' d' Hh'. unfold object. destruct (decide (h' = h)) as [->|Hne]; [by rewrite lookup_delete_eq|].
        rewrite lookup_delete_ne by (intros Heq%path_of_inj; congruence). by apply Hc.
    + intros h' Hh' Hne. by rewrite lookup_delete_ne by (intros Heq%path_of_inj; congruence).
  - exists fs. rewrite bool_decide_eq_false_2 by by intros []. by rewrite Ef.
Qed.

(** No other data in sight has the hash of one of the chunks. *)
Definition no_collision (fs : Fs.t) (l : list string) : Prop :=
  ∀ c d, c ∈ l → (d ∈ l ∨ ∃ h, is_hash h = true ∧ object fs h = Some d) → sha256 d = sha256 c → d = c.

(** ** Chunks *)

Lemma put_list_spec fs l : sound fs → (∀ c, c ∈ l → disk_write c = c) → no_collision fs l →
  ∃ fs', put_list l fs = (Ok (map sha256 l), fs') ∧ sound fs' ∧
    (∀ c, c ∈ l → object fs' (sha256 c) = Some c) ∧
    (∀ h d, is_hash h = true → object fs h = Some d → object fs' h = Some d) ∧
    (∀ h d, is_hash h = true → object fs' h = Some d → object fs h = Some d ∨ d ∈ l).
Proof.
  revert fs. induction l as [|c l IH]; intros fs Hs Hw Hn.
  { exists fs. split_and!; [done|done|by intros ? ?%elem_of_nil|auto|auto]. }
  destruct (put_spec fs c Hs) as (fs1&Hput&Hobj&Hoth&Hsnd).
  rewrite Hw in Hobj, Hsnd by by left. specialize (Hsnd eq_refl).
  pose proof (sha256_hash c) as Hh.
  assert (object fs1 (sha256 c) = Some c) as Hc.
  { case_bool_decide as Hsome; [|done]. subst fs1. destruct Hsome as [d Hd]. rewrite Hd. f_equal.
    apply Hn; [by left|right; eauto|]. destruct Hs as (_&_&Hint). by apply Hint. }
  assert (∀ h d, is_hash h = true → object fs h = Some d → object fs1 h = Some d) as Hmono.
  { intros h d Hh' Hd. destruct (decide (h = sha256 c)) as [->|]; [|by rewrite Hoth].
    rewrite bool_decide_eq_true_2 in Hobj by eauto. by subst. }
  assert (∀ h d, is_hash h = true → object fs1 h = Some d → object fs h = Some d ∨ d = c) as Hback.
  { intros h d Hh' Hd. destruct (decide (h = sha256 c)) as [->|]; [|left; by rewrite <- Hoth].
    right. congruence. }
  destruct (IH fs1 Hsnd) as (fs2&Hl&Hs2&Hc2&Hm2&Hb2).
  { intros c' Hc'. apply Hw. by right. }
  { intros c' d Hc' Hd. apply Hn; [by right|]. destruct Hd as [Hd|(h&Hh'&Hd)]; [left; by right|].
    destruct (Hback h d Hh' Hd) as [| ->]; [right; eauto|left; by left]. }
  exists fs2. cbn [put_list map]. unfold mbind, M_mbind. rewrite Hput, Hl. split_and!; [done|done|..].
  - intros c' [->|Hc']%elem_of_cons; [by apply Hm2|by apply Hc2].
  - auto.
  - intros h d Hh' Hd. destruct (Hb2 h d Hh' Hd) as [Hd1|Hd1]; [|right; by right].
    destruct (Hback h d Hh' Hd1) as [| ->]; [by left|right; by left].
Qed.

Lemma chunks_bound n data : 0 < chunk_size_ → slen data ≤ n →
  sconcat (chunks n data) = data ∧
  Forall (λ c, 0 < slen c ≤ chunk_size_) (chunks n data) ∧
  length (chunks n data) = (slen data + chunk_size_ - 1) / chunk_size_.
Proof.
  intros Hc. revert data. induction n as [|n IH]; intros data Hn.
  - destruct data; [|cbn in Hn; lia]. split_and!; [done|constructor|]. cbn. by rewrite Nat.div_small by lia.
  - destruct data as [|a s] eqn:Ed; [split_and!; [done|constructor|]; cbn; by rewrite Nat.div_small by lia|].
    rewrite <- Ed in *. replace (chunks (S n) data) with (stake chunk_size_ data :: chunks n (sdrop chunk_size_ data)) by by subst.
    assert (0 < slen data) as Hpos by (subst; cbn; lia).
    destruct (IH (sdrop chunk_size_ data)) as (I1&I2&I3); [rewrite slen_sdrop; lia|].
    cbn [sconcat foldr]. unfold sconcat in I1. rewrite I1, stake_sdrop. split_and!; [done| |].
    + constructor; [|done]. rewrite slen_stake. lia.
    + cbn [length]. rewrite I3, slen_sdrop. destruct (decide (slen data ≤ chunk_size_)).
      * replace (slen data - chunk_size_) with 0 by lia. rewrite (Nat.div_small (0 + _ - 1)) by lia.
        apply (Nat.div_unique _ _ 1 (slen data - 1)); lia.
      * replace (slen data + chunk_size_ - 1) with (slen data - chunk_size_ + chunk_size_ - 1 + 1 * chunk_size_) by lia.
        rewrite Nat.div_add by lia. lia.
Qed.

Lemma put_loop_list fuel data offset hs fs : 0 < chunk_size_ → slen data - offset ≤ fuel →
  put_loop fuel data offset hs fs =
  match put_list (chunks fuel (sdrop offset data)) fs with
  | (Ok l, fs') => (Ok (hs ++ l), fs')
  | (Throw e, fs') => (Throw e, fs')
  end.
Proof.
  intros Hc. revert offset hs fs. induction fuel as [|fuel IH]; intros offset hs fs Hf.
  - assert (sdrop offset data = "") as -> by (apply sdrop_ge; lia). cbn. by rewrite app_nil_r.
  - cbn [put_loop]. case_bool_decide as Ho.
    + destruct (sdrop offset data) as [|a s] eqn:Ed.
      { apply (f_equal slen) in Ed. rewrite slen_sdrop in Ed. cbn in Ed. lia. }
      change (chunks (S fuel) (String a s)) with (stake chunk_size_ (String a s) :: chunks fuel (sdrop chunk_size_ (String a s))).
      rewrite <- Ed. assert (substr data offset ((slen data - offset) `min` chunk_size_) = stake chunk_size_ (sdrop offset data)) as ->.
      { unfold substr. destruct (decide (slen data - offset ≤ chunk_size_)).
        - rewrite Nat.min_l by done. rewrite !stake_ge by (rewrite slen_sdrop; lia). done.
        - by rewrite Nat.min_r by lia. }
      cbn [put_list]. unfold mbind, M_mbind, mret, M_mret.
      destruct (put _ fs) as [[h|e] fs1]; [|done].
      assert (sdrop (offset + (slen data - offset) `min` chunk_size_) data = sdrop chunk_size_ (sdrop offset data)) as Hd.
      { rewrite sdrop_sdrop. destruct (decide (slen data - offset ≤ chunk_size_)).
        - rewrite !sdrop_ge by lia. done.
        - by rewrite Nat.min_r by lia. }
      rewrite IH by lia. rewrite Hd. destruct (put_list _ fs1) as [[l|e] fs2]; [|done].
      by rewrite <- (assoc_L (++)).
    + assert (sdrop offset data = "") as -> by (apply sdrop_ge; lia). cbn. by rewrite app_nil_r.
Qed.

Lemma put_chunked_list data fs : 0 < chunk_size_ → put_chunked data fs = put_list (chunks_of data) fs.
Proof.
  intros Hc. unfold put_chunked, chunks_of. unfold mbind at 1, M_mbind.
  rewrite put_loop_list by (done || lia). cbn [sdrop].
  destruct (chunks_bound (slen data) data Hc (le_n _)) as (_&_&Hl).
  destruct (chunks (slen data) data) as [|c l] eqn:Ech.
  - cbn [put_list]. unfold mret at 1, M_mret. cbn [app]. rewrite bool_decide_eq_true_2 by done. cbn [put_list].
    unfold mbind, M_mbind. by destruct (put "" fs) as [[h|e] fs1].
  - destruct (put_list (c :: l) fs) as [[hs|e] fs1] eqn:Hp; [|done]. cbn [app].
    rewrite bool_decide_eq_false_2; [done|]. intros ->. revert Hp. cbn [put_list]. unfold mbind, M_mbind.
    destruct (put c fs) as [[h|e] fs2]; [|done]. by destruct (put_list l fs2) as [[hs|e] fs3].
Qed.

Lemma get_loop_spec fs acc l : sound fs → (∀ c, c ∈ l → object fs (sha256 c) = Some c) →
  get_loop acc (map sha256 l) fs = (Ok (acc +:+ sconcat l), fs).
Proof.
  intros Hs. revert acc. induction l as [|c l IH]; intros acc Hl.
  - cbn. by rewrite sapp_nil_r.
  - cbn [map get_loop]. unfold mbind, M_mbind. rewrite get_spec, Hl by (done || apply sha256_hash || by left).
    rewrite IH by (intros; apply Hl; by right). cbn [sconcat foldr]. by rewrite sapp_assoc.
Qed.

End with_evp.

(** The constructor: the trailing slash is dropped and every prefix of the base
    path is created. *)
Definition strip_slash (base : string) : string :=
  match slen base with
  | S n => if bool_decide (sdrop n base = "/") then stake n base else base
  | 0 => base
  end.

Fixpoint mkdir_prefixes (fuel : nat) (path : string) (pos : nat) (fs : Fs.t) : Fs.t :=
  match fuel with
  | 0 => fs
  | S fuel' =>
      match sfind_from "/" path (S pos) with
      | None => fs
      | Some k => mkdir_prefixes fuel' path k (mkdir (stake k path) fs)
      end
  end.

Definition construct (base_path : string) (fs : Fs.t) : string * Fs.t :=
  let path := strip_slash base_path in
  (path, mkdir path (mkdir_prefixes (slen path) path 0 fs)).

(** A chunk size of zero is replaced by the default. *)
Definition effective_chunk_size (chunk_size : Z) : Z :=
  if bool_decide (0 < chunk_size)%Z then chunk_size else DEFAULT_CHUNK_SIZE.

(** ** Operations in sequence *)

Inductive op := Put (data : string) | PutChunked (data : string) | Remove (hash : string).

Definition op_ok (o : op) : bool := match o with Remove h => is_hash h | _ => true end.

Definition run_op {E : Evp} (disk_write : string → string) (base : string) (chunk_size : nat) (o : op) (fs : Fs.t) : Fs.t :=
  match o with
  | Put d => snd (put disk_write base d fs)
  | PutChunked d => snd (put_chunked disk_write base chunk_size d fs)
  | Remove h => snd (remove base h fs)
  end.

(** A 32-byte digest that tells short data apart. *)
Definition toy_digest (d : string) : string := stake 32 (d +:+ "................................").

(** ** The constructor *)

Lemma sfind_slash_Some s k : sfind "/" s = Some k →
  no_slash (stake k s) = true ∧ k < slen s ∧ s = stake k s +:+ String "/" (sdrop (S k) s).
Proof.
  revert k. induction s as [|c s IH]; intros k; [done|]. unfold no_slash in *. cbn [sfind starts_with].
  rewrite andb_true_r. case_bool_decide as Hc.
  - intros [= <-]. subst c. cbn. by split_and!; [|lia|].
  - intros (k'&Hk&->)%fmap_Some. destruct (IH k' Hk) as (H1&H2&H3). cbn [stake sall sdrop String.length].
    rewrite bool_decide_eq_false_2, H1 by congruence. split_and!; [done|lia|].
    rewrite sapp_cons. by f_equal.
Qed.

Lemma sfind_slash_None s : sfind "/" s = None → no_slash s = true.
Proof.
  induction s as [|c s IH]; [done|]. unfold no_slash in *. cbn [sfind starts_with sall].
  rewrite andb_true_r. case_bool_decide as Hc; [done|]. intros Hs%fmap_None.
  by rewrite bool_decide_eq_false_2, IH by congruence.
Qed.

Lemma srfind_app_absent s t : no_slash t = true → srfind "/" (s +:+ t) = srfind "/" s.
Proof.
  intros Ht. induction s as [|c s IH]; [by rewrite sapp_nil_l, srfind_absent|].
  rewrite sapp_cons. cbn [srfind]. by rewrite IH.
Qed.

Lemma stake_add n m s : stake (n + m) s = stake n s +:+ stake m (sdrop n s).
Proof.
  revert s. induction n as [|n IH]; intros s; [done|]. destruct s as [|c s]; [by destruct m|].
  cbn [Nat.add stake sdrop]. by rewrite IH, sapp_cons.
Qed.

(** The state between two turns: directories only, none longer than the path, and
    the directory the next prefix goes into exists. *)
Definition prefix_inv (path : string) (pos : nat) (fs : Fs.t) : Prop :=
  (∀ p n, fs !! p = Some n → n = Dir ∧ slen p ≤ slen path) ∧
  (srfind "/" (stake (S pos) path) = None ∨
   srfind "/" (stake (S pos) path) = Some pos ∧ (pos = 0 ∨ fs !! stake pos path = Some Dir)).

Lemma mkdir_prefix_step path pos fs q rest : prefix_inv path pos fs → q ≠ "" → slen q ≤ slen path →
  q = stake (S pos) path +:+ rest → no_slash rest = true →
  mkdir q fs !! q = Some Dir ∧ ∀ p n, mkdir q fs !! p = Some n → n = Dir ∧ slen p ≤ slen path.
Proof.
  intros [Hall Hpos] Hne Hlen Hq Hrest.
  assert (dir_or_absent fs q) as Hd.
  { unfold dir_or_absent. destruct (fs !! q) as [n|] eqn:Eq; [|by left]. destruct (Hall q n Eq) as [-> _]. by right. }
  split.
  - apply mkdir_dir; [done| |done]. unfold parent_ok, parent.
    assert (srfind "/" q = srfind "/" (stake (S pos) path)) as -> by (rewrite Hq; by apply srfind_app_absent).
    destruct Hpos as [-> |[-> Hpos]]; [done|]. cbn [fmap option_fmap option_map].
    assert (stake pos q = stake pos path) as ->.
    { destruct (decide (slen (stake (S pos) path) ≤ pos)) as [Hle|Hgt].
      - rewrite Hq, slen_stake in *. destruct (decide (slen path ≤ pos)).
        + assert (stake (S pos) path = path) as Hsp by (apply stake_ge; lia). rewrite Hsp in *.
          rewrite slen_app in Hlen. assert (rest = "") as -> by (apply slen_nil; lia). by rewrite sapp_nil_r.
        + lia.
      - rewrite Hq, stake_app_lt by lia. replace (S pos) with (pos + 1) by lia. rewrite stake_add.
        destruct (decide (slen path ≤ pos)).
        + rewrite slen_stake in Hgt. lia.
        + rewrite stake_app_ge by (rewrite slen_stake; lia). rewrite slen_stake.
          replace (pos - pos `min` slen path) with 0 by lia. by rewrite sapp_nil_r. }
    destruct Hpos as [-> |Hpos]; [done|]. rewrite Hpos. by rewrite (bool_decide_eq_true_2 (Some Dir = Some Dir)), orb_true_r.
  - intros p n. destruct (decide (p = q)) as [->|Hpq]; [|rewrite mkdir_other by done; apply Hall].
    unfold mkdir. destruct (_ && parent_ok q fs); [|apply Hall]. rewrite lookup_insert_eq. by intros [= <-].
Qed.

Lemma mkdir_prefixes_spec fuel path pos fs : path ≠ "" → prefix_inv path pos fs → slen path - pos ≤ fuel →
  let fs' := mkdir path (mkdir_prefixes fuel path pos fs) in
  fs' !! path = Some Dir ∧ ∀ p n, fs' !! p = Some n → n = Dir ∧ slen p ≤ slen path.
Proof.
  intros Hne. revert pos fs. induction fuel as [|fuel IH]; intros pos fs Hinv Hfuel; cbn [mkdir_prefixes].
  - apply (mkdir_prefix_step path pos fs path ""); [done..| |done].
    rewrite stake_ge by lia. by rewrite sapp_nil_r.
  - unfold sfind_from. case_bool_decide as Hp.
    2:{ apply (mkdir_prefix_step path pos fs path ""); [done..| |done].
        rewrite stake_ge by lia. by rewrite sapp_nil_r. }
    destruct (sfind "/" (sdrop (S pos) path)) as [j|] eqn:Ej; cbn [fmap option_fmap option_map].
    + apply sfind_slash_Some in Ej as (Hj&Hjl&Hsplit). rewrite slen_sdrop in Hjl.
      set (k := S pos + j). assert (stake k path = stake (S pos) path +:+ stake j (sdrop (S pos) path)) as Hk by apply stake_add.
      destruct (mkdir_prefix_step path pos fs (stake k path) (stake j (sdrop (S pos) path)) Hinv) as [H1 H2].
      { intros Heq. apply (f_equal slen) in Heq. rewrite slen_stake in Heq. cbn [String.length] in Heq. unfold k in Heq. lia. }
      { rewrite slen_stake. lia. }
      { done. }
      { done. }
      apply IH; [|unfold k; lia]. split; [done|]. right. split; [|by right].
      assert (stake (S k) path = stake k path +:+ String "/" "") as ->.
      { replace (S k) with (k + 1) by lia. rewrite stake_add. f_equal.
        unfold k. rewrite <- sdrop_sdrop, Hsplit.
        assert (slen (stake j (sdrop (S pos) path)) = j) as Hjj by (rewrite slen_stake, slen_sdrop; lia).
        rewrite <- Hjj at 1. by rewrite sdrop_app. }
      rewrite srfind_last by done. f_equal. rewrite slen_stake. unfold k. lia.
    + apply sfind_slash_None in Ej. apply (mkdir_prefix_step path pos fs path (sdrop (S pos) path)); [done..| |done].
      by rewrite stake_sdrop.
Qed.

Lemma sound_of_short {E : Evp} base fs : (base = "" ∨ fs !! base = Some Dir) →
  (∀ p n, fs !! p = Some n → n = Dir ∧ slen p ≤ slen base) → sound base fs.
Proof.
  intros Hb Hall.
  assert (∀ q, slen base < slen q → fs !! q = None) as Hnone.
  { intros q Hq. destruct (fs !! q) as [n|] eqn:Eq; [|done]. destruct (Hall q n Eq). lia. }
  split_and!.
  - destruct Hb as [->|Hb]; [done|]. rewrite Hb. by rewrite (bool_decide_eq_true_2 (Some Dir = Some Dir)), orb_true_r.
  - intros h Hh. split_and!.
    + rewrite Hnone; [done|]. rewrite slen_path_of by done. lia.
    + left. apply Hnone. change (slen base < slen (dir1 base h)). rewrite slen_dir1 by done. lia.
    + left. apply Hnone.
      assert (base +:+ "/" +:+ substr h 0 2 +:+ "/" +:+ substr h 2 2 = dir2 base h) as ->
        by (unfold dir2, dir1; by rewrite !sapp_assoc).
      rewrite slen_dir2 by done. lia.
  - intros h d Hh. unfold object. rewrite Hnone; [done|]. rewrite slen_path_of by done. lia.
Qed.

(** A directory no deeper than the store leaves the store alone. *)
Lemma mkdir_above {E : Evp} base fs q : slen q ≤ slen base → sound base fs →
  sound base (mkdir q fs) ∧ ∀ h, object base (mkdir q fs) h = object base fs h.
Proof.
  intros Hq Hs. unfold mkdir. destruct (sempty q) eqn:Ee; cbn [negb andb]; [by split|].
  case_bool_decide as Ha; cbn [andb]; [|by split]. destruct (parent_ok q fs); [|by split].
  assert (∀ p, slen base < slen p → <[q := Dir]> fs !! p = fs !! p) as Hother.
  { intros p Hp. rewrite lookup_insert_ne; [done|]. intros ->. lia. }
  assert (∀ h, slen base < slen (path_of base h)) as Hlong.
  { intros h. unfold path_of. rewrite !slen_app. cbn. lia. }
  assert (∀ h, object base (<[q := Dir]> fs) h = object base fs h) as Hobj by (intros h; unfold object; by rewrite Hother).
  split; [|done]. destruct Hs as (Hb&Hd&Hh). split_and!.
  - destruct (sempty base) eqn:Eb; [done|]. cbn in *. apply bool_decide_eq_true in Hb. apply bool_decide_eq_true.
    rewrite lookup_insert_ne; [done|]. intros ->. congruence.
  - intros h H. specialize (Hd h H). unfold dir_or_absent in *. rewrite !Hother; [done|rewrite !slen_app; cbn; lia|rewrite !slen_app; cbn; lia|done].
  - intros h d H. rewrite Hobj. by apply Hh.
Qed.

Lemma mkdir_prefixes_above {E : Evp} base fuel path pos fs : slen path ≤ slen base → sound base fs →
  sound base (mkdir_prefixes fuel path pos fs) ∧ ∀ h, object base (mkdir_prefixes fuel path pos fs) h = object base fs h.
Proof.
  intros Hp. revert pos fs. induction fuel as [|fuel IH]; intros pos fs Hs; cbn [mkdir_prefixes]; [done|].
  destruct (sfind_from _ _ _) as [k|]; [|done].
  destruct (mkdir_above base fs (stake k path)) as [H1 H2]; [rewrite slen_stake; lia|done|].
  destruct (IH k _ H1) as [H3 H4]. split; [done|]. intros h. by rewrite H4.
Qed.

(** The constructor over a store an earlier process left. *)
Lemma construct_again {E : Evp} (base_path : string) (fs : Fs.t) : sound (strip_slash base_path) fs →
  let '(base, fs') := construct base_path fs in
  base = strip_slash base_path ∧ sound base fs' ∧ ∀ h, object base fs' h = object base fs h.
Proof.
  intros Hs. unfold construct. set (path := strip_slash base_path) in *.
  destruct (mkdir_prefixes_above path (slen path) path 0 fs (le_n _) Hs) as [H1 H2].
  destruct (mkdir_above path _ path (le_n _) H1) as [H3 H4]. split_and!; [done..|]. intros h. by rewrite H4.
Qed.

(** ** Properties *)

Lemma construct_spec {E : Evp} (base_path : string) :
  let '(base, fs) := construct base_path ∅ in
  (base = "" ∨ fs !! base = Some Dir) ∧ sound base fs ∧ ∀ h, is_hash h = true → object base fs h = None.
Proof.
  unfold construct. set (path := strip_slash base_path).
  assert (prefix_inv path 0 ∅) as Hinv.
  { split; [by intros p n; rewrite lookup_empty|]. destruct path as [|c path']; [by left|].
    cbn. destruct path'; cbn; case_bool_decide; auto. }
  destruct (decide (path = "")) as [->|Hne].
  - cbn. assert (∀ p n, (∅ : Fs.t) !! p = Some n → n = Dir ∧ slen p ≤ 0) as Hall by by intros p n; rewrite lookup_empty.
    split_and!; [by left|by apply sound_of_short; [left|]|done].
  - destruct (mkdir_prefixes_spec (slen path) path 0 ∅ Hne Hinv) as [H1 H2]; [lia|].
    split_and!; [by right|by apply sound_of_short; [right|]|].
    intros h Hh. unfold object. destruct (_ !! path_of path h) as [n|] eqn:En; [|done].
    destruct (H2 _ _ En) as [-> _]. done.
Qed.

(** On an empty file system the constructor creates the base directory with
    every directory above it, whatever the depth of the path, and the store starts
    sound and empty. *)
Theorem construct_sound {E : Evp} (base_path : string) :
  let '(base, fs) := construct base_path ∅ in
  (base = "" ∨ fs !! base = Some Dir) ∧ sound base fs ∧ ∀ h, is_hash h = true → object base fs h = None.
Proof. apply construct_spec. Qed.

(** C24. Data stored in chunks is read back exactly: when the disk keeps what is
    written and no other data in sight shares a hash with a chunk, [put_chunked]
    succeeds on a sound store, leaves it sound with every earlier object
    untouched, and [get_chunked] on its result returns the data, now and in any
    later sound state that still has those objects. *)
Theorem chunked_roundtrip {E : Evp} (disk_write : string → string) (base : string) (chunk_size : nat)
    (fs : Fs.t) (data : string)
    (Hs : sound base fs) (Hc : 0 < chunk_size)
    (Hdisk : ∀ c, c ∈ chunks_of chunk_size data → disk_write c = c)
    (Hcol : no_collision base fs (chunks_of chunk_size data)) :
  ∃ hashes fs', put_chunked disk_write base chunk_size data fs = (Ok hashes, fs') ∧ sound base fs' ∧
    (∀ h d, is_hash h = true → object base fs h = Some d → object base fs' h = Some d) ∧
    ∀ fs'', sound base fs'' → (∀ h, h ∈ hashes → object base fs'' h = object base fs' h) →
      get_chunked base hashes fs'' = (Ok data, fs'').
Proof.
  destruct (put_list_spec disk_write base fs (chunks_of chunk_size data) Hs Hdisk Hcol) as (fs'&Hp&Hs'&Hobj&Hmono&_).
  eexists _, fs'. split_and!; [by rewrite put_chunked_list|done|done|].
  intros fs'' Hs'' Hsame. unfold get_chunked. rewrite get_loop_spec; [|done|].
  - rewrite sapp_nil_l. do 2 f_equal. unfold chunks_of.
    destruct (chunks_bound chunk_size (slen data) data Hc (le_n _)) as (Hcat&_&_).
    destruct (chunks chunk_size (slen data) data) eqn:Ech; [|done]. by rewrite <- Hcat.
  - intros c Hin. rewrite Hsame; [by apply Hobj|]. by apply list_elem_of_fmap_2.
Qed.

(** The chunk list of some data covers it: the chunks are between one byte
    and the chunk size long, their concatenation is the data and their number is
    the size divided by the chunk size, rounded up (one empty chunk for empty
    data); the hashes returned are theirs, in order. *)
Theorem chunks_exact {E : Evp} (disk_write : string → string) (base : string) (chunk_size : nat)
    (fs fs' : Fs.t) (data : string) (hashes : list string)
    (Hc : 0 < chunk_size) (Hput : put_chunked disk_write base chunk_size data fs = (Ok hashes, fs')) :
  let cs := chunks_of chunk_size data in
  hashes = map sha256 cs ∧ sconcat cs = data ∧
  (data ≠ "" → Forall (λ c, 0 < slen c ≤ chunk_size) cs ∧
     length cs = (slen data + chunk_size - 1) / chunk_size) ∧
  (data = "" → cs = [""]).
Proof.
  rewrite put_chunked_list in Hput by done.
  assert (∀ l fs fs' hs, put_list disk_write base l fs = (Ok hs, fs') → hs = map sha256 l) as Hmap.
  { induction l as [|c l IH]; intros f f' hs; [by intros [= <- _]|].
    cbn [put_list map]. unfold mbind, M_mbind.
    destruct (put disk_write base c f) as [[h|e] f1] eqn:Ep; [|done].
    destruct (put_list disk_write base l f1) as [[hs'|e] f2] eqn:El; [|done].
    intros [= <- <-]. f_equal; [|by eapply IH].
    revert Ep. unfold put, mbind, M_mbind, exists_, lift_result, mret, M_mret.
    repeat case_match; rewrite ?create_run; repeat case_match; intros; simplify_eq/=; done. }
  cbv zeta. split; [by eapply Hmap|].
  unfold chunks_of. destruct (chunks_bound chunk_size (slen data) data Hc (le_n _)) as (H1&H2&H3).
  destruct (chunks chunk_size (slen data) data) as [|c l] eqn:Ech.
  - assert (data = "") as -> by by rewrite <- H1. done.
  - split_and!; [done|done|]. intros ->. done.
Qed.

Lemma toy_digest_len d : slen (toy_digest d) = 32.
Proof. unfold toy_digest. rewrite slen_stake, slen_app. apply Nat.min_l. change (slen "................................") with 32. lia. Qed.

Definition toy_evp : Evp := {| evp_sha256 := toy_digest; evp_sha256_len := toy_digest_len |}.

Lemma chunked_roundtrip_witness :
  let fs := snd (construct "data/objects/" ∅) in
  ∃ hashes fs', @put_chunked toy_evp id "data/objects" 2 "abc" fs = (Ok hashes, fs') ∧
    @get_chunked "data/objects" hashes fs' = (Ok "abc", fs').
Proof.
  intros fs. destruct (@construct_spec toy_evp "data/objects/") as (_&Hs&Hempty). fold fs in Hs, Hempty.
  destruct (@chunked_roundtrip toy_evp id "data/objects" 2 fs "abc" Hs) as (hashes&fs'&H1&H2&_&H3).
  - lia.
  - done.
  - intros c d Hc [Hd|(h&Hh&Hobj)]; [|by rewrite Hempty in Hobj].
    change (chunks_of 2 "abc") with ["ab"; "c"] in *. rewrite !elem_of_cons, elem_of_nil in *.
    destruct Hc as [-> |[-> |[]]], Hd as [-> |[-> |[]]]; intros Heq; vm_compute in Heq; done.
  - exists hashes, fs'. split; [done|]. by apply H3.
Defined.

Lemma chunks_exact_witness :
  let fs := snd (construct "data" ∅) in
  match @put_chunked toy_evp id "data" 2 "abcde" fs with
  | (Ok hashes, _) => hashes = map (@sha256 toy_evp) ["ab"; "cd"; "e"]
  | _ => False
  end.
Proof.
  cbv zeta.
  assert (match fst (@put_chunked toy_evp id "data" 2 "abcde" (snd (construct "data" ∅))) with Ok _ => true | _ => false end = true)
    as Hok by (vm_compute; reflexivity).
  destruct (@put_chunked toy_evp id "data" 2 "abcde" (snd (construct "data" ∅))) as [[hs|e] fs'] eqn:Ep; [|discriminate Hok].
  apply (@chunks_exact toy_evp id "data" 2 (snd (construct "data" ∅)) fs' "abcde" hs); [lia|exact Ep].
Defined.

Lemma put_list_sound {E : Evp} write base l fs : sound base fs → (∀ c, c ∈ l → write c = c) →
  sound base (snd (put_list write base l fs)).
Proof.
  revert fs. induction l as [|c l IH]; intros fs Hs Hw; [done|]. cbn [put_list]. unfold mbind, M_mbind.
  destruct (put_spec write base fs c Hs) as (f1&->&_&_&H1). rewrite Hw in H1 by by left.
  specialize (IH f1 (H1 eq_refl)). destruct (put_list _ _ l f1) as [[hs|e] f2]; apply IH; intros c' Hc'; apply Hw; by right.
Qed.

(** What an operation writes. *)
Definition written {E : Evp} (chunk_size : nat) (o : op) : list string :=
  match o with Put d => [d] | PutChunked d => chunks_of chunk_size d | Remove _ => [] end.

(** C23. Objects are what their names say. Where the disk keeps the data and the chunks
    that the operations write (the code does not look at the outcome of its writes:
    [torn_object_kept] is what happens otherwise), after any sequence of stores,
    chunked stores and removals on a sound store, [get] either fails or returns data
    whose SHA-256 is the hash asked for, and a removed object is gone while the others
    are untouched. *)
Theorem store_integrity {E : Evp} (write : string → string) (base : string) (chunk_size : nat) (fs : Fs.t) (ops : list op) (h : string)
    (Hs : sound base fs) (Hops : forallb op_ok ops = true) (Hh : is_hash h = true) (Hc : 0 < chunk_size)
    (Hw : ∀ o c, o ∈ ops → c ∈ written chunk_size o → write c = c) :
  let fs' := foldl (λ f o, run_op write base chunk_size o f) fs ops in
  sound base fs' ∧
  (∀ d f, get base h fs' = (Ok d, f) → sha256 d = h) ∧
  object base (run_op write base chunk_size (Remove h) fs') h = None ∧
  ∀ h', is_hash h' = true → h' ≠ h →
    object base (run_op write base chunk_size (Remove h) fs') h' = object base fs' h'.
Proof.
  cbv zeta. assert (sound base (foldl (λ f o, run_op write base chunk_size o f) fs ops)) as Hs'.
  { revert fs Hs Hops Hw. induction ops as [|o ops IH]; intros fs Hs Hops Hw; [done|].
    cbn [forallb] in Hops. apply andb_true_iff in Hops as [Ho Hops]. apply IH; [|done|intros o' c Ho' Hc'; apply (Hw o' c); [by right|done]].
    assert (∀ c, c ∈ written chunk_size o → write c = c) as Hwo by (intros c; apply Hw; by left).
    destruct o as [d|d|h0]; cbn [run_op].
    - destruct (put_spec write base fs d Hs) as (f'&->&_&_&H). apply H. by rewrite Hwo by by left.
    - rewrite put_chunked_list by done. by apply put_list_sound.
    - destruct (remove_spec base fs h0 Ho Hs) as (f'&->&H&_). done. }
  split; [done|]. set (fs' := foldl _ fs ops) in *.
  destruct (remove_spec base fs' h Hh Hs') as (f'&Hr&_&H1&H2). cbn [run_op]. rewrite Hr. split_and!; [|done|done].
  intros d f Hg. rewrite get_spec in Hg by done. destruct (object base fs' h) as [d'|] eqn:Eo; [|done].
  injection Hg as <- <-. destruct Hs' as (_&_&Hint). by apply Hint.
Qed.

Lemma store_integrity_witness :
  let fs := snd (construct "data" ∅) in
  let h := @sha256 toy_evp "abc" in
  let fs' := foldl (λ f o, @run_op toy_evp id "data" 4 o f) fs [Put "abc"; Put "x"] in
  @sound toy_evp "data" fs' ∧ object "data" (@run_op toy_evp id "data" 4 (Remove h) fs') h = None.
Proof.
  intros fs h fs'. assert (@sound toy_evp "data" fs) as Hs by apply (@construct_spec toy_evp "data").
  assert (is_hash h = true) as Hh by (vm_compute; reflexivity).
  pose (X := @store_integrity toy_evp id "data" 4 fs [Put "abc"; Put "x"] h Hs eq_refl Hh (ltac:(lia)) (λ o c _ _, eq_refl)).
  exact (conj (proj1 X) (proj1 (proj2 (proj2 X)))).
Defined.

End ObjectStore.
