(* ===== verification/Database.v ===== *)
(** The PostgreSQL database behind the metadata layer: the tables, constraints and
    indexes of src/metadata/schema.cpp as lists of rows, the server's conversions
    as the class [Postgres], transactions ([pqxx::work]) and the statements the
    data access objects run. A statement that violates a constraint raises the
    exception pqxx raises for it. *)
From S2P Require Import Prelude JsonValue.

(** * The server *)

(** Input and output functions, generated identifiers and the orders the server
    chooses. [uuid_gen n] is the [n]-th value of [gen_random_uuid()]. *)
Class Postgres := {
  uuid_in : string → option string;
  uuid_gen : nat → string;
  text_in : string → option string;
  timestamptz_in : string → option Z;
  timestamptz_out : Z → string;
  to_char_iso : Z → string;
  pg_what : string → string;
  pg_scan : ∀ {A}, list A → list A;
  pg_sort_desc : ∀ {A}, (A → Z) → list A → list A;
  pg_sort_text : ∀ {A}, (A → string) → list A → list A;
  uuid_gen_inj m n : uuid_gen m = uuid_gen n → m = n;
  uuid_in_gen n : uuid_in (uuid_gen n) = Some (uuid_gen n);
  uuid_in_idem s u : uuid_in s = Some u → uuid_in u = Some u;
  uuid_in_empty : uuid_in "" = None;
  uuid_gen_nonzero n : uuid_gen n ≠ "00000000-0000-0000-0000-000000000000";
  text_in_ascii s : sall (λ c, bool_decide (0 < code c < 128)%Z) s = true → text_in s = Some s;
  text_in_idem s t : text_in s = Some t → text_in t = Some t;
  pg_scan_perm {A} (l : list A) : pg_scan l ≡ₚ l;
  pg_sort_desc_perm {A} (f : A → Z) l : pg_sort_desc f l ≡ₚ l;
  pg_sort_text_perm {A} (f : A → string) l : pg_sort_text f l ≡ₚ l
}.

Module Schema.

(** ** Rows *)

Record user_row := mk_user {
  u_id : string; u_name : string; u_hash : string; u_quota : Z; u_used : Z; u_created : Z }.

Record content_row := mk_content {
  c_id : string; c_hash : string; c_size : Z; c_chunks : json; c_mime : string; c_created : Z }.

Record folder_row := mk_folder {
  d_id : string; d_name : string; d_parent : option string; d_owner : string;
  d_created : Z; d_deleted : option Z }.

Record file_row := mk_file {
  f_id : string; f_name : string; f_owner : string; f_folder : option string;
  f_content : string; f_created : Z; f_deleted : option Z }.

Record share_row := mk_share {
  s_id : string; s_file : string; s_owner : string; s_token : string;
  s_password : option string; s_expires : option Z; s_max : Z; s_count : Z;
  s_created : Z; s_revoked : bool }.

(** The database: the tables, the identifiers drawn so far, the time, and the
    row of schema_version. *)
Record Db := mk_db {
  users : list user_row;
  contents : list content_row;
  folders : list folder_row;
  files : list file_row;
  shares : list share_row;
  uuid_next : nat;
  clock : Z;
  version : option Z
}.

Definition set_users (l : list user_row) (d : Db) : Db :=
  mk_db l (contents d) (folders d) (files d) (shares d) (uuid_next d) (clock d) (version d).
Definition set_contents (l : list content_row) (d : Db) : Db :=
  mk_db (users d) l (folders d) (files d) (shares d) (uuid_next d) (clock d) (version d).
Definition set_folders (l : list folder_row) (d : Db) : Db :=
  mk_db (users d) (contents d) l (files d) (shares d) (uuid_next d) (clock d) (version d).
Definition set_files (l : list file_row) (d : Db) : Db :=
  mk_db (users d) (contents d) (folders d) l (shares d) (uuid_next d) (clock d) (version d).
Definition set_shares (l : list share_row) (d : Db) : Db :=
  mk_db (users d) (contents d) (folders d) (files d) l (uuid_next d) (clock d) (version d).
Definition set_next (n : nat) (d : Db) : Db :=
  mk_db (users d) (contents d) (folders d) (files d) (shares d) n (clock d) (version d).
Definition set_version (v : option Z) (d : Db) : Db :=
  mk_db (users d) (contents d) (folders d) (files d) (shares d) (uuid_next d) (clock d) v.

Definition empty_db : Db := mk_db [] [] [] [] [] 0 0 None.

Definition zero_uuid : string := "00000000-0000-0000-0000-000000000000".

(** deleted_at IS NULL. *)
Definition live_file (r : file_row) : bool := bool_decide (f_deleted r = None).
Definition live_folder (r : folder_row) : bool := bool_decide (d_deleted r = None).

(** The keys of the partial unique indexes idx_files_owner_folder_name and
    idx_folders_owner_parent_name. *)
Definition file_key (r : file_row) : string * string * string :=
  (f_owner r, default zero_uuid (f_folder r), f_name r).
Definition folder_key (r : folder_row) : string * string * string :=
  (d_owner r, default zero_uuid (d_parent r), d_name r).

(** ** Transactions *)

(** [pqxx::work]: the body's effects last when it ends with [commit]; leaving it
    in any other way, or by an exception, rolls back. *)
Definition txn {A} (m : M Db (A * bool)) : M Db A := λ d,
  match m d with
  | (Ok (a, true), d') => (Ok a, d')
  | (Ok (a, false), _) => (Ok a, d)
  | (Throw e, _) => (Throw e, d)
  end.

Definition commit {A} (a : A) : M Db (A * bool) := mret (a, true).
Definition no_commit {A} (a : A) : M Db (A * bool) := mret (a, false).

Section statements.
Context {P : Postgres}.

Definition sql_error {A} (what : string) : M Db A := throw EPqxx (pg_what what).
Definition unique_violation {A} (what : string) : M Db A := throw EUnique (pg_what what).

(** Parameters: a text that is no UUID, or no text of the server's encoding, is
    an error of the statement. *)
Definition uuid_arg (s : string) : M Db string :=
  match uuid_in s with Some u => mret u | None => sql_error "invalid input syntax for type uuid" end.
Definition text_arg (s : string) : M Db string :=
  match text_in s with Some t => mret t | None => sql_error "invalid byte sequence" end.

(** Run a check that fails the statement. *)
Definition require (b : bool) (otherwise : M Db ()) : M Db () := if b then mret () else otherwise.

(** gen_random_uuid(), for the table whose identifiers are given: the primary
    key refuses a value already there. *)
Definition fresh_id (ids : list string) : M Db string := λ d,
  let id := uuid_gen (uuid_next d) in
  if bool_decide (id ∈ ids) then unique_violation "primary key" d else (Ok id, set_next (S (uuid_next d)) d).

Definition fk_user (id : string) (d : Db) : bool := bool_decide (id ∈ u_id <$> users d).
Definition fk_content (id : string) (d : Db) : bool := bool_decide (id ∈ c_id <$> contents d).
Definition fk_folder (id : option string) (d : Db) : bool :=
  match id with None => true | Some i => bool_decide (i ∈ d_id <$> folders d) end.
Definition fk_file (id : string) (d : Db) : bool := bool_decide (id ∈ f_id <$> files d).

Definition foreign_key {A} : M Db A := sql_error "foreign key violation".

(** INSERT INTO users (username, password_hash) ... RETURNING id. *)
Definition insert_user (name hash : string) : M Db string :=
  name ← text_arg name; hash ← text_arg hash;
  d ← get_st;
  id ← fresh_id (u_id <$> users d);
  _ ← require (negb (bool_decide (name ∈ u_name <$> users d))) (unique_violation "username");
  d' ← get_st;
  _ ← put_st (set_users (users d' ++ [mk_user id name hash 10737418240 0 (clock d')]) d');
  mret id.

(** INSERT INTO content_objects ... ON CONFLICT (hash) DO NOTHING RETURNING id:
    [None] when the row was there. *)
Definition insert_content `{JsonText} (hash : string) (size : Z) (chunk_hashes mime : string) :
    M Db (option string) :=
  hash ← text_arg hash; mime ← text_arg mime; chunk_hashes ← text_arg chunk_hashes;
  match pg_jsonb_in chunk_hashes with
  | None => sql_error "invalid input syntax for type json"
  | Some j =>
      d ← get_st;
      id ← fresh_id (c_id <$> contents d);
      if bool_decide (hash ∈ c_hash <$> contents d) then mret None
      else
        d' ← get_st;
        _ ← put_st (set_contents (contents d' ++ [mk_content id hash size j mime (clock d')]) d');
        mret (Some id)
  end.

(** INSERT INTO folders (name, [parent_id,] owner_id) ... RETURNING id. *)
Definition insert_folder (name : string) (parent : option string) (owner : string) : M Db string :=
  name ← text_arg name;
  parent ← match parent with None => mret None | Some p => u ← uuid_arg p; mret (Some u) end;
  owner ← uuid_arg owner;
  d ← get_st;
  id ← fresh_id (d_id <$> folders d);
  d' ← get_st;
  let row := mk_folder id name parent owner (clock d') None in
  _ ← require (negb (bool_decide (folder_key row ∈ folder_key <$> filter live_folder (folders d'))))
        (unique_violation "idx_folders_owner_parent_name");
  _ ← require (fk_folder parent d' && fk_user owner d') foreign_key;
  _ ← put_st (set_folders (folders d' ++ [row]) d');
  mret id.

(** INSERT INTO files (name, owner_id, [folder_id,] content_id) ... RETURNING id. *)
Definition insert_file (name owner : string) (folder : option string) (content : string) : M Db string :=
  name ← text_arg name;
  owner ← uuid_arg owner;
  folder ← match folder with None => mret None | Some p => u ← uuid_arg p; mret (Some u) end;
  content ← uuid_arg content;
  d ← get_st;
  id ← fresh_id (f_id <$> files d);
  d' ← get_st;
  let row := mk_file id name owner folder content (clock d') None in
  _ ← require (negb (bool_decide (file_key row ∈ file_key <$> filter live_file (files d'))))
        (unique_violation "idx_files_owner_folder_name");
  _ ← require (fk_user owner d' && fk_folder folder d' && fk_content content d') foreign_key;
  _ ← put_st (set_files (files d' ++ [row]) d');
  mret id.

(** INSERT INTO file_shares ... RETURNING id; share_token is VARCHAR(8). *)
Definition insert_share (file owner token password expires : string) (max : Z) : M Db string :=
  file ← uuid_arg file; owner ← uuid_arg owner; token ← text_arg token; password ← text_arg password;
  expires ← (if sempty expires then mret None
             else match timestamptz_in expires with
                  | Some t => mret (Some t)
                  | None => sql_error "invalid input syntax for type timestamp with time zone"
                  end);
  d ← get_st;
  id ← fresh_id (s_id <$> shares d);
  d' ← get_st;
  let row := mk_share id file owner token (if sempty password then None else Some password) expires
               max 0 (clock d') false in
  _ ← require (bool_decide (slen token ≤ 8)) (sql_error "value too long for type character varying(8)");
  _ ← require (negb (bool_decide (token ∈ s_token <$> shares d'))) (unique_violation "share_token");
  _ ← require (fk_file file d' && fk_user owner d') foreign_key;
  _ ← put_st (set_shares (shares d' ++ [row]) d');
  mret id.

(** DELETE FROM content_objects WHERE id = $1 AND NOT EXISTS (a live file with
    that content): refused by the foreign key of files while a row, deleted or
    not, refers to it. *)
Definition delete_content (id : string) : M Db bool :=
  id ← uuid_arg id;
  d ← get_st;
  let victim (r : content_row) :=
    bool_decide (c_id r = id) &&
    negb (existsb (λ f, bool_decide (f_content f = c_id r) && live_file f) (files d)) in
  if existsb victim (contents d) then
    _ ← require (negb (existsb (λ f, bool_decide (f_content f = id)) (files d))) foreign_key;
    _ ← put_st (set_contents (filter (λ r, victim r = false) (contents d)) d);
    mret true
  else mret false.

(** DELETE FROM file_shares WHERE file_id IN (SELECT id FROM files WHERE
    content_id = $1 AND deleted_at IS NOT NULL). *)
Definition tombstone_of (content : string) (f : file_row) : bool :=
  bool_decide (f_content f = content) && negb (live_file f).

Definition delete_tombstone_shares (content : string) : M Db () :=
  content ← uuid_arg content;
  d ← get_st;
  let ids := f_id <$> filter (λ f, tombstone_of content f = true) (files d) in
  put_st (set_shares (filter (λ s, s_file s ∉ ids) (shares d)) d).

(** DELETE FROM files WHERE content_id = $1 AND deleted_at IS NOT NULL. *)
Definition delete_tombstones (content : string) : M Db () :=
  content ← uuid_arg content;
  d ← get_st;
  let ids := f_id <$> filter (λ f, tombstone_of content f = true) (files d) in
  _ ← require (negb (existsb (λ s, bool_decide (s_file s ∈ ids)) (shares d))) foreign_key;
  put_st (set_files (filter (λ f, tombstone_of content f = false) (files d)) d).

(** UPDATE files / folders SET deleted_at = NOW() WHERE id = $1. *)
Definition delete_file_row (now : Z) (id : string) (f : file_row) : file_row :=
  if bool_decide (f_id f = id)
  then mk_file (f_id f) (f_name f) (f_owner f) (f_folder f) (f_content f) (f_created f) (Some now) else f.
Definition delete_folder_row (now : Z) (id : string) (r : folder_row) : folder_row :=
  if bool_decide (d_id r = id)
  then mk_folder (d_id r) (d_name r) (d_parent r) (d_owner r) (d_created r) (Some now) else r.

Definition soft_delete_file (id : string) : M Db () :=
  id ← uuid_arg id; d ← get_st; put_st (set_files (delete_file_row (clock d) id <$> files d) d).
Definition soft_delete_folder (id : string) : M Db () :=
  id ← uuid_arg id; d ← get_st; put_st (set_folders (delete_folder_row (clock d) id <$> folders d) d).

(** UPDATE folders SET name = $2 WHERE id = $1 AND deleted_at IS NULL. *)
Definition rename_row (id name : string) (r : folder_row) : folder_row :=
  if bool_decide (d_id r = id) && live_folder r
  then mk_folder (d_id r) name (d_parent r) (d_owner r) (d_created r) (d_deleted r) else r.
(** Row by row: the index refuses the new key of a row if it is that of another. *)
Fixpoint rename_rows (id name : string) (before after : list folder_row) : option (list folder_row) :=
  match after with
  | [] => Some before
  | r :: after =>
      let r' := rename_row id name r in
      if bool_decide (d_id r = id) && live_folder r && bool_decide (folder_key r' ∈ folder_key <$> filter live_folder (before ++ after))
      then None
      else rename_rows id name (before ++ [r']) after
  end.
Definition rename_folder (id name : string) : M Db () :=
  id ← uuid_arg id; name ← text_arg name;
  d ← get_st;
  match rename_rows id name [] (folders d) with
  | Some l => put_st (set_folders l d)
  | None => unique_violation "idx_folders_owner_parent_name"
  end.

(** UPDATE file_shares SET ... . *)
Definition revoke_row (r : share_row) : share_row :=
  mk_share (s_id r) (s_file r) (s_owner r) (s_token r) (s_password r) (s_expires r) (s_max r)
    (s_count r) (s_created r) true.
Definition count_row (r : share_row) : share_row :=
  mk_share (s_id r) (s_file r) (s_owner r) (s_token r) (s_password r) (s_expires r) (s_max r)
    (s_count r + 1) (s_created r) (s_revoked r).
Definition update_shares (p : share_row → bool) (f : share_row → share_row) : M Db Z :=
  d ← get_st;
  _ ← put_st (set_shares ((λ r, if p r then f r else r) <$> shares d) d);
  mret (Z.of_nat (length (filter (λ r, p r = true) (shares d)))).

End statements.

(** ** [bootstrap_schema] *)

Definition kSchemaVersion : Z := 2.

Definition current_version (d : Db) : Z := default 0%Z (version d).

(** DROP TABLE ... CASCADE of the four tables, and their new, empty versions. *)
Definition drop_file_metadata (d : Db) : Db :=
  set_shares [] (set_files [] (set_folders [] (set_contents [] d))).

Definition bootstrap_schema : M Db bool :=
  txn (
    d ← get_st;
    if bool_decide (current_version d < kSchemaVersion)%Z
    then _ ← put_st (set_version (Some kSchemaVersion) (drop_file_metadata d)); commit true
    else commit false).

(** ** The constraints of the schema *)

Record db_ok `{Postgres} (d : Db) : Prop := {
  ok_user_ids : NoDup (u_id <$> users d);
  ok_user_names : NoDup (u_name <$> users d);
  ok_content_ids : NoDup (c_id <$> contents d);
  ok_content_hashes : NoDup (c_hash <$> contents d);
  ok_folder_ids : NoDup (d_id <$> folders d);
  ok_folder_keys : NoDup (folder_key <$> filter live_folder (folders d));
  ok_file_ids : NoDup (f_id <$> files d);
  ok_file_keys : NoDup (file_key <$> filter live_file (files d));
  ok_share_ids : NoDup (s_id <$> shares d);
  ok_share_tokens : NoDup (s_token <$> shares d);
  ok_folder_fks r : r ∈ folders d →
    fk_folder (d_parent r) d = true ∧ fk_user (d_owner r) d = true;
  ok_file_fks r : r ∈ files d →
    fk_user (f_owner r) d = true ∧ fk_folder (f_folder r) d = true ∧ fk_content (f_content r) d = true;
  ok_share_fks r : r ∈ shares d → fk_file (s_file r) d = true ∧ fk_user (s_owner r) d = true;
  ok_ids i : i ∈ u_id <$> users d ∨ i ∈ c_id <$> contents d ∨ i ∈ d_id <$> folders d ∨
    i ∈ f_id <$> files d ∨ i ∈ s_id <$> shares d → ∃ k, k < uuid_next d ∧ i = uuid_gen k
}.

End Schema.

(** * A concrete server *)

(** Used only to show that the laws of [Postgres] can hold: identifiers are the
    texts [u0], [u1] and so on, and rows come in table order. *)
Definition toy_uuid (n : nat) : string := "u" +:+ to_string (Z.of_nat n).

Lemma toy_uuid_inj m n : toy_uuid m = toy_uuid n → m = n.
Proof. intros [= H]. apply to_string_inj in H. lia. Qed.

Definition toy_pg : Postgres.
Proof.
  refine {|
    uuid_in := λ s, if sempty s then None else Some s;
    uuid_gen := toy_uuid;
    text_in := Some;
    timestamptz_in := λ s, match stoll s with Ok z => Some z | Throw _ => None end;
    timestamptz_out := to_string;
    to_char_iso := to_string;
    pg_what := id;
    pg_scan := λ _ l, l;
    pg_sort_desc := λ _ _ l, l;
    pg_sort_text := λ _ _ l, l;
    uuid_gen_inj := toy_uuid_inj |}.
  all: try done.
  by intros [|c s] u; [|intros [= <-]].
Defined.
