(* ===== verification/Daos.v ===== *)
(** The data access objects: [ContentDao], [FileDao], [FolderDao], [ShareDao]
    (src/metadata) and [UserDao] (src/auth/user_dao.cpp), each operation one
    transaction of [Database]. *)
From S2P Require Import Prelude JsonValue ObjectStore Database.
Import Schema.

Module ContentDao.

Record ContentRecord := mk {
  id : string; hash : string; size : Z; chunk_hashes : string; mime_type : string }.

Section dao.
Context {J : JsonText} {P : Postgres}.

Definition row_to_content (r : content_row) : ContentRecord :=
  mk (c_id r) (c_hash r) (c_size r) (pg_jsonb_out (c_chunks r)) (c_mime r).

(** SELECT id FROM content_objects WHERE hash = $1. *)
Definition select_id (h : string) : M Db (option string) :=
  h ← text_arg h; d ← get_st;
  mret (head (c_id <$> filter (λ r, c_hash r = h) (contents d))).

Definition ensure_in_txn (content : ContentRecord) : M Db string :=
  existing ← select_id (hash content);
  match existing with
  | Some i => mret i
  | None =>
      inserted ← insert_content (hash content) (size content) (chunk_hashes content)
        (if sempty (mime_type content) then "application/octet-stream" else mime_type content);
      match inserted with
      | Some i => mret i
      | None =>
          raced ← select_id (hash content);
          match raced with
          | Some i => mret i
          | None => throw ERuntime "failed to resolve content object for hash"
          end
      end
  end.

Definition find_by_hash (h : string) : M Db (option ContentRecord) :=
  txn (h ← text_arg h; d ← get_st;
       no_commit (row_to_content <$> head (filter (λ r, c_hash r = h) (contents d)))).

Definition find_by_id (i : string) : M Db (option ContentRecord) :=
  txn (i ← uuid_arg i; d ← get_st;
       no_commit (row_to_content <$> head (filter (λ r, c_id r = i) (contents d)))).

(** Live files that refer to the content. *)
Definition refers (i : string) (f : file_row) : bool := bool_decide (f_content f = i) && live_file f.

Definition active_refcount (i : string) : M Db Z :=
  txn (i ← uuid_arg i; d ← get_st;
       no_commit (Z.of_nat (length (filter (λ f, refers i f = true) (files d))))).

Definition orphan (d : Db) (r : content_row) : bool := negb (existsb (refers (c_id r)) (files d)).

Definition list_orphans (limit : Z) : M Db (list ContentRecord) :=
  txn (d ← get_st;
       no_commit (row_to_content <$> take (Z.to_nat limit)
         (pg_scan (filter (λ r, orphan d r = true) (contents d))))).

Definition delete_by_id_in_txn (content_id : string) : M Db bool := delete_content content_id.

(** chunk_hashes @> jsonb_build_array($1::text). *)
Definition has_chunk (h : string) (j : json) : bool :=
  match j with
  | JArr l => existsb (λ x, match x with JStr s => bool_decide (s = h) | _ => false end) l
  | _ => false
  end.

Definition chunk_hash_in_use (h : string) : M Db bool :=
  h ← text_arg h; d ← get_st; mret (existsb (λ r, has_chunk h (c_chunks r)) (contents d)).

End dao.

End ContentDao.

Module FileDao.

Record FileRecord := mk {
  id : string; name : string; size : Z; hash : string; chunk_hashes : string; mime_type : string;
  created_at : string; owner_id : string; folder_id : string; content_id : string }.

Section dao.
Context {J : JsonText} {P : Postgres}.

Definition row_to_record (f : file_row) (c : content_row) : FileRecord :=
  mk (f_id f) (f_name f) (c_size c) (c_hash c) (pg_jsonb_out (c_chunks c)) (c_mime c)
     (to_char_iso (f_created f)) (f_owner f) (default "" (f_folder f)) (f_content f).

(** The join of [kFileSelect] for one file. *)
Definition join_content (d : Db) (f : file_row) : list FileRecord :=
  row_to_record f <$> filter (λ c, c_id c = f_content f) (contents d).

Definition file_to_content (file : FileRecord) : ContentDao.ContentRecord :=
  ContentDao.mk "" (hash file) (size file) (chunk_hashes file) (mime_type file).

Definition require_owner_id (file : FileRecord) : M Db () :=
  if sempty (owner_id file) then throw EInvalidArgument "owner_id is required" else mret ().

(** An empty folder is the root: the statement without folder_id. *)
Definition folder_param (f : string) : option string := if sempty f then None else Some f.

Definition insert (file : FileRecord) : M Db string :=
  _ ← require_owner_id file;
  txn (content_id ← ContentDao.ensure_in_txn (file_to_content file);
       i ← insert_file (name file) (owner_id file) (folder_param (folder_id file)) content_id;
       commit i).

Definition insert_link (file : FileRecord) (content_id : string) : M Db string :=
  _ ← require_owner_id file;
  if sempty content_id then throw EInvalidArgument "content_id is required"
  else txn (i ← insert_file (name file) (owner_id file) (folder_param (folder_id file)) content_id;
            commit i).

Definition find_by_id (i : string) : M Db (option FileRecord) :=
  txn (i ← uuid_arg i; d ← get_st;
       no_commit (head (concat (join_content d <$>
         filter (λ f, f_id f = i ∧ f_deleted f = None) (files d))))).

Definition find_owned_by_id (owner i : string) : M Db (option FileRecord) :=
  txn (i ← uuid_arg i; owner ← uuid_arg owner; d ← get_st;
       no_commit (head (concat (join_content d <$>
         filter (λ f, f_id f = i ∧ f_owner f = owner ∧ f_deleted f = None) (files d))))).

Definition find_content_by_hash (h : string) : M Db (option FileRecord) :=
  content ← ContentDao.find_by_hash h;
  mret ((λ c, mk (ContentDao.id c) "" (ContentDao.size c) (ContentDao.hash c) (ContentDao.chunk_hashes c)
           (ContentDao.mime_type c) "" "" "" (ContentDao.id c)) <$> content).

Definition soft_delete (i : string) : M Db () := txn (_ ← soft_delete_file i; commit ()).

(** WHERE folder_id IS NULL, or = $2. *)
Definition folder_arg (folder : string) : M Db (option string) :=
  if sempty folder then mret None else u ← uuid_arg folder; mret (Some u).

Definition list_by_folder (owner folder : string) (limit : Z) : M Db (list FileRecord) :=
  txn (owner ← uuid_arg owner; folder ← folder_arg folder; d ← get_st;
       no_commit (take (Z.to_nat limit) (concat (join_content d <$>
         pg_sort_desc f_created
           (filter (λ f, f_deleted f = None ∧ f_owner f = owner ∧ f_folder f = folder) (files d)))))).

Definition count_in_folder (folder : string) : M Db Z :=
  txn (folder ← uuid_arg folder; d ← get_st;
       no_commit (Z.of_nat (length (filter (λ f, f_folder f = Some folder ∧ f_deleted f = None) (files d))))).

(** Is there a live entry of that name? *)
Definition name_taken (owner : string) (folder : option string) (name : string) (d : Db) : bool :=
  existsb (λ f, bool_decide (f_owner f = owner ∧ f_folder f = folder ∧ f_name f = name ∧ f_deleted f = None)) (files d).

Definition name_exists_in_folder (owner folder name : string) : M Db bool :=
  txn (owner ← uuid_arg owner; folder ← folder_arg folder; name ← text_arg name; d ← get_st;
       no_commit (name_taken owner folder name d)).

(** The stem and the extension of a name: the last dot, unless it comes first. *)
Definition split_name (name : string) : string * string :=
  match srfind "." name with
  | Some (S k) => (stake (S k) name, sdrop (S k) name)
  | _ => (name, "")
  end.

Definition candidate (name : string) (n : Z) : string :=
  let '(stem, ext) := split_name name in stem +:+ "(" +:+ to_string n +:+ ")" +:+ ext.

(** for (int n = 1; n < 10000; ++n): [fuel] is the number of turns left. *)
Fixpoint unique_loop (fuel : nat) (n : Z) (time : Z) (name owner folder : string) : M Db string :=
  match fuel with
  | 0 => mret (candidate name time)
  | S fuel' =>
      taken ← name_exists_in_folder owner folder (candidate name n);
      if (taken : bool) then unique_loop fuel' (n + 1) time name owner folder
      else mret (candidate name n)
  end.

(** [time] is std::time at the end of the loop. *)
Definition make_unique_name (time : Z) (name owner folder : string) : M Db string :=
  taken ← name_exists_in_folder owner folder name;
  if (taken : bool) then unique_loop (Z.to_nat 9999) 1 time name owner folder else mret name.

End dao.

End FileDao.

Module FolderDao.

Record FolderRecord := mk {
  id : string; name : string; parent_id : string; owner_id : string; created_at : string }.

Section dao.
Context {J : JsonText} {P : Postgres}.

Definition row_to_folder (r : folder_row) : FolderRecord :=
  mk (d_id r) (d_name r) (default "" (d_parent r)) (d_owner r) (to_char_iso (d_created r)).

Definition insert (folder : FolderRecord) : M Db string :=
  txn (i ← insert_folder (name folder) (FileDao.folder_param (parent_id folder)) (owner_id folder); commit i).

Definition find_by_id (i : string) : M Db (option FolderRecord) :=
  txn (i ← uuid_arg i; d ← get_st;
       no_commit (row_to_folder <$> head (filter (λ r, d_id r = i ∧ d_deleted r = None) (folders d)))).

Definition list_by_parent (owner parent : string) (limit : Z) : M Db (list FolderRecord) :=
  txn (owner ← uuid_arg owner; parent ← FileDao.folder_arg parent; d ← get_st;
       no_commit (row_to_folder <$> take (Z.to_nat limit) (pg_sort_text d_name
         (filter (λ r, d_owner r = owner ∧ d_parent r = parent ∧ d_deleted r = None) (folders d))))).

Definition name_taken (owner : string) (parent : option string) (name : string) (d : Db) : bool :=
  existsb (λ r, bool_decide (d_owner r = owner ∧ d_parent r = parent ∧ d_name r = name ∧ d_deleted r = None)) (folders d).

Definition name_exists (owner parent name : string) : M Db bool :=
  txn (owner ← uuid_arg owner; parent ← FileDao.folder_arg parent; name ← text_arg name; d ← get_st;
       no_commit (name_taken owner parent name d)).

Definition soft_delete (i : string) : M Db () := txn (_ ← soft_delete_folder i; commit ()).

(** A live folder or file below the folder. *)
Definition nonempty (i : string) (d : Db) : bool :=
  existsb (λ r, bool_decide (d_parent r = Some i ∧ d_deleted r = None)) (folders d) ||
  existsb (λ f, bool_decide (f_folder f = Some i ∧ f_deleted f = None)) (files d).

Definition has_children (i : string) : M Db bool :=
  txn (i ← uuid_arg i; d ← get_st; no_commit (nonempty i d)).

Definition rename (i name : string) : M Db bool := txn (_ ← rename_folder i name; commit true).

End dao.

End FolderDao.

Module ShareDao.

Record ShareRecord := mk {
  id : string; file_id : string; owner_id : string; share_token : string; password_hash : string;
  expires_at : string; max_downloads : Z; download_count : Z; created_at : string; is_revoked : bool }.

Section dao.
Context {P : Postgres}.

Definition row_to_share (r : share_row) : ShareRecord :=
  mk (s_id r) (s_file r) (s_owner r) (s_token r) (default "" (s_password r))
     (match s_expires r with Some t => timestamptz_out t | None => "" end)
     (s_max r) (s_count r) (timestamptz_out (s_created r)) (s_revoked r).

Definition insert (r : ShareRecord) : M Db string :=
  txn (i ← insert_share (file_id r) (owner_id r) (share_token r) (password_hash r) (expires_at r) (max_downloads r);
       commit i).

Definition find_by_token (token : string) : M Db (option ShareRecord) :=
  txn (token ← text_arg token; d ← get_st;
       no_commit (row_to_share <$> head (filter (λ r, s_token r = token) (shares d)))).

Definition list_by_owner (owner : string) (limit offset : Z) : M Db (list ShareRecord) :=
  txn (owner ← uuid_arg owner; d ← get_st;
       no_commit (row_to_share <$> take (Z.to_nat limit) (drop (Z.to_nat offset)
         (pg_sort_desc s_created (filter (λ r, s_owner r = owner ∧ s_revoked r = false) (shares d)))))).

(** download_count is INT. *)
Definition increment_download_count (i : string) : M Db () :=
  txn (i ← uuid_arg i; d ← get_st;
       _ ← require (forallb (λ r, negb (bool_decide (s_id r = i)) || bool_decide (s_count r < int_max)%Z) (shares d))
             (sql_error "integer out of range");
       _ ← update_shares (λ r, bool_decide (s_id r = i)) count_row; commit ()).

Definition revoke (i owner : string) : M Db () :=
  txn (i ← uuid_arg i; owner ← uuid_arg owner;
       _ ← update_shares (λ r, bool_decide (s_id r = i ∧ s_owner r = owner)) revoke_row; commit ()).

Definition revoke_by_file_id (file : string) : M Db () :=
  txn (file ← uuid_arg file;
       _ ← update_shares (λ r, bool_decide (s_file r = file) && negb (s_revoked r)) revoke_row; commit ()).

Definition expired (now : Z) (r : share_row) : bool :=
  negb (s_revoked r) && match s_expires r with Some t => bool_decide (t < now)%Z | None => false end.

Definition revoke_expired : M Db Z :=
  txn (d ← get_st; n ← update_shares (expired (clock d)) revoke_row; commit n).

Definition token_exists (token : string) : M Db bool :=
  txn (token ← text_arg token; d ← get_st;
       no_commit (existsb (λ r, bool_decide (s_token r = token)) (shares d))).

End dao.

End ShareDao.

Module UserDao.

Record UserRecord := mk {
  id : string; username : string; password_hash : string;
  storage_quota : Z; used_storage : Z; created_at : string }.

Section dao.
Context {P : Postgres} {E : Evp}.

(** The same hexadecimal SHA-256 as the object store's. *)
Definition sha256 (input : string) : string := ObjectStore.sha256 input.

Definition row_to_user (r : user_row) : UserRecord :=
  mk (u_id r) (u_name r) (u_hash r) (u_quota r) (u_used r) (timestamptz_out (u_created r)).

Definition register_user (username password : string) : M Db (option string) :=
  try_catch
    (i ← txn (i ← insert_user username (sha256 password); commit i); mret (Some i))
    (λ e, if bool_decide (ex_kind e = EUnique) then mret None else lift_result (Throw e)).

Definition login (username password : string) : M Db (option UserRecord) :=
  let hash := sha256 password in
  txn (name ← text_arg username; hash ← text_arg hash; d ← get_st;
       no_commit (row_to_user <$> head (filter (λ r, u_name r = name ∧ u_hash r = hash) (users d)))).

Definition find_by_id (i : string) : M Db (option UserRecord) :=
  txn (i ← uuid_arg i; d ← get_st;
       no_commit (row_to_user <$> head (filter (λ r, u_id r = i) (users d)))).

(** used_storage is BIGINT: leaving its range is an error of the statement. *)
Definition update_used_storage (user_id : string) (delta : Z) : M Db () :=
  txn (i ← uuid_arg user_id; d ← get_st;
       let bump (r : user_row) :=
         if bool_decide (u_id r = i)
         then mk_user (u_id r) (u_name r) (u_hash r) (u_quota r) (u_used r + delta) (u_created r) else r in
       _ ← require (forallb (λ r, bool_decide (i64_min ≤ u_used (bump r) ≤ i64_max)%Z) (users d))
             (sql_error "bigint out of range");
       _ ← put_st (set_users (bump <$> users d) d);
       commit ()).

End dao.

End UserDao.
