(* ===== verification/DbPool.v ===== *)
(** The pool of database connections (src/metadata/db_pool.cpp): the queue behind its
    mutex, the guards that hold connections, and the threads that wait on its
    condition variable. *)
From S2P Require Import Prelude Steps.
From stdpp Require Import relations.

Module DbPool.

(** Connections by number. A thread holds at most one guard: the data access
    objects take one at the beginning of a call and call each other only with its
    transaction. [woken] are the waiting threads that were notified and have not
    taken the mutex again, [notifying] the calls of [release] between the unlock and
    [notify_one]. *)
Record DbPool := mk {
  pool_ : list nat; guards : gmap nat nat; asleep : list nat; woken : list nat; notifying : nat }.

(** The constructor opens [pool_size] connections. *)
Definition make (pool_size : Z) : DbPool := mk (seq 0 (Z.to_nat pool_size)) ∅ [] [] 0.

(** [cv_.wait] with its predicate, in the thread that has the mutex: the front
    connection, or sleep. *)
Definition take_or_sleep (t : nat) (p : DbPool) : DbPool :=
  match pool_ p with
  | c :: rest => mk rest (<[t := c]> (guards p)) (asleep p) (woken p) (notifying p)
  | [] => mk [] (guards p) (asleep p ++ [t]) (woken p) (notifying p)
  end.

Definition acquire (t : nat) (p : DbPool) : DbPool := take_or_sleep t p.

(** A notified thread takes the mutex again. *)
Definition resume (t : nat) (p : DbPool) : DbPool :=
  take_or_sleep t (mk (pool_ p) (guards p) (asleep p) (List.remove Nat.eq_dec t (woken p)) (notifying p)).

(** The guard's destructor: [release], up to the end of the lock. *)
Definition release (t : nat) (p : DbPool) : DbPool :=
  match guards p !! t with
  | Some c => mk (pool_ p ++ [c]) (delete t (guards p)) (asleep p) (woken p) (S (notifying p))
  | None => p
  end.

(** [notify_one] wakes some thread, if one sleeps; a thread may also wake by itself. *)
Definition wake (t : nat) (p : DbPool) : DbPool :=
  mk (pool_ p) (guards p) (List.remove Nat.eq_dec t (asleep p)) (t :: woken p) (notifying p).
Definition notify (t : option nat) (p : DbPool) : DbPool :=
  let p := mk (pool_ p) (guards p) (asleep p) (woken p) (pred (notifying p)) in
  match t with Some t => wake t p | None => p end.

Definition idle (t : nat) (p : DbPool) : Prop := guards p !! t = None ∧ t ∉ asleep p ∧ t ∉ woken p.

Inductive step : DbPool → DbPool → Prop :=
  | step_acquire t p : idle t p → step p (acquire t p)
  | step_resume t p : t ∈ woken p → step p (resume t p)
  | step_release t p : step p (release t p)
  | step_notify t p : 0 < notifying p → t ∈ asleep p → step p (notify (Some t) p)
  | step_notify_none p : 0 < notifying p → asleep p = [] → step p (notify None p)
  | step_spurious t p : t ∈ asleep p → step p (wake t p).

(** The connections in use. *)
Definition in_use (p : DbPool) : list nat := (map_to_list (guards p)).*2.

(** A waiting thread sleeps only while every pooled connection has someone coming
    for it. *)
Definition awaited (p : DbPool) : Prop := asleep p ≠ [] → length (pool_ p) ≤ length (woken p) + notifying p.

Record ok (n : Z) (p : DbPool) : Prop := mk_ok {
  ok_all : pool_ p ++ in_use p ≡ₚ seq 0 (Z.to_nat n);
  ok_threads : NoDup (asleep p ++ woken p) ∧ ∀ t, t ∈ asleep p ++ woken p → guards p !! t = None;
  ok_awaited : awaited p
}.

Lemma in_use_insert t c g : g !! t = None → (map_to_list (<[t := c]> g)).*2 ≡ₚ c :: (map_to_list (g : gmap nat nat)).*2.
Proof. intros H. by rewrite map_to_list_insert. Qed.

Lemma in_use_delete t c g : g !! t = Some c → (map_to_list (g : gmap nat nat)).*2 ≡ₚ c :: (map_to_list (delete t g)).*2.
Proof.
  intros H. rewrite <- (insert_delete_id g t c H) at 1. rewrite in_use_insert; [done|]. by rewrite lookup_delete_eq.
Qed.

Lemma remove_perm t (l : list nat) : NoDup l → t ∈ l → l ≡ₚ t :: List.remove Nat.eq_dec t l.
Proof.
  induction l as [|x l IH]; [by intros _ ?%elem_of_nil|]. intros [Hx Hl]%NoDup_cons [->|Ht]%elem_of_cons; cbn; destruct Nat.eq_dec; try done.
  - f_equiv. rewrite List.notin_remove; [done|]. by rewrite <- list_elem_of_In.
  - subst. done.
  - rewrite (IH Hl Ht) at 1. apply perm_swap.
Qed.

(** Taking a connection or falling asleep, for a thread that holds none. *)
Lemma take_ok n t p : guards p !! t = None → t ∉ asleep p ++ woken p → pool_ p ++ in_use p ≡ₚ seq 0 (Z.to_nat n) →
  NoDup (asleep p ++ woken p) → (∀ t, t ∈ asleep p ++ woken p → guards p !! t = None) →
  (asleep p ≠ [] → length (pool_ p) ≤ S (length (woken p)) + notifying p) → ok n (take_or_sleep t p).
Proof.
  intros Hg Hn Ha Hd Hf Hw. unfold take_or_sleep. destruct (pool_ p) as [|c rest] eqn:Ep; split; cbn in *.
  - done.
  - split.
    + rewrite <- (assoc_L (++)). cbn. rewrite <- Permutation_middle. by apply NoDup_cons.
    + intros t' Ht. rewrite <- (assoc_L (++)) in Ht. apply elem_of_app in Ht as [?|[->|?]%elem_of_cons]; [|done|]; apply Hf, elem_of_app; auto.
  - intros _. cbn. lia.
  - unfold in_use. cbn. rewrite in_use_insert by done. rewrite <- Ha. by rewrite <- Permutation_middle.
  - split; [done|]. intros t' Ht. rewrite lookup_insert_ne; [by apply Hf|]. by intros ->.
  - intros Hs. specialize (Hw Hs). cbn in *. lia.
Qed.

Lemma wake_ok n t p : pool_ p ++ in_use p ≡ₚ seq 0 (Z.to_nat n) →
  NoDup (asleep p ++ woken p) ∧ (∀ t, t ∈ asleep p ++ woken p → guards p !! t = None) →
  (asleep p ≠ [] → length (pool_ p) ≤ S (length (woken p)) + notifying p) → t ∈ asleep p → ok n (wake t p).
Proof.
  intros Ha [Hd Hf] Hw Ht. assert (asleep p ≡ₚ t :: List.remove Nat.eq_dec t (asleep p)) as Hr.
  { apply remove_perm; [by apply NoDup_app in Hd as (?&_&_)|done]. }
  assert (List.remove Nat.eq_dec t (asleep p) ++ t :: woken p ≡ₚ asleep p ++ woken p) as Hr2.
  { rewrite Hr at 2. cbn. by rewrite <- Permutation_middle. }
  split; cbn; [done| |].
  - rewrite Hr2. split; [done|]. intros t' Ht'. apply Hf. by rewrite <- Hr2.
  - intros _. assert (asleep p ≠ []) as Hne by (intros E; rewrite E in Ht; by apply elem_of_nil in Ht). specialize (Hw Hne). cbn. lia.
Qed.

Lemma pool_step_ok n p p' : ok n p → step p p' → ok n p'.
Proof.
  intros [Ha [Hd Hf] Hw] Hs. destruct Hs as [t p (Hg&H1&H2)|t p Ht|t p|t p Hn Ht|p Hn He|t p Ht].
  - apply take_ok; [done|by apply not_elem_of_app|done..|]. intros H. specialize (Hw H). lia.
  - assert (woken p ≡ₚ t :: List.remove Nat.eq_dec t (woken p)) as Hr by (apply remove_perm; [by apply NoDup_app in Hd as (_&_&?)|done]).
    assert (asleep p ++ woken p ≡ₚ t :: asleep p ++ List.remove Nat.eq_dec t (woken p)) as Hr2.
    { rewrite Hr at 1. by rewrite <- Permutation_middle. }
    rewrite Hr2 in Hd. apply NoDup_cons in Hd as [Hnt Hd].
    apply take_ok; cbn; [apply Hf, elem_of_app; by right|done..| |].
    + intros t' Ht'. apply Hf. rewrite Hr2. by right.
    + intros H. specialize (Hw H). apply Permutation_length in Hr. cbn in Hr. lia.
  - unfold release. destruct (guards p !! t) as [c|] eqn:Eg; [|by split]. split; cbn.
    + rewrite <- Ha. unfold in_use. rewrite (in_use_delete t c (guards p)) by done. cbn. by rewrite <- (assoc_L (++)).
    + split; [done|]. intros t' Ht'. destruct (decide (t = t')) as [->|]; [by rewrite lookup_delete_eq|]. rewrite lookup_delete_ne by done. by apply Hf.
    + intros H. specialize (Hw H). cbn. rewrite length_app. cbn. lia.
  - apply wake_ok; cbn; [done|done| |done]. intros H. specialize (Hw H). lia.
  - split; cbn; [done|done|]. by intros H.
  - apply wake_ok; [done|done| |done]. intros H. specialize (Hw H). lia.
Qed.

Lemma make_ok n : ok n (make n).
Proof.
  split; cbn; [by rewrite app_nil_r| |by intros ?].
  split; [apply NoDup_nil_2|by intros t ?%elem_of_nil].
Qed.

Lemma pool_reachable n p : rtc step (make n) p → ok n p.
Proof.
  intros Hr. pose proof (make_ok n) as H. revert H. induction Hr as [|p1 p2 p3 Hs _ IH]; [done|]. intros H. apply IH. by eapply pool_step_ok.
Qed.

(** C29. No connection is lost, duplicated or used by two threads at once, and no thread
    sleeps for nothing: in every interleaving of acquiring, releasing, notifying and
    spurious wake-ups, the connections in the queue and those behind guards are
    together exactly the ones opened at the start, each once; so a guard never shares
    its connection; and while a thread sleeps in [acquire], there are at least as many
    threads woken or about to be notified as there are connections in the queue. *)
Theorem pool_conserves (n : Z) (p : DbPool) (Hr : rtc step (make n) p) :
  pool_ p ++ in_use p ≡ₚ seq 0 (Z.to_nat n) ∧
  (∀ t t' c, guards p !! t = Some c → guards p !! t' = Some c → t = t' ∧ c ∉ pool_ p) ∧
  (asleep p ≠ [] → length (pool_ p) ≤ length (woken p) + notifying p).
Proof.
  destruct (pool_reachable n p Hr) as [Ha _ Hw].
  split_and!; [done| |done]. intros t t' c Ht Ht'. assert (NoDup (pool_ p ++ in_use p)) as Hd by (rewrite Ha; apply NoDup_seq).
  apply NoDup_app in Hd as (_&Hpool&Hd). unfold in_use in *. split.
  - destruct (decide (t = t')) as [|Hne]; [done|]. exfalso. rewrite (in_use_delete t c) in Hd by done. apply NoDup_cons in Hd as [Hnin _].
    apply Hnin, list_elem_of_fmap. exists (t', c). split; [done|]. apply elem_of_map_to_list. by rewrite lookup_delete_ne.
  - intros Hin. eapply Hpool; [exact Hin|]. apply list_elem_of_fmap. exists (t, c). split; [done|]. by apply elem_of_map_to_list.
Qed.

(** One connection, two threads: the second waits for the first. *)
Definition contended : DbPool := acquire 2 (acquire 1 (make 1)).
Lemma pool_conserves_witness : pool_ contended ++ in_use contended ≡ₚ seq 0 1 ∧ asleep contended = [2].
Proof.
  split; [|reflexivity]. apply (pool_conserves 1 contended).
  eapply rtc_l; [apply (step_acquire 1); split_and!; [done|by intros ?%elem_of_nil..]|].
  apply rtc_once, (step_acquire 2). split_and!; [done|by intros ?%elem_of_nil..].
Defined.

(** A pool that was opened with no connection never gives one. *)
Lemma empty_pool_blocks n p t c : (n ≤ 0)%Z → rtc step (make n) p → guards p !! t ≠ Some c.
Proof.
  intros Hn Hr Ht. destruct (pool_reachable n p Hr) as [Ha _ _]. assert (Z.to_nat n = 0) as Hz by lia. rewrite Hz in Ha. cbn in Ha.
  symmetry in Ha. apply Permutation_nil_l in Ha. symmetry in Ha. apply app_eq_nil in Ha as [_ Ha].
  unfold in_use in Ha. apply fmap_nil_inv in Ha. apply map_to_list_empty_iff in Ha. by rewrite Ha, lookup_empty in Ht.
Qed.

End DbPool.
