(* ===== verification/Constraints.v ===== *)
(** The constraints of the schema are invariants: every statement that succeeds
    keeps [db_ok], so every transaction and every data access object does. *)
From S2P Require Import Prelude Steps JsonValue ObjectStore Database Daos.
Import Schema.

Module Constraints.

(** * Transactions and conversions *)

Lemma txn_ok {A} (m : M Db (A * bool)) d a d' : txn m d = (Ok a, d') →
  m d = (Ok (a, true), d') ∨ (d' = d ∧ ∃ d1, m d = (Ok (a, false), d1)).
Proof. unfold txn. destruct (m d) as [[[x []]|e] d1] eqn:E; intros [= <- <-]; eauto. Qed.

Lemma steps_txn {A} (R : Db → Db → Prop) `{!PreOrder R} (m : M Db (A * bool)) :
  ok_steps R m → steps R (txn m).
Proof.
  intros Hm d. unfold txn. destruct (m d) as [[[a []]|e] d'] eqn:E; cbn; try reflexivity. by eapply Hm.
Qed.

(** A transaction that does not commit leaves the database alone. *)
Lemma txn_read {A} (m : M Db A) d : snd (txn (a ← m; no_commit a) d) = d.
Proof. unfold txn, mbind, M_mbind. by destruct (m d) as [[a|e] d']. Qed.

Section facts.
Context {P : Postgres}.

Lemma uuid_arg_ok s d u d' : uuid_arg s d = (Ok u, d') → uuid_in s = Some u ∧ d' = d.
Proof. unfold uuid_arg. destruct (uuid_in s); [by intros [= -> ->]|done]. Qed.
Lemma text_arg_ok s d t d' : text_arg s d = (Ok t, d') → text_in s = Some t ∧ d' = d.
Proof. unfold text_arg. destruct (text_in s); [by intros [= -> ->]|done]. Qed.
Lemma require_ok b k w d x d' : require b (throw k w) d = (Ok x, d') → b = true ∧ d' = d.
Proof. destruct b; [by intros [= _ ->]|done]. Qed.
Lemma opt_uuid_ok (p : option string) d x d' :
  (match p with None => mret None | Some p => u ← uuid_arg p; mret (Some u) end : M Db (option string)) d = (Ok x, d') →
  match p with None => x = None | Some s => ∃ u, uuid_in s = Some u ∧ x = Some u end ∧ d' = d.
Proof.
  destruct p as [p|]; [|by intros [= <- <-]]. intros (u&d1&Hu&H)%bind_ok.
  apply uuid_arg_ok in Hu as [? ->]. injection H as <- <-. eauto.
Qed.
Lemma fresh_ok ids d i d' : fresh_id ids d = (Ok i, d') →
  i = uuid_gen (uuid_next d) ∧ (i ∉ ids) ∧ d' = set_next (S (uuid_next d)) d.
Proof. unfold fresh_id. case_bool_decide; [done|]. by intros [= <- <-]. Qed.

End facts.

(** [run_inv] with the statements' own checks. *)
Ltac db_inv :=
  repeat (run_inv; match goal with
  | H : uuid_arg _ _ = (Ok _, _) |- _ => apply uuid_arg_ok in H as [? ?]; subst
  | H : text_arg _ _ = (Ok _, _) |- _ => apply text_arg_ok in H as [? ?]; subst
  | H : _ = (Ok _, _) |- _ => apply opt_uuid_ok in H as [? ?]; subst
  | H : fresh_id _ _ = (Ok _, _) |- _ => apply fresh_ok in H as (?&?&?); subst
  | H : require _ _ _ = (Ok _, _) |- _ => apply require_ok in H as [? ?]; subst
  end); run_inv.

(** * Lists *)

Lemma NoDup_snoc {A} (l : list A) x : NoDup l → x ∉ l → NoDup (l ++ [x]).
Proof. intros. apply NoDup_app. split; [done|]. split; [set_solver|]. apply NoDup_singleton. Qed.

Lemma NoDup_fmap_snoc {A B} (f : A → B) l x : NoDup (f <$> l) → f x ∉ f <$> l → NoDup (f <$> l ++ [x]).
Proof. intros. rewrite fmap_app. by apply NoDup_snoc. Qed.

Lemma NoDup_fmap_filter {A B} (f : A → B) (p : A → Prop) `{!∀ x, Decision (p x)} l :
  NoDup (f <$> l) → NoDup (f <$> filter p l).
Proof. intros. eapply sublist_NoDup; [done|]. apply fmap_sublist, sublist_filter. Qed.

Lemma elem_fmap_filter {A B} (f : A → B) (p : A → Prop) `{!∀ x, Decision (p x)} (l : list A) y :
  y ∈ f <$> filter p l → y ∈ f <$> l.
Proof. intros (x&->&[_ Hx]%list_elem_of_filter)%list_elem_of_fmap. by apply list_elem_of_fmap_2. Qed.

Lemma filter_filter_sublist {A} (p q : A → Prop) `{!∀ x, Decision (p x), !∀ x, Decision (q x)} (l : list A) :
  filter q (filter p l) `sublist_of` filter q l.
Proof.
  induction l as [|x l IH]; [done|]. rewrite !filter_cons.
  destruct (decide (p x)); rewrite ?filter_cons; case_decide; first [done | by constructor].
Qed.

Lemma filter_ext_in {A} (p q : A → Prop) `{!∀ x, Decision (p x), !∀ x, Decision (q x)} (l : list A) :
  (∀ x, x ∈ l → p x ↔ q x) → filter p l = filter q l.
Proof.
  induction l as [|x l IH]; intros Hpq; [done|]. rewrite !filter_cons, IH by (intros; apply Hpq; by right).
  destruct (decide (p x)) as [Hp|Hp], (decide (q x)) as [Hq|Hq]; try done; exfalso; apply (Hpq x) in Hp || apply (Hpq x) in Hq; try done; by left.
Qed.

Lemma filter_all {A} (p : A → Prop) `{!∀ x, Decision (p x)} (l : list A) : (∀ x, x ∈ l → p x) → filter p l = l.
Proof.
  induction l as [|x l IH]; intros Hp; [done|]. rewrite filter_cons, decide_True by (apply Hp; by left).
  f_equal. apply IH. intros. apply Hp. by right.
Qed.

(** Rewriting rows in place keeps what it does not touch. *)
Lemma fmap_fmap_id {A B} (f : A → B) (g : A → A) (l : list A) : (∀ x, f (g x) = f x) → f <$> (g <$> l) = f <$> l.
Proof. intros H. rewrite <- list_fmap_compose. apply list_fmap_ext. intros. apply H. Qed.

(** * The rows of another state are still there *)

Definition ids_grow (d d' : Db) : Prop :=
  (u_id <$> users d) ⊆ (u_id <$> users d') ∧ (c_id <$> contents d) ⊆ (c_id <$> contents d') ∧
  (d_id <$> folders d) ⊆ (d_id <$> folders d') ∧ (f_id <$> files d) ⊆ (f_id <$> files d').

Section fks.
Context (d d' : Db) (H : ids_grow d d').

Lemma fk_user_mono i : fk_user i d = true → fk_user i d' = true.
Proof using H. unfold fk_user. rewrite !bool_decide_eq_true. apply H. Qed.
Lemma fk_content_mono i : fk_content i d = true → fk_content i d' = true.
Proof using H. unfold fk_content. rewrite !bool_decide_eq_true. apply H. Qed.
Lemma fk_folder_mono i : fk_folder i d = true → fk_folder i d' = true.
Proof using H. unfold fk_folder. destruct i; [|done]. rewrite !bool_decide_eq_true. apply H. Qed.
Lemma fk_file_mono i : fk_file i d = true → fk_file i d' = true.
Proof using H. unfold fk_file. rewrite !bool_decide_eq_true. apply H. Qed.

End fks.

#[export] Hint Resolve fk_user_mono fk_content_mono fk_folder_mono fk_file_mono : solar.

Section invariant.
Context {P : Postgres}.

(** What the foreign keys ask of a database. *)
Definition fks_ok (d : Db) : Prop :=
  (∀ r, r ∈ folders d → fk_folder (d_parent r) d = true ∧ fk_user (d_owner r) d = true) ∧
  (∀ r, r ∈ files d → fk_user (f_owner r) d = true ∧ fk_folder (f_folder r) d = true ∧ fk_content (f_content r) d = true) ∧
  (∀ r, r ∈ shares d → fk_file (s_file r) d = true ∧ fk_user (s_owner r) d = true).

Lemma db_ok_fks d : db_ok d → fks_ok d.
Proof. intros []. by split_and!. Qed.

(** Old rows keep their referents when identifiers only grow. *)
Lemma fks_mono d d' : ids_grow d d' → fks_ok d →
  (∀ r, r ∈ folders d → fk_folder (d_parent r) d' = true ∧ fk_user (d_owner r) d' = true) ∧
  (∀ r, r ∈ files d → fk_user (f_owner r) d' = true ∧ fk_folder (f_folder r) d' = true ∧ fk_content (f_content r) d' = true) ∧
  (∀ r, r ∈ shares d → fk_file (s_file r) d' = true ∧ fk_user (s_owner r) d' = true).
Proof.
  intros Hg (H1&H2&H3). split_and!; intros r Hr.
  - destruct (H1 r Hr). split; eauto with solar.
  - destruct (H2 r Hr) as (?&?&?). split_and!; eauto with solar.
  - destruct (H3 r Hr). split; eauto with solar.
Qed.

(** Every identifier was drawn from the generator. *)
Definition drawn (n : nat) (i : string) : Prop := ∃ k, k < n ∧ i = uuid_gen k.

Lemma drawn_S n i : drawn n i → drawn (S n) i.
Proof. intros (k&?&?). exists k. split; [lia|done]. Qed.
Lemma drawn_new n : drawn (S n) (uuid_gen n).
Proof. exists n. split; [lia|done]. Qed.

End invariant.

#[export] Hint Resolve drawn_S drawn_new : solar.

(** The uniqueness constraints. *)
Definition keys_ok (d : Db) : Prop :=
  (NoDup (u_id <$> users d) ∧ NoDup (u_name <$> users d)) ∧
  (NoDup (c_id <$> contents d) ∧ NoDup (c_hash <$> contents d)) ∧
  (NoDup (d_id <$> folders d) ∧ NoDup (folder_key <$> filter live_folder (folders d))) ∧
  (NoDup (f_id <$> files d) ∧ NoDup (file_key <$> filter live_file (files d))) ∧
  (NoDup (s_id <$> shares d) ∧ NoDup (s_token <$> shares d)).

Lemma db_ok_keys `{Postgres} d : db_ok d → keys_ok d.
Proof. intros []. by unfold keys_ok. Qed.

(** The identifiers in use. *)
Definition in_use (d : Db) (i : string) : Prop :=
  i ∈ u_id <$> users d ∨ i ∈ c_id <$> contents d ∨ i ∈ d_id <$> folders d ∨
  i ∈ f_id <$> files d ∨ i ∈ s_id <$> shares d.

Lemma db_ok_intro `{Postgres} d : keys_ok d → fks_ok d → (∀ i, in_use d i → drawn (uuid_next d) i) → db_ok d.
Proof. intros ((?&?)&(?&?)&(?&?)&(?&?)&(?&?)) (?&?&?) Hids. by constructor. Qed.

(** Rows of a grown database: old ones, perhaps changed where no foreign key
    is, or new ones that were checked. *)
Lemma fks_grow d d' : ids_grow d d' → fks_ok d →
  (∀ r, r ∈ folders d' → (∃ r0, r0 ∈ folders d ∧ d_parent r0 = d_parent r ∧ d_owner r0 = d_owner r) ∨
     (fk_folder (d_parent r) d && fk_user (d_owner r) d = true)) →
  (∀ r, r ∈ files d' → (∃ r0, r0 ∈ files d ∧ f_owner r0 = f_owner r ∧ f_folder r0 = f_folder r ∧ f_content r0 = f_content r) ∨
     (fk_user (f_owner r) d && fk_folder (f_folder r) d && fk_content (f_content r) d = true)) →
  (∀ r, r ∈ shares d' → (∃ r0, r0 ∈ shares d ∧ s_file r0 = s_file r ∧ s_owner r0 = s_owner r) ∨
     (fk_file (s_file r) d && fk_user (s_owner r) d = true)) →
  fks_ok d'.
Proof.
  intros Hg Hok Hd Hf Hs. destruct (fks_mono d d' Hg Hok) as (H1&H2&H3). split_and!; intros r Hr.
  - destruct (Hd r Hr) as [(r0&Hin&<-&<-)|[??]%andb_true_iff]; [by apply H1|]. split; eauto with solar.
  - destruct (Hf r Hr) as [(r0&Hin&<-&<-&<-)|[[??]%andb_true_iff ?]%andb_true_iff]; [by apply H2|].
    split_and!; eauto with solar.
  - destruct (Hs r Hr) as [(r0&Hin&<-&<-)|[??]%andb_true_iff]; [by apply H3|]. split; eauto with solar.
Qed.

(** The new row of an insertion, among the old ones. *)
Lemma in_snoc {A} (l : list A) x (Q : A → Prop) r : r ∈ l ++ [x] → (r ∈ l → Q r) → Q x → Q r.
Proof. intros [?|H%list_elem_of_singleton]%elem_of_app; subst; auto. Qed.

Ltac in_snoc := let r := fresh "r" in let H := fresh "Hr" in intros r H;
  first [left; exists r; by split_and!
        |pattern r; apply (in_snoc _ _ _ _ H); [intros ?; left; exists r; by split_and!|by right]].

Ltac ids_grown := unfold ids_grow; cbn; rewrite ?fmap_app; split_and!;
  first [done|apply list_subseteq_app_l; done|set_solver].

Lemma live_filter_folder l r : d_deleted r = None → filter live_folder (l ++ [r]) = filter live_folder l ++ [r].
Proof. intros H. rewrite filter_app. f_equal. unfold filter. cbn. rewrite decide_True; [done|]. unfold live_folder. by rewrite H. Qed.
Lemma live_filter_file l r : f_deleted r = None → filter live_file (l ++ [r]) = filter live_file l ++ [r].
Proof. intros H. rewrite filter_app. f_equal. unfold filter. cbn. rewrite decide_True; [done|]. unfold live_file. by rewrite H. Qed.

Ltac keys_kept := unfold keys_ok in *; cbn in *; destruct_and!;
  rewrite ?live_filter_folder, ?live_filter_file by done; split_and!; try done; try by apply NoDup_fmap_snoc.

Ltac ids_drawn Hids := let i := fresh "i" in intros i; unfold in_use; cbn; rewrite ?fmap_app, ?elem_of_app; cbn;
  rewrite ?list_elem_of_singleton; intros ?; destruct_or?; subst;
  first [apply drawn_new | apply drawn_S, Hids; unfold in_use; tauto].

Ltac insert_kept Hok := apply db_ok_intro;
  [keys_kept|eapply fks_grow; [|by apply db_ok_fks|..]; [ids_grown|in_snoc..]
  |ids_drawn (ok_ids _ Hok)].

Section statements.
Context {P : Postgres}.

Lemma insert_user_ok n h : ok_steps (keeps db_ok) (insert_user n h).
Proof.
  intros d i d' E Hok. unfold insert_user in E. db_inv.
  rewrite negb_true_iff, bool_decide_eq_false in *. cbn in *.
  pose proof (db_ok_keys _ Hok). insert_kept Hok.
Qed.

Lemma insert_content_ok `{JsonText} h sz ch mi : ok_steps (keeps db_ok) (insert_content h sz ch mi).
Proof.
  intros d i d' E Hok. unfold insert_content in E. db_inv. case_match; [|done]. db_inv.
  cbn in *. pose proof (db_ok_keys _ Hok). case_bool_decide; db_inv.
  - apply db_ok_intro; [done|exact (db_ok_fks _ Hok)|]. intros i Hi. apply drawn_S. by apply (ok_ids _ Hok).
  - insert_kept Hok.
Qed.

Lemma insert_folder_ok n p o : ok_steps (keeps db_ok) (insert_folder n p o).
Proof.
  intros d i d' E Hok. unfold insert_folder in E. db_inv.
  rewrite negb_true_iff, bool_decide_eq_false in *. cbn in *.
  pose proof (db_ok_keys _ Hok).
  insert_kept Hok.
Qed.

Lemma insert_file_ok n o p c : ok_steps (keeps db_ok) (insert_file n o p c).
Proof.
  intros d i d' E Hok. unfold insert_file in E. db_inv.
  rewrite negb_true_iff, bool_decide_eq_false in *. cbn in *.
  pose proof (db_ok_keys _ Hok). insert_kept Hok.
Qed.

Lemma insert_share_ok f o t p e m : ok_steps (keeps db_ok) (insert_share f o t p e m).
Proof.
  intros d i d' E Hok. unfold insert_share in E. db_inv.
  match goal with H : (if sempty e then _ else _) _ = (_, ?d1) |- _ =>
    assert (d1 = d) as -> by (destruct (sempty e); [|case_match]; db_inv; done) end.
  rewrite negb_true_iff, bool_decide_eq_false in *. cbn in *.
  pose proof (db_ok_keys _ Hok). insert_kept Hok.
Qed.

(** Deleting and updating: a table's rows are filtered or rewritten. *)
Lemma filter_kill {A} (live : A → Prop) (k : A → A) `{!∀ x, Decision (live x)} (l : list A) :
  (∀ x, k x = x ∨ ¬ live (k x)) → filter live (k <$> l) `sublist_of` filter live l.
Proof.
  intros Hk. induction l as [|x l IH]; [done|]. rewrite fmap_cons, !filter_cons.
  destruct (Hk x) as [->|Hx]; [case_decide; [by constructor|done]|].
  rewrite decide_False by done. case_decide; [by constructor|done].
Qed.

Lemma in_use_same d d' : (∀ i, in_use d' i → in_use d i) → uuid_next d' = uuid_next d → db_ok d →
  ∀ i, in_use d' i → drawn (uuid_next d') i.
Proof. intros H -> Hok i Hi. by apply (ok_ids _ Hok), H. Qed.

Lemma soft_delete_file_ok i : ok_steps (keeps db_ok) (soft_delete_file i).
Proof.
  intros d u d' E Hok. unfold soft_delete_file in E. db_inv. pose proof (db_ok_keys _ Hok).
  set (g := delete_file_row (clock d) _).
  assert (∀ r, f_id (g r) = f_id r ∧ f_owner (g r) = f_owner r ∧ f_folder (g r) = f_folder r ∧ f_content (g r) = f_content r)
    as Hg by (intros r; subst g; unfold delete_file_row; by case_bool_decide).
  assert (f_id <$> (g <$> files d) = f_id <$> files d) as Hids by (apply fmap_fmap_id; apply Hg).
  apply db_ok_intro.
  - keys_kept; rewrite ?Hids; try done. eapply sublist_NoDup; [|apply fmap_sublist, (filter_kill _)]; [done|].
    intros r. subst g. unfold delete_file_row. case_bool_decide; [right|by left]. intros H'. by apply bool_decide_unpack in H'.
  - eapply fks_grow; [|by apply db_ok_fks|..].
    + unfold ids_grow. cbn. by rewrite Hids.
    + in_snoc.
    + intros r (r0&->&Hr)%list_elem_of_fmap. left. exists r0. destruct (Hg r0) as (?&?&?&?). by split_and!.
    + in_snoc.
  - apply (in_use_same d); [|done|done]. intros j. unfold in_use. cbn. by rewrite Hids.
Qed.

(** Folders rewritten in place, names apart. *)
Lemma map_folders_ok d g : db_ok d →
  (∀ r, d_id (g r) = d_id r ∧ d_parent (g r) = d_parent r ∧ d_owner (g r) = d_owner r) →
  NoDup (folder_key <$> filter live_folder (g <$> folders d)) → db_ok (set_folders (g <$> folders d) d).
Proof.
  intros Hok Hg Hkeys. pose proof (db_ok_keys _ Hok).
  assert (d_id <$> (g <$> folders d) = d_id <$> folders d) as Hids by (apply fmap_fmap_id; apply Hg).
  apply db_ok_intro.
  - keys_kept; by rewrite ?Hids.
  - eapply fks_grow; [|by apply db_ok_fks|..].
    + unfold ids_grow. cbn. by rewrite Hids.
    + intros r (r0&->&Hr)%list_elem_of_fmap. left. exists r0. destruct (Hg r0) as (?&?&?). by split_and!.
    + in_snoc.
    + in_snoc.
  - apply (in_use_same d); [|done|done]. intros j. unfold in_use. cbn. by rewrite Hids.
Qed.

Lemma soft_delete_folder_ok i : ok_steps (keeps db_ok) (soft_delete_folder i).
Proof.
  intros d u d' E Hok. unfold soft_delete_folder in E. db_inv. apply map_folders_ok; [done|..].
  - intros r. unfold delete_folder_row. by case_bool_decide.
  - eapply sublist_NoDup; [|apply fmap_sublist, (filter_kill _)]; [apply Hok|].
    intros r. unfold delete_folder_row. case_bool_decide; [right|by left]. intros H'. by apply bool_decide_unpack in H'.
Qed.

(** The rows a rename makes, and their keys. *)
Lemma rename_rows_spec i n before after l : rename_rows i n before after = Some l →
  l = before ++ (rename_row i n <$> after) ∧
  (NoDup (folder_key <$> filter live_folder (before ++ after)) → NoDup (folder_key <$> filter live_folder l)).
Proof.
  revert before. induction after as [|r after IH]; intros before; cbn [rename_rows].
  { intros [= <-]. by rewrite !app_nil_r. }
  destruct (_ && _) eqn:Ek; [done|]. intros [-> Hk]%IH. split; [by rewrite <- app_assoc|]. intros Hn. apply Hk. clear IH Hk.
  rewrite <- app_assoc. cbn [app]. unfold rename_row in *. destruct (bool_decide (d_id r = i) && live_folder r) eqn:Em; [|done].
  cbn [andb] in Ek. apply bool_decide_eq_false in Ek. set (r' := mk_folder _ _ _ _ _ _) in *.
  apply andb_true_iff in Em as [_ Hl].
  assert (before ++ r' :: after ≡ₚ r' :: (before ++ after)) as -> by (by rewrite Permutation_middle).
  assert (before ++ r :: after ≡ₚ r :: (before ++ after)) as Hp by (by rewrite Permutation_middle). rewrite Hp in Hn.
  assert (live_folder r' = true) as Hl' by done.
  rewrite filter_cons_True in Hn |- * by (by rewrite ?Hl, ?Hl'). rewrite !fmap_cons in *. apply NoDup_cons in Hn as [_ Hn]. by apply NoDup_cons.
Qed.

Lemma rename_folder_ok i n : ok_steps (keeps db_ok) (rename_folder i n).
Proof.
  intros d u d' E Hok. unfold rename_folder in E. db_inv. case_match eqn:El; [db_inv|done].
  apply rename_rows_spec in El as [-> Hk]. cbn [app] in *.
  apply map_folders_ok; [done| |apply Hk, Hok]. intros r. unfold rename_row. by case_match.
Qed.

(** Shares rewritten in place, their referents and tokens apart. *)
Lemma map_shares_ok d g : db_ok d →
  (∀ r, s_id (g r) = s_id r ∧ s_token (g r) = s_token r ∧ s_file (g r) = s_file r ∧ s_owner (g r) = s_owner r) →
  db_ok (set_shares (g <$> shares d) d).
Proof.
  intros Hok Hg. pose proof (db_ok_keys _ Hok).
  assert (s_id <$> (g <$> shares d) = s_id <$> shares d) as Hids by (apply fmap_fmap_id; apply Hg).
  assert (s_token <$> (g <$> shares d) = s_token <$> shares d) as Htok by (apply fmap_fmap_id; apply Hg).
  apply db_ok_intro.
  - keys_kept; by rewrite ?Hids, ?Htok.
  - eapply fks_grow; [|by apply db_ok_fks|..]; [done|in_snoc..|].
    intros r (r0&->&Hr)%list_elem_of_fmap. left. exists r0. destruct (Hg r0) as (?&?&?&?). by split_and!.
  - apply (in_use_same d); [|done|done]. intros j. unfold in_use. cbn. by rewrite Hids.
Qed.

Lemma update_shares_ok p g :
  (∀ r, s_id (g r) = s_id r ∧ s_token (g r) = s_token r ∧ s_file (g r) = s_file r ∧ s_owner (g r) = s_owner r) →
  ok_steps (keeps db_ok) (update_shares p g).
Proof.
  intros Hg d n d' E Hok. unfold update_shares in E. db_inv. apply map_shares_ok; [done|].
  intros r. destruct (p r); [apply Hg|done].
Qed.

(** Rows that are deleted were referred to by none. *)
Lemma filter_shares_ok (p : share_row → Prop) `{!∀ x, Decision (p x)} d :
  db_ok d → db_ok (set_shares (filter p (shares d)) d).
Proof.
  intros Hok. pose proof (db_ok_keys _ Hok). apply db_ok_intro.
  - keys_kept; by apply NoDup_fmap_filter.
  - eapply fks_grow; [|by apply db_ok_fks|..]; [done|in_snoc..|].
    intros r [_ Hr]%list_elem_of_filter. left. by exists r.
  - apply (in_use_same d); [|done|done]. intros j. unfold in_use. cbn. naive_solver eauto using elem_fmap_filter.
Qed.

Lemma filter_files_ok (p : file_row → Prop) `{!∀ x, Decision (p x)} d : db_ok d →
  (∀ s f, s ∈ shares d → f ∈ files d → s_file s = f_id f → p f) → db_ok (set_files (filter p (files d)) d).
Proof.
  intros Hok Hp. pose proof (db_ok_keys _ Hok). destruct (db_ok_fks _ Hok) as (Hd&Hf&Hs). apply db_ok_intro.
  - keys_kept; [by apply NoDup_fmap_filter|]. eapply sublist_NoDup; [|apply fmap_sublist, filter_filter_sublist]; done.
  - split_and!; [done| |].
    + intros r [_ Hr]%list_elem_of_filter. by apply Hf.
    + intros s Hin. destruct (Hs s Hin) as [Hfile Hu]. split; [|done].
      apply bool_decide_eq_true in Hfile as (f&Heq&Hf')%list_elem_of_fmap.
      apply bool_decide_eq_true. apply list_elem_of_fmap. exists f. split; [done|]. apply list_elem_of_filter. eauto.
  - apply (in_use_same d); [|done|done]. intros j. unfold in_use. cbn. naive_solver eauto using elem_fmap_filter.
Qed.

Lemma filter_contents_ok (p : content_row → Prop) `{!∀ x, Decision (p x)} d : db_ok d →
  (∀ f c, f ∈ files d → c ∈ contents d → f_content f = c_id c → p c) → db_ok (set_contents (filter p (contents d)) d).
Proof.
  intros Hok Hp. pose proof (db_ok_keys _ Hok). destruct (db_ok_fks _ Hok) as (Hd&Hf&Hs). apply db_ok_intro.
  - keys_kept; by apply NoDup_fmap_filter.
  - split_and!; [done| |done]. intros f Hin. destruct (Hf f Hin) as (?&?&Hc). split_and!; [done..|].
    apply bool_decide_eq_true in Hc as (c&Heq&Hc')%list_elem_of_fmap.
    apply bool_decide_eq_true. apply list_elem_of_fmap. exists c. split; [done|]. apply list_elem_of_filter. eauto.
  - apply (in_use_same d); [|done|done]. intros j. unfold in_use. cbn. naive_solver eauto using elem_fmap_filter.
Qed.

Lemma delete_content_ok i : ok_steps (keeps db_ok) (delete_content i).
Proof.
  intros d b d' E Hok. unfold delete_content in E. db_inv. case_match; db_inv; [|done].
  rewrite negb_true_iff in *. apply filter_contents_ok; [done|].
  intros f c Hf Hc Heq. apply andb_false_iff. left. apply bool_decide_eq_false. intros Hid.
  rewrite <- not_true_iff_false, existsb_exists in *.
  match goal with H : ¬ ∃ _, _ |- _ => apply H end.
  exists f. split; [by apply list_elem_of_In|]. rewrite bool_decide_eq_true. congruence.
Qed.

Lemma delete_tombstone_shares_ok i : ok_steps (keeps db_ok) (delete_tombstone_shares i).
Proof. intros d u d' E Hok. unfold delete_tombstone_shares in E. db_inv. by apply filter_shares_ok. Qed.

Lemma delete_tombstones_ok i : ok_steps (keeps db_ok) (delete_tombstones i).
Proof.
  intros d u d' E Hok. unfold delete_tombstones in E. db_inv. rewrite negb_true_iff in *.
  apply filter_files_ok; [done|]. intros s f Hs Hf Heq. destruct (tombstone_of _ f) eqn:Et; [|done].
  rewrite <- not_true_iff_false, existsb_exists in *.
  match goal with H : ¬ ∃ _, _ |- _ => destruct H end.
  exists s. split; [by apply list_elem_of_In|]. rewrite bool_decide_eq_true, Heq.
  apply list_elem_of_fmap_2, list_elem_of_filter. done.
Qed.

(** Users rewritten in place, names apart. *)
Lemma map_users_ok d g : db_ok d → (∀ r, u_id (g r) = u_id r ∧ u_name (g r) = u_name r) →
  db_ok (set_users (g <$> users d) d).
Proof.
  intros Hok Hg. pose proof (db_ok_keys _ Hok).
  assert (u_id <$> (g <$> users d) = u_id <$> users d) as Hids by (apply fmap_fmap_id; apply Hg).
  assert (u_name <$> (g <$> users d) = u_name <$> users d) as Hnames by (apply fmap_fmap_id; apply Hg).
  apply db_ok_intro.
  - keys_kept; by rewrite ?Hids, ?Hnames.
  - eapply fks_grow; [|by apply db_ok_fks|..]; [|in_snoc..]. unfold ids_grow. cbn. by rewrite Hids.
  - apply (in_use_same d); [|done|done]. intros j. unfold in_use. cbn. by rewrite Hids.
Qed.

End statements.

#[export] Hint Resolve insert_user_ok insert_content_ok insert_folder_ok insert_file_ok insert_share_ok
  soft_delete_file_ok soft_delete_folder_ok rename_folder_ok delete_content_ok delete_tombstone_shares_ok
  delete_tombstones_ok : solar.

(** * The data access objects *)

Section reads.
Context {P : Postgres} {R : Db → Db → Prop} {HR : PreOrder R}.

Lemma uuid_arg_steps s : steps R (uuid_arg s).
Proof using HR. intros d. unfold uuid_arg. by destruct (uuid_in s). Qed.
Lemma text_arg_steps s : steps R (text_arg s).
Proof using HR. intros d. unfold text_arg. by destruct (text_in s). Qed.
Lemma require_steps b k w : steps R (require b (throw k w)).
Proof using HR. intros d. by destruct b. Qed.

Lemma commit_steps {A} (a : A) : steps R (commit a).
Proof using HR. intros d. cbn. reflexivity. Qed.
Lemma no_commit_steps {A} (a : A) : steps R (no_commit a).
Proof using HR. intros d. cbn. reflexivity. Qed.

End reads.

#[export] Hint Resolve uuid_arg_steps text_arg_steps require_steps commit_steps no_commit_steps
  steps_txn : solar.

Ltac db_rules := repeat first [step_rule | match goal with |- steps _ (txn _) => apply steps_txn; [apply _|] end].

Section daos.
Context {J : JsonText} {P : Postgres} {E : Evp}.

Lemma ensure_in_txn_ok c : ok_steps (keeps db_ok) (ContentDao.ensure_in_txn c).
Proof. unfold ContentDao.ensure_in_txn, ContentDao.select_id. step_rules.
Qed.

End daos.

#[export] Hint Resolve ensure_in_txn_ok : solar.

(** * Sequences of operations *)

(** The calls that write, with the tick of the server's clock. *)
Inductive dao_op :=
  | RegisterUser (username password : string)
  | UpdateUsedStorage (user_id : string) (delta : Z)
  | InsertFile (file : FileDao.FileRecord)
  | InsertLink (file : FileDao.FileRecord) (content_id : string)
  | SoftDeleteFile (id : string)
  | InsertFolder (folder : FolderDao.FolderRecord)
  | SoftDeleteFolder (id : string)
  | RenameFolder (id name : string)
  | InsertShare (share : ShareDao.ShareRecord)
  | IncrementDownloadCount (id : string)
  | Revoke (id owner_id : string)
  | RevokeByFileId (file_id : string)
  | RevokeExpired
  | PurgeRows (content_id : string)
  | Bootstrap
  | Tick (now : Z).

Definition tick (now : Z) : M Db () :=
  d ← get_st;
  put_st (mk_db (users d) (contents d) (folders d) (files d) (shares d) (uuid_next d) now (version d)).

Section ops.
Context {J : JsonText} {P : Postgres} {E : Evp}.

Definition run_op (o : dao_op) : M Db () :=
  match o with
  | RegisterUser u p => _ ← UserDao.register_user u p; mret ()
  | UpdateUsedStorage u z => UserDao.update_used_storage u z
  | InsertFile f => _ ← FileDao.insert f; mret ()
  | InsertLink f c => _ ← FileDao.insert_link f c; mret ()
  | SoftDeleteFile i => FileDao.soft_delete i
  | InsertFolder f => _ ← FolderDao.insert f; mret ()
  | SoftDeleteFolder i => FolderDao.soft_delete i
  | RenameFolder i n => _ ← FolderDao.rename i n; mret ()
  | InsertShare r => _ ← ShareDao.insert r; mret ()
  | IncrementDownloadCount i => ShareDao.increment_download_count i
  | Revoke i o => ShareDao.revoke i o
  | RevokeByFileId f => ShareDao.revoke_by_file_id f
  | RevokeExpired => _ ← ShareDao.revoke_expired; mret ()
  | PurgeRows c => txn (_ ← delete_tombstone_shares c; _ ← delete_tombstones c;
                        b ← ContentDao.delete_by_id_in_txn c; mret ((), b))
  | Bootstrap => _ ← bootstrap_schema; mret ()
  | Tick now => tick now
  end.

(** Whatever the outcome of each. *)
Definition run_ops (os : list dao_op) (d : Db) : Db := foldl (λ d o, snd (run_op o d)) d os.

Lemma bootstrap_keeps : steps (keeps db_ok) bootstrap_schema.
Proof.
  unfold bootstrap_schema. apply steps_txn; [apply _|]. intros d a d' Hr Hok. db_inv.
  pose proof (db_ok_keys _ Hok) as (?&_). case_bool_decide; unfold commit in *; db_inv; [|done].
  apply db_ok_intro.
  - unfold keys_ok. cbn. split_and!; try apply NoDup_nil_2; apply Hok.
  - unfold fks_ok. cbn. set_solver.
  - intros i [Hi|Hi]; [apply (ok_ids _ Hok); by left|]. cbn in Hi. set_solver.
Qed.

Lemma update_used_keeps u z : steps (keeps db_ok) (UserDao.update_used_storage u z).
Proof.
  unfold UserDao.update_used_storage. apply steps_txn; [apply _|]. intros d [a b] d' Hr Hok. unfold commit in Hr. db_inv.
  apply map_users_ok; [done|]. intros r. by case_bool_decide.
Qed.

Lemma tick_keeps t : steps (keeps db_ok) (tick t).
Proof. intros d Hok. by destruct Hok; constructor. Qed.

Lemma run_op_keeps o : steps (keeps db_ok) (run_op o).
Proof.
  destruct o; cbn [run_op]; unfold UserDao.register_user, FileDao.insert, FileDao.insert_link,
    FileDao.require_owner_id, FileDao.soft_delete, FolderDao.insert, FolderDao.soft_delete, FolderDao.rename,
    ShareDao.insert, ShareDao.increment_download_count, ShareDao.revoke, ShareDao.revoke_by_file_id,
    ShareDao.revoke_expired, ContentDao.delete_by_id_in_txn; db_rules;
    first [by apply update_shares_ok | apply update_used_keeps | apply bootstrap_keeps | apply tick_keeps].
Qed.

Lemma empty_ok : db_ok empty_db.
Proof.
  apply db_ok_intro; unfold keys_ok, fks_ok, in_use; cbn; [|set_solver..].
  split_and!; apply NoDup_nil_2.
Qed.

Lemma run_ops_keeps os d : db_ok d → db_ok (run_ops os d).
Proof.
  unfold run_ops. revert d. induction os as [|o os IH]; intros d Hd; [done|]. cbn. by apply IH, (run_op_keeps o d).
Qed.

(** Starting from an empty database, whatever sequence of operations the data access
    objects are asked to perform, failing ones included, the constraints hold. *)
Lemma constraints_hold (os : list dao_op) : db_ok (run_ops os empty_db).
Proof. apply run_ops_keeps, empty_ok. Qed.

End ops.

End Constraints.
