(* ===== verification/UniqueNames.v ===== *)
(** [FileDao::make_unique_name] (src/metadata/file_dao.cpp): the name it returns
    is free in the folder, as long as the folder has fewer than ten thousand live
    entries. *)
From S2P Require Import Prelude Steps JsonValue ObjectStore Database Daos Constraints.
Import Schema.

Module UniqueNames.

(** * Candidate names *)

Lemma split_name_app name : fst (FileDao.split_name name) +:+ snd (FileDao.split_name name) = name.
Proof.
  unfold FileDao.split_name. destruct (srfind "." name) as [[|k]|]; cbn [fst snd]; try apply sapp_nil_r.
  apply stake_sdrop.
Qed.

Lemma candidate_inj name m n : FileDao.candidate name m = FileDao.candidate name n → m = n.
Proof.
  unfold FileDao.candidate. destruct (FileDao.split_name name) as [stem ext]. intros H.
  apply sapp_inj_l in H. rewrite !sapp_cons, !sapp_nil_l in H. injection H as H. apply sapp_inj_r in H.
  by apply to_string_inj.
Qed.

Lemma candidate_longer name n : slen name < slen (FileDao.candidate name n).
Proof.
  unfold FileDao.candidate. pose proof (split_name_app name) as H.
  destruct (FileDao.split_name name) as [stem ext]. cbn in H. rewrite <- H, !slen_app. cbn. lia.
Qed.

Section names.
Context {P : Postgres}.

(** * The search *)

Lemma name_exists_run owner folder name u fo t d :
  uuid_in owner = Some u → FileDao.folder_arg folder d = (Ok fo, d) → text_in name = Some t →
  FileDao.name_exists_in_folder owner folder name d = (Ok (FileDao.name_taken u fo t d), d).
Proof.
  intros Hu Hf Ht. unfold FileDao.name_exists_in_folder, txn.
  erewrite bind_run by (unfold uuid_arg; by rewrite Hu). erewrite bind_run by exact Hf.
  erewrite bind_run by (unfold text_arg; by rewrite Ht). by erewrite bind_run.
Qed.

Section search.
Context (time : Z) (name owner folder u : string) (fo : option string) (d : Db).
Hypothesis Hu : uuid_in owner = Some u.
Hypothesis Hf : FileDao.folder_arg folder d = (Ok fo, d).
Hypothesis Htext : ∀ n, text_in (FileDao.candidate name n) = Some (FileDao.candidate name n).

Abbreviation taken s := (FileDao.name_taken u fo s d).

Lemma unique_loop_run fuel n :
  (∃ m, (n ≤ m < n + Z.of_nat fuel)%Z ∧ taken (FileDao.candidate name m) = false ∧
     (∀ k, (n ≤ k < m)%Z → taken (FileDao.candidate name k) = true) ∧
     FileDao.unique_loop fuel n time name owner folder d = (Ok (FileDao.candidate name m), d)) ∨
  (∀ k, (n ≤ k < n + Z.of_nat fuel)%Z → taken (FileDao.candidate name k) = true) ∧
    FileDao.unique_loop fuel n time name owner folder d = (Ok (FileDao.candidate name time), d).
Proof using Hu Hf Htext.
  revert n. induction fuel as [|fuel IH]; intros n; cbn [FileDao.unique_loop].
  { right. split; [lia|done]. }
  rewrite (bind_run _ _ _ _ _ (name_exists_run _ _ _ _ _ _ _ Hu Hf (Htext n))).
  destruct (taken (FileDao.candidate name n)) eqn:En.
  - destruct (IH (n + 1)%Z) as [(m&Hm&Hfree&Hall&->)|[Hall ->]].
    + left. exists m. split_and!; [lia|lia|done| |done]. intros k Hk.
      destruct (decide (k = n)) as [->|]; [done|apply Hall; lia].
    + right. split; [|done]. intros k Hk. destruct (decide (k = n)) as [->|]; [done|apply Hall; lia].
  - left. exists n. split_and!; [lia|lia|done|lia|done].
Qed.

(** Live entries of the folder. *)
Definition entries : list file_row :=
  filter (λ f, f_owner f = u ∧ f_folder f = fo ∧ f_deleted f = None) (files d).

Lemma taken_entry s : taken s = true → s ∈ f_name <$> entries.
Proof using.
  unfold FileDao.name_taken, entries. intros (f&Hin&Hb)%existsb_exists.
  apply bool_decide_eq_true in Hb as (?&?&<-&?). apply list_elem_of_fmap_2, list_elem_of_filter.
  split; [done|]. by apply list_elem_of_In.
Qed.

(** Not all ten thousand names can be taken. *)
Lemma crowded : taken name = true →
  (∀ k, (1 ≤ k < 1 + Z.of_nat (Z.to_nat 9999))%Z → taken (FileDao.candidate name k) = true) →
  (10000 ≤ Z.of_nat (length entries))%Z.
Proof using.
  intros Hn Hall. set (l := name :: (FileDao.candidate name <$> seqZ 1 9999)).
  assert (NoDup l) as Hnd.
  { constructor.
    - intros (k&Hk&_)%list_elem_of_fmap. pose proof (candidate_longer name k). rewrite <- Hk in *. lia.
    - apply (NoDup_fmap_2_strong (FileDao.candidate name)); [|apply NoDup_seqZ]. intros x y _ _. apply candidate_inj. }
  assert (l ⊆+ (f_name <$> entries)) as Hsub.
  { apply NoDup_submseteq; [done|]. intros s [->|Hs]%elem_of_cons; [by apply taken_entry|].
    apply list_elem_of_fmap in Hs as (k&->&Hk%elem_of_seqZ). apply taken_entry, Hall. lia. }
  apply submseteq_length in Hsub. rewrite length_fmap in Hsub. subst l.
  cbn [length] in Hsub. rewrite length_fmap, length_seqZ in Hsub. lia.
Qed.

End search.

(** C19. The name a linked file gets is free: when the folder has fewer than ten
    thousand live entries, [make_unique_name] returns the wanted name if no live
    entry has it, and otherwise the first free one of the numbered names
    stem(1).ext, stem(2).ext, ...; it never reaches the fallback that appends the
    time, and leaves the database as it was. *)
Theorem make_unique_name_free (time : Z) (name owner folder u : string) (fo : option string) (d : Db)
    (Hu : uuid_in owner = Some u) (Hf : FileDao.folder_arg folder d = (Ok fo, d))
    (Hname : text_in name = Some name)
    (Htext : ∀ n, text_in (FileDao.candidate name n) = Some (FileDao.candidate name n))
    (Hroom : (Z.of_nat (length (entries u fo d)) < 10000)%Z) :
  ∃ r, FileDao.make_unique_name time name owner folder d = (Ok r, d) ∧
    FileDao.name_taken u fo r d = false ∧
    (r = name ∨ FileDao.name_taken u fo name d = true ∧ ∃ n, (1 ≤ n ≤ 9999)%Z ∧ r = FileDao.candidate name n ∧
       ∀ k, (1 ≤ k < n)%Z → FileDao.name_taken u fo (FileDao.candidate name k) d = true).
Proof.
  unfold FileDao.make_unique_name. rewrite (bind_run _ _ _ _ _ (name_exists_run _ _ _ _ _ _ _ Hu Hf Hname)).
  destruct (FileDao.name_taken u fo name d) eqn:En; [|by exists name; auto].
  destruct (unique_loop_run time name owner folder u fo d Hu Hf Htext (Z.to_nat 9999) 1) as [(m&?&Hfree&Hall&->)|[Hall _]].
  - exists (FileDao.candidate name m). split_and!; [done..|right]. split; [done|]. exists m. split_and!; [lia..|done|done].
  - pose proof (crowded name u fo d En Hall). lia.
Qed.

End names.

(** Two files of that name in a folder of the user. *)
Definition toy_db : Db :=
  mk_db [mk_user "u0" "bob" "h" 10 0 0] [mk_content "u1" "h" 1 (jstrs ["h"]) "t" 0] []
    [mk_file "u2" "a.txt" "u0" None "u1" 0 None; mk_file "u3" "a(1).txt" "u0" None "u1" 0 None] [] 4 0 (Some 2%Z).

Lemma make_unique_name_free_witness :
  @FileDao.make_unique_name toy_pg 0 "a.txt" "u0" "" toy_db = (Ok "a(2).txt", toy_db).
Proof.
  destruct (@make_unique_name_free toy_pg 0 "a.txt" "u0" "" "u0" None toy_db)
    as (r&Hr&Hfree&[->|(_&n&Hn&->&Hall)]); [done..| |by vm_compute in Hfree|].
  - vm_compute. done.
  - rewrite Hr. destruct (decide (n = 1)%Z) as [->|]; [by vm_compute in Hfree|].
    destruct (decide (n = 2)%Z) as [->|]; [by vm_compute|].
    specialize (Hall 2%Z ltac:(lia)). by vm_compute in Hall.
Defined.

End UniqueNames.
