(* ===== verification/FileLife.v ===== *)
(** The life of a file's record, [FileDao] (src/metadata/file_dao.cpp): what the
    queries say of it after [insert], and that they say nothing of it any more
    after [soft_delete], which frees its name. *)
From S2P Require Import Prelude Steps JsonValue ObjectStore Database Daos Constraints UniqueNames.
Import Schema Constraints.

Module FileLife.

Section life.
Context {J : JsonText} {P : Postgres}.

(** * Queries look at live files only *)

(** The same live files, each with the same content. *)
Definition same_live (d d' : Db) : Prop :=
  filter live_file (files d') = filter live_file (files d) ∧
  ∀ f, f ∈ files d → FileDao.join_content d' f = FileDao.join_content d f.

(** Every query of files has the same answer on both. *)
Record answers_alike (d d' : Db) : Prop := mk_alike {
  a_find k : fst (FileDao.find_by_id k d') = fst (FileDao.find_by_id k d);
  a_owned o k : fst (FileDao.find_owned_by_id o k d') = fst (FileDao.find_owned_by_id o k d);
  a_list o fo n : fst (FileDao.list_by_folder o fo n d') = fst (FileDao.list_by_folder o fo n d);
  a_count fo : fst (FileDao.count_in_folder fo d') = fst (FileDao.count_in_folder fo d);
  a_name o fo n : fst (FileDao.name_exists_in_folder o fo n d') = fst (FileDao.name_exists_in_folder o fo n d);
  a_refs c : fst (ContentDao.active_refcount c d') = fst (ContentDao.active_refcount c d)
}.

Lemma filter_live (Q R : file_row → Prop) `{!∀ f, Decision (Q f), !∀ f, Decision (R f)} (l : list file_row) :
  (∀ f, Q f ↔ R f ∧ f_deleted f = None) → filter Q l = filter R (filter live_file l).
Proof.
  intros Hq. rewrite list_filter_filter. apply filter_ext_in. intros f _. rewrite Hq. unfold live_file. by rewrite bool_decide_spec.
Qed.

Lemma existsb_live (p : file_row → bool) (l : list file_row) : (∀ f, p f = true → f_deleted f = None) →
  existsb p l = existsb p (filter live_file l).
Proof.
  intros H. induction l as [|f l IH]; [done|]. rewrite filter_cons. cbn [existsb]. case_decide as Hl; cbn [existsb]; [by rewrite IH|].
  rewrite IH. destruct (p f) eqn:E; [|done]. destruct Hl. apply bool_decide_pack. by apply H.
Qed.

(** The records of some live files. *)
Lemma joins_same d d' (l : list file_row) : same_live d d' → (∀ f, f ∈ l → f ∈ files d) →
  FileDao.join_content d' <$> l = FileDao.join_content d <$> l.
Proof. intros [_ Hj] Hl. apply Forall_fmap_ext_1, Forall_forall. intros f Hf. by apply Hj, Hl. Qed.

Lemma from_live (R : file_row → Prop) `{!∀ f, Decision (R f)} (d : Db) f : f ∈ filter R (filter live_file (files d)) → f ∈ files d.
Proof. by intros [_ [_ ?]%list_elem_of_filter]%list_elem_of_filter. Qed.

Lemma alike d d' : same_live d d' → answers_alike d d'.
Proof.
  intros Hs. pose proof (proj1 Hs) as Hl. split.
  - intros k. unfold FileDao.find_by_id, txn, mbind, M_mbind, uuid_arg. destruct (uuid_in k) as [i|]; [|done]. cbn.
    rewrite !(filter_live (λ f, f_id f = i ∧ f_deleted f = None) (λ f, f_id f = i)) by done.
    rewrite Hl, (joins_same d d') by (done || apply from_live). done.
  - intros o k. unfold FileDao.find_owned_by_id, txn, mbind, M_mbind, uuid_arg. destruct (uuid_in k) as [i|]; [|done]. cbn.
    destruct (uuid_in o) as [u|]; [|done]. cbn.
    rewrite !(filter_live (λ f, f_id f = i ∧ f_owner f = u ∧ f_deleted f = None) (λ f, f_id f = i ∧ f_owner f = u)) by (intros; tauto).
    rewrite Hl, (joins_same d d') by (done || apply from_live). done.
  - intros o fo n. unfold FileDao.list_by_folder, FileDao.folder_arg, txn, mbind, M_mbind, uuid_arg.
    destruct (uuid_in o) as [u|]; [|done]. cbn.
    destruct (sempty fo); [|destruct (uuid_in fo) as [v|]; [|done]]; cbn;
      match goal with |- context [filter (λ f, f_deleted f = None ∧ f_owner f = u ∧ f_folder f = ?x)] =>
        rewrite !(filter_live (λ f, f_deleted f = None ∧ f_owner f = u ∧ f_folder f = x) (λ f, f_owner f = u ∧ f_folder f = x)) by (intros; tauto) end;
      rewrite Hl, (joins_same d d'); try done; intros f Hf; rewrite pg_sort_desc_perm in Hf; by apply from_live in Hf.
  - intros fo. unfold FileDao.count_in_folder, txn, mbind, M_mbind, uuid_arg. destruct (uuid_in fo) as [v|]; [|done]. cbn.
    rewrite !(filter_live (λ f, f_folder f = Some v ∧ f_deleted f = None) (λ f, f_folder f = Some v)) by done. by rewrite Hl.
  - intros o fo n. unfold FileDao.name_exists_in_folder, FileDao.folder_arg, txn, mbind, M_mbind, uuid_arg, text_arg.
    destruct (uuid_in o) as [u|]; [|done]. cbn. destruct (sempty fo); [|destruct (uuid_in fo) as [v|]; [|done]]; cbn;
      (destruct (text_in n) as [t|]; [|done]); cbn; unfold FileDao.name_taken; rewrite (existsb_live _ (files d')), (existsb_live _ (files d)), Hl;
      try done; by intros f (_&_&_&?)%bool_decide_eq_true.
  - intros c. unfold ContentDao.active_refcount, txn, mbind, M_mbind, uuid_arg. destruct (uuid_in c) as [i|]; [|done]. cbn.
    assert (∀ l : list file_row, filter (λ f, ContentDao.refers i f = true) l = filter (λ f, f_content f = i) (filter live_file l)) as Hf.
    { intros l. apply filter_live. intros f. unfold ContentDao.refers, live_file. by rewrite andb_true_iff, !bool_decide_eq_true. }
    by rewrite !Hf, Hl.
Qed.

(** * Insertion *)

(** What the statements of an insertion find and do. *)
Lemma select_run h d e d' : ContentDao.select_id h d = (Ok e, d') → d' = d ∧ ∃ t, text_in h = Some t ∧
  ∀ j, e = Some j → ∃ r, r ∈ contents d ∧ c_id r = j ∧ c_hash r = t.
Proof.
  intros Hrun. unfold ContentDao.select_id in Hrun. db_inv. split; [done|]. eexists. split; [done|]. intros j Hh.
  destruct (filter _ (contents d)) as [|r l] eqn:E; [done|]. injection Hh as <-. exists r. match type of E with filter ?p _ = _ =>
    assert (r ∈ filter p (contents d)) as [? ?]%list_elem_of_filter by (rewrite E; by left) end. done.
Qed.

(** The rows other than contents. *)
Definition same_others (d d' : Db) : Prop := files d' = files d ∧ users d' = users d ∧ folders d' = folders d.

Lemma insert_content_run h z t m d o d' : insert_content h z t m d = (Ok o, d') → same_others d d' ∧
  match o with
  | None => contents d' = contents d
  | Some i => ∃ r, contents d' = contents d ++ [r] ∧ c_id r = i ∧ text_in h = Some (c_hash r) ∧ i ∉ c_id <$> contents d
  end.
Proof.
  intros Hrun. unfold insert_content in Hrun. db_inv. case_match; [|done]. db_inv. case_bool_decide; db_inv; (split; [done|]); [done|].
  eexists. split_and!; [reflexivity|done|done|done].
Qed.

(** The content of a new file: an old row, or one with a new identifier. *)
Definition content_of (j : string) (d : Db) : list content_row := filter (λ r, c_id r = j) (contents d).

Lemma ensure_run c d i d' : db_ok d → ContentDao.ensure_in_txn c d = (Ok i, d') → db_ok d' ∧ same_others d d' ∧
  (∀ j, j ∈ c_id <$> contents d → content_of j d' = content_of j d) ∧
  ∃ r, r ∈ contents d' ∧ c_id r = i ∧ text_in (ContentDao.hash c) = Some (c_hash r).
Proof.
  intros Hok Hrun. split; [by eapply ensure_in_txn_ok|]. unfold ContentDao.ensure_in_txn in Hrun.
  apply bind_ok in Hrun as (e&d0&[-> (t&Ht&Hsel)]%select_run&Hrun). destruct e as [j|].
  { apply ret_ok in Hrun as [-> ->]. destruct (Hsel i eq_refl) as (r&Hr&<-&<-). split; [done|]. split; [done|]. by exists r. }
  apply bind_ok in Hrun as (o&d1&[Ho Hins]%insert_content_run&Hrun). destruct o as [j|].
  - apply ret_ok in Hrun as [-> ->]. destruct Hins as (r&Hc&Hi&Hh&Hn). split; [done|]. split.
    + intros k Hk. unfold content_of. rewrite Hc, filter_app, filter_cons_False, filter_nil, app_nil_r; [done|]. intros <-. congruence.
    + exists r. split; [rewrite Hc; apply elem_of_app; right; by left|done].
  - apply bind_ok in Hrun as (e&d2&[-> (t'&Ht'&Hsel')]%select_run&Hrun). destruct e as [j|]; [|done]. apply ret_ok in Hrun as [-> ->].
    destruct (Hsel' i eq_refl) as (r&Hr&<-&<-). split; [done|]. split; [intros j _; unfold content_of; by rewrite Hins|]. by exists r.
Qed.

(** The row of a file, once it is there. *)
Definition placed (file : FileDao.FileRecord) (i content : string) (d : Db) (row : file_row) : Prop :=
  f_id row = i ∧ f_content row = content ∧ f_deleted row = None ∧ text_in (FileDao.name file) = Some (f_name row) ∧
  uuid_in (FileDao.owner_id file) = Some (f_owner row) ∧ FileDao.folder_arg (FileDao.folder_id file) d = (Ok (f_folder row), d).

Lemma param_arg folder d fo : match FileDao.folder_param folder with None => fo = None | Some s => ∃ u, uuid_in s = Some u ∧ fo = Some u end →
  FileDao.folder_arg folder d = (Ok fo, d).
Proof.
  unfold FileDao.folder_param, FileDao.folder_arg. destruct (sempty folder); [by intros ->|]. intros (u&Hu&->).
  unfold mbind, M_mbind, uuid_arg. by rewrite Hu.
Qed.

Lemma insert_file_run file content d i d' : uuid_in content = Some content →
  insert_file (FileDao.name file) (FileDao.owner_id file) (FileDao.folder_param (FileDao.folder_id file)) content d = (Ok i, d') →
  ∃ row, placed file i content d row ∧ i = uuid_gen (uuid_next d) ∧ i ∉ f_id <$> files d ∧
    file_key row ∉ file_key <$> filter live_file (files d) ∧
    fk_user (f_owner row) d && fk_folder (f_folder row) d && fk_content content d = true ∧
    d' = set_files (files d ++ [row]) (set_next (S (uuid_next d)) d).
Proof.
  intros Hc Hrun. unfold insert_file in Hrun. db_inv. simplify_eq. rewrite negb_true_iff, bool_decide_eq_false in *.
  match goal with H : file_key ?r ∉ _ |- _ => exists r end. split; [|by split_and!]. split_and!; try done. by apply param_arg.
Qed.

Lemma inserted_run file d i d1 : db_ok d → FileDao.insert file d = (Ok i, d1) →
  ∃ row r dm, db_ok dm ∧ same_others d dm ∧ (∀ j, j ∈ c_id <$> contents d → content_of j dm = content_of j d) ∧
    r ∈ contents dm ∧ text_in (FileDao.hash file) = Some (c_hash r) ∧
    placed file i (c_id r) d row ∧ i = uuid_gen (uuid_next dm) ∧ i ∉ f_id <$> files d ∧
    file_key row ∉ file_key <$> filter live_file (files d) ∧
    fk_user (f_owner row) d && fk_folder (f_folder row) d = true ∧
    d1 = set_files (files d ++ [row]) (set_next (S (uuid_next dm)) dm) ∧ sempty (FileDao.owner_id file) = false.
Proof.
  intros Hok Hins. unfold FileDao.insert, FileDao.require_owner_id in Hins. destruct (sempty (FileDao.owner_id file)); [by apply bind_ok in Hins as (?&?&?&_)|].
  rewrite (bind_run (mret ()) _ _ _ _ eq_refl) in Hins.
  apply txn_ok in Hins as [Hins|[_ [dm Hins]]]; apply bind_ok in Hins as (ci&dm1&Hens&Hins); apply bind_ok in Hins as (i1&d2&Hfile&Hins);
    apply ret_ok in Hins as [Hins ->]; [|done]. injection Hins as ->.
  destruct (ensure_run _ _ _ _ Hok Hens) as (Hokm&(Hf&Hu&Hd)&Hc&r&Hr&<-&Hh).
  assert (uuid_in (c_id r) = Some (c_id r)) as Hid.
  { destruct (ok_ids _ Hokm (c_id r)) as (k&_&->); [|apply uuid_in_gen]. right. left. by apply list_elem_of_fmap_2. }
  apply insert_file_run in Hfile as (row&Hp&Hi&Hn&Hk&Hfk&->); [|done]. rewrite Hf in Hn, Hk |- *.
  exists row, r, dm1. unfold placed, fk_user, fk_folder in *. rewrite Hu, Hd in Hfk. apply andb_true_iff in Hfk as [Hfk _].
  split_and!; try done; try apply Hp. destruct Hp as (_&_&_&_&_&Hfo). unfold FileDao.folder_arg in *.
  destruct (sempty (FileDao.folder_id file)); [by injection Hfo as <-|]. apply bind_ok in Hfo as (v&d3&Hv&[= <- _]).
  unfold mbind, M_mbind. apply uuid_arg_ok in Hv as [Hv _]. unfold uuid_arg. by rewrite Hv.
Qed.

(** A valid record is inserted when its content is there and its name free. *)
Lemma select_done h d r : r ∈ contents d → text_in h = Some (c_hash r) →
  ∃ r', r' ∈ contents d ∧ ContentDao.select_id h d = (Ok (Some (c_id r')), d).
Proof.
  intros Hr Hh. unfold ContentDao.select_id. erewrite bind_run by (unfold text_arg; by rewrite Hh). erewrite bind_run by reflexivity.
  destruct (filter (λ r', c_hash r' = c_hash r) (contents d)) as [|r' l] eqn:E.
  { assert (r ∈ filter (λ r', c_hash r' = c_hash r) (contents d)) as Hin by (by apply list_elem_of_filter). rewrite E in Hin. by apply elem_of_nil in Hin. }
  exists r'. split; [|done]. assert (r' ∈ filter (λ r', c_hash r' = c_hash r) (contents d)) as [_ ?]%list_elem_of_filter by (rewrite E; by left). done.
Qed.

Lemma folder_run folder d fo : FileDao.folder_arg folder d = (Ok fo, d) →
  (match FileDao.folder_param folder with None => mret None | Some p => u ← uuid_arg p; mret (Some u) end : M Db (option string)) d = (Ok fo, d).
Proof.
  unfold FileDao.folder_param, FileDao.folder_arg. by destruct (sempty folder).
Qed.

Lemma insert_file_done file content d row : db_ok d → uuid_in content = Some content → fk_content content d = true →
  placed file (f_id row) content d row → fk_user (f_owner row) d && fk_folder (f_folder row) d = true →
  file_key row ∉ file_key <$> filter live_file (files d) →
  ∃ d', insert_file (FileDao.name file) (FileDao.owner_id file) (FileDao.folder_param (FileDao.folder_id file)) content d =
    (Ok (uuid_gen (uuid_next d)), d').
Proof.
  intros Hok Hc Hfc (_&_&_&Hn&Hu&Hfo) Hfk Hk. eexists. unfold insert_file. erewrite bind_run by (unfold text_arg; by rewrite Hn).
  erewrite bind_run by (unfold uuid_arg; by rewrite Hu). erewrite bind_run by (by apply folder_run).
  erewrite bind_run by (unfold uuid_arg; by rewrite Hc). erewrite bind_run by reflexivity.
  assert (uuid_gen (uuid_next d) ∉ f_id <$> files d) as Hfresh.
  { intros Hin. destruct (ok_ids _ Hok (uuid_gen (uuid_next d))) as (k&Hk'&He%uuid_gen_inj); [tauto|lia]. }
  erewrite bind_run by (unfold fresh_id; by rewrite bool_decide_eq_false_2). erewrite bind_run by reflexivity. cbv zeta.
  erewrite bind_run.
  2:{ cbn [files set_next]. match goal with |- context [bool_decide (?k ∈ ?l)] => assert (k = file_key row) as -> by done end.
      by rewrite bool_decide_eq_false_2. }
  erewrite bind_run.
  2:{ match goal with |- require ?b _ _ = _ => assert (b = true) as -> end; [|done].
      apply andb_true_iff. split; [exact Hfk|exact Hfc]. }
  by erewrite bind_run by reflexivity.
Qed.

Lemma insert_valid file d row r : db_ok d → sempty (FileDao.owner_id file) = false → r ∈ contents d →
  text_in (FileDao.hash file) = Some (c_hash r) → placed file (f_id row) (f_content row) d row →
  fk_user (f_owner row) d && fk_folder (f_folder row) d = true → file_key row ∉ file_key <$> filter live_file (files d) →
  ∃ d', FileDao.insert file d = (Ok (uuid_gen (uuid_next d)), d').
Proof.
  intros Hok Ho Hr Hh Hp Hfk Hk. unfold FileDao.insert, FileDao.require_owner_id. rewrite Ho.
  rewrite (bind_run (mret ()) _ _ _ _ eq_refl). unfold txn, ContentDao.ensure_in_txn.
  destruct (select_done _ d r Hr Hh) as (r'&Hr'&Hsel).
  assert (uuid_in (c_id r') = Some (c_id r')) as Hid.
  { destruct (ok_ids _ Hok (c_id r')) as (k&_&->); [|apply uuid_in_gen]. right. left. by apply list_elem_of_fmap_2. }
  destruct (insert_file_done file (c_id r') d (mk_file (f_id row) (f_name row) (f_owner row) (f_folder row) (c_id r') (f_created row) None))
    as (d'&Hins); [done|done|apply bool_decide_eq_true; by apply list_elem_of_fmap_2| |done|exact Hk|].
  { destruct Hp as (_&_&_&?&?&?). by split_and!. }
  exists d'. erewrite bind_run by (erewrite bind_run by exact Hsel; reflexivity). by erewrite bind_run by exact Hins.
Qed.

Lemma insert_throw file d e d' : FileDao.insert file d = (Throw e, d') → d' = d.
Proof.
  unfold FileDao.insert, FileDao.require_owner_id. destruct (sempty _); [by intros [= _ <-]|]. rewrite (bind_run (mret ()) _ _ _ _ eq_refl).
  unfold txn. repeat case_match; intros; by simplify_eq.
Qed.

(** * Deletion *)

Lemma soft_delete_run i d : uuid_in i = Some i → FileDao.soft_delete i d = (Ok (), set_files (delete_file_row (clock d) i <$> files d) d).
Proof. intros Hi. unfold FileDao.soft_delete, soft_delete_file, txn. cbn. unfold mbind, M_mbind, uuid_arg. by rewrite Hi. Qed.

Lemma delete_others now i (l : list file_row) : i ∉ f_id <$> l → delete_file_row now i <$> l = l.
Proof.
  induction l as [|f l IH]; [done|]. rewrite fmap_cons, not_elem_of_cons. intros [Hf Hl]. rewrite fmap_cons, IH by done. f_equal.
  unfold delete_file_row. by rewrite bool_decide_eq_false_2 by congruence.
Qed.

Lemma name_free d row : file_key row ∉ file_key <$> filter live_file (files d) →
  FileDao.name_taken (f_owner row) (f_folder row) (f_name row) d = false.
Proof.
  intros Hk. apply not_true_iff_false. intros (f&Hf&Ht)%existsb_exists. apply bool_decide_eq_true in Ht as (E1&E2&E3&E4).
  apply Hk. apply list_elem_of_fmap. exists f. split; [unfold file_key; by rewrite E1, E2, E3|].
  apply list_elem_of_filter. split; [by apply bool_decide_pack|by apply list_elem_of_In].
Qed.

(** *** The database after an insertion *)

Lemma insert_ok file : steps (keeps db_ok) (FileDao.insert file).
Proof. unfold FileDao.insert, FileDao.require_owner_id. db_rules. Qed.

Section inserted.
Context (d dm : Db) (row : file_row) (c : content_row) (n : nat).
Hypotheses (Hok : db_ok d) (Hokm : db_ok dm) (Hc : c ∈ contents dm) (Hcid : f_content row = c_id c)
  (Hcs : ∀ j, j ∈ c_id <$> contents d → content_of j dm = content_of j d)
  (Hn : f_id row ∉ f_id <$> files d) (Hlive : f_deleted row = None).
Abbreviation d1 := (set_files (files d ++ [row]) (set_next n dm)).

Lemma old_joins d' f : contents d' = contents dm → f ∈ files d → FileDao.join_content d' f = FileDao.join_content d f.
Proof using Hok Hcs.
  intros Hd Hf. unfold FileDao.join_content. f_equal. rewrite Hd. apply (Hcs (f_content f)).
  destruct (ok_file_fks _ Hok f Hf) as (_&_&Hfk). by apply bool_decide_eq_true in Hfk.
Qed.

Lemma new_content : content_of (c_id c) dm = [c].
Proof using Hokm Hc.
  unfold content_of. assert (NoDup (c_id <$> contents dm)) as Hnd by apply Hokm. revert Hnd Hc. generalize (contents dm).
  induction l as [|x l IH]; [by intros _ ?%elem_of_nil|]. rewrite fmap_cons, NoDup_cons. intros [Hx Hl] Hin. rewrite filter_cons.
  apply elem_of_cons in Hin as [<-|Hin].
  - rewrite decide_True by done. f_equal. apply elem_of_nil_inv. intros y [Hy Hin]%list_elem_of_filter. destruct Hx. rewrite <- Hy. by apply list_elem_of_fmap_2.
  - rewrite decide_False; [by apply IH|]. intros Heq. apply Hx. rewrite Heq. by apply list_elem_of_fmap_2.
Qed.

Lemma found_new : uuid_in (f_id row) = Some (f_id row) →
  FileDao.find_by_id (f_id row) d1 = (Ok (Some (FileDao.row_to_record row c)), d1).
Proof using Hokm Hc Hcid Hn Hlive.
  intros Hid. unfold FileDao.find_by_id, txn, mbind, M_mbind, uuid_arg. rewrite Hid. cbn [files set_files get_st no_commit mret M_mret].
  rewrite filter_app, (filter_cons_True _ row), filter_nil by done.
  assert (filter (λ f, f_id f = f_id row ∧ f_deleted f = None) (files d) = []) as ->.
  { apply elem_of_nil_inv. intros f [[Heq _] Hf]%list_elem_of_filter. apply Hn. rewrite <- Heq. by apply list_elem_of_fmap_2. }
  cbn. unfold FileDao.join_content. rewrite Hcid. change (contents d1) with (contents dm). fold (content_of (c_id c) dm). by rewrite new_content.
Qed.

Lemma found_others k : uuid_in k ≠ Some (f_id row) → fst (FileDao.find_by_id k d1) = fst (FileDao.find_by_id k d).
Proof using Hok Hcs.
  intros Hk. unfold FileDao.find_by_id, txn, mbind, M_mbind, uuid_arg. destruct (uuid_in k) as [j|]; [|done].
  cbn [files set_files get_st no_commit mret M_mret]. rewrite filter_app, filter_cons_False, filter_nil, app_nil_r by (intros [? _]; congruence).
  cbn. do 3 f_equal. apply Forall_fmap_ext_1, Forall_forall. intros f [_ Hf]%list_elem_of_filter. by apply old_joins.
Qed.

Lemma deleted_live now : filter live_file (files (set_files (delete_file_row now (f_id row) <$> files d1) d1)) = filter live_file (files d).
Proof using Hn.
  cbn [files set_files]. rewrite fmap_app, (delete_others now (f_id row)) by done. rewrite filter_app. cbn [fmap list_fmap].
  rewrite filter_cons_False, filter_nil, app_nil_r; [done|]. unfold delete_file_row. rewrite bool_decide_eq_true_2 by done. by intros H%bool_decide_unpack.
Qed.

Lemma deleted_alike now : answers_alike d (set_files (delete_file_row now (f_id row) <$> files d1) d1).
Proof using Hok Hcs Hn.
  apply alike. split; [apply deleted_live|intros f Hf; by apply old_joins].
Qed.

End inserted.

(** C17. A name belongs to its live file. When [insert] succeeds, with identifier [i],
    the queries find the record by [i], with the row's fields and the content of its
    hash; no other answer by identifier changes; the name was free in its folder and
    is taken; and nobody can insert a second file of that owner, folder and name: the
    attempt fails and changes nothing. After [soft_delete] of [i] every query of files
    (by identifier, by owner, the listing and the count of a folder, the test for a
    name, the count of a content's users) answers as before the insertion, and the
    same record can be inserted again, under another identifier. *)
Theorem name_held_while_live (d d1 : Db) (file : FileDao.FileRecord) (i : string)
    (Hok : db_ok d) (Hins : FileDao.insert file d = (Ok i, d1)) :
  (∃ row c, placed file i (c_id c) d row ∧ text_in (FileDao.hash file) = Some (c_hash c) ∧
    FileDao.find_by_id i d1 = (Ok (Some (FileDao.row_to_record row c)), d1)) ∧
  (∀ k, uuid_in k ≠ Some i → fst (FileDao.find_by_id k d1) = fst (FileDao.find_by_id k d)) ∧
  FileDao.name_exists_in_folder (FileDao.owner_id file) (FileDao.folder_id file) (FileDao.name file) d = (Ok false, d) ∧
  FileDao.name_exists_in_folder (FileDao.owner_id file) (FileDao.folder_id file) (FileDao.name file) d1 = (Ok true, d1) ∧
  (∀ other, FileDao.owner_id other = FileDao.owner_id file → FileDao.folder_id other = FileDao.folder_id file →
    FileDao.name other = FileDao.name file → ∃ e, FileDao.insert other d1 = (Throw e, d1)) ∧
  ∃ d2, FileDao.soft_delete i d1 = (Ok (), d2) ∧ answers_alike d d2 ∧ ∃ i' d3, FileDao.insert file d2 = (Ok i', d3) ∧ i' ≠ i.
Proof.
  destruct (inserted_run _ _ _ _ Hok Hins) as (row&c&dm&Hokm&(Hf&Hu&Hd)&Hcs&Hc&Hh&Hp&Hi&Hn&Hk&Hfk&->&Howner).
  assert (db_ok (set_files (files d ++ [row]) (set_next (S (uuid_next dm)) dm))) as Hok1.
  { pose proof (insert_ok file d Hok) as H. by rewrite Hins in H. }
  pose proof Hp as (Hpi&Hpc&Hpl&Hpn&Hpu&Hpf). set (d1 := set_files _ _) in *. rewrite <- Hpi in *.
  assert (uuid_in (f_id row) = Some (f_id row)) as Hid by (rewrite Hi; apply uuid_in_gen).
  assert (FileDao.folder_arg (FileDao.folder_id file) d1 = (Ok (f_folder row), d1)) as Hpf1.
  { unfold FileDao.folder_arg in *. destruct (sempty (FileDao.folder_id file)); [by injection Hpf as <-|].
    apply bind_ok in Hpf as (v&d0&[Hv _]%uuid_arg_ok&[= <- _]). unfold mbind, M_mbind, uuid_arg. by rewrite Hv. }
  split_and!.
  - exists row, c. split_and!; [by rewrite <- Hpc in Hp|done|]. by apply (found_new d dm row c (S (uuid_next dm))).
  - intros k Hk'. by apply (found_others d dm row (S (uuid_next dm))).
  - rewrite (UniqueNames.name_exists_run _ _ _ _ _ _ _ Hpu Hpf Hpn). by rewrite name_free.
  - rewrite (UniqueNames.name_exists_run _ _ _ _ _ _ _ Hpu Hpf1 Hpn). do 2 f_equal. unfold FileDao.name_taken.
    apply existsb_exists. exists row. split; [apply list_elem_of_In, elem_of_app; right; by left|by apply bool_decide_eq_true].
  - intros other E1 E2 E3. destruct (FileDao.insert other d1) as [[j|e] d'] eqn:Eins; [|exists e; by rewrite (insert_throw _ _ _ _ Eins)].
    exfalso. apply (inserted_run _ _ _ _ Hok1) in Eins as (row'&_&_&_&_&_&_&_&(_&_&_&Hn'&Hu'&Hf')&_&_&Hk'&_).
    rewrite E1 in Hu'. rewrite E2 in Hf'. rewrite E3 in Hn'. apply Hk'. apply list_elem_of_fmap. exists row.
    split; [unfold file_key; congruence|]. apply list_elem_of_filter. split; [unfold live_file; by rewrite Hpl|].
    apply elem_of_app. right. by left.
  - rewrite (soft_delete_run _ _ Hid). eexists. split; [reflexivity|]. split; [by apply (deleted_alike d dm row (S (uuid_next dm)))|].
    pose proof (deleted_live d dm row (S (uuid_next dm)) Hn (clock d1)) as Hlive. fold d1 in Hlive.
    set (d2 := set_files (delete_file_row (clock d1) (f_id row) <$> files d1) d1) in *.
    assert (db_ok d2) as Hok2.
    { apply (soft_delete_file_ok (f_id row) d1 () d2); [|done]. unfold soft_delete_file, mbind, M_mbind, uuid_arg. by rewrite Hid. }
    destruct (insert_valid file d2 row c) as (d3&Hd3); [done|done|done|done| | |by rewrite Hlive|].
    + split_and!; try done. unfold FileDao.folder_arg in *. destruct (sempty (FileDao.folder_id file)); [by injection Hpf as <-|].
      apply bind_ok in Hpf as (v&d0&[Hv _]%uuid_arg_ok&[= <- _]). unfold mbind, M_mbind, uuid_arg. by rewrite Hv.
    + unfold fk_user, fk_folder in *. change (users d2) with (users dm). change (folders d2) with (folders dm). by rewrite Hu, Hd.
    + exists (uuid_gen (uuid_next d2)), d3. split; [done|]. rewrite Hi. intros Heq%uuid_gen_inj. change (uuid_next d2) with (S (uuid_next dm)) in Heq. lia.
Qed.

End life.

(** A file of a content that is there already. *)
Section example.
#[local] Existing Instances toy_pg bin_json.
Definition content0 : content_row := mk_content "u1" "h" 5 (JArr []) "text/plain" 0.
Definition db0 : Db := mk_db [mk_user "u0" "ann" "x" 0 0 0] [content0] [] [] [] 2 0 None.
Definition file0 : FileDao.FileRecord := FileDao.mk "" "a.txt" 5 "h" "[]" "text/plain" "" "u0" "" "".

Lemma db0_ok : db_ok db0.
Proof.
  split; cbn; try apply NoDup_nil_2; try apply NoDup_singleton; try (by intros r ?%elem_of_nil).
  intros i. rewrite !elem_of_nil, !list_elem_of_singleton. intros [->|[->|[[]|[[]|[]]]]]; [by exists 0; split; [lia|]|by exists 1; split; [lia|]].
Qed.

Lemma name_held_while_live_witness : ∃ d1 d2, FileDao.insert file0 db0 = (Ok "u2", d1) ∧
  FileDao.soft_delete "u2" d1 = (Ok (), d2) ∧ answers_alike db0 d2.
Proof.
  assert (∃ d1, FileDao.insert file0 db0 = (Ok "u2", d1)) as [d1 H1] by (eexists; vm_compute; reflexivity).
  destruct (name_held_while_live db0 d1 file0 "u2" db0_ok H1) as (_&_&_&_&_&d2&H2&H3&_). exists d1, d2. exact (conj H1 (conj H2 H3)).
Defined.
End example.

End FileLife.
