(* ===== verification/Config.v ===== *)
(** The settings of the process: the structures and the YAML file of src/config, and
    the command line, the environment and the web root of main.cpp. *)
From S2P Require Import Prelude Steps.

(** yaml-cpp: the root of a file, a child that is defined, and the conversions of a
    scalar; each may throw. *)
Class Yaml := {
  node : Type;
  load_file : string → result node;
  child : node → string → result (option node);
  as_string : node → result string;
  as_int : node → result Z;
  as_uint16 : node → result Z;
  as_size : node → result Z
}.

Module Config.

Record DbConfig := mk_db { db_host : string; db_port : Z; dbname : string; user : string; db_password : string; pool_size : Z }.
Record RedisConfig := mk_redis { redis_host : string; redis_port : Z; redis_password : string }.
Record ServerConfig := mk_server { port : Z; threads : Z; max_connections : Z }.
Record StorageConfig := mk_storage { base_path : string; chunk_size : Z }.
Record JwtConfig := mk_jwt { secret : string; ttl_hours : Z }.
Record LogConfig := mk_log { level : string; file : string; max_size_mb : Z; max_files : Z }.
Record LimitsConfig := mk_limits { rate_limit_per_ip : Z; max_file_size_mb : Z; storage_quota_per_user_gb : Z }.

Record AppConfig := mk {
  server : ServerConfig; database : DbConfig; redis : RedisConfig; jwt : JwtConfig; logging : LogConfig;
  storage : StorageConfig; limits : LimitsConfig }.

Definition default_config : AppConfig := mk
  (mk_server 8080 4 10000)
  (mk_db "127.0.0.1" 5432 "solardrive" "postgres" "postgres" 8)
  (mk_redis "127.0.0.1" 6379 "")
  (mk_jwt "solardrive-dev-secret" 168)
  (mk_log "info" "logs/solardrive.log" 10 5)
  (mk_storage "/tmp/solardrive/objects" (4 * 1024 * 1024))
  (mk_limits 100 10240 10).

(** [DbConfig::conn_str]. *)
Definition conn_str (d : DbConfig) : string :=
  "host=" +:+ db_host d +:+ " port=" +:+ to_string (db_port d) +:+ " dbname=" +:+ dbname d +:+ " user=" +:+ user d +:+
  " password=" +:+ db_password d.

(** [static_cast<int64_t>(max_file_size_mb) * 1024 * 1024]. *)
Definition max_file_size_bytes (l : LimitsConfig) : Z := max_file_size_mb l * 1024 * 1024.

Definition with_server (f : ServerConfig → ServerConfig) (c : AppConfig) : AppConfig :=
  mk (f (server c)) (database c) (redis c) (jwt c) (logging c) (storage c) (limits c).
Definition with_database (f : DbConfig → DbConfig) (c : AppConfig) : AppConfig :=
  mk (server c) (f (database c)) (redis c) (jwt c) (logging c) (storage c) (limits c).
Definition with_redis (f : RedisConfig → RedisConfig) (c : AppConfig) : AppConfig :=
  mk (server c) (database c) (f (redis c)) (jwt c) (logging c) (storage c) (limits c).
Definition with_jwt (f : JwtConfig → JwtConfig) (c : AppConfig) : AppConfig :=
  mk (server c) (database c) (redis c) (f (jwt c)) (logging c) (storage c) (limits c).
Definition with_logging (f : LogConfig → LogConfig) (c : AppConfig) : AppConfig :=
  mk (server c) (database c) (redis c) (jwt c) (f (logging c)) (storage c) (limits c).
Definition with_storage (f : StorageConfig → StorageConfig) (c : AppConfig) : AppConfig :=
  mk (server c) (database c) (redis c) (jwt c) (logging c) (f (storage c)) (limits c).
Definition with_limits (f : LimitsConfig → LimitsConfig) (c : AppConfig) : AppConfig :=
  mk (server c) (database c) (redis c) (jwt c) (logging c) (storage c) (f (limits c)).

Section yaml.
Context {Y : Yaml}.

Definition update (f : AppConfig → AppConfig) : M AppConfig () := λ c, (Ok (), f c).

(** [if (n["key"]) cfg... = n["key"].as<T>();]. *)
Definition setting {A} (n : node) (key : string) (conv : node → result A) (set : A → AppConfig → AppConfig) : M AppConfig () :=
  x ← lift_result (child n key);
  match x with
  | Some v => a ← lift_result (conv v); update (set a)
  | None => mret ()
  end.

(** [if (auto node = root["name"]) { ... }]. *)
Definition section (root : node) (name : string) (body : node → M AppConfig ()) : M AppConfig () :=
  x ← lift_result (child root name);
  match x with Some n => body n | None => mret () end.

Definition load_server (n : node) : M AppConfig () :=
  _ ← setting n "port" as_uint16 (λ v, with_server (λ s, mk_server v (threads s) (max_connections s)));
  _ ← setting n "threads" as_int (λ v, with_server (λ s, mk_server (port s) v (max_connections s)));
  setting n "max_connections" as_int (λ v, with_server (λ s, mk_server (port s) (threads s) v)).

Definition load_storage (n : node) : M AppConfig () :=
  _ ← setting n "base_path" as_string (λ v, with_storage (λ s, mk_storage v (chunk_size s)));
  setting n "chunk_size" as_size (λ v, with_storage (λ s, mk_storage (base_path s) v)).

Definition load_database (n : node) : M AppConfig () :=
  _ ← setting n "host" as_string (λ v, with_database (λ d, mk_db v (db_port d) (dbname d) (user d) (db_password d) (pool_size d)));
  _ ← setting n "port" as_uint16 (λ v, with_database (λ d, mk_db (db_host d) v (dbname d) (user d) (db_password d) (pool_size d)));
  _ ← setting n "dbname" as_string (λ v, with_database (λ d, mk_db (db_host d) (db_port d) v (user d) (db_password d) (pool_size d)));
  _ ← setting n "user" as_string (λ v, with_database (λ d, mk_db (db_host d) (db_port d) (dbname d) v (db_password d) (pool_size d)));
  _ ← setting n "password" as_string (λ v, with_database (λ d, mk_db (db_host d) (db_port d) (dbname d) (user d) v (pool_size d)));
  setting n "pool_size" as_int (λ v, with_database (λ d, mk_db (db_host d) (db_port d) (dbname d) (user d) (db_password d) v)).

Definition load_redis (n : node) : M AppConfig () :=
  _ ← setting n "host" as_string (λ v, with_redis (λ r, mk_redis v (redis_port r) (redis_password r)));
  _ ← setting n "port" as_uint16 (λ v, with_redis (λ r, mk_redis (redis_host r) v (redis_password r)));
  setting n "password" as_string (λ v, with_redis (λ r, mk_redis (redis_host r) (redis_port r) v)).

Definition load_jwt (n : node) : M AppConfig () :=
  _ ← setting n "secret" as_string (λ v, with_jwt (λ j, mk_jwt v (ttl_hours j)));
  setting n "ttl_hours" as_int (λ v, with_jwt (λ j, mk_jwt (secret j) v)).

Definition load_logging (n : node) : M AppConfig () :=
  _ ← setting n "level" as_string (λ v, with_logging (λ l, mk_log v (file l) (max_size_mb l) (max_files l)));
  _ ← setting n "file" as_string (λ v, with_logging (λ l, mk_log (level l) v (max_size_mb l) (max_files l)));
  _ ← setting n "max_size_mb" as_int (λ v, with_logging (λ l, mk_log (level l) (file l) v (max_files l)));
  setting n "max_files" as_int (λ v, with_logging (λ l, mk_log (level l) (file l) (max_size_mb l) v)).

Definition load_limits (n : node) : M AppConfig () :=
  _ ← setting n "rate_limit_per_ip" as_int (λ v, with_limits (λ l, mk_limits v (max_file_size_mb l) (storage_quota_per_user_gb l)));
  _ ← setting n "max_file_size_mb" as_int (λ v, with_limits (λ l, mk_limits (rate_limit_per_ip l) v (storage_quota_per_user_gb l)));
  setting n "storage_quota_per_user_gb" as_int (λ v, with_limits (λ l, mk_limits (rate_limit_per_ip l) (max_file_size_mb l) v)).

Definition load_root (root : node) : M AppConfig () :=
  _ ← section root "server" load_server;
  _ ← section root "storage" load_storage;
  _ ← section root "database" load_database;
  _ ← section root "redis" load_redis;
  _ ← section root "jwt" load_jwt;
  _ ← section root "logging" load_logging;
  section root "limits" load_limits.

(** [AppConfig::load_from_file]: what was set before an exception stays set. *)
Definition load_from_file (path : string) : AppConfig :=
  snd ((root ← lift_result (load_file path); load_root root) default_config).

(** ** Reference: a setting of a file *)

(** The value a section gives a setting, if it gives one; and that no access throws. *)
Definition value_in {A} (n : node) (key : string) (conv : node → result A) : option A :=
  match child n key with Ok (Some v) => match conv v with Ok a => Some a | Throw _ => None end | _ => None end.
Definition fine_in {A} (n : node) (key : string) (conv : node → result A) : Prop :=
  match child n key with Ok None => True | Ok (Some v) => ∃ a, conv v = Ok a | Throw _ => False end.

(** The same, for a file. *)
Definition value {A} (root : node) (sec key : string) (conv : node → result A) : option A :=
  match child root sec with Ok (Some n) => value_in n key conv | _ => None end.
Definition fine {A} (root : node) (sec key : string) (conv : node → result A) : Prop :=
  match child root sec with Ok None => True | Ok (Some n) => fine_in n key conv | Throw _ => False end.

Lemma setting_run {A} n key (conv : node → result A) set c : fine_in n key conv →
  setting n key conv set c = (Ok (), match value_in n key conv with Some a => set a c | None => c end).
Proof.
  unfold fine_in, value_in, setting. destruct (child n key) as [[v|]|e] eqn:E; [| |done].
  - intros [a Ha]. unfold mbind, M_mbind, lift_result. by rewrite Ha.
  - done.
Qed.

Lemma setting_then {A B} n key (conv : node → result A) set (k : M AppConfig B) c : fine_in n key conv →
  (_ ← setting n key conv set; k) c = k match value_in n key conv with Some a => set a c | None => c end.
Proof. intros H. by rewrite (bind_run _ _ _ _ _ (setting_run n key conv set c H)). Qed.

(** The settings a file gives, and the defaults for the rest. *)
Definition from_file (root : node) : AppConfig :=
  let get {A} (sec key : string) (conv : node → result A) (d : A) : A := default d (value root sec key conv) in
  mk
    (mk_server (get "server" "port" as_uint16 8080%Z) (get "server" "threads" as_int 4%Z) (get "server" "max_connections" as_int 10000%Z))
    (mk_db (get "database" "host" as_string "127.0.0.1") (get "database" "port" as_uint16 5432%Z)
      (get "database" "dbname" as_string "solardrive") (get "database" "user" as_string "postgres")
      (get "database" "password" as_string "postgres") (get "database" "pool_size" as_int 8%Z))
    (mk_redis (get "redis" "host" as_string "127.0.0.1") (get "redis" "port" as_uint16 6379%Z) (get "redis" "password" as_string ""))
    (mk_jwt (get "jwt" "secret" as_string "solardrive-dev-secret") (get "jwt" "ttl_hours" as_int 168%Z))
    (mk_log (get "logging" "level" as_string "info") (get "logging" "file" as_string "logs/solardrive.log")
      (get "logging" "max_size_mb" as_int 10%Z) (get "logging" "max_files" as_int 5%Z))
    (mk_storage (get "storage" "base_path" as_string "/tmp/solardrive/objects") (get "storage" "chunk_size" as_size 4194304%Z))
    (mk_limits (get "limits" "rate_limit_per_ip" as_int 100%Z) (get "limits" "max_file_size_mb" as_int 10240%Z)
      (get "limits" "storage_quota_per_user_gb" as_int 10%Z)).

(** The settings, by section, with the conversion each must pass. *)
Definition numbers : list (string * string) :=
  [("server", "threads"); ("server", "max_connections"); ("database", "pool_size"); ("jwt", "ttl_hours"); ("logging", "max_size_mb");
   ("logging", "max_files"); ("limits", "rate_limit_per_ip"); ("limits", "max_file_size_mb"); ("limits", "storage_quota_per_user_gb")].
Definition ports : list (string * string) := [("server", "port"); ("database", "port"); ("redis", "port")].
Definition texts : list (string * string) :=
  [("storage", "base_path"); ("database", "host"); ("database", "dbname"); ("database", "user"); ("database", "password");
   ("redis", "host"); ("redis", "password"); ("jwt", "secret"); ("logging", "level"); ("logging", "file")].

Definition well_typed (root : node) : Prop :=
  Forall (λ sk, fine root (fst sk) (snd sk) as_int) numbers ∧ Forall (λ sk, fine root (fst sk) (snd sk) as_uint16) ports ∧
  Forall (λ sk, fine root (fst sk) (snd sk) as_string) texts ∧ fine root "storage" "chunk_size" as_size.

(** One section: its settings one after the other, each present or not. *)
Ltac load_section root name body c :=
  intros; unfold fine, section, value in *; destruct (child root name) as [[n|]|e];
  [|rewrite (bind_run (lift_result _) _ _ _ _ eq_refl); by destruct c as [[] [] [] [] [] [] []]|done];
  rewrite (bind_run (lift_result _) _ _ _ _ eq_refl); unfold body; repeat rewrite setting_then by done; rewrite setting_run by done;
  repeat match goal with |- context [value_in n ?k ?conv] => destruct (value_in n k conv) end; destruct c as [[] [] [] [] [] [] []]; done.

Lemma load_server_run root c : fine root "server" "port" as_uint16 →
  fine root "server" "threads" as_int →
  fine root "server" "max_connections" as_int →
  section root "server" load_server c = (Ok (), with_server (λ x, mk_server
    (default (port x) (value root "server" "port" as_uint16))
    (default (threads x) (value root "server" "threads" as_int))
    (default (max_connections x) (value root "server" "max_connections" as_int))) c).
Proof. load_section root "server" load_server c. Qed.

Lemma load_storage_run root c : fine root "storage" "base_path" as_string →
  fine root "storage" "chunk_size" as_size →
  section root "storage" load_storage c = (Ok (), with_storage (λ x, mk_storage
    (default (base_path x) (value root "storage" "base_path" as_string))
    (default (chunk_size x) (value root "storage" "chunk_size" as_size))) c).
Proof. load_section root "storage" load_storage c. Qed.

Lemma load_database_run root c : fine root "database" "host" as_string →
  fine root "database" "port" as_uint16 →
  fine root "database" "dbname" as_string →
  fine root "database" "user" as_string →
  fine root "database" "password" as_string →
  fine root "database" "pool_size" as_int →
  section root "database" load_database c = (Ok (), with_database (λ x, mk_db
    (default (db_host x) (value root "database" "host" as_string))
    (default (db_port x) (value root "database" "port" as_uint16))
    (default (dbname x) (value root "database" "dbname" as_string))
    (default (user x) (value root "database" "user" as_string))
    (default (db_password x) (value root "database" "password" as_string))
    (default (pool_size x) (value root "database" "pool_size" as_int))) c).
Proof. load_section root "database" load_database c. Qed.

Lemma load_redis_run root c : fine root "redis" "host" as_string →
  fine root "redis" "port" as_uint16 →
  fine root "redis" "password" as_string →
  section root "redis" load_redis c = (Ok (), with_redis (λ x, mk_redis
    (default (redis_host x) (value root "redis" "host" as_string))
    (default (redis_port x) (value root "redis" "port" as_uint16))
    (default (redis_password x) (value root "redis" "password" as_string))) c).
Proof. load_section root "redis" load_redis c. Qed.

Lemma load_jwt_run root c : fine root "jwt" "secret" as_string →
  fine root "jwt" "ttl_hours" as_int →
  section root "jwt" load_jwt c = (Ok (), with_jwt (λ x, mk_jwt
    (default (secret x) (value root "jwt" "secret" as_string))
    (default (ttl_hours x) (value root "jwt" "ttl_hours" as_int))) c).
Proof. load_section root "jwt" load_jwt c. Qed.

Lemma load_logging_run root c : fine root "logging" "level" as_string →
  fine root "logging" "file" as_string →
  fine root "logging" "max_size_mb" as_int →
  fine root "logging" "max_files" as_int →
  section root "logging" load_logging c = (Ok (), with_logging (λ x, mk_log
    (default (level x) (value root "logging" "level" as_string))
    (default (file x) (value root "logging" "file" as_string))
    (default (max_size_mb x) (value root "logging" "max_size_mb" as_int))
    (default (max_files x) (value root "logging" "max_files" as_int))) c).
Proof. load_section root "logging" load_logging c. Qed.

Lemma load_limits_run root c : fine root "limits" "rate_limit_per_ip" as_int →
  fine root "limits" "max_file_size_mb" as_int →
  fine root "limits" "storage_quota_per_user_gb" as_int →
  section root "limits" load_limits c = (Ok (), with_limits (λ x, mk_limits
    (default (rate_limit_per_ip x) (value root "limits" "rate_limit_per_ip" as_int))
    (default (max_file_size_mb x) (value root "limits" "max_file_size_mb" as_int))
    (default (storage_quota_per_user_gb x) (value root "limits" "storage_quota_per_user_gb" as_int))) c).
Proof. load_section root "limits" load_limits c. Qed.

Lemma load_root_run root : well_typed root → load_root root default_config = (Ok (), from_file root).
Proof.
  intros (Hn&Hp&Ht&Hc). unfold numbers, ports, texts in *.
  repeat match goal with H : Forall _ (_ :: _) |- _ => apply Forall_cons in H as [? H] end. cbn [fst snd] in *.
  unfold load_root.
  erewrite bind_run; [|apply load_server_run; assumption]. erewrite bind_run; [|apply load_storage_run; assumption].
  erewrite bind_run; [|apply load_database_run; assumption]. erewrite bind_run; [|apply load_redis_run; assumption].
  erewrite bind_run; [|apply load_jwt_run; assumption]. erewrite bind_run; [|apply load_logging_run; assumption].
  by rewrite load_limits_run.
Qed.

Lemma load_file_run path root : load_file path = Ok root → well_typed root → load_from_file path = from_file root.
Proof.
  intros Hf Hw. unfold load_from_file. rewrite Hf, (bind_run (lift_result _) _ _ _ _ eq_refl), load_root_run by done. done.
Qed.

End yaml.

(** * The command line and the environment *)

Record CliOptions := mk_cli { config_path : string; config_explicit : bool; port_override : option Z }.

(** What [parse_cli] sees: [getenv], and whether a file can be opened. *)
Section process.
Context (getenv : string → option string) (good : string → bool).

(** An argument that is not an option: a port number, if it is one. *)
Definition positional (arg : string) (o : CliOptions) : CliOptions :=
  match arg with
  | "" => o
  | String c _ =>
      if bool_decide (c = "-"%char) then o
      else match stoi arg with
           | Ok p => if bool_decide (0 < p ≤ 65535)%Z then mk_cli (config_path o) (config_explicit o) (Some p) else o
           | Throw _ => o
           end
  end.

(** The loop over the arguments; [None] is the exit after the usage text. *)
Fixpoint parse_args (args : list string) (o : CliOptions) : option CliOptions :=
  match args with
  | [] => Some o
  | arg :: rest =>
      if bool_decide (arg = "-h") || bool_decide (arg = "--help") then None
      else
        match rest with
        | path :: rest' =>
            if bool_decide (arg = "-c") || bool_decide (arg = "--config")
            then parse_args rest' (mk_cli path true (port_override o))
            else parse_args rest (positional arg o)
        | [] => parse_args rest (positional arg o)
        end
  end.

Definition local_yaml : string := "config/config.local.yaml".

Definition parse_cli (args : list string) : option CliOptions :=
  let opts := match getenv "SOLAR_CONFIG" with
    | Some env => mk_cli env true None
    | None => mk_cli "config/config.yaml" false None
    end in
  opts ← parse_args args opts;
  Some (if negb (config_explicit opts) && good local_yaml then mk_cli local_yaml (config_explicit opts) (port_override opts) else opts).

(** [std::atoi]: undefined out of the range of [int]. *)
Definition atoi (s : string) : option Z :=
  match scan_int s with
  | None => Some 0%Z
  | Some (neg, v) => let v := (if neg then - v else v)%Z in if bool_decide (int_min ≤ v ≤ int_max)%Z then Some v else None
  end.

(** The settings and the connection string of the database. *)
Definition apply_env_overrides (cfg : AppConfig) : option (AppConfig * string) :=
  let db_conn := default (conn_str (database cfg)) (getenv "SOLAR_DB") in
  let cfg := match getenv "SOLAR_STORE" with Some v => with_storage (λ s, mk_storage v (chunk_size s)) cfg | None => cfg end in
  let cfg := match getenv "SOLAR_REDIS_HOST" with Some v => with_redis (λ r, mk_redis v (redis_port r) (redis_password r)) cfg | None => cfg end in
  cfg ← match getenv "SOLAR_REDIS_PORT" with
        | Some v => n ← atoi v; Some (with_redis (λ r, mk_redis (redis_host r) (n `mod` 65536)%Z (redis_password r)) cfg)
        | None => Some cfg
        end;
  let cfg := match getenv "SOLAR_JWT_SECRET" with Some v => with_jwt (λ j, mk_jwt v (ttl_hours j)) cfg | None => cfg end in
  Some (cfg, db_conn).

(** What [main] works with. *)
Definition effective {Y : Yaml} (cli : CliOptions) : option (AppConfig * string) :=
  '(cfg, db_conn) ← apply_env_overrides (load_from_file (config_path cli));
  let cfg := match port_override cli with Some p => with_server (λ s, mk_server p (threads s) (max_connections s)) cfg | None => cfg end in
  Some (cfg, db_conn).

(** [realpath], and what the link /proc/self/exe names. *)
Context (realpath : string → option string) (self_exe : option string).

Definition web_root_has_index (root : string) : bool := good (root +:+ "/index.html").

Definition resolve_web_root (env_path : option string) : string :=
  let given := match env_path with Some p => negb (sempty p) | None => false end in
  let env := default "" env_path in
  if given && web_root_has_index env then env
  else if web_root_has_index "web" then "web"
  else
    let beside :=
      exe ← self_exe;
      if sempty exe then None
      else
        slash ← srfind "/" exe;
        resolved ← realpath (stake slash exe +:+ "/../web");
        if web_root_has_index resolved then Some resolved else None in
    match beside with
    | Some resolved => resolved
    | None => if given then env else "web"
    end.

End process.

Inductive Level := Trace | Debug | Info | Warn | Err | Critical | Off.

Definition parse_log_level (level : string) : Level :=
  if bool_decide (level = "trace") then Trace
  else if bool_decide (level = "debug") then Debug
  else if bool_decide (level = "warn") then Warn
  else if bool_decide (level = "error") || bool_decide (level = "err") then Err
  else if bool_decide (level = "critical") then Critical
  else if bool_decide (level = "off") then Off
  else Info.

(** C31. Where each setting comes from: with a file whose entries have the types the
    program reads, every setting is the file's entry or else its default, except
    that the command line's port, and the environment's store, Redis host, Redis
    port, token secret and connection string, win over the file; the connection
    string of the file is built from its settings of the database. *)
Theorem settings_precedence {Y : Yaml} (getenv : string → option string) (cli : CliOptions) (root : node)
    (Hfile : load_file (config_path cli) = Ok root) (Hty : well_typed root)
    (Hport : ∀ v, getenv "SOLAR_REDIS_PORT" = Some v → is_Some (atoi v)) :
  ∃ cfg db_conn, effective getenv cli = Some (cfg, db_conn) ∧
    db_conn = default (conn_str (database (from_file root))) (getenv "SOLAR_DB") ∧
    server cfg = mk_server (default (port (server (from_file root))) (port_override cli))
      (threads (server (from_file root))) (max_connections (server (from_file root))) ∧
    storage cfg = mk_storage (default (base_path (storage (from_file root))) (getenv "SOLAR_STORE")) (chunk_size (storage (from_file root))) ∧
    redis cfg = mk_redis (default (redis_host (redis (from_file root))) (getenv "SOLAR_REDIS_HOST"))
      (from_option (λ v, default 0%Z (atoi v) `mod` 65536)%Z (redis_port (redis (from_file root))) (getenv "SOLAR_REDIS_PORT"))
      (redis_password (redis (from_file root))) ∧
    jwt cfg = mk_jwt (default (secret (jwt (from_file root))) (getenv "SOLAR_JWT_SECRET")) (ttl_hours (jwt (from_file root))) ∧
    database cfg = database (from_file root) ∧ logging cfg = logging (from_file root) ∧ limits cfg = limits (from_file root).
Proof.
  unfold effective. rewrite (load_file_run _ _ Hfile Hty). generalize (from_file root). intros c.
  unfold apply_env_overrides. cbv zeta.
  destruct (getenv "SOLAR_REDIS_PORT") as [v|]; [destruct (Hport v eq_refl) as [n Hn]; rewrite Hn|];
    destruct c as [[] [] [] [] [] [] []], (getenv "SOLAR_STORE"), (getenv "SOLAR_REDIS_HOST"), (getenv "SOLAR_JWT_SECRET"), (port_override cli);
    eexists _, _; (split; [reflexivity|]); cbn; rewrite ?Hn; split_and!; done.
Qed.

(** ** A small YAML *)

Inductive tree := Scalar (text : string) | Mapping (entries : list (string * tree)).

Definition scalar {A} (f : string → result A) (t : tree) : result A :=
  match t with Scalar s => f s | Mapping _ => Throw (Exn ERuntime "bad conversion") end.

Definition solar_yaml : tree := Mapping [("server", Mapping [("port", Scalar "9000")]); ("redis", Mapping [("host", Scalar "cache")])].

(** Files of such trees, read as yaml-cpp reads them. *)
Definition tree_yaml (files : string → option tree) : Yaml := {|
  node := tree;
  load_file path := match files path with Some t => Ok t | None => Throw (Exn ERuntime "bad file") end;
  child t key := match t with
    | Mapping l => Ok (snd <$> List.find (λ kv, bool_decide (fst kv = key)) l)
    | Scalar _ => Throw (Exn ERuntime "bad subscript")
    end;
  as_string := scalar Ok; as_int := scalar stoi; as_uint16 := scalar stoi; as_size := scalar stoull
|}.

#[local] Instance small_yaml : Yaml := tree_yaml (λ path,
  if bool_decide (path = "solar.yaml") then Some solar_yaml
  else if bool_decide (path = "broken.yaml")
  then Some (Mapping [("server", Mapping [("port", Scalar "9000")]); ("database", Mapping [("port", Scalar "pg")])])
  else None).

Definition no_env (name : string) : option string := if bool_decide (name = "SOLAR_REDIS_PORT") then Some "70000" else None.

Lemma settings_precedence_witness :
  ∃ cfg db_conn, effective no_env (mk_cli "solar.yaml" true (Some 8443%Z)) = Some (cfg, db_conn) ∧
    server cfg = mk_server 8443 4 10000 ∧ redis cfg = mk_redis "cache" 4464 "".
Proof.
  destruct (settings_precedence no_env (mk_cli "solar.yaml" true (Some 8443%Z)) (solar_yaml : @node small_yaml))
    as (cfg&db_conn&H1&_&H2&_&H3&_); [reflexivity| | |].
  - split_and!; [repeat (apply Forall_cons_2; [first [exact I|refine (ex_intro _ _ eq_refl)]|]); apply Forall_nil_2 ..|exact I].
  - intros v [= <-]. exists 70000%Z. reflexivity.
  - exists cfg, db_conn. split_and!; [exact H1|exact H2|exact H3].
Defined.

(** A file with a bad entry is not ignored: the settings before it are kept. *)
Lemma broken_file_kept_in_part : load_from_file "broken.yaml" = with_server (λ s, mk_server 9000 (threads s) (max_connections s)) default_config.
Proof. reflexivity. Qed.

End Config.
