(* ===== verification/Logging.v ===== *)
(** The logger of the process (src/network/log.h, src/network/log.cpp), around spdlog,
    and its set-up by main.cpp. *)
From S2P Require Import Prelude Steps Config.
Import Config.

(** What the library spdlog is to this code: its levels, its sinks, the registry of
    names, and what happens on the disk and on the terminal. *)
Class Spdlog := {
  level_enum : Type;
  #[global] level_enum_eq :: EqDecision level_enum;
  lv_trace : level_enum; lv_debug : level_enum; lv_info : level_enum; lv_warn : level_enum;
  lv_err : level_enum; lv_critical : level_enum; lv_off : level_enum;
  sink : Type;
  console_sink : bool → sink;                       (* with colours or without *)
  Outside : Type;                                   (* disk and terminal *)
  file_sink : string → bool → Outside → option (sink * Outside);   (* truncating or not; none if it cannot be opened *)
  flush_sinks : list sink → Outside → Outside;
  write_sinks : list sink → level_enum → level_enum → string → Outside → Outside;   (* the logger's level, the line's *)
  registry : Type;
  has_name : string → registry → bool;
  register_name : string → registry → option registry;
  drop_name : string → registry → registry
}.

(** What its documentation says: the levels are different; a name can be registered
    if it is free, and dropping frees it. *)
Record spdlog_laws {G : Spdlog} : Prop := {
  levels_differ : NoDup [lv_trace; lv_debug; lv_info; lv_warn; lv_err; lv_critical; lv_off];
  register_spec n r : match register_name n r with
    | Some r' => has_name n r = false ∧ ∀ m, has_name m r' = bool_decide (m = n) || has_name m r
    | None => has_name n r = true
    end;
  drop_spec n r m : has_name m (drop_name n r) = negb (bool_decide (m = n)) && has_name m r
}.
Arguments spdlog_laws : clear implicits.

Module Log.

Section log.
Context {G : Spdlog}.

Definition to_spdlog_level (level : Level) : level_enum :=
  match level with
  | Trace => lv_trace | Debug => lv_debug | Info => lv_info | Warn => lv_warn
  | Err => lv_err | Critical => lv_critical | Off => lv_off
  end.

Definition from_spdlog_level (level : level_enum) : Level :=
  if bool_decide (level = lv_trace) then Trace
  else if bool_decide (level = lv_debug) then Debug
  else if bool_decide (level = lv_info) then Info
  else if bool_decide (level = lv_warn) then Warn
  else if bool_decide (level = lv_err) then Err
  else if bool_decide (level = lv_critical) then Critical
  else if bool_decide (level = lv_off) then Off
  else Info.

Record Options := mk_options { name : string; level_ : Level; console : bool; color : bool; file_path : string }.
Definition default_options : Options := mk_options "solar_net" Info true true "".

(** A logger of spdlog, with what the code sets of it. *)
Record logger_t := mk_logger {
  l_name : string; l_sinks : list sink; l_level : level_enum; l_pattern : string; l_flush_on : level_enum }.

(** [g_logger], the registry, and the world outside. *)
Record State := mk { g_logger : option logger_t; names : registry; outside : Outside }.

Definition set_logger (l : option logger_t) : M State () := λ s, (Ok (), mk l (names s) (outside s)).
Definition set_names (r : registry) : M State () := λ s, (Ok (), mk (g_logger s) r (outside s)).
Definition set_outside (o : Outside) : M State () := λ s, (Ok (), mk (g_logger s) (names s) o).

Definition shutdown : M State () :=
  s ← get_st;
  match g_logger s with
  | None => mret ()
  | Some l =>
      _ ← set_outside (flush_sinks (l_sinks l) (outside s));
      _ ← set_logger None;
      set_names (drop_name (l_name l) (names s))
  end.

Definition is_initialized (s : State) : bool := bool_decide (is_Some (g_logger s)).
Definition level (s : State) : Level :=
  match g_logger s with None => Off | Some l => from_spdlog_level (l_level l) end.

Definition with_level (v : level_enum) (l : logger_t) : logger_t := mk_logger (l_name l) (l_sinks l) v (l_pattern l) (l_flush_on l).
Definition set_level (v : Level) : M State () :=
  s ← get_st;
  match g_logger s with None => mret () | Some l => set_logger (Some (with_level (to_spdlog_level v) l)) end.

Definition pattern : string := "[%Y-%m-%d %H:%M:%S.%e] [%^%l%$] [%t] %v".

(** The sink of the file, if there is to be one; opening it may throw. *)
Definition open_file (path : string) : M State (list sink) :=
  if sempty path then mret []
  else
    s ← get_st;
    match file_sink path true (outside s) with
    | None => throw ERuntime "spdlog_ex"
    | Some (k, o) => _ ← set_outside o; mret [k]
    end.

Definition register : M State () :=
  s ← get_st;
  match g_logger s with
  | None => mret ()
  | Some l => match register_name (l_name l) (names s) with
              | None => throw ERuntime "spdlog_ex"
              | Some r => set_names r
              end
  end.

Definition init (opts : Options) : M State bool :=
  _ ← shutdown;
  let to_console := if console opts then [console_sink (color opts)] else [] in
  to_file ← open_file (file_path opts);
  let sinks := to_console ++ to_file in
  if bool_decide (sinks = []) then mret false
  else
    _ ← set_logger (Some (mk_logger (name opts) sinks (to_spdlog_level (level_ opts)) pattern lv_warn));
    _ ← register;
    mret true.

(** The macros: nothing without a logger. *)
Definition snlog (v : level_enum) (text : string) : M State () :=
  s ← get_st;
  match g_logger s with
  | None => mret ()
  | Some l => set_outside (write_sinks (l_sinks l) (l_level l) v text (outside s))
  end.

(** ** What they do *)

Context (HL : spdlog_laws G).

(** What is set is what is read. *)
Lemma level_roundtrip v : from_spdlog_level (to_spdlog_level v) = v.
Proof using HL.
  pose proof (levels_differ HL) as H. repeat (apply NoDup_cons in H as [? H]). unfold from_spdlog_level, to_spdlog_level.
  destruct v; repeat (case_bool_decide; [first [done|set_solver]|]); done.
Qed.

Lemma set_level_level v s : is_initialized s = true → level (snd (set_level v s)) = v.
Proof using HL.
  unfold is_initialized, set_level. rewrite (bind_run get_st _ _ _ _ eq_refl). destruct (g_logger s); [|done]. intros _. apply level_roundtrip.
Qed.

(** Whatever there was is gone after [shutdown], its lines flushed and its name free. *)
Definition flushed (s : State) : Outside :=
  match g_logger s with Some l => flush_sinks (l_sinks l) (outside s) | None => outside s end.
Definition ours (m : string) (s : State) : Prop := ∃ l, g_logger s = Some l ∧ l_name l = m.

Lemma shutdown_run s : ∃ r, shutdown s = (Ok (), mk None r (flushed s)) ∧
  ∀ m, has_name m r = true ↔ has_name m (names s) = true ∧ ¬ ours m s.
Proof using HL.
  unfold shutdown, flushed, ours. rewrite (bind_run get_st _ _ _ _ eq_refl). destruct s as [[l|] r o]; cbn.
  - eexists. split; [reflexivity|]. intros m. rewrite (drop_spec HL). case_bool_decide; naive_solver.
  - exists r. split; [done|]. naive_solver.
Qed.

(** What opening the file gives, from a world outside. *)
Definition opened (opts : Options) (o : Outside) : option (list sink * Outside) :=
  if sempty (file_path opts) then Some ([], o) else prod_map (λ k, [k]) id <$> file_sink (file_path opts) true o.
Definition terminal (opts : Options) : list sink := if console opts then [console_sink (color opts)] else [].

Lemma register_run l r r' o : register_name (l_name l) r = Some r' → register (mk (Some l) r o) = (Ok (), mk (Some l) r' o).
Proof. intros Hr. unfold register. rewrite (bind_run get_st _ _ _ _ eq_refl). cbn. by rewrite Hr. Qed.

(** [init] replaces the logger there was by one with the sinks asked for, at the level
    asked for and registered under its name; without any sink it fails, and when
    the file cannot be opened it throws, and either way no logger is left. *)
Theorem init_exact (opts : Options) (s : State) (Hn : has_name (name opts) (names s) = true → ours (name opts) s) :
  match opened opts (flushed s) with
  | None => ∃ r, init opts s = (Throw (Exn ERuntime "spdlog_ex"), mk None r (flushed s))
  | Some (ks, o) =>
      let sinks := terminal opts ++ ks in
      ∃ s', init opts s = (Ok (negb (bool_decide (sinks = []))), s') ∧ outside s' = o ∧
        (sinks = [] → is_initialized s' = false ∧ level s' = Off) ∧
        (sinks ≠ [] → l_sinks <$> g_logger s' = Some sinks ∧ level s' = level_ opts ∧ ours (name opts) s' ∧
          ∀ m, has_name m (names s') = true ↔ m = name opts ∨ (has_name m (names s) = true ∧ ¬ ours m s))
  end.
Proof using HL.
  destruct (shutdown_run s) as (r&Hs&Hr). unfold init. rewrite (bind_run _ _ _ _ _ Hs). cbv zeta. fold (terminal opts).
  assert (open_file (file_path opts) (mk None r (flushed s)) = match opened opts (flushed s) with
    | Some (ks, o) => (Ok ks, mk None r o) | None => (Throw (Exn ERuntime "spdlog_ex"), mk None r (flushed s)) end) as Ho.
  { unfold open_file, opened. destruct (sempty _); [done|]. rewrite (bind_run get_st _ _ _ _ eq_refl). cbn.
    by destruct (file_sink _ _ _) as [[k o]|]. }
  destruct (opened opts (flushed s)) as [[ks o]|].
  - rewrite (bind_run _ _ _ _ _ Ho). cbv zeta. case_bool_decide as E; cbn [negb]; [eexists; split; [reflexivity|]; done|].
    rewrite (bind_run (set_logger _) _ _ _ _ eq_refl). cbn [names outside].
    pose proof (register_spec HL (name opts) r) as Hg. destruct (register_name (name opts) r) as [r'|] eqn:Er.
    + rewrite (bind_run register _ _ _ _ (register_run (mk_logger (name opts) _ _ _ _) _ _ _ Er)).
      eexists. split; [reflexivity|]. split_and!; [done|done|]. intros _. cbn. split_and!; [done|apply level_roundtrip|by eexists|].
      intros m. destruct Hg as [_ Hg]. by rewrite Hg, orb_true_iff, Hr, bool_decide_eq_true.
    + apply Hr in Hg as [Hg Hno]. by destruct Hno; apply Hn.
  - by rewrite (bind_throw _ _ _ _ _ Ho); eexists.
Qed.

End log.

(** ** The set-up of main.cpp *)

(** [std::filesystem::path::parent_path]: what is before the last separator, without
    the separators at its end. *)
Fixpoint strip (n : nat) (s : string) : string :=
  match n with
  | 0 => stake 1 s
  | S n' => if bool_decide (substr s n 1 = "/") then strip n' s else stake (S n) s
  end.
Definition parent_path (s : string) : string :=
  match srfind "/" s with None => "" | Some k => strip (pred k) s end.

Section main.
Context {G : Spdlog} (create_directories : string → Outside → Outside).

Definition init_logging (log_cfg : LogConfig) : M State bool :=
  s ← get_st;
  let parent := parent_path (file log_cfg) in
  _ ← (if sempty (file log_cfg) then mret ()
       else if sempty parent then mret () else set_outside (create_directories parent (outside s)));
  init (mk_options "solardrive" (parse_log_level (Config.level log_cfg)) true true (file log_cfg)).

(** An interface of the machine as [getifaddrs] lists it: whether it has an IPv4
    address, and what [inet_ntop] writes of it. *)
Record Interface := mk_interface { inet : bool; text : option string }.

(** The three lines for an address; only the first has blanks after the colon. *)
Definition access_urls (place blanks ip : string) (port : Z) : list string :=
  let url := "http://" +:+ ip +:+ ":" +:+ to_string port in
  ["web UI (" +:+ place +:+ "):" +:+ blanks +:+ url +:+ "/"; "metrics UI (" +:+ place +:+ "): " +:+ url +:+ "/metrics.html";
   "metrics API (" +:+ place +:+ "): " +:+ url +:+ "/metrics"].

Fixpoint log_lines (l : list string) : M State () :=
  match l with [] => mret () | x :: l => _ ← snlog lv_info x; log_lines l end.

Definition log_access_urls (interfaces : option (list Interface)) (port : Z) : M State () :=
  _ ← log_lines (access_urls "VM local" "     " "127.0.0.1" port);
  match interfaces with
  | None => mret ()
  | Some l => log_lines (l ≫= λ i,
      match inet i, text i with
      | true, Some ip => if bool_decide (ip = "127.0.0.1") then [] else access_urls "LAN/host" "     " ip port
      | _, _ => []
      end)
  end.

(** The first initialisation of a process: [true], or the exception of a file that
    cannot be opened, which [main] does not catch; never the [false] that its
    warning waits for. *)
Theorem init_logging_exact (HL : spdlog_laws G) (c : LogConfig) (r : registry) (o : Outside)
    (Hr : has_name "solardrive" r = false) :
  let parent := parent_path (file c) in
  let o1 := if sempty (file c) || sempty parent then o else create_directories parent o in
  match init_logging c (mk None r o) with
  | (Ok b, s') => b = true ∧ level s' = parse_log_level (Config.level c)
  | (Throw e, s') => e = Exn ERuntime "spdlog_ex" ∧ is_initialized s' = false ∧
      file c ≠ "" ∧ file_sink (file c) true o1 = None
  end.
Proof.
  cbv zeta. unfold init_logging. rewrite (bind_run get_st _ _ _ _ eq_refl). cbv zeta.
  set (o1 := if sempty (file c) || _ then o else _).
  assert ((if sempty (file c) then mret () else if sempty (parent_path (file c)) then mret () else
    set_outside (create_directories (parent_path (file c)) (outside (mk None r o)))) (mk None r o) = (Ok (), mk None r o1)) as Hd.
  { unfold o1. by destruct (sempty (file c)), (sempty (parent_path (file c))). }
  rewrite (bind_run _ _ _ _ _ Hd). set (opts := mk_options _ _ _ _ _).
  assert (has_name (name opts) (names (mk None r o1)) = true → ours (name opts) (mk None r o1)) as Hn by (cbn; congruence).
  pose proof (init_exact HL opts (mk None r o1) Hn) as H. unfold opened in H. cbn [file_path opts flushed g_logger outside] in H.
  destruct (sempty (file c)) eqn:Ee.
  - destruct H as (s'&->&_&_&H). destruct H as (_&?&_); [done|]. done.
  - destruct (file_sink (file c) true o1) as [[k o2]|] eqn:Ek; cbn in H.
    + destruct H as (s'&->&_&_&H). destruct H as (_&?&_); [done|]. done.
    + destruct H as (r'&->). split_and!; [done..| |done]. intros E. by rewrite E in Ee.
Qed.

End main.

(** ** A small spdlog *)

(** Levels are numbers, the disk a list of the files that may be written. *)
#[export] Instance small_spdlog : Spdlog := {|
  level_enum := nat; lv_trace := 0; lv_debug := 1; lv_info := 2; lv_warn := 3; lv_err := 4; lv_critical := 5; lv_off := 6;
  sink := bool * string; console_sink := λ c, (c, "");
  Outside := list string * list string;
  file_sink := λ path _ o, if bool_decide (path ∈ fst o) then Some ((false, path), o) else None;
  flush_sinks := λ _ o, o;
  write_sinks := λ _ v w text o, if bool_decide (v ≤ w) then (fst o, snd o ++ [text]) else o;
  registry := gset string; has_name := λ n r, bool_decide (n ∈ r);
  register_name := λ n r, if bool_decide (n ∈ r) then None else Some ({[n]} ∪ r);
  drop_name := λ n r, r ∖ {[n]} |}.

Lemma small_spdlog_laws : spdlog_laws small_spdlog.
Proof.
  split; cbn.
  - apply (bool_decide_unpack _). by vm_compute.
  - intros n r. case_bool_decide; [done|]. split; [done|]. intros m. rewrite <- bool_decide_or. apply bool_decide_ext. set_solver.
  - intros n r m. rewrite <- bool_decide_not, <- bool_decide_and. apply bool_decide_ext. set_solver.
Qed.

Definition blank : State := mk None (∅ : gset string) (["logs/solardrive.log"], []).

(** Logging at two levels; after a second set-up that fails nothing is logged. *)
Example logging_life :
  let m := _ ← init_logging (λ _ o, o) (mk_log "warn" "logs/solardrive.log" 10 5); _ ← snlog lv_info "started"; _ ← snlog lv_err "lost";
           _ ← try_catch (init_logging (λ _ o, o) (mk_log "info" "/root/log" 10 5)) (λ _, mret true); snlog lv_err "unseen" in
  let s := snd (m blank) in snd (outside s) = ["lost"] ∧ is_initialized s = false ∧ names s = ∅ ∧ parent_path "logs/solardrive.log" = "logs".
Proof. by split_and!; vm_compute. Qed.

Example access_urls_logged :
  let s := snd ((_ ← init_logging (λ _ o, o) (mk_log "info" "" 10 5);
                 log_access_urls (Some [mk_interface true (Some "127.0.0.1"); mk_interface false None; mk_interface true (Some "10.0.0.5")]) 8080) blank) in
  last (snd (outside s)) = Some "metrics API (LAN/host): http://10.0.0.5:8080/metrics" ∧ length (snd (outside s)) = 6.
Proof. by vm_compute. Qed.

Lemma init_logging_exact_witness : fst (init_logging (λ _ o, o) (mk_log "warn" "logs/solardrive.log" 10 5) blank) = Ok true ∧
  level (snd (init_logging (λ _ o, o) (mk_log "warn" "logs/solardrive.log" 10 5) blank)) = Warn.
Proof.
  pose proof (init_logging_exact (λ _ o, o) small_spdlog_laws (mk_log "warn" "logs/solardrive.log" 10 5) ∅ (["logs/solardrive.log"], [])) as H.
  split; [by vm_compute|]. apply H. by vm_compute.
Defined.

End Log.
