(* ===== verification/Shutdown.v ===== *)
(** The end of the process: the signal handler of src/main.cpp, run by the main thread
    in the middle of its loop, and the end of [main] after it. *)
From S2P Require Import Prelude Steps Reactor TcpConnection TcpServer Sockets EventLoop Config Logging.
From stdpp Require Import relations.

Module Shutdown.
Import TcpServer.

Section shutdown.
Context {G : Spdlog}.

Notation Loop := (EventLoop.EventLoop (Task := Task)).

(** Where the main thread is: not in the handler; in the wait of [stop_in_loop] that
    the handler called; behind the handler; out of [main]. *)
Inductive phase := Running | Waiting | Handled | Returned.

(** What [g_server] and [g_main_loop] point to, the logger, what the handler prints
    without one, and the exit code. *)
Record Process := mk {
  g_server : TcpServer.TcpServer; g_main_loop : Loop; log : Log.State; printed : string; at_ : phase; exit_code : option Z }.

Definition received : string := "received shutdown signal".

(** [signal_handler] up to the wait, and from its end on. *)
Definition handle (p : Process) : Process :=
  let '(log', printed') :=
    if Log.is_initialized (log p) then (snd (Log.snlog lv_info received (log p)), printed p)
    else (log p, printed p +:+ String LF ("[main] received SIGINT, shutting down..." +c LF)) in
  mk (snd (run_event (Stop true) (g_server p))) (g_main_loop p) log' printed' Waiting (exit_code p).

Definition finish (p : Process) : Process :=
  mk (snd (run_event StopDone (g_server p))) (EventLoop.stop false (g_main_loop p)) (log p) (printed p) Handled (exit_code p).

(** [main] behind [main_loop.loop()]. *)
Definition return_ (p : Process) : Process :=
  mk (g_server p) (g_main_loop p) (snd (Log.shutdown (snd (Log.snlog lv_info "SolarDrive stopped" (log p))))) (printed p) Returned (Some 0%Z).

Definition with_server (s : TcpServer.TcpServer) (p : Process) : Process := mk s (g_main_loop p) (log p) (printed p) (at_ p) (exit_code p).
Definition with_loop (l : Loop) (p : Process) : Process := mk (g_server p) l (log p) (printed p) (at_ p) (exit_code p).

Context (spawns : Task → list Task).

(** What moves the main loop: its own thread and others, unless the handler holds
    the thread; [main] enters the loop once. *)
Definition moves (p : Process) (l : Loop) : Prop :=
  match at_ p with
  | Running => EventLoop.step spawns (g_main_loop p) l
  | Waiting => (∃ t, l = EventLoop.push true t (g_main_loop p)) ∨ l = EventLoop.wakeup (g_main_loop p)
  | Handled => EventLoop.at_ (g_main_loop p) ≠ EventLoop.Outside ∧ EventLoop.step spawns (g_main_loop p) l
  | Returned => False
  end.

(** The server and the main loop go on while their threads do; a signal finds the main
    thread in [epoll_wait]; the wait of the handler ends; [main] returns. *)
Inductive step : Process → Process → Prop :=
  | step_event p e s : at_ p ≠ Returned → (at_ p = Running → serving e) → not_done e → event_ok e (g_server p) →
      run_event e (g_server p) = (Ok (), s) → step p (with_server s p)
  | step_loop p l : moves p l → step p (with_loop l p)
  | step_signal p : at_ p = Running → EventLoop.at_ (g_main_loop p) = EventLoop.Polling → step p (handle p)
  | step_finish p : at_ p = Waiting → event_ok StopDone (g_server p) → step p (finish p)
  | step_return p : at_ p = Handled → EventLoop.at_ (g_main_loop p) = EventLoop.Outside → step p (return_ p).

(** ** The main loop leaves *)

(** The loop was told to stop and is past the start of [loop()], or has left it. *)
Definition leaving (l : Loop) : Prop :=
  match EventLoop.at_ l with
  | EventLoop.Outside => True
  | EventLoop.Draining | EventLoop.Drained => False
  | _ => EventLoop.stop_ l = true
  end.

Lemma leaving_step l l' : leaving l → EventLoop.at_ l ≠ EventLoop.Outside → EventLoop.step spawns l l' → leaving l'.
Proof.
  unfold leaving. intros H Hn Hs. EventLoop.step_cases Hs; unfold EventLoop.exchange, EventLoop.test in *; cbn in *;
    try destruct (EventLoop.run_task_fields spawns t (EventLoop.at_phase (EventLoop.Running ts) l)) as (_&_&_&_&->&->&_); cbn;
    try (rewrite Ha in *; cbn in *); repeat case_match; cbn in *; naive_solver.
Qed.

(** The steps its thread has left to take. *)
Definition left_of (l : Loop) : nat :=
  match EventLoop.at_ l with
  | EventLoop.Polling => 5 + length (EventLoop.pending_tasks_ l)
  | EventLoop.Dispatching true => 4 + length (EventLoop.pending_tasks_ l)
  | EventLoop.Dispatching false => 3 + length (EventLoop.pending_tasks_ l)
  | EventLoop.Running ts => 2 + length ts
  | EventLoop.Testing => 1
  | _ => 0
  end.

Lemma own_leaves l : leaving l → EventLoop.at_ l ≠ EventLoop.Outside →
  ∃ l', EventLoop.own spawns l = Some l' ∧ leaving l' ∧ left_of l' < left_of l.
Proof.
  intros Hl Hn. destruct (EventLoop.own spawns l) as [l'|] eqn:E.
  - exists l'. split; [done|]. split; [by eapply leaving_step, EventLoop.own_step|]. revert E Hl Hn.
    unfold EventLoop.own, EventLoop.test, leaving, left_of. destruct (EventLoop.at_ l) as [| | | | |[]|[|t ts]] eqn:Ea;
      intros E Hl Hn; try done; injection E as <-.
    all: try destruct (EventLoop.run_task_fields spawns t (EventLoop.at_phase (EventLoop.Running ts) l)) as (_&_&_&_&_&->&_).
    all: rewrite ?Hl; cbn; try destruct (EventLoop.readable l); cbn; lia.
  - exfalso. revert E Hn. unfold EventLoop.own. destruct (EventLoop.at_ l) as [| | | | |[]|[|t ts]]; done.
Qed.

Fixpoint own_steps (n : nat) (l : Loop) : option Loop :=
  match n with 0 => Some l | S n => l' ← EventLoop.own spawns l; own_steps n l' end.

(** Left alone, it is out of [loop()] after its last tasks. *)
Lemma loop_leaves l : leaving l → ∃ n l', n ≤ left_of l ∧ own_steps n l = Some l' ∧ EventLoop.at_ l' = EventLoop.Outside.
Proof.
  remember (left_of l) as k eqn:Hk. revert l Hk. induction (lt_wf k) as [k _ IH]. intros l -> Hl.
  assert (EventLoop.at_ l = EventLoop.Outside ∨ EventLoop.at_ l ≠ EventLoop.Outside) as [Ho|Ho] by (destruct (EventLoop.at_ l); auto).
  { exists 0, l. split_and!; [lia|done|done]. }
  destruct (own_leaves l Hl Ho) as (l1&E&Hl1&Hlt). destruct (IH _ Hlt l1 eq_refl Hl1) as (n&l'&Hn&Hs&Ho').
  exists (S n), l'. split_and!; [lia| |done]. cbn. by rewrite E.
Qed.

(** ** From the signal to the end *)

Definition all_closed (ids : list nat) (s : TcpServer.TcpServer) : Prop :=
  ∀ id, id ∈ ids → ∃ c, conns s !! id = Some c ∧ c_socket c = false.

Definition ending (ids : list nat) (p : Process) : Prop :=
  Acceptor.listening_ (acceptor_ (g_server p)) = false ∧
  match at_ p with
  | Running => False
  | Waiting => stopping ids (g_server p) ∧ EventLoop.at_ (g_main_loop p) = EventLoop.Polling
  | Handled => all_closed ids (g_server p) ∧ leaving (g_main_loop p)
  | Returned => all_closed ids (g_server p) ∧ exit_code p = Some 0%Z ∧ Log.g_logger (log p) = None
  end.

(** A socket that is closed stays closed. *)
Lemma closed_for_good ids s s' : Descriptors.closing s s' → all_closed ids s → all_closed ids s'.
Proof.
  intros [Hc _ _] Ha id Hid. destruct (Ha id Hid) as (c&Hci&Hs). destruct (Forall2_lookup_l _ _ _ _ _ Hc Hci) as (c'&Hc'&_&Hk).
  exists c'. split; [done|]. destruct (c_socket c'); [by rewrite Hk in Hs|done].
Qed.

Lemma shutdown_logger (s : Log.State) : Log.g_logger (snd (Log.shutdown s)) = None.
Proof. unfold Log.shutdown. rewrite (bind_run get_st _ _ _ _ eq_refl). by destruct s as [[l|] r o]. Qed.

Lemma ending_step ids p p' : ending ids p → step p p' → ending ids p'.
Proof.
  intros [Hl He] Hs. destruct Hs as [p e s Hn Hse Hnd Hok Hr|p l Hm|p Hat|p Hat Hok|p Hat Ho]; unfold ending in *.
  - assert (Descriptors.closing (g_server p) s) as Hc.
    { assert (¬ Descriptors.accepts e) as Hna.
      { intros Ha. destruct e; try done. destruct Hok as (_&?&_). congruence. }
      pose proof (Descriptors.event_closing e Hna (g_server p)) as H. by rewrite Hr in H. }
    split. { destruct (Acceptor.listening_ (acceptor_ s)) eqn:E; [|done]. by apply (Descriptors.cl_listens _ _ Hc) in E; unfold Descriptors.acc in E; congruence. }
    cbn. destruct (at_ p); [done|..|done].
    + destruct He as [Hst ?]. split; [|done]. pose proof (stopping_step ids e _ Hst Hnd Hok) as Hst'. by rewrite Hr in Hst'.
    + destruct He. split; [by eapply closed_for_good|done].
  - split; [done|]. cbn. unfold moves in Hm. destruct (at_ p); [done|..|done].
    + destruct He as [? Hp]. split; [done|]. by destruct Hm as [[t ->]| ->].
    + destruct He, Hm. split; [done|by eapply leaving_step].
  - by rewrite Hat in He.
  - rewrite Hat in He. destruct He as [Hst Hp]. split; [done|]. cbn. split.
    + destruct Hok as (ids'&Hids&Hall). destruct Hst as [[(_&_&Hc&_) Hd _] _]. assert (ids' = ids) as -> by congruence.
      intros id Hid. apply Hd. cbn. by apply Hall.
    + unfold leaving. cbn. by rewrite Hp.
  - rewrite Hat in He. destruct He. split; [done|]. cbn. split_and!; [done|done|apply shutdown_logger].
Qed.

(** A signal ends the process cleanly: a handler that interrupts the main thread in
    [epoll_wait] closes the door at once and every connection of the server's map by
    the time its wait ends, which is as soon as the loops of the pool have run what is
    queued there; then the main loop leaves after the tasks it has, and [main] returns
    0 with the logger shut down. *)
Theorem signal_ends_process (name : string) (a : Acceptor.Acceptor) (threads : Z) (p p' : Process)
    (Ha : Acceptor.listening_ a = false) (Hs : rtc (TcpServer.step serving) (started name a threads) (g_server p))
    (Hp : at_ p = Running) (Hl : EventLoop.at_ (g_main_loop p) = EventLoop.Polling) (Hr : rtc step (handle p) p') :
  Acceptor.listening_ (acceptor_ (g_server p')) = false ∧
  match at_ p' with
  | Running => False
  | Waiting => (∀ l, l ≠ 0 → queue l (g_server p') = []) → step p' (finish p')
  | Handled => ∃ n l, n ≤ left_of (g_main_loop p') ∧ own_steps n (g_main_loop p') = Some l ∧ EventLoop.at_ l = EventLoop.Outside
  | Returned => exit_code p' = Some 0%Z ∧ Log.g_logger (log p') = None
  end ∧
  (at_ p' = Handled ∨ at_ p' = Returned → ∀ n id, connections_ (g_server p) !! n = Some id →
     ∃ c, conns (g_server p') !! id = Some c ∧ c_socket c = false).
Proof.
  pose proof (serving_ok name a threads _ Ha Hs) as Hok. destruct (stop_begins _ Hok) as (s1&Hs1&Hst).
  set (ids := (map_to_list (connections_ (g_server p))).*2) in *.
  assert (ending ids p') as [Hli He].
  { assert (ending ids (handle p)) as H0.
    { unfold ending, handle. destruct (if Log.is_initialized (log p) then _ else _). cbn. rewrite Hs1. cbn.
      pose proof Hst as [[(_&_&_&_&?) _ _] _]. done. }
    clear -H0 Hr. induction Hr as [|x y z Hxy _ IH]; [done|]. by eapply IH, ending_step. }
  split; [done|]. split.
  - destruct (at_ p') eqn:E; [done|..].
    + intros Hq. apply step_finish; [done|]. destruct He as [[[(H1&H2&H3&H4&H5) Hd _] Hpr] _]. exists ids. split; [done|].
      intros id Hid. destruct (Hpr id Hid) as (c&_&[?|[Hin Hne]]); [done|]. rewrite Hq in Hin by done. by apply elem_of_nil in Hin.
    + destruct He as [_ He]. by apply loop_leaves.
    + by destruct He.
  - intros Hend n id Hi. assert (all_closed ids (g_server p')) as Hall by (by destruct (at_ p'), Hend; try done; destruct He).
    apply Hall. apply list_elem_of_fmap. exists (n, id). split; [done|]. by apply elem_of_map_to_list.
Qed.

End shutdown.
(** ** A process that serves and is told to end *)

Definition sleeping : EventLoop.EventLoop (Task := Task) :=
  default EventLoop.make (EventLoop.exec_all (λ _, []) [EventLoop.Own; EventLoop.Own; EventLoop.Own; EventLoop.Own] EventLoop.make).

(** Three connections, one of them established. *)
Definition visited : TcpServer.TcpServer := run_events [Accept arrivals; Run 1] server0.

Definition serving0 : Process :=
  mk visited sleeping (snd (Log.init_logging (λ _ o, o) (Config.mk_log "info" "logs/solardrive.log" 10 5) Log.blank)) "" Running None.

(** Tasks of the pool's loops, one of each of the loops given. *)
Fixpoint pool_runs (ls : list nat) (s : TcpServer.TcpServer) : option TcpServer.TcpServer :=
  match ls with
  | [] => Some s
  | l :: ls =>
      if negb (bool_decide (l = 0)) && bool_decide (is_Some (thread_pool_ s))
      then match run_event (Run l) s with (Ok _, s1) => pool_runs ls s1 | _ => None end else None
  end.

(** The loops of the pool run their closing tasks; the wait ends, the loop leaves. *)
Definition waited : Process :=
  with_server (default visited (pool_runs [2; 2; 1; 1; 1] (g_server (handle serving0)))) (handle serving0).
Definition left_loop : EventLoop.EventLoop (Task := Task) :=
  default sleeping (own_steps (λ _, []) 4 (g_main_loop (finish waited))).
Definition returned : Process := return_ (with_loop left_loop (finish waited)).

Lemma run_pool ls s (p : Process (G := Log.small_spdlog)) : at_ p = Waiting → pool_runs ls (g_server p) = Some s →
  rtc (step (λ _, [])) p (with_server s p).
Proof.
  revert p. induction ls as [|l ls IH]; intros p Hp; cbn [pool_runs]; [intros [= <-]; by destruct p|].
  destruct (negb _ && _) eqn:Ec; [|done]. apply andb_true_iff in Ec as [Hl%negb_true_iff Ht%bool_decide_eq_true].
  destruct (run_event (Run l) (g_server p)) as [[[]|?] s1] eqn:E; [|done]. intros Hs.
  eapply rtc_l; [|apply (IH (with_server s1 p)); done].
  apply (step_event _ p (Run l) s1); [congruence|congruence|done| |done]. cbn. unfold running. by rewrite Hl.
Qed.

Lemma own_loop n (p : Process (G := Log.small_spdlog)) l : at_ p = Handled → own_steps (λ _, []) n (g_main_loop p) = Some l →
  (∀ k l1, k < n → own_steps (λ _, []) k (g_main_loop p) = Some l1 → EventLoop.at_ l1 ≠ EventLoop.Outside) →
  rtc (step (λ _, [])) p (with_loop l p).
Proof.
  revert p. induction n as [|n IH]; intros p Hp Hs Hn; cbn in Hs; [injection Hs as <-; by destruct p|].
  destruct (EventLoop.own _ (g_main_loop p)) as [l1|] eqn:E; cbn in Hs; [|done].
  eapply rtc_l; [apply (step_loop _ p l1); unfold moves; rewrite Hp; split; [by apply (Hn 0 _); [lia|]|by apply EventLoop.own_step]|].
  change (with_loop l p) with (with_loop l (with_loop l1 p)). apply IH; [done|done|]. intros k l2 Hk Hs2.
  apply (Hn (S k) l2); [lia|]. cbn. by rewrite E.
Qed.

Lemma visited_reached : rtc (TcpServer.step serving) server0 visited.
Proof.
  eapply rtc_l; [exists (Accept arrivals); split_and!; [done| |reflexivity]|].
  { split_and!; [done|vm_compute; reflexivity|vm_compute; discriminate]. }
  apply rtc_once. exists (Run 1). split_and!; [done|by eexists|reflexivity].
Qed.

Lemma returned_reached : rtc (step (λ _, [])) (handle serving0) returned.
Proof.
  transitivity waited.
  { apply (run_pool [2; 2; 1; 1; 1]); [by vm_compute|]. by vm_compute. }
  eapply rtc_l; [apply step_finish; [done|]|].
  { exists [2; 0; 1]. split; [by vm_compute|]. intros id Hid. revert id Hid. apply Forall_forall. apply (bool_decide_unpack _). by vm_compute. }
  eapply rtc_r; [apply (own_loop 4 _ left_loop); [done|by vm_compute|]|by apply step_return; vm_compute].
  intros k l1 Hk Hs. destruct k as [|[|[|[|k]]]]; [..|lia]; vm_compute in Hs; injection Hs as <-; vm_compute; discriminate.
Qed.

Lemma signal_ends_process_witness : exit_code returned = Some 0%Z ∧ Log.g_logger (log returned) = None.
Proof.
  destruct (signal_ends_process (λ _, []) "SolarDrive" acceptor0 2 serving0 returned) as (_&H&_); [done|exact visited_reached|done|by vm_compute|exact returned_reached|].
  exact H.
Defined.

(** What the handler cannot do: a signal that comes between the loop's test of [stop_]
    and its call of [epoll_wait] writes no eventfd, so the loop sleeps, though it was
    stopped, until another event or the timeout. *)
Lemma late_signal_wakes_nothing : ∃ l, rtc (EventLoop.step (λ _ : Task, [])) EventLoop.make l ∧
  EventLoop.at_ l = EventLoop.Polling ∧ EventLoop.stop_ (EventLoop.stop false l) = true ∧ ¬ EventLoop.awake (EventLoop.stop false l).
Proof.
  exists sleeping. split; [|split_and!; [by vm_compute..|]].
  - apply (EventLoop.exec_reaches _ [EventLoop.Own; EventLoop.Own; EventLoop.Own; EventLoop.Own]). by vm_compute.
  - intros [H|H]; vm_compute in H; [discriminate|lia].
Qed.

End Shutdown.
