(* ===== verification/Redis.v ===== *)
(** The Redis client and the rate limiter: [RedisClient] (src/cache/redis_client.h,
    redis_client.cpp) and [RateLimiter] (rate_limiter.h, rate_limiter.cpp). The
    server is the class [RedisServer]: what a command does ([redis_call]) and
    whether the connection still delivers ([link]). *)
From S2P Require Import Prelude HttpRouter.

Inductive reply :=
  | RStatus (s : string)
  | RString (s : string)
  | RInteger (z : Z)
  | RNil
  | RError (s : string).

(** Every command returns a reply; on a broken connection hiredis returns a null
    reply instead, and the server may or may not have executed the command.
    [zset] is the server's view of a sorted set: its members and their scores. *)
Class RedisServer := {
  rdb : Type;
  redis_call : list string → rdb → reply * rdb;
  link : rdb → bool;
  zset : rdb → string → gmap string Z
}.

Module RedisClient.

Section client.
Context {R : RedisServer}.

(** [ctx_ != nullptr], and the server. *)
Record Redis := mk { ctx_ : bool; server : rdb }.

Definition connected (r : Redis) : bool := ctx_ r.
Definition disconnect (r : Redis) : Redis := mk false (server r).

(** [redisCommand]: arguments are C strings; no reply without a connection. *)
Definition redis_command (args : list string) (r : Redis) : option reply * Redis :=
  if link (server r)
  then let '(rep, d) := redis_call (c_str <$> args) (server r) in (Some rep, mk (ctx_ r) d)
  else (None, r).

Definition is_status (rep : option reply) : bool := match rep with Some (RStatus _) => true | _ => false end.
Definition is_integer (rep : option reply) : bool := match rep with Some (RInteger _) => true | _ => false end.
Definition is_one (rep : option reply) : bool := match rep with Some (RInteger z) => bool_decide (z = 1)%Z | _ => false end.
Definition string_of (rep : option reply) : option string := match rep with Some (RString s) => Some s | _ => None end.

Definition ping (r : Redis) : bool * Redis :=
  if ctx_ r then
    let '(rep, r') := redis_command ["PING"] r in
    (match rep with Some (RStatus s) => bool_decide (s = "PONG") | _ => false end, r')
  else (false, r).

Definition set (key value : string) (ttl_seconds : Z) (r : Redis) : bool * Redis :=
  if ctx_ r then
    let '(rep, r1) := redis_command ["SET"; key; value] r in
    if is_status rep && bool_decide (0 < ttl_seconds)%Z then
      let '(rep2, r2) := redis_command ["EXPIRE"; key; to_string ttl_seconds] r1 in (is_one rep2, r2)
    else (is_status rep, r1)
  else (false, r).

Definition get (key : string) (r : Redis) : option string * Redis :=
  if ctx_ r then let '(rep, r') := redis_command ["GET"; key] r in (string_of rep, r') else (None, r).

Definition del (key : string) (r : Redis) : bool * Redis :=
  if ctx_ r then let '(rep, r') := redis_command ["DEL"; key] r in (is_integer rep, r') else (false, r).

Definition sadd (key member : string) (r : Redis) : bool * Redis :=
  if ctx_ r then let '(rep, r') := redis_command ["SADD"; key; member] r in (is_integer rep, r') else (false, r).

Definition sismember (key member : string) (r : Redis) : bool * Redis :=
  if ctx_ r then let '(rep, r') := redis_command ["SISMEMBER"; key; member] r in (is_one rep, r') else (false, r).

Definition hset (key field value : string) (r : Redis) : bool * Redis :=
  if ctx_ r then let '(rep, r') := redis_command ["HSET"; key; field; value] r in (is_integer rep, r') else (false, r).

Definition hget (key field : string) (r : Redis) : option string * Redis :=
  if ctx_ r then let '(rep, r') := redis_command ["HGET"; key; field] r in (string_of rep, r') else (None, r).

Definition expire (key : string) (ttl_seconds : Z) (r : Redis) : bool * Redis :=
  if ctx_ r && bool_decide (0 < ttl_seconds)%Z
  then let '(rep, r') := redis_command ["EXPIRE"; key; to_string ttl_seconds] r in (is_one rep, r')
  else (false, r).

Definition incr (key : string) (ttl_seconds : Z) (r : Redis) : Z * Redis :=
  if ctx_ r then
    let '(rep, r1) := redis_command ["INCR"; key] r in
    match rep with
    | Some (RInteger val) =>
        if bool_decide (val = 1)%Z && bool_decide (0 < ttl_seconds)%Z
        then (val, snd (redis_command ["EXPIRE"; key; to_string ttl_seconds] r1))
        else (val, r1)
    | _ => ((-1)%Z, r1)
    end
  else ((-1)%Z, r).

(** ** The sliding window *)

(** [kScript], the Lua program sent with EVAL, over the commands it calls: KEYS[1]
    is [key] and ARGV are [now], [window], [limit] and [member]. *)
Definition script_count (rep : reply) : Z := match rep with RInteger z => z | _ => 0%Z end.
Definition k_script (key : string) (now window limit : Z) (member : string) (d : rdb) : reply * rdb :=
  let window_start := (now - window)%Z in
  let '(_, d1) := redis_call ["ZREMRANGEBYSCORE"; key; "-inf"; to_string window_start] d in
  let '(count, d2) := redis_call ["ZCARD"; key] d1 in
  if bool_decide (limit ≤ script_count count)%Z then (RInteger 0, d2)
  else
    let '(_, d3) := redis_call ["ZADD"; key; to_string now; member] d2 in
    let '(_, d4) := redis_call ["PEXPIRE"; key; to_string window] d3 in
    (RInteger 1, d4).

Definition sliding_window_allow (key : string) (now_ms window_ms limit : Z) (member : string) (r : Redis) :
    bool * Redis :=
  if negb (ctx_ r) || bool_decide (limit ≤ 0)%Z || bool_decide (window_ms ≤ 0)%Z || sempty key || sempty member
  then (true, r)
  else if link (server r) then
    let '(rep, d) := k_script (c_str key) now_ms window_ms limit (c_str member) (server r) in
    (match rep with RInteger z => bool_decide (z = 1)%Z | _ => false end, mk (ctx_ r) d)
  else (false, r).

End client.

End RedisClient.

Module RateLimiter.
Import RedisClient.

Definition kWindowSeconds : Z := 60.

(** The paths of [is_exempt] are those of the white list's static files. *)
Definition exempt_files : list string :=
  ["/"; "/index.html"; "/app.js"; "/style.css"; "/favicon.ico"; "/login.html"; "/auth.js";
   "/session.js"; "/receive.html"; "/receive.js"; "/icons.js"; "/metrics.html"; "/metrics.js";
   "/share.html"; "/share.js"].
Definition is_exempt (path : string) : bool := bool_decide (path ∈ exempt_files).

Fixpoint trim_left (s : string) : string :=
  match s with String c s' => if isspace c then trim_left s' else s | "" => "" end.
Fixpoint trim_right (s : string) : string :=
  match s with
  | "" => ""
  | String c s' => let t := trim_right s' in if isspace c && sempty t then "" else String c t
  end.
Definition trim_copy (s : string) : string := trim_right (trim_left s).

Definition resolve_client_ip (x_forwarded_for peer_ip : string) : string :=
  if negb (sempty x_forwarded_for) then
    let first := trim_copy (match sfind "," x_forwarded_for with
                            | None => x_forwarded_for
                            | Some comma => stake comma x_forwarded_for end) in
    if negb (sempty first) then first else peer_ip
  else peer_ip.

Section limiter.
Context {R : RedisServer}.

(** The limiter's counter of attempts, next to the client it shares. *)
Record RateLimiter := mk { limit_ : Z; seq_ : Z; redis_ : option Redis }.

(** [allow] at the clock's [ts] milliseconds. *)
Definition allow (ts : Z) (client_ip : string) (l : RateLimiter) : bool * RateLimiter :=
  if bool_decide (limit_ l ≤ 0)%Z || sempty client_ip then (true, l)
  else match redis_ l with
       | None => (true, l)
       | Some r =>
           if negb (connected r) then (true, l)
           else
             let member := to_string ts +:+ ":" +:+ to_string (seq_ l) in
             let '(ok, r') := sliding_window_allow ("ratelimit:ip:" +:+ client_ip) ts
                                (kWindowSeconds * 1000) (limit_ l) member r in
             (ok, mk (limit_ l) (u64 (seq_ l + 1)) (Some r'))
       end.

(** ** Reference: a counter of the attempts let through *)

(** Attempts let through, newest first, as time stamps. *)
Definition in_window (now : Z) (t : Z) : bool := bool_decide (now - kWindowSeconds * 1000 < t)%Z.
Definition count_window (now : Z) (h : list Z) : Z := Z.of_nat (length (filter (λ t, in_window now t = true) h)).

Fixpoint reference (limit : Z) (h : list Z) (tss : list Z) : list bool :=
  match tss with
  | [] => []
  | t :: tss' =>
      if bool_decide (count_window t h < limit)%Z then true :: reference limit (t :: h) tss'
      else false :: reference limit h tss'
  end.

Fixpoint sorted_from (t : Z) (tss : list Z) : bool :=
  match tss with [] => true | t' :: tss' => bool_decide (t ≤ t')%Z && sorted_from t' tss' end.

(** The attempts let through among those made. *)
Fixpoint let_through (tss : list Z) (oks : list bool) : list Z :=
  match tss, oks with
  | t :: tss', true :: oks' => t :: let_through tss' oks'
  | _ :: tss', false :: oks' => let_through tss' oks'
  | _, _ => []
  end.

(** ** Runs *)

(** The keys that hold a sorted set, or nothing. *)
Context (holds_zset : string → rdb → Prop).

(** What may happen to the server between two attempts of one client, the next
    one at [now]: nothing the limiter sees, or the expiry of its key, whose
    entries have then all left the window; nobody stores another type there. *)
Definition drift (key : string) (now : Z) (d d' : rdb) : Prop :=
  link d' = true ∧ holds_zset key d' ∧
  (zset d' key = zset d key ∨
   zset d' key = ∅ ∧ ∀ m t, zset d key !! m = Some t → in_window now t = false).

(** Attempts of one client address at the times of a list, with their results. *)
Inductive attempts (ip : string) : RateLimiter → list Z → list bool → Prop :=
  | attempts_nil l : attempts ip l [] []
  | attempts_cons l r d t ok l' tss oks :
      redis_ l = Some r → drift ("ratelimit:ip:" +:+ ip) t (server r) d →
      allow t ip (mk (limit_ l) (seq_ l) (Some (RedisClient.mk (ctx_ r) d))) = (ok, l') →
      attempts ip l' tss oks → attempts ip l (t :: tss) (ok :: oks).

(** The documented effect of the sorted-set commands on the set of their key, which
    stays one; the time to live is positive. *)
Record zset_laws : Prop := {
  zrem_law k w d : holds_zset k d → let d' := snd (redis_call ["ZREMRANGEBYSCORE"; k; "-inf"; to_string w] d) in
    zset d' k = filter (λ ms, (w < snd ms)%Z) (zset d k) ∧ holds_zset k d';
  zcard_law k d : holds_zset k d → let d' := snd (redis_call ["ZCARD"; k] d) in
    fst (redis_call ["ZCARD"; k] d) = RInteger (Z.of_nat (size (zset d k))) ∧ zset d' k = zset d k ∧ holds_zset k d';
  zadd_law k t m d : holds_zset k d → let d' := snd (redis_call ["ZADD"; k; to_string t; m] d) in
    zset d' k = <[m := t]> (zset d k) ∧ holds_zset k d';
  pexpire_law k w d : holds_zset k d → (0 < w)%Z →
    zset (snd (redis_call ["PEXPIRE"; k; to_string w] d)) k = zset d k
}.

Context (L : zset_laws).

(** ** One attempt *)

Lemma k_script_spec key now window limit m d : holds_zset key d → (0 < window)%Z →
  let kept := filter (λ ms, (now - window < snd ms)%Z) (zset d key) in
  let '(rep, d') := k_script key now window limit m d in
  if bool_decide (limit ≤ Z.of_nat (size kept))%Z then rep = RInteger 0 ∧ zset d' key = kept
  else rep = RInteger 1 ∧ zset d' key = <[m := now]> kept.
Proof using L.
  intros H0 Hw kept. unfold k_script.
  destruct (zrem_law L key (now - window) d H0) as [H1 H1'].
  destruct (redis_call ["ZREMRANGEBYSCORE"; key; "-inf"; to_string (now - window)] d) as [r1 d1]. cbn [snd] in *.
  destruct (zcard_law L key d1 H1') as (H2&H3&H3').
  destruct (redis_call ["ZCARD"; key] d1) as [r2 d2]. cbn [fst snd] in *. subst r2. cbn [script_count].
  rewrite H1. fold kept. case_bool_decide; [split; [done|by rewrite H3, H1]|].
  destruct (zadd_law L key now m d2 H3') as [H4 H4'].
  destruct (redis_call ["ZADD"; key; to_string now; m] d2) as [r3 d3]. cbn [snd] in *.
  pose proof (pexpire_law L key window d3 H4' Hw) as H5.
  destruct (redis_call ["PEXPIRE"; key; to_string window] d3) as [r4 d4]. cbn [snd] in H5.
  split; [done|]. by rewrite H5, H4, H3, H1.
Qed.

Definition member (t seq : Z) : string := to_string t +:+ ":" +:+ to_string seq.

Lemma member_inj t s t' s' : member t s = member t' s' → s = s'.
Proof.
  unfold member. intros H.
  assert (∀ a b, sfind ":" (to_string a +:+ ":" +:+ to_string b) = Some (slen (to_string a))) as Hf.
  { intros a b. apply (sfind_char_app ":"%char). by apply to_string_lacks. }
  pose proof (Hf t s) as H1. rewrite H, Hf in H1. injection H1 as H1.
  assert (∀ a b, sdrop (slen (to_string a) + 1) (to_string a +:+ ":" +:+ to_string b) = to_string b) as Hd.
  { intros a b. by rewrite <- sdrop_sdrop, sdrop_app. }
  apply to_string_inj. by rewrite <- (Hd t s), <- (Hd t' s'), H, H1.
Qed.

Lemma member_c_str t s : c_str (member t s) = member t s ∧ sempty (member t s) = false.
Proof.
  unfold member. split.
  - apply c_str_id. rewrite !sall_app, !to_string_lacks by done. done.
  - apply bool_decide_eq_false_2. intros H. apply (f_equal slen) in H. rewrite !slen_app in H. cbn in H. lia.
Qed.

(** ** Runs *)

Lemma allow_spec ip l r d t : redis_ l = Some r → (0 < limit_ l)%Z → ip ≠ "" → ctx_ r = true → link d = true → holds_zset ("ratelimit:ip:" +:+ ip) d →
  c_str ("ratelimit:ip:" +:+ ip) = "ratelimit:ip:" +:+ ip →
  let key := "ratelimit:ip:" +:+ ip in
  let kept := filter (λ ms, in_window t (snd ms) = true) (zset d key) in
  let '(ok, l') := allow t ip (mk (limit_ l) (seq_ l) (Some (RedisClient.mk (ctx_ r) d))) in
  ok = bool_decide (Z.of_nat (size kept) < limit_ l)%Z ∧
  limit_ l' = limit_ l ∧ seq_ l' = u64 (seq_ l + 1) ∧
  ∃ r', redis_ l' = Some r' ∧ ctx_ r' = true ∧
    zset (server r') key = if ok then <[member t (seq_ l) := t]> kept else kept.
Proof using L.
  intros Hr Hlim Hip Hctx Hlink Hz Hc key kept. unfold allow. cbn [limit_ seq_ redis_].
  assert (sempty ip = false) as -> by by apply bool_decide_eq_false_2.
  rewrite bool_decide_eq_false_2 by lia. cbn [orb]. unfold connected. cbn [ctx_]. rewrite Hctx. cbn [negb].
  unfold sliding_window_allow. cbn [ctx_ server]. fold (member t (seq_ l)).
  destruct (member_c_str t (seq_ l)) as [Hm Hme]. rewrite Hm, Hme.
  assert (sempty key = false) as Hk by by apply bool_decide_eq_false_2.
  fold key. rewrite Hk. rewrite (bool_decide_eq_false_2 (limit_ l ≤ 0)%Z) by lia.
  unfold kWindowSeconds. rewrite (bool_decide_eq_false_2 (60 * 1000 ≤ 0)%Z) by lia. cbn [negb orb].
  rewrite Hlink. unfold key. rewrite Hc. fold key.
  pose proof (k_script_spec key t (60 * 1000) (limit_ l) (member t (seq_ l)) d Hz ltac:(lia)) as Hs. cbv zeta in Hs. clear Hz.
  assert (filter (λ ms, (t - 60 * 1000 < snd ms)%Z) (zset d key) = kept) as Hkept.
  { unfold kept. apply map_filter_ext. intros m s _. cbn. unfold in_window, kWindowSeconds.
    by rewrite bool_decide_eq_true. }
  rewrite Hkept in Hs. destruct (k_script _ _ _ _ _ _) as [rep d'].
  case_bool_decide as Hle; destruct Hs as [-> Hz]; cbn [limit_ seq_ redis_].
  - rewrite (bool_decide_eq_false_2 (0 = 1)%Z) by lia. split_and!; [|done|done|].
    + by rewrite bool_decide_eq_false_2 by lia.
    + eexists. split_and!; [done|done|done].
  - rewrite (bool_decide_eq_true_2 (1 = 1)%Z) by done. split_and!; [|done|done|].
    + by rewrite bool_decide_eq_true_2 by lia.
    + eexists. split_and!; [done|done|done].
Qed.

(** The server's set, seen from any later time, is the list of the attempts let
    through that are still in the window. *)
Definition tracks (key : string) (now : Z) (d : rdb) (h : list (string * Z)) : Prop :=
  ∀ m t, in_window now t = true → (zset d key !! m = Some t ↔ (m, t) ∈ h).

Lemma in_window_mono now now' t : (now ≤ now')%Z → in_window now' t = true → in_window now t = true.
Proof. unfold in_window. rewrite !bool_decide_eq_true. lia. Qed.

Lemma tracks_drift key now now' d d' h : (now ≤ now')%Z → tracks key now d h → drift key now' d d' →
  tracks key now' d' h.
Proof.
  intros Hle Ht (_&_&[Hz|[Hz Hold]]) m t Hw.
  - rewrite Hz. apply Ht. by eapply in_window_mono.
  - rewrite Hz, lookup_empty. split; [done|]. intros Hin.
    apply Ht, Hold in Hin; [congruence|by eapply in_window_mono].
Qed.

Lemma tracks_size key now d h : tracks key now d h → NoDup h.*1 →
  size (filter (λ ms, in_window now (snd ms) = true) (zset d key)) =
  length (filter (λ t, in_window now t = true) h.*2).
Proof.
  intros Ht Hnd.
  assert (filter (λ ms, in_window now (snd ms) = true) (zset d key) =
    list_to_map (filter (λ ms, in_window now (snd ms) = true) h)) as ->.
  { apply map_eq. intros m. apply option_eq. intros t.
    rewrite map_lookup_filter_Some. cbn.
    rewrite <- elem_of_list_to_map.
    - rewrite list_elem_of_filter. cbn. split; intros [H1 H2].
      + split; [done|]. by apply Ht.
      + split; [by apply Ht|done].
    - eapply sublist_NoDup; [exact Hnd|]. apply (fmap_sublist fst), sublist_filter. }
  rewrite map_size_list_to_map.
  - clear. induction h as [|[m t] h IH]; [done|]. cbn [fmap list_fmap fst snd].
    rewrite !filter_cons. cbn [snd]. case_decide; cbn; by rewrite IH.
  - eapply sublist_NoDup; [exact Hnd|]. apply (fmap_sublist fst), sublist_filter.
Qed.

(** Every entry was let through no later than [now] under an earlier number. *)
Definition entries_ok (now seq : Z) (h : list (string * Z)) : Prop :=
  ∀ m t, (m, t) ∈ h → (t ≤ now)%Z ∧ ∃ s, (0 ≤ s < seq)%Z ∧ m = member t s.

Lemma attempts_reference ip l tss oks h now : attempts ip l tss oks →
  (0 < limit_ l)%Z → ip ≠ "" → c_str ("ratelimit:ip:" +:+ ip) = "ratelimit:ip:" +:+ ip →
  (∀ r, redis_ l = Some r → ctx_ r = true ∧ tracks ("ratelimit:ip:" +:+ ip) now (server r) h) →
  NoDup h.*1 → entries_ok now (seq_ l) h → sorted_from now tss = true →
  (0 ≤ seq_ l)%Z → (seq_ l + Z.of_nat (length tss) < two64)%Z →
  oks = reference (limit_ l) h.*2 tss.
Proof using L.
  intros Ha Hlim Hip Hc. revert h now.
  induction Ha as [l|l r d t ok l' tss oks Hr Hdrift Hallow Ha IH]; intros h now Hl Hnd Hok Hsort Hseq Hwrap; [done|].
  cbn [sorted_from length] in *. apply andb_true_iff in Hsort as [Hle%bool_decide_eq_true Hsort].
  destruct (Hl r Hr) as [Hctx Htr]. pose proof Hdrift as (Hlink&Hset&_).
  pose proof (tracks_drift _ _ _ _ _ _ Hle Htr Hdrift) as Htr'.
  pose proof (allow_spec ip l r d t Hr Hlim Hip Hctx Hlink Hset Hc) as Hs. cbv zeta in Hs. rewrite Hallow in Hs.
  destruct Hs as (Hokeq&Hlim'&Hseq'&r'&Hr'&Hctx'&Hz).
  rewrite (tracks_size _ _ _ _ Htr' Hnd) in Hokeq. fold (count_window t h.*2) in Hokeq.
  unfold u64 in Hseq'. rewrite Z.mod_small in Hseq' by lia.
  assert (∀ s, (seq_ l ≤ s)%Z → ∀ t' t'', (member t' s, t'') ∉ h) as Hfresh.
  { intros s Hs t' t'' Hin. destruct (Hok _ _ Hin) as [_ (s'&Hs'&Hm)]. apply member_inj in Hm. lia. }
  assert (∀ m t', in_window t t' = true →
    filter (λ ms, in_window t (snd ms) = true) (zset d ("ratelimit:ip:" +:+ ip)) !! m = Some t' ↔ (m, t') ∈ h) as Hkept.
  { intros m t' Hw. rewrite map_lookup_filter_Some. cbn. rewrite (Htr' m t' Hw). tauto. }
  cbn [reference]. fold (count_window t h.*2). rewrite Hokeq. case_bool_decide as Hcnt; subst ok; f_equal.
  - rewrite <- Hlim'. apply (IH ltac:(congruence) ((member t (seq_ l), t) :: h) t).
    + intros r'' Hr''. rewrite Hr' in Hr''. injection Hr'' as <-. split; [done|].
      intros m t' Hw. rewrite Hz, elem_of_cons. destruct (decide (m = member t (seq_ l))) as [->|Hne].
      * rewrite lookup_insert_eq. split; [intros [= ->]; by left|].
        intros [[= ->]|Hin]; [done|]. exfalso. eapply (Hfresh (seq_ l)); [lia|exact Hin].
      * rewrite lookup_insert_ne, Hkept by done. split; [by right|]. by intros [[= -> ->]|?].
    + cbn. constructor; [|done]. intros ([m t']&Heq&Hin)%list_elem_of_fmap. cbn in Heq. subst m.
      eapply (Hfresh (seq_ l)); [lia|exact Hin].
    + intros m t' [[= -> ->]|Hin]%elem_of_cons.
      * split; [lia|]. exists (seq_ l). split; [lia|done].
      * destruct (Hok _ _ Hin) as [? (s&?&->)]. split; [lia|]. exists s. split; [lia|done].
    + done.
    + lia.
    + lia.
  - rewrite <- Hlim'. apply (IH ltac:(congruence) h t).
    + intros r'' Hr''. rewrite Hr' in Hr''. injection Hr'' as <-. split; [done|].
      intros m t' Hw. rewrite Hz. by apply Hkept.
    + done.
    + intros m t' Hin. destruct (Hok _ _ Hin) as [? (s&?&->)]. split; [lia|]. exists s. split; [lia|done].
    + done.
    + lia.
    + lia.
Qed.

(** The bound, for the reference counter. *)
Definition in_any (u t : Z) : bool := bool_decide (u - kWindowSeconds * 1000 < t ≤ u)%Z.

Lemma count_le_impl (p q : Z → bool) l : (∀ t, t ∈ l → p t = true → q t = true) →
  length (filter (λ t, p t = true) l) ≤ length (filter (λ t, q t = true) l).
Proof.
  induction l as [|t l IH]; intros Himp; [done|]. rewrite !filter_cons.
  assert (length (filter (λ t, p t = true) l) ≤ length (filter (λ t, q t = true) l)) by (apply IH; intros; apply Himp; [by right|done]).
  repeat case_decide; cbn; try lia. exfalso. eauto using list_elem_of_here.
Qed.

Lemma reference_bound limit h tss now u : (0 < limit)%Z → (∀ t, t ∈ h → (t ≤ now)%Z) →
  (∀ u, Z.of_nat (length (filter (λ t, in_any u t = true) h)) ≤ limit)%Z →
  sorted_from now tss = true →
  (Z.of_nat (length (filter (λ t, in_any u t = true) (let_through tss (reference limit h tss) ++ h))) ≤ limit)%Z.
Proof.
  intros Hlim. revert h now. induction tss as [|t tss IH]; intros h now Hh Hcnt Hsort; [apply Hcnt|].
  cbn [sorted_from reference] in *. apply andb_true_iff in Hsort as [Hle%bool_decide_eq_true Hsort].
  case_bool_decide as Hc; cbn [let_through].
  - assert ((t :: let_through tss (reference limit (t :: h) tss)) ++ h ≡ₚ
      let_through tss (reference limit (t :: h) tss) ++ t :: h) as Hp by (cbn; by rewrite Permutation_middle).
    rewrite Hp. apply (IH (t :: h) t); [|intros v|done].
    + intros t' [->|Ht']%elem_of_cons; [lia|]. specialize (Hh t' Ht'). lia.
    + destruct (decide (t ≤ v)%Z) as [Hv|Hv].
      * rewrite filter_cons. unfold count_window in Hc.
        assert (length (filter (λ s, in_any v s = true) h) ≤ length (filter (λ s, in_window t s = true) h)).
        { apply (count_le_impl (λ s, in_any v s) (λ s, in_window t s)). intros s _. unfold in_any, in_window. rewrite !bool_decide_eq_true. lia. }
        case_decide; cbn [length]; lia.
      * assert (in_any v t = false) as Hv' by (apply bool_decide_eq_false; lia).
        rewrite filter_cons. case_decide; [congruence|]. apply Hcnt.
  - apply (IH h t); [|done|done]. intros s Hs. specialize (Hh s Hs). lia.
Qed.

(** C38. The rate limiter is an exact sliding window: starting from an empty set,
    an attempt is let through exactly when fewer than the limit were let through
    in the preceding sixty seconds, so no sixty-second interval ever contains more
    than the limit, although Redis may expire the key in between (nobody else stores
    a value of another type under the limiter's keys). *)
Theorem rate_limit_exact (ip : string) (limit : Z) (r : Redis) (now : Z) (tss : list Z) (oks : list bool) (u : Z)
    (Hlim : (0 < limit)%Z) (Hip : ip ≠ "") (Hc : c_str ("ratelimit:ip:" +:+ ip) = "ratelimit:ip:" +:+ ip)
    (Hctx : ctx_ r = true) (Hempty : zset (server r) ("ratelimit:ip:" +:+ ip) = ∅)
    (Hsort : sorted_from now tss = true) (Hlen : (Z.of_nat (length tss) < two64)%Z)
    (Hrun : attempts ip (mk limit 0 (Some r)) tss oks) :
  oks = reference limit [] tss ∧
  (Z.of_nat (length (filter (λ t, (u - kWindowSeconds * 1000 < t ≤ u)%Z) (let_through tss oks))) ≤ limit)%Z.
Proof using L.
  assert (oks = reference limit [] tss) as ->.
  { apply (attempts_reference ip (mk limit 0 (Some r)) tss oks [] now Hrun); cbn [limit_ seq_ redis_]; try done.
    - intros r' [= <-]. split; [done|]. intros m t _. rewrite Hempty, lookup_empty, elem_of_nil. done.
    - constructor.
    - intros m t Hin%elem_of_nil. done. }
  split; [done|]. pose proof (reference_bound limit [] tss now u Hlim) as Hb. rewrite app_nil_r in Hb.
  assert (∀ l : list Z, filter (λ t, in_any u t = true) l = filter (λ t, (u - kWindowSeconds * 1000 < t ≤ u)%Z) l) as He.
  { intros l. apply (list_filter_iff (λ t, in_any u t = true) (λ t, (u - kWindowSeconds * 1000 < t ≤ u)%Z)).
    intros t. unfold in_any. by rewrite bool_decide_eq_true. }
  rewrite <- He. apply Hb; [by intros t ?%elem_of_nil|intros v; cbn; lia|done].
Qed.

(** The limiter fails open while there is no connection, but a connection
    that breaks after it was made refuses every attempt: the null reply of the
    script counts as a refusal. *)
Theorem rate_limit_broken_link (ts : Z) (ip : string) (l : RateLimiter) (r : Redis)
    (Hl : redis_ l = Some r) (Hlim : (0 < limit_ l)%Z) (Hip : ip ≠ "") :
  (ctx_ r = false → fst (allow ts ip l) = true) ∧
  (ctx_ r = true → link (server r) = false → fst (allow ts ip l) = false).
Proof.
  unfold allow. rewrite (bool_decide_eq_false_2 (limit_ l ≤ 0)%Z) by lia.
  assert (sempty ip = false) as -> by by apply bool_decide_eq_false_2.
  rewrite Hl. unfold connected. cbn [orb]. split; intros Hctx; rewrite Hctx; [done|]. intros Hlink. cbn [negb].
  unfold sliding_window_allow. fold (member ts (seq_ l)). destruct (member_c_str ts (seq_ l)) as [_ ->].
  assert (sempty ("ratelimit:ip:" +:+ ip) = false) as -> by by apply bool_decide_eq_false_2.
  rewrite (bool_decide_eq_false_2 (limit_ l ≤ 0)%Z) by lia.
  rewrite (bool_decide_eq_false_2 (kWindowSeconds * 1000 ≤ 0)%Z) by (unfold kWindowSeconds; lia).
  by rewrite Hlink, Hctx.
Qed.

End limiter.

(** ** A concrete server *)

(** Sorted sets only; the replies of other commands are errors. *)
Definition toy_call (args : list string) (d : gmap string (gmap string Z)) : reply * gmap string (gmap string Z) :=
  match args with
  | ["ZREMRANGEBYSCORE"; k; "-inf"; w] =>
      (RInteger 0, <[k := filter (λ ms, (read_num w < snd ms)%Z) (default ∅ (d !! k))]> d)
  | ["ZCARD"; k] => (RInteger (Z.of_nat (size (default ∅ (d !! k)))), d)
  | ["ZADD"; k; t; m] => (RInteger 1, <[k := <[m := read_num t]> (default ∅ (d !! k))]> d)
  | ["PEXPIRE"; k; w] => (RInteger 1, d)
  | _ => (RError "ERR unknown command", d)
  end.

Definition toy_redis : RedisServer :=
  {| rdb := gmap string (gmap string Z); redis_call := toy_call; link := λ _, true;
     zset := λ d k, default ∅ (d !! k) |}.

Definition toy_zset (k : string) (d : @rdb toy_redis) : Prop := True.

Lemma toy_laws : @zset_laws toy_redis toy_zset.
Proof.
  split; intros; cbn; rewrite ?lookup_insert_eq, ?read_num_to_string; by repeat split.
Qed.

Definition toy_limiter : @RateLimiter toy_redis :=
  @mk toy_redis 2 0 (Some (@RedisClient.mk toy_redis true (∅ : gmap string (gmap string Z)))).

(** The results of attempts at given times, with nothing in between. *)
Fixpoint toy_run (l : @RateLimiter toy_redis) (tss : list Z) : list bool :=
  match tss with
  | [] => []
  | t :: tss' => let '(ok, l') := @allow toy_redis t "1.2.3.4" l in ok :: toy_run l' tss'
  end.

Lemma toy_attempts l tss : is_Some (redis_ l) → @attempts toy_redis toy_zset "1.2.3.4" l tss (toy_run l tss).
Proof.
  revert l. induction tss as [|t tss IH]; intros l [r Hr]; [constructor|]. cbn [toy_run].
  destruct (allow t "1.2.3.4" l) as [ok l'] eqn:Ea.
  eapply (@attempts_cons toy_redis _ _ _ r (server r)); [done|by split; [|split; [|left]]| |].
  - rewrite <- Ea. destruct l as [a b c]. cbn in *. subst c. by destruct r.
  - apply IH. revert Ea. unfold allow. destruct l as [a b c]. cbn in *. subst c.
    destruct (_ || _); [intros [= _ <-]; eauto|]. destruct (negb _); [intros [= _ <-]; eauto|].
    destruct (sliding_window_allow _ _ _ _ _ _). intros [= _ <-]. eauto.
Qed.

Definition toy_times : list Z := [0; 1000; 2000; 60500; 61500]%Z.

Lemma rate_limit_exact_witness :
  toy_run toy_limiter toy_times = [true; true; false; true; true] ∧
  (Z.of_nat (length (filter (λ t, (61500 - kWindowSeconds * 1000 < t ≤ 61500)%Z)
    (let_through toy_times (toy_run toy_limiter toy_times)))) ≤ 2)%Z.
Proof.
  destruct (@rate_limit_exact toy_redis toy_zset toy_laws "1.2.3.4" 2
    (@RedisClient.mk toy_redis true (∅ : gmap string (gmap string Z))) 0 toy_times
    (toy_run toy_limiter toy_times) 61500) as [H1 H2].
  - lia.
  - discriminate.
  - reflexivity.
  - reflexivity.
  - reflexivity.
  - reflexivity.
  - reflexivity.
  - apply toy_attempts. by eexists.
  - split; [rewrite H1; vm_compute; reflexivity|exact H2].
Defined.

Lemma rate_limit_broken_link_witness :
  fst (@allow toy_redis 0 "1.2.3.4" (@mk toy_redis 2 0 (Some (@RedisClient.mk toy_redis false (∅ : gmap string (gmap string Z)))))) = true.
Proof.
  apply (@rate_limit_broken_link toy_redis 0 "1.2.3.4" _ (@RedisClient.mk toy_redis false (∅ : gmap string (gmap string Z)))); done.
Defined.

End RateLimiter.
