(* ===== verification/World.v ===== *)
(** What a request handler works on: the database, the object store's file
    system, the Redis client, the WebSocket sessions and the response under
    construction; the lifting of each component's operations to that state; and
    the ownership checks of src/auth/access_control.cpp. *)
From S2P Require Import Prelude Steps JsonValue HttpMessage ObjectStore Database Daos Redis WsCodec.

(** The settings the handlers were constructed with: the store's members and
    what the disk keeps of a write, the upload limit, the token secret and
    lifetime, and OpenSSL's HMAC. *)
Record Settings := mk_settings {
  disk_write : string → string;
  base_path : string;
  chunk_size : nat;
  max_file_size_bytes : Z;
  hmac : string → string → string;
  secret : string;
  jwt_ttl_hours : Z
}.

Module World.

Section world.
Context {R : RedisServer}.

(** [redis] is a shared pointer, possibly null. *)
Record World := mk {
  db : Schema.Db;
  fs : Fs.t;
  redis : option RedisClient.Redis;
  ws : WsSession.WsSessionManager;
  resp : HttpResponse.HttpResponse
}.

Definition with_db (d : Schema.Db) (w : World) : World := mk d (fs w) (redis w) (ws w) (resp w).
Definition with_fs (f : Fs.t) (w : World) : World := mk (db w) f (redis w) (ws w) (resp w).
Definition with_redis (r : option RedisClient.Redis) (w : World) : World := mk (db w) (fs w) r (ws w) (resp w).
Definition with_ws (m : WsSession.WsSessionManager) (w : World) : World := mk (db w) (fs w) (redis w) m (resp w).
Definition with_resp (r : HttpResponse.HttpResponse) (w : World) : World := mk (db w) (fs w) (redis w) (ws w) r.

(** Operations of one component. *)
Definition on_db {A} (m : M Schema.Db A) : M World A := λ w,
  let '(r, d) := m (db w) in (r, with_db d w).
Definition on_fs {A} (m : M Fs.t A) : M World A := λ w,
  let '(r, f) := m (fs w) in (r, with_fs f w).
Definition on_resp {A} (m : M HttpResponse.HttpResponse A) : M World A := λ w,
  let '(r, p) := m (resp w) in (r, with_resp p w).
Definition on_ws (f : WsSession.WsSessionManager → WsSession.WsSessionManager) : M World () := λ w,
  (Ok (), with_ws (f (ws w)) w).

(** [redis->...]: callers test the pointer first. *)
Definition on_redis {A} (f : RedisClient.Redis → A * RedisClient.Redis) (null : A) : M World A := λ w,
  match redis w with
  | Some r => let '(a, r') := f r in (Ok a, with_redis (Some r') w)
  | None => (Ok null, w)
  end.
Definition has_redis : M World bool := λ w, (Ok (bool_decide (is_Some (redis w))), w).

(** [resp.set_...(...)]. *)
Definition set_resp (f : HttpResponse.HttpResponse → HttpResponse.HttpResponse) : M World () := λ w,
  (Ok (), with_resp (f (resp w)) w).

Section responses.
Context {J : JsonText}.

Definition set_error (code : Z) (msg : string) : M World () := on_resp (HttpResponse.set_error code msg).

(** [resp.set_json(j.dump())]. *)
Definition reply_json (j : json) : M World () :=
  text ← lift_result (json_dump j); set_resp (HttpResponse.set_json text).

(** [catch (const std::exception& e)] with the message it answers. *)
Definition error_500 (prefix : string) (e : exn) : M World () := set_error 500 (prefix +:+ ex_what e).

(** [catch (const json::exception&)] before it. *)
Definition invalid_json (prefix : string) (e : exn) : M World () :=
  if bool_decide (ex_kind e = EJson) then set_error 400 ("invalid JSON: " +:+ ex_what e)
  else error_500 prefix e.

End responses.

(** A transaction in whose scope other components are called: rolling it back
    restores the database only. *)
Definition db_txn {A} (m : M World (A * bool)) : M World A := λ w,
  match m w with
  | (Ok (a, true), w') => (Ok a, w')
  | (Ok (a, false), w') => (Ok a, with_db (db w) w')
  | (Throw e, w') => (Throw e, with_db (db w) w')
  end.

End world.

End World.

Module AccessControl.
Import World.

Section access.
Context {R : RedisServer} {J : JsonText} {P : Postgres}.

Definition resolve_folder_id (folder_id user_id : string) : M World (option string) :=
  if sempty folder_id then mret (Some "")
  else
    folder ← on_db (FolderDao.find_by_id folder_id);
    match folder with
    | Some f =>
        if bool_decide (FolderDao.owner_id f = user_id) then mret (Some folder_id)
        else _ ← set_error 404 "folder not found"; mret None
    | None => _ ← set_error 404 "folder not found"; mret None
    end.

Definition require_owned_file (user_id file_id : string) : M World (option FileDao.FileRecord) :=
  if sempty user_id then _ ← set_error 401 "Unauthorized"; mret None
  else
    file ← on_db (FileDao.find_owned_by_id user_id file_id);
    match file with
    | Some f => mret (Some f)
    | None => _ ← set_error 404 "file not found"; mret None
    end.

End access.

End AccessControl.
