(* ===== verification/Gc.v ===== *)
(** Garbage collection of content: [ContentGc] (src/metadata/content_gc.h,
    content_gc.cpp) over the database and the object store. The chunk files are
    removed inside the transaction, which cannot roll them back. *)
From S2P Require Import Prelude Steps JsonValue ObjectStore Database Daos Redis World.
Import World.

Module ContentGc.

Record GcStats := mk { content_rows_deleted : Z; chunk_files_removed : Z }.
Definition none : GcStats := mk 0 0.

Section gc.
Context {R : RedisServer} {J : JsonText} {P : Postgres} (S : Settings).

(** The strings of an array; anything else has none. *)
Fixpoint string_items (l : list json) : list string :=
  match l with
  | [] => []
  | JStr s :: l' => s :: string_items l'
  | _ :: l' => string_items l'
  end.
Definition parse_chunk_hashes (json_text : string) : result (list string) :=
  parsed ← json_parse json_text;
  mret (match parsed with JArr l => string_items l | _ => [] end).

(** The loop over the chunks: the number of files removed so far. *)
Fixpoint remove_chunks (removed : Z) (hashes : list string) : M World Z :=
  match hashes with
  | [] => mret removed
  | h :: hashes' =>
      used ← on_db (ContentDao.chunk_hash_in_use h);
      if (used : bool) then remove_chunks removed hashes'
      else
        gone ← on_fs (ObjectStore.remove (base_path S) h);
        remove_chunks (if (gone : bool) then removed + 1 else removed) hashes'
  end.

(** The transaction of [purge_content]. *)
Definition purge_txn (content_id : string) (chunk_hashes : list string) : M World (GcStats * bool) :=
  _ ← on_db (Schema.delete_tombstone_shares content_id);
  _ ← on_db (Schema.delete_tombstones content_id);
  deleted ← on_db (ContentDao.delete_by_id_in_txn content_id);
  if (deleted : bool) then
    removed ← remove_chunks 0 chunk_hashes;
    mret (mk 1 removed, true)
  else mret (none, false).

Definition purge_content (content : ContentDao.ContentRecord) : M World GcStats :=
  refs ← on_db (ContentDao.active_refcount (ContentDao.id content));
  if bool_decide (0 < refs)%Z then mret none
  else
    match parse_chunk_hashes (ContentDao.chunk_hashes content) with
    | Throw _ => mret none
    | Ok chunk_hashes => db_txn (purge_txn (ContentDao.id content) chunk_hashes)
    end.

Definition add (a b : GcStats) : GcStats :=
  mk (content_rows_deleted a + content_rows_deleted b) (chunk_files_removed a + chunk_files_removed b).

Fixpoint purge_all (total : GcStats) (orphans : list ContentDao.ContentRecord) : M World GcStats :=
  match orphans with
  | [] => mret total
  | o :: orphans' => one ← purge_content o; purge_all (add total one) orphans'
  end.

(** The declaration's default for [batch_limit] is 100. *)
Definition collect_orphans (batch_limit : Z) : M World GcStats :=
  orphans ← on_db (ContentDao.list_orphans batch_limit); purge_all none orphans.

Definition try_collect_content (content_id : string) : M World GcStats :=
  if sempty content_id then mret none
  else
    content ← on_db (ContentDao.find_by_id content_id);
    match content with
    | None => mret none
    | Some c => purge_content c
    end.

End gc.

End ContentGc.
