(* ===== verification/Files.v ===== *)
(** The file endpoints: upload (src/api/file_upload_ops.cpp, upload_limits.h),
    [DownloadHandler] (download_handler.cpp) and [FileHandler]
    (file_handler.cpp), with the routes that wrap them (route_registry.cpp). *)
From S2P Require Import Prelude Steps JsonValue HttpMessage Jwt ObjectStore Database Daos Redis World Gc.
Import World HttpRequest.

Module FileUpload.

Definition hex_value (c : ascii) : Z :=
  if bool_decide (48 ≤ code c ≤ 57)%Z then code c - 48
  else if bool_decide (97 ≤ code c ≤ 102)%Z then code c - 97 + 10
  else if bool_decide (65 ≤ code c ≤ 70)%Z then code c - 65 + 10
  else -1.

Definition plus_space (c : ascii) : ascii := if bool_decide (c = "+"%char) then SP else c.

Fixpoint url_decode (s : string) : string :=
  match s with
  | "" => ""
  | String c s' =>
      match s' with
      | String a (String b rest) =>
          if bool_decide (c = "%"%char) && bool_decide (0 ≤ hex_value a)%Z && bool_decide (0 ≤ hex_value b)%Z
          then String (chr (Z.lor (Z.shiftl (hex_value a) 4) (hex_value b))) (url_decode rest)
          else String (plus_space c) (url_decode s')
      | _ => String (plus_space c) (url_decode s')
      end
  end.

Definition resolve_filename (req : HttpRequest) : string :=
  let filename := get_header "X-File-Name" req in
  let filename := if negb (sempty filename) then url_decode filename else filename in
  if sempty filename then "unnamed" else filename.

Definition resolve_mime_type (req : HttpRequest) : string :=
  let mime := get_header "Content-Type" req in
  if sempty mime then "application/octet-stream" else mime.

Section upload.
Context {R : RedisServer} {J : JsonText} {P : Postgres} {E : Evp} (S : Settings) (time : Z).

Definition reject_oversized (size max_bytes : Z) : M World bool :=
  if bool_decide (0 < max_bytes)%Z && bool_decide (max_bytes < size)%Z
  then _ ← set_error 413 "file too large"; mret true
  else mret false.

Definition link_existing_content (content : FileDao.FileRecord) (filename mime_type user_id folder_id : string) :
    M World string :=
  name ← on_db (FileDao.make_unique_name time filename user_id folder_id);
  on_db (FileDao.insert_link
    (FileDao.mk "" name (FileDao.size content) (FileDao.hash content) (FileDao.chunk_hashes content)
       (if sempty mime_type then FileDao.mime_type content else mime_type) "" user_id folder_id "")
    (FileDao.content_id content)).

(** The answer when the content was known already. *)
Definition reply_instant (file_id file_hash : string) (size : Z) : M World () :=
  reply_json (JObj [("file_id", JStr file_id); ("hash", JStr file_hash); ("instant", JBool true); ("size", JInt size)]).

(** [if (redis) { if (redis->get(...)) ... }]: the hit on the cache alone does
    not decide, the content row does. *)
Definition cached_content (file_hash : string) : M World (option FileDao.FileRecord) :=
  hit ← on_redis (RedisClient.get ("file:hash:" +:+ file_hash)) None;
  match hit with
  | Some _ => on_db (FileDao.find_content_by_hash file_hash)
  | None => mret None
  end.

(** A new object: chunks, then the rows, then the cache. *)
Definition store_upload (data file_hash filename mime_type user_id folder_id : string) : M World () :=
  chunks ← on_fs (ObjectStore.put_chunked (disk_write S) (base_path S) (chunk_size S) data);
  chunk_hashes ← lift_result (json_dump (jstrs chunks));
  let size := Z.of_nat (slen data) in
  file_id ← on_db (FileDao.insert
    (FileDao.mk "" filename size file_hash chunk_hashes mime_type "" user_id folder_id ""));
  r ← has_redis;
  _ ← (if (r : bool) then
         content ← on_db (FileDao.find_content_by_hash file_hash);
         match content with
         | Some c => _ ← on_redis (RedisClient.set ("file:hash:" +:+ file_hash) (FileDao.content_id c) 0) false; mret ()
         | None => mret ()
         end
       else mret ());
  reply_json (JObj [("chunks", JInt (Z.of_nat (length chunks))); ("file_id", JStr file_id);
    ("hash", JStr file_hash); ("instant", JBool false); ("size", JInt size)]).

(** From the lookup by hash on. *)
Definition upload_resolved (req : HttpRequest) (user_id folder_id : string) : M World () :=
  let filename := resolve_filename req in
  let mime_type := resolve_mime_type req in
  let file_hash := ObjectStore.sha256 (body_ req) in
  cached ← cached_content file_hash;
  match cached with
  | Some content =>
      file_id ← link_existing_content content filename mime_type user_id folder_id;
      reply_instant file_id file_hash (FileDao.size content)
  | None =>
      found ← on_db (FileDao.find_content_by_hash file_hash);
      match found with
      | Some content =>
          _ ← on_redis (RedisClient.set ("file:hash:" +:+ file_hash) (FileDao.content_id content) 0) false;
          file_id ← link_existing_content content filename mime_type user_id folder_id;
          reply_instant file_id file_hash (FileDao.size content)
      | None => store_upload (body_ req) file_hash filename mime_type user_id folder_id
      end
  end.

Definition handle_single_upload (req : HttpRequest) (user_id : string) : M World () :=
  if sempty (body_ req) then set_error 400 "Empty body"
  else
    too_big ← reject_oversized (Z.of_nat (slen (body_ req))) (max_file_size_bytes S);
    if (too_big : bool) then mret ()
    else
      folder_id ← AccessControl.resolve_folder_id (get_header "X-Folder-Id" req) user_id;
      match folder_id with
      | None => mret ()
      | Some folder_id => upload_resolved req user_id folder_id
      end.

(** The route POST /api/v1/upload. *)
Definition upload_route (req : HttpRequest) : M World () :=
  try_catch
    (ok ← on_resp (Jwt.require_auth_user req);
     if (ok : bool) then handle_single_upload req (auth_user_id_ req) else mret ())
    (error_500 "upload failed: ").

End upload.

End FileUpload.

Module DownloadHandler.

Section download.
Context {R : RedisServer} {J : JsonText} {P : Postgres} (S : Settings).

(** What a range-based for visits. *)
Definition items (j : json) : list json :=
  match j with
  | JNull => []
  | JArr l => l
  | JObj l => snd <$> l
  | _ => [j]
  end.

Definition send_content (record : FileDao.FileRecord) : M World () :=
  chunk_json ← lift_result (json_parse (FileDao.chunk_hashes record));
  chunk_hashes ← lift_result (jmap jget_str (items chunk_json));
  content ← on_fs (ObjectStore.get_chunked (base_path S) chunk_hashes);
  let mime_type := if sempty (FileDao.mime_type record) then "application/octet-stream" else FileDao.mime_type record in
  _ ← set_resp (HttpResponse.set_binary content mime_type);
  set_resp (HttpResponse.set_download_headers (FileDao.name record) (Z.of_nat (slen content))).

Definition handle (req : HttpRequest) : M World () :=
  try_catch
    (if negb (has_auth_user req) then set_error 401 "Unauthorized"
     else
       let file_id := get_path_param "id" req in
       let file_id := if sempty file_id then Query.get_query_param req "file_id" else file_id in
       if sempty file_id then set_error 400 "file_id is required"
       else
         record ← AccessControl.require_owned_file (auth_user_id_ req) file_id;
         match record with
         | None => mret ()
         | Some r => send_content r
         end)
    (λ e, if bool_decide (ex_kind e = EPqxx ∨ ex_kind e = EUnique) then set_error 500 "database error"
          else set_error 500 (ex_what e)).

(** The route GET /api/v1/files/{id}, which catches once more. *)
Definition download_route (req : HttpRequest) : M World () :=
  try_catch (handle req) (error_500 "download failed: ").

End download.

End DownloadHandler.

Module FileHandler.

Section files.
Context {R : RedisServer} {J : JsonText} {P : Postgres} (S : Settings).

Definition file_json (f : FileDao.FileRecord) : json :=
  JObj [("created_at", JStr (FileDao.created_at f)); ("hash", JStr (FileDao.hash f)); ("id", JStr (FileDao.id f));
        ("mime_type", JStr (FileDao.mime_type f)); ("name", JStr (FileDao.name f)); ("size", JInt (FileDao.size f))].

(** The declaration's default for [limit] is 200. *)
Definition handle_list (req : HttpRequest) : M World () :=
  try_catch
    (ok ← on_resp (Jwt.require_auth_user req);
     if (ok : bool) then
       files ← on_db (FileDao.list_by_folder (auth_user_id_ req) (Query.get_query_param req "folder_id") 200);
       reply_json (JObj [("files", JArr (file_json <$> files))])
     else mret ())
    (error_500 "list failed: ").

Definition deleted_json : string :=
  "{" +:+ HttpResponse.quoted "deleted" +:+ ":true}".

Definition handle_delete (req : HttpRequest) : M World () :=
  try_catch
    (ok ← on_resp (Jwt.require_auth_user req);
     if (ok : bool) then
       let file_id := get_path_param "id" req in
       if sempty file_id then set_error 400 "missing file id"
       else
         file ← AccessControl.require_owned_file (auth_user_id_ req) file_id;
         match file with
         | None => mret ()
         | Some f =>
             _ ← on_db (FileDao.soft_delete file_id);
             _ ← on_db (ShareDao.revoke_by_file_id file_id);
             _ ← ContentGc.try_collect_content S (FileDao.content_id f);
             set_resp (HttpResponse.set_json deleted_json)
         end
     else mret ())
    (error_500 "delete failed: ").

End files.

End FileHandler.
