(* ===== verification/FoldersAccounts.v ===== *)
(** The folder and account endpoints: [FolderHandler]
    (src/api/folder_handler.cpp) and [AuthHandler] (auth_handler.cpp). *)
From S2P Require Import Prelude Steps JsonValue HttpMessage Jwt ObjectStore Database Daos Redis World Files.
Import World HttpRequest.

Module FolderHandler.

Definition optional_id_json (id : string) : json := if sempty id then JNull else JStr id.

Section folders.
Context {R : RedisServer} {J : JsonText} {P : Postgres}.

Definition folder_json (f : FolderDao.FolderRecord) : json :=
  JObj [("created_at", JStr (FolderDao.created_at f)); ("id", JStr (FolderDao.id f)); ("name", JStr (FolderDao.name f));
        ("parent_id", optional_id_json (FolderDao.parent_id f))].

(** The declaration's default for [limit] is 200. *)
Definition handle_list (req : HttpRequest) : M World () :=
  try_catch
    (ok ← on_resp (Jwt.require_auth_user req);
     if (ok : bool) then
       folders ← on_db (FolderDao.list_by_parent (auth_user_id_ req) (Query.get_query_param req "parent_id") 200);
       reply_json (JObj [("folders", JArr (folder_json <$> folders))])
     else mret ())
    (error_500 "list folders failed: ").

(** [body.contains("parent_id") && !body["parent_id"].is_null()]. *)
Definition parent_of (body : json) : result string :=
  if jcontains body "parent_id" then
    v ← jfield body "parent_id";
    match v with JNull => Ok "" | _ => jget_str v end
  else Ok "".

(** The folder exists, is not deleted and belongs to the user; otherwise a 404. *)
Definition require_owned_folder (user_id id msg : string) : M World (option FolderDao.FolderRecord) :=
  folder ← on_db (FolderDao.find_by_id id);
  match folder with
  | Some f =>
      if bool_decide (FolderDao.owner_id f = user_id) then mret (Some f)
      else _ ← set_error 404 msg; mret None
  | None => _ ← set_error 404 msg; mret None
  end.

Definition create_folder (user_id name parent_id : string) : M World () :=
  taken ← on_db (FolderDao.name_exists user_id parent_id name);
  if (taken : bool) then set_error 409 "folder name already exists"
  else
    id ← on_db (FolderDao.insert (FolderDao.mk "" name parent_id user_id ""));
    reply_json (JObj [("id", JStr id); ("name", JStr name); ("parent_id", optional_id_json parent_id)]).

Definition handle_create (req : HttpRequest) : M World () :=
  try_catch
    (ok ← on_resp (Jwt.require_auth_user req);
     if (ok : bool) then
       let user_id := auth_user_id_ req in
       body ← lift_result (json_parse (body_ req));
       name ← lift_result (jvalue jget_str body "name" "");
       if sempty name then set_error 400 "name is required"
       else
         parent_id ← lift_result (parent_of body);
         if negb (sempty parent_id) then
           parent ← require_owned_folder user_id parent_id "parent folder not found";
           match parent with
           | None => mret ()
           | Some _ => create_folder user_id name parent_id
           end
         else create_folder user_id name parent_id
     else mret ())
    (invalid_json "create folder failed: ").

Definition handle_delete (req : HttpRequest) : M World () :=
  try_catch
    (ok ← on_resp (Jwt.require_auth_user req);
     if (ok : bool) then
       let id := get_path_param "id" req in
       if sempty id then set_error 400 "missing folder id"
       else
         folder ← require_owned_folder (auth_user_id_ req) id "folder not found";
         match folder with
         | None => mret ()
         | Some _ =>
             children ← on_db (FolderDao.has_children id);
             if (children : bool) then set_error 400 "folder is not empty"
             else
               _ ← on_db (FolderDao.soft_delete id);
               set_resp (HttpResponse.set_json FileHandler.deleted_json)
         end
     else mret ())
    (error_500 "delete folder failed: ").

Definition handle_rename (req : HttpRequest) : M World () :=
  try_catch
    (ok ← on_resp (Jwt.require_auth_user req);
     if (ok : bool) then
       let user_id := auth_user_id_ req in
       let id := get_path_param "id" req in
       if sempty id then set_error 400 "missing folder id"
       else
         folder ← require_owned_folder user_id id "folder not found";
         match folder with
         | None => mret ()
         | Some f =>
             body ← lift_result (json_parse (body_ req));
             name ← lift_result (jvalue jget_str body "name" "");
             if sempty name then set_error 400 "name is required"
             else
               taken ← on_db (FolderDao.name_exists user_id (FolderDao.parent_id f) name);
               if (taken : bool) && negb (bool_decide (name = FolderDao.name f))
               then set_error 409 "folder name already exists"
               else
                 _ ← on_db (FolderDao.rename id name);
                 reply_json (JObj [("id", JStr id); ("name", JStr name)])
         end
     else mret ())
    (invalid_json "rename folder failed: ").

End folders.

End FolderHandler.

Module AuthHandler.

Section accounts.
Context {R : RedisServer} {J : JsonText} {P : Postgres} {E : Evp} (S : Settings) (time : Z).

(** The constructor's default. *)
Definition jwt_ttl_hours_ : Z := if bool_decide (0 < jwt_ttl_hours S)%Z then jwt_ttl_hours S else 168.

Definition issue_token (user_id username : string) : result string :=
  Jwt.generate (hmac S) (secret S) time (Jwt.mk_claims user_id username 0 time) jwt_ttl_hours_.

(** The two fields of the body. *)
Definition credentials (req : HttpRequest) : result (string * string) :=
  body ← json_parse (body_ req);
  u ← jfield body "username"; username ← jget_str u;
  p ← jfield body "password"; password ← jget_str p;
  Ok (username, password).

Definition reply_token (user_id username : string) : M World () :=
  token ← lift_result (issue_token user_id username);
  reply_json (JObj [("token", JStr token); ("user_id", JStr user_id); ("username", JStr username)]).

Definition handle_register (req : HttpRequest) : M World () :=
  try_catch
    (c ← lift_result (credentials req);
     let '(username, password) := c in
     if sempty username || sempty password then set_error 400 "username and password are required"
     else
       user_id ← on_db (UserDao.register_user username password);
       match user_id with
       | None => set_error 409 "username already exists"
       | Some i => reply_token i username
       end)
    (invalid_json "register failed: ").

Definition handle_login (req : HttpRequest) : M World () :=
  try_catch
    (c ← lift_result (credentials req);
     let '(username, password) := c in
     if sempty username || sempty password then set_error 400 "username and password are required"
     else
       user ← on_db (UserDao.login username password);
       match user with
       | None => set_error 401 "invalid username or password"
       | Some u => reply_token (UserDao.id u) (UserDao.username u)
       end)
    (invalid_json "login failed: ").

End accounts.

End AuthHandler.
