(* ===== verification/Multipart.v ===== *)
(** Multipart upload: [MultipartUploadHandler]
    (src/api/multipart_upload_handler.h, multipart_upload_handler.cpp). The
    session of an upload lives in a Redis hash, its parts in the object store. *)
From S2P Require Import Prelude Steps JsonValue HttpMessage Jwt ObjectStore Database Daos Redis WsCodec World Files.
Import World HttpRequest.

Module Multipart.

Record MultipartSession := mk {
  upload_id : string; user_id : string; folder_id : string; file_name : string; mime_type : string;
  total_size : Z; session_chunk_size : Z; chunk_count : Z; uploaded : list bool; part_hashes : list string }.

Definition empty_session : MultipartSession := mk "" "" "" "" "" 0 0 0 [] [].

(** [oss << std::hex << v] for an unsigned 64-bit value. *)
Fixpoint hex_digits (fuel : nat) (z : Z) (acc : string) : string :=
  match fuel with
  | 0 => acc
  | S fuel' =>
      let acc := String (ObjectStore.hex_digit (z `mod` 16)) acc in
      if bool_decide (z < 16)%Z then acc else hex_digits fuel' (z / 16) acc
  end.
Definition hex64 (z : Z) : string := hex_digits 16 z "".

(** The four draws of the generator are an argument. *)
Definition generate_uuid (v0 v1 v2 v3 : Z) : string :=
  hex64 v0 +:+ "-" +:+ hex64 v1 +:+ "-" +:+ hex64 v2 +:+ "-" +:+ hex64 v3.

(** Number of parts already there. *)
Definition uploaded_count (l : list bool) : Z := Z.of_nat (length (filter (λ b, b = true) l)).

Section multipart.
Context {R : RedisServer} {J : JsonText} {P : Postgres} {E : Evp} (S : Settings) (time : Z).

(** The constructor's member: the configured part size. *)
Variable part_size : Z.
Definition chunk_size_ : Z := if bool_decide (0 < part_size)%Z then part_size else Z.of_nat (chunk_size S).

Definition notify_upload_progress (s : MultipartSession) : M World () :=
  let n := uploaded_count (uploaded s) in
  let percent := if bool_decide (0 < chunk_count s)%Z then Z.quot (wrap_i32 (n * 100)) (chunk_count s) else 0%Z in
  let bytes := wrap_i64 (n * session_chunk_size s) in
  let bytes := if bool_decide (total_size s < bytes)%Z then total_size s else bytes in
  on_ws (WsSession.push_progress (upload_id s) percent bytes (total_size s)).

(** * The session in Redis *)

Definition session_key (id : string) : string := "multipart:" +:+ id.

Definition hset (key field value : string) : M World () :=
  _ ← on_redis (RedisClient.hset key field value) false; mret ().
Definition hget (key field : string) : M World (option string) := on_redis (RedisClient.hget key field) None.

Definition save_to_redis (s : MultipartSession) : M World () :=
  r ← has_redis;
  if negb r then mret ()
  else
    let key := session_key (upload_id s) in
    _ ← hset key "file_name" (file_name s);
    _ ← hset key "mime_type" (mime_type s);
    _ ← hset key "user_id" (user_id s);
    _ ← hset key "folder_id" (folder_id s);
    _ ← hset key "total_size" (to_string (total_size s));
    _ ← hset key "chunk_size" (to_string (session_chunk_size s));
    _ ← hset key "chunk_count" (to_string (chunk_count s));
    hashes ← lift_result (json_dump (jstrs (part_hashes s)));
    _ ← hset key "part_hashes" hashes;
    flags ← lift_result (json_dump (JArr (map JBool (uploaded s))));
    _ ← hset key "uploaded" flags;
    _ ← on_redis (RedisClient.expire key (24 * 3600)) false;
    mret ().

(** A field that holds the text of a JSON array; absent or empty means none. *)
Definition parse_array {A} (get : json → result (list A)) (text : option string) : result (list A) :=
  match text with
  | Some t => if sempty t then Ok [] else arr ← json_parse t; get arr
  | None => Ok []
  end.

Definition load_from_redis (id : string) : M World MultipartSession :=
  let key := session_key id in
  file_name ← hget key "file_name";
  match file_name with
  | None => mret empty_session
  | Some file_name =>
      mime ← hget key "mime_type";
      user ← hget key "user_id";
      folder ← hget key "folder_id";
      total ← hget key "total_size";
      total ← lift_result (match total with Some t => stoll t | None => Ok 0%Z end);
      size ← hget key "chunk_size";
      size ← lift_result (match size with Some t => stoll t | None => Ok chunk_size_ end);
      count ← hget key "chunk_count";
      count ← lift_result (match count with Some t => stoi t | None => Ok 0%Z end);
      hashes ← hget key "part_hashes";
      hashes ← lift_result (parse_array jget_strs hashes);
      flags ← hget key "uploaded";
      flags ← lift_result (parse_array jget_bools flags);
      mret (mk id (default "" user) (default "" folder) file_name (default "application/octet-stream" mime)
              total size count flags hashes)
  end.

Definition delete_from_redis (id : string) : M World () :=
  _ ← on_redis (RedisClient.del (session_key id)) false; mret ().

(** * The handlers *)

(** [uploaded.assign(chunk_count, false)] converts the count to an unsigned
    size; a negative one is larger than a vector can be. *)
Definition fresh_session (id user folder file mime : string) (total : Z) : result MultipartSession :=
  let count := wrap_i32 (Z.quot (wrap_i64 (total + chunk_size_ - 1)) chunk_size_) in
  if bool_decide (count < 0)%Z then Throw (Exn ELengthError "vector<bool>::_M_fill_insert")
  else Ok (mk id user folder file mime total chunk_size_ count
             (replicate (Z.to_nat count) false) (replicate (Z.to_nat count) "")).

(** [body.contains("folder_id") && !body["folder_id"].is_null()]. *)
Definition folder_of (body : json) : result string :=
  if jcontains body "folder_id" then
    v ← jfield body "folder_id";
    match v with JNull => Ok "" | _ => jget_str v end
  else Ok "".

Definition handle_init (v0 v1 v2 v3 : Z) (req : HttpRequest) : M World () :=
  try_catch
    (if negb (has_auth_user req) then set_error 401 "Unauthorized"
     else
       let user_id := auth_user_id_ req in
       body ← lift_result (json_parse (body_ req));
       f ← lift_result (jfield body "file_name"); file_name ← lift_result (jget_str f);
       t ← lift_result (jfield body "total_size"); total_size ← lift_result (jget_i64 t);
       mime_type ← lift_result (jvalue jget_str body "mime_type" "application/octet-stream");
       folder_id ← lift_result (folder_of body);
       if sempty file_name || bool_decide (total_size ≤ 0)%Z then set_error 400 "file_name and total_size are required"
       else
         too_big ← FileUpload.reject_oversized total_size (max_file_size_bytes S);
         if (too_big : bool) then mret ()
         else
           resolved ← AccessControl.resolve_folder_id folder_id user_id;
           match resolved with
           | None => mret ()
           | Some folder =>
               session ← lift_result (fresh_session (generate_uuid v0 v1 v2 v3) user_id folder file_name mime_type total_size);
               _ ← save_to_redis session;
               reply_json (JObj [("chunk_count", JInt (chunk_count session));
                 ("chunk_size", JInt (session_chunk_size session)); ("upload_id", JStr (upload_id session))])
           end)
    (invalid_json "init failed: ").

(** The session of an upload the caller owns; otherwise the answer is written. *)
Definition owned_session (req : HttpRequest) (id : string) : M World (option MultipartSession) :=
  session ← load_from_redis id;
  if sempty (upload_id session) then _ ← set_error 404 "upload session not found"; mret None
  else if negb (bool_decide (user_id session = auth_user_id_ req)) then _ ← set_error 403 "forbidden"; mret None
  else mret (Some session).

(** A part that was accepted. *)
Definition store_part (session : MultipartSession) (part_num : Z) (data : string) : M World () :=
  hash ← on_fs (ObjectStore.put (disk_write S) (base_path S) data);
  flags ← lift_result (vec_set (uploaded session) part_num true);
  hashes ← lift_result (vec_set (part_hashes session) part_num hash);
  let session := mk (upload_id session) (user_id session) (folder_id session) (file_name session) (mime_type session)
                   (total_size session) (session_chunk_size session) (chunk_count session) flags hashes in
  _ ← save_to_redis session;
  _ ← notify_upload_progress session;
  reply_json (JObj [("hash", JStr hash); ("part_num", JInt part_num); ("size", JInt (Z.of_nat (slen data)))]).

Definition handle_upload_part (req : HttpRequest) : M World () :=
  try_catch
    (if negb (has_auth_user req) then set_error 401 "Unauthorized"
     else
       let id := get_path_param "upload_id" req in
       let part_str := get_path_param "part_num" req in
       if sempty id || sempty part_str then set_error 400 "missing upload_id or part_num"
       else
         part_num ← lift_result (stoi part_str);
         if sempty (body_ req) then set_error 400 "empty part body"
         else
           session ← owned_session req id;
           match session with
           | None => mret ()
           | Some s =>
               if bool_decide (part_num < 0)%Z || bool_decide (chunk_count s ≤ part_num)%Z then set_error 400 "invalid part_num"
               else if bool_decide (session_chunk_size s < Z.of_nat (slen (body_ req)))%Z then set_error 413 "part too large"
               else store_part s part_num (body_ req)
           end)
    (error_500 "upload part failed: ").

(** The first part of the given ones that is missing. *)
Fixpoint missing_part (fuel : nat) (i : Z) (flags : list bool) : result (option Z) :=
  match fuel with
  | 0 => Ok None
  | Datatypes.S fuel' => b ← vec_get flags i; if (b : bool) then missing_part fuel' (i + 1) flags else Ok (Some i)
  end.

(** The rows of a complete upload: those of an equal content, or new ones. *)
Definition record_upload (s : MultipartSession) (chunk_hashes hash : string) : M World (string * bool) :=
  found ← on_db (FileDao.find_content_by_hash hash);
  match found with
  | Some content =>
      file_id ← FileUpload.link_existing_content time content (file_name s) (mime_type s) (user_id s) (folder_id s);
      _ ← on_redis (RedisClient.set ("file:hash:" +:+ hash) (FileDao.content_id content) 0) false;
      mret (file_id, true)
  | None =>
      file_id ← on_db (FileDao.insert
        (FileDao.mk "" (file_name s) (total_size s) hash chunk_hashes (mime_type s) "" (user_id s) (folder_id s) ""));
      r ← has_redis;
      _ ← (if (r : bool) then
             content ← on_db (FileDao.find_content_by_hash hash);
             match content with
             | Some c => _ ← on_redis (RedisClient.set ("file:hash:" +:+ hash) (FileDao.content_id c) 0) false; mret ()
             | None => mret ()
             end
           else mret ());
      mret (file_id, false)
  end.

Definition complete_session (s : MultipartSession) (id : string) : M World () :=
  missing ← lift_result (missing_part (Z.to_nat (chunk_count s)) 0 (uploaded s));
  match missing with
  | Some i => set_error 400 ("part " +:+ to_string i +:+ " not uploaded yet")
  | None =>
      chunk_hashes ← lift_result (json_dump (jstrs (part_hashes s)));
      full_content ← on_fs (ObjectStore.get_chunked (base_path S) (part_hashes s));
      let hash := ObjectStore.sha256 full_content in
      recorded ← record_upload s chunk_hashes hash;
      let '(file_id, instant) := recorded in
      _ ← delete_from_redis id;
      _ ← on_ws (WsSession.push_complete id file_id);
      reply_json (JObj [("file_id", JStr file_id); ("hash", JStr hash); ("instant", JBool instant);
        ("size", JInt (total_size s))])
  end.

(** The common head of the last three handlers. *)
Definition with_session (req : HttpRequest) (prefix : string) (k : MultipartSession → string → M World ()) : M World () :=
  try_catch
    (if negb (has_auth_user req) then set_error 401 "Unauthorized"
     else
       let id := get_path_param "upload_id" req in
       if sempty id then set_error 400 "missing upload_id"
       else
         session ← owned_session req id;
         match session with
         | None => mret ()
         | Some s => k s id
         end)
    (error_500 prefix).

Definition handle_complete (req : HttpRequest) : M World () :=
  with_session req "complete failed: " complete_session.

Definition handle_status (req : HttpRequest) : M World () :=
  with_session req "status failed: " (λ s _,
    reply_json (JObj [("chunk_count", JInt (chunk_count s)); ("chunk_size", JInt (session_chunk_size s));
      ("file_name", JStr (file_name s));
      ("part_hashes", JArr (map (λ h, if sempty h then JNull else JStr h) (part_hashes s)));
      ("total_size", JInt (total_size s)); ("upload_id", JStr (upload_id s));
      ("uploaded_count", JInt (uploaded_count (uploaded s)))])).

Definition aborted_json : string :=
  "{" +:+ HttpResponse.quoted "status" +:+ ":" +:+ HttpResponse.quoted "aborted" +:+ "}".

Definition handle_abort (req : HttpRequest) : M World () :=
  with_session req "abort failed: " (λ _ id,
    _ ← delete_from_redis id; set_resp (HttpResponse.set_json aborted_json)).

End multipart.

End Multipart.
