(* ===== verification/Shares.v ===== *)
(** Sharing: [ShareHandler] (src/api/share_handler.h, share_handler.cpp). The
    random draws, the time and the C library's calendar are arguments. *)
From S2P Require Import Prelude Steps JsonValue HttpMessage Jwt ObjectStore Database Daos Redis WsCodec World Files.
Import World HttpRequest.

(** localtime_r with put_time and tm_gmtoff, and get_time with timegm for the
    two formats the handler reads: date, the given separator, time of day. *)
Class Calendar := {
  local_iso : Z → string;
  gmtoff : Z → Z;
  get_time_utc : ascii → string → option Z
}.

Module Shares.

Definition share_page_path (token : string) : string := "/share.html?token=" +:+ token.

Definition is_share_api_download (req : HttpRequest) : bool := bool_decide (get_header "X-Share-Download" req = "1").
Definition is_share_api_preview (req : HttpRequest) : bool := bool_decide (get_header "X-Share-Preview" req = "1").

Definition wants_share_page_redirect (req : HttpRequest) : bool :=
  if is_share_api_download req || is_share_api_preview req then false
  else
    let accept := get_header "Accept" req in
    if bool_decide (is_Some (sfind "text/html" accept)) then true
    else sempty accept || bool_decide (accept = "*/*").

(** The alphabet of tokens, and a token of eight draws. *)
Definition token_chars : string := "abcdefghijklmnopqrstuvwxyz0123456789".
Definition token_char (i : Z) : ascii := default "000"%char (String.get (Z.to_nat i) token_chars).
Definition token_of (draw : nat → Z) : string :=
  foldr (λ i s, String (token_char (draw i)) s) "" (seq 0 8).

(** [info[key] = v] on a JSON object, whose keys stay sorted. *)
Fixpoint jinsert (k : string) (v : json) (l : list (string * json)) : list (string * json) :=
  match l with
  | [] => [(k, v)]
  | (k', v') :: l' =>
      if bool_decide (k = k') then (k, v) :: l'
      else if String.leb k k' then (k, v) :: l else (k', v') :: jinsert k v l'
  end.

Section shares.
Context {R : RedisServer} {J : JsonText} {P : Postgres} {E : Evp} {C : Calendar} (S : Settings) (time : Z).
(** [draws attempt i] is the i-th draw of an attempt. *)
Variable draws : nat → nat → Z.

Definition jset (j : json) (k : string) (v : json) : result json :=
  match j with
  | JObj l => Ok (JObj (jinsert k v l))
  | JNull => Ok (JObj [(k, v)])
  | _ => type_error j
  end.

(** Ten attempts. *)
Fixpoint token_loop (fuel attempt : nat) : M World string :=
  match fuel with
  | 0 => throw ERuntime "failed to generate unique share token"
  | Datatypes.S fuel' =>
      let token := token_of (draws attempt) in
      taken ← on_db (ShareDao.token_exists token);
      if (taken : bool) then token_loop fuel' (Datatypes.S attempt) else mret token
  end.
Definition generate_token : M World string := token_loop 10 0.

(** When the share expires, as the handler reads it back; [None] when neither
    format fits. *)
Definition expiry (expires_at : string) : option Z :=
  match get_time_utc "T"%char expires_at with
  | Some t => Some t
  | None => get_time_utc SP expires_at
  end.

(** The cached copy of the counter; every failure is swallowed. *)
Definition update_cache (token : string) (count : Z) : M World () :=
  cached ← on_redis (RedisClient.get ("share:" +:+ token)) None;
  match cached with
  | None => mret ()
  | Some text =>
      try_catch
        (info ← lift_result (json_parse text);
         info ← lift_result (jset info "download_count" (JInt count));
         t ← lift_result (json_dump info);
         _ ← on_redis (RedisClient.set ("share:" +:+ token) t 0) false;
         mret ())
        (λ _, mret ())
  end.

Definition with_count (s : ShareDao.ShareRecord) (n : Z) : ShareDao.ShareRecord :=
  ShareDao.mk (ShareDao.id s) (ShareDao.file_id s) (ShareDao.owner_id s) (ShareDao.share_token s)
    (ShareDao.password_hash s) (ShareDao.expires_at s) (ShareDao.max_downloads s) n
    (ShareDao.created_at s) (ShareDao.is_revoked s).

(** Refuse, with an answer. *)
Definition refuse {A} (code : Z) (msg : string) : M World (option A) := _ ← set_error code msg; mret None.

(** The checks on a share that was found, then the count. *)
Definition check_password (s : ShareDao.ShareRecord) (password : string) : M World bool :=
  if sempty (ShareDao.password_hash s) then mret true
  else if sempty password then
    _ ← set_error 401 "password required";
    _ ← set_resp (HttpResponse.set_header "X-Share-Auth" "required");
    mret false
  else if negb (bool_decide (ObjectStore.sha256 password = ShareDao.password_hash s)) then
    _ ← set_error 403 "incorrect password"; mret false
  else mret true.

Definition count_share (token : string) (s : ShareDao.ShareRecord) : M World ShareDao.ShareRecord :=
  _ ← on_db (ShareDao.increment_download_count (ShareDao.id s));
  _ ← update_cache token (wrap_i32 (ShareDao.download_count s + 1));
  mret (with_count s (wrap_i32 (ShareDao.download_count s + 1))).

Definition expired (s : ShareDao.ShareRecord) : bool :=
  negb (sempty (ShareDao.expires_at s)) &&
  match expiry (ShareDao.expires_at s) with Some t => bool_decide (t < time)%Z | None => false end.

Definition limit_reached (s : ShareDao.ShareRecord) : bool :=
  bool_decide (0 < ShareDao.max_downloads s)%Z && bool_decide (ShareDao.max_downloads s ≤ ShareDao.download_count s)%Z.

Definition resolve_share (token password : string) (count_download : bool) : M World (option ShareDao.ShareRecord) :=
  if sempty token then refuse 400 "missing share token"
  else
    share ← on_db (ShareDao.find_by_token token);
    match share with
    | None => refuse 404 "share not found"
    | Some s =>
        if ShareDao.is_revoked s then refuse 403 "share has been revoked"
        else if expired s then refuse 410 "share has expired"
        else
          ok ← check_password s password;
          if negb ok then mret None
          else if count_download && limit_reached s then refuse 403 "download limit reached"
          else if count_download then s' ← count_share token s; mret (Some s')
          else mret (Some s)
    end.

(** * The handlers *)

(** The expiry text of a new share. *)
Definition expiry_text (hours : Z) : string :=
  let exp_t := (wrap_i64 ((time + hours * 3600) * 10 ^ 9) `quot` 10 ^ 9)%Z in
  let tz_offset := (gmtoff exp_t `quot` 3600)%Z in
  local_iso exp_t +:+ (if bool_decide (0 ≤ tz_offset)%Z then "+" else "-") +:+
    (if bool_decide (tz_offset < 10)%Z then "0" else "") +:+ to_string (Z.abs tz_offset) +:+ ":00".

(** [expires_at.empty() ? nullptr : expires_at]: both branches have type
    std::string, which cannot be made from a null pointer. *)
Definition null_or_text (expires_at : string) : result json :=
  if sempty expires_at then Throw (Exn ELogicError "basic_string: construction from null is not valid")
  else Ok (JStr expires_at).

Definition handle_create (req : HttpRequest) : M World () :=
  try_catch
    (if negb (has_auth_user req) then set_error 401 "Unauthorized"
     else
       let user_id := auth_user_id_ req in
       body ← lift_result (json_parse (body_ req));
       f ← lift_result (jfield body "file_id"); file_id ← lift_result (jget_str f);
       hours ← lift_result (jvalue jget_int body "expires_in_hours" 0%Z);
       password ← lift_result (jvalue jget_str body "password" "");
       max_downloads ← lift_result (jvalue jget_int body "max_downloads" 0%Z);
       file ← AccessControl.require_owned_file user_id file_id;
       match file with
       | None => mret ()
       | Some _ =>
           token ← generate_token;
           let password_hash := if sempty password then "" else ObjectStore.sha256 password in
           let expires_at := if bool_decide (0 < hours)%Z then expiry_text hours else "" in
           _ ← on_db (ShareDao.insert
             (ShareDao.mk "" file_id user_id token password_hash expires_at max_downloads 0 "" false));
           r ← has_redis;
           _ ← (if (r : bool) then
                  info ← lift_result (json_dump (JObj [("download_count", JInt 0); ("expires_at", JStr expires_at);
                    ("file_id", JStr file_id); ("is_revoked", JBool false); ("max_downloads", JInt max_downloads);
                    ("password_hash", JStr password_hash)]));
                  _ ← on_redis (RedisClient.set ("share:" +:+ token) info
                        (if bool_decide (0 < hours)%Z then wrap_i32 (hours * 3600) else 86400%Z)) false;
                  mret ()
                else mret ());
           expires ← lift_result (null_or_text expires_at);
           reply_json (JObj [("download_url", JStr ("/s/" +:+ token)); ("expires_at", expires);
             ("has_password", JBool (negb (sempty password))); ("share_token", JStr token);
             ("url", JStr (share_page_path token))])
       end)
    (invalid_json "share failed: ").

Definition share_json (s : ShareDao.ShareRecord) : result json :=
  expires ← null_or_text (ShareDao.expires_at s);
  Ok (JObj [("created_at", JStr (ShareDao.created_at s)); ("download_count", JInt (ShareDao.download_count s));
    ("download_url", JStr ("/s/" +:+ ShareDao.share_token s)); ("expires_at", expires);
    ("file_id", JStr (ShareDao.file_id s)); ("has_password", JBool (negb (sempty (ShareDao.password_hash s))));
    ("max_downloads", JInt (ShareDao.max_downloads s)); ("share_token", JStr (ShareDao.share_token s));
    ("url", JStr (share_page_path (ShareDao.share_token s)))]).

(** The declaration's defaults: 20 shares from the first on. *)
Definition handle_list (req : HttpRequest) : M World () :=
  try_catch
    (if negb (has_auth_user req) then set_error 401 "Unauthorized"
     else
       shares ← on_db (ShareDao.list_by_owner (auth_user_id_ req) 20 0);
       items ← lift_result (foldr (λ s acc, i ← share_json s; l ← acc; Ok (i :: l)) (Ok []) shares);
       reply_json (JArr items))
    (error_500 "list shares failed: ").

Definition revoked_json : string := "{" +:+ HttpResponse.quoted "revoked" +:+ ":true}".

Definition handle_revoke (req : HttpRequest) : M World () :=
  try_catch
    (if negb (has_auth_user req) then set_error 401 "Unauthorized"
     else
       let token := get_path_param "token" req in
       if sempty token then set_error 400 "missing token"
       else
         share ← on_db (ShareDao.find_by_token token);
         match share with
         | None => set_error 404 "share not found"
         | Some s =>
             if negb (bool_decide (ShareDao.owner_id s = auth_user_id_ req)) then set_error 403 "not your share"
             else
               _ ← on_db (ShareDao.revoke (ShareDao.id s) (auth_user_id_ req));
               _ ← on_redis (RedisClient.del ("share:" +:+ token)) false;
               set_resp (HttpResponse.set_json revoked_json)
         end)
    (error_500 "revoke failed: ").

(** Everything after the text of the parameter, and the header otherwise. *)
Definition share_password (req : HttpRequest) : string :=
  let q := query_ req in
  let pwd := match sfind "password=" q with Some pos => sdrop (pos + 9) q | None => "" end in
  if sempty pwd then get_header "X-Share-Password" req else pwd.

Definition send_shared (preview : bool) (file : FileDao.FileRecord) : M World () :=
  chunk_arr ← lift_result (json_parse (FileDao.chunk_hashes file));
  hashes ← lift_result (jget_strs chunk_arr);
  content ← on_fs (ObjectStore.get_chunked (base_path S) hashes);
  _ ← set_resp (HttpResponse.set_header "Content-Disposition"
        ((if preview then "inline" else "attachment") +:+ "; filename=" +:+ HttpResponse.quoted (FileDao.name file)));
  set_resp (HttpResponse.set_binary content (FileDao.mime_type file)).

Definition redirect (token : string) (r : HttpResponse.HttpResponse) : HttpResponse.HttpResponse :=
  HttpResponse.set_header "Content-Length" "0"
    (HttpResponse.set_body "" (HttpResponse.set_header "Location" (share_page_path token)
      (HttpResponse.set_status 302 "Found" r))).

Definition handle_download (req : HttpRequest) : M World () :=
  try_catch
    (let token := get_path_param "token" req in
     if sempty token then set_error 400 "missing share token"
     else if wants_share_page_redirect req then set_resp (redirect token)
     else
       let is_preview := is_share_api_preview req in
       let count_download := is_share_api_download req && negb is_preview in
       share ← resolve_share token (share_password req) count_download;
       match share with
       | None => mret ()
       | Some s =>
           file ← on_db (FileDao.find_by_id (ShareDao.file_id s));
           match file with
           | None => set_error 404 "original file not found"
           | Some f => send_shared is_preview f
           end
       end)
    (error_500 "download failed: ").

Definition handle_save (req : HttpRequest) : M World () :=
  try_catch
    (if negb (has_auth_user req) then set_error 401 "Unauthorized"
     else
       let user_id := auth_user_id_ req in
       body ← lift_result (json_parse (body_ req));
       token ← lift_result (jvalue jget_str body "share_token" "");
       token ← (if sempty token then lift_result (jvalue jget_str body "token" "") else mret token);
       password ← lift_result (jvalue jget_str body "password" "");
       share ← resolve_share token password false;
       match share with
       | None => mret ()
       | Some s =>
           file ← on_db (FileDao.find_by_id (ShareDao.file_id s));
           match file with
           | None => set_error 404 "original file not found"
           | Some f =>
               name ← on_db (FileDao.make_unique_name time (FileDao.name f) user_id "");
               new_id ← on_db (FileDao.insert_link
                 (FileDao.mk "" name 0 "" "" (FileDao.mime_type f) "" user_id "" "") (FileDao.content_id f));
               reply_json (JObj [("file_id", JStr new_id); ("name", JStr name); ("saved", JBool true);
                 ("size", JInt (FileDao.size f))])
           end
       end)
    (invalid_json "save failed: ").

End shares.

End Shares.
