(* ===== verification/Server.v ===== *)
(** The server around the handlers: [Metrics] (src/monitor), the WebSocket
    upgrade (src/ws/ws_upgrade.cpp), the endpoints behind the route table
    (src/api/route_registry.cpp) and the callbacks of main.cpp, which take a parsed
    request through static files, rate limit, authentication and dispatch. *)
From S2P Require Import Prelude Steps JsonValue HttpMessage HttpRouter Jwt ObjectStore Database Daos Redis WsCodec World.
From S2P Require Import Gc Files FoldersAccounts Multipart Shares.
Import World HttpRequest.

Module Metrics.

Record Metrics := mk {
  total_requests_ : Z; errors_ : Z; upload_bytes_ : Z; download_bytes_ : Z; active_connections_ : Z }.

Definition zero : Metrics := mk 0 0 0 0 0.

Definition inc_requests (m : Metrics) : Metrics :=
  mk (u64 (total_requests_ m + 1)) (errors_ m) (upload_bytes_ m) (download_bytes_ m) (active_connections_ m).
Definition inc_errors (m : Metrics) : Metrics :=
  mk (total_requests_ m) (u64 (errors_ m + 1)) (upload_bytes_ m) (download_bytes_ m) (active_connections_ m).
Definition inc_active_connections (m : Metrics) : Metrics :=
  mk (total_requests_ m) (errors_ m) (upload_bytes_ m) (download_bytes_ m) (wrap_i64 (active_connections_ m + 1)).
Definition dec_active_connections (m : Metrics) : Metrics :=
  mk (total_requests_ m) (errors_ m) (upload_bytes_ m) (download_bytes_ m) (wrap_i64 (active_connections_ m - 1)).

Definition LFs : string := String LF "".

(** The two comment lines and the value of one metric. *)
Definition entry (name help kind : string) (v : Z) : string :=
  "# HELP " +:+ name +:+ " " +:+ help +:+ LFs +:+ "# TYPE " +:+ name +:+ " " +:+ kind +:+ LFs +:+
  name +:+ " " +:+ to_string v +:+ LFs.

Definition dump (m : Metrics) : string :=
  entry "solardrive_requests_total" "Total HTTP requests processed" "counter" (total_requests_ m) +:+ LFs +:+
  entry "solardrive_errors_total" "Total HTTP errors returned" "counter" (errors_ m) +:+ LFs +:+
  entry "solardrive_upload_bytes_total" "Total bytes uploaded" "counter" (upload_bytes_ m) +:+ LFs +:+
  entry "solardrive_download_bytes_total" "Total bytes downloaded" "counter" (download_bytes_ m) +:+ LFs +:+
  entry "solardrive_active_connections" "Current active TCP connections" "gauge" (active_connections_ m).

Definition dump_json (m : Metrics) : string :=
  "{" +:+ WsSession.qkey "type" +:+ HttpResponse.quoted "metrics" +:+ "," +:+
  WsSession.qkey "solardrive_requests_total" +:+ to_string (total_requests_ m) +:+ "," +:+
  WsSession.qkey "solardrive_errors_total" +:+ to_string (errors_ m) +:+ "," +:+
  WsSession.qkey "solardrive_upload_bytes_total" +:+ to_string (upload_bytes_ m) +:+ "," +:+
  WsSession.qkey "solardrive_download_bytes_total" +:+ to_string (download_bytes_ m) +:+ "," +:+
  WsSession.qkey "solardrive_active_connections" +:+ to_string (active_connections_ m) +:+ "}".

End Metrics.

(** What a request meets outside the program: the clocks in seconds and
    milliseconds, the draws of the two generators, and the peer's address. *)
Record Ambient := mk_ambient {
  now : Z; now_ms : Z; token_draws : nat → nat → Z; id_draws : Z * Z * Z * Z; peer_ip : string }.

(** Settings of the process next to those of the handlers. *)
Record Process := mk_process {
  web_dir : string; read_web : string → option string; rate_limit_per_ip : Z; part_size : Z }.

Module Server.

Section server.
Context {R : RedisServer}.

(** The world of the handlers, the metrics, the limiter's counter, the number
    of requests each connection has made, the connections whose handler speaks
    WebSocket, and those that close once their output is written. *)
Record Server := mk {
  world : World; metrics : Metrics.Metrics; seq_ : Z; request_count : gmap nat Z;
  upgraded : gmap nat string; closing : gset nat }.

Definition with_world (w : World) (s : Server) : Server :=
  mk w (metrics s) (seq_ s) (request_count s) (upgraded s) (closing s).
Definition with_metrics (m : Metrics.Metrics) (s : Server) : Server :=
  mk (world s) m (seq_ s) (request_count s) (upgraded s) (closing s).
Definition with_seq (n : Z) (s : Server) : Server :=
  mk (world s) (metrics s) n (request_count s) (upgraded s) (closing s).
Definition with_counts (c : gmap nat Z) (s : Server) : Server :=
  mk (world s) (metrics s) (seq_ s) c (upgraded s) (closing s).
Definition with_upgraded (u : gmap nat string) (s : Server) : Server :=
  mk (world s) (metrics s) (seq_ s) (request_count s) u (closing s).
Definition with_closing (c : gset nat) (s : Server) : Server :=
  mk (world s) (metrics s) (seq_ s) (request_count s) (upgraded s) c.

Definition on_world {A} (m : M World A) : M Server A := λ s,
  let '(r, w) := m (world s) in (r, with_world w s).
Definition update (f : Server → Server) : M Server () := λ s, (Ok (), f s).

(** [conn->send(text)], logged with what the session manager sends. *)
Definition send (conn : nat) (text : string) : M Server () :=
  on_world (on_ws (λ m, WsSession.mk (WsSession.sessions_ m) (WsSession.metrics_subscribers_ m)
    (WsSession.sent m ++ [(conn, text)]))).

Section http.
Context {O : HashOrder}.

Definition send_response (conn : nat) (keep_alive : bool) : M Server () :=
  s ← get_st;
  let '(payload, close) := HttpResponse.send_response (resp (world s)) keep_alive in
  _ ← update (λ s, with_closing (if close then {[conn]} ∪ closing s else closing s ∖ {[conn]}) s);
  send conn payload.

Definition record_response_metrics : M Server () :=
  s ← get_st;
  let m := Metrics.inc_requests (metrics s) in
  update (with_metrics (if bool_decide (400 ≤ HttpResponse.status_code_ (resp (world s)))%Z then Metrics.inc_errors m else m)).

(** The last two lines of every branch of the request callback. *)
Definition finish (conn : nat) (keep_alive : bool) : M Server () :=
  _ ← record_response_metrics; send_response conn keep_alive.

(** A response object of its own. *)
Definition fresh_response : M Server () := on_world (set_resp (λ _, HttpResponse.empty)).

End http.
End server.

End Server.

Module WsUpgrade.
Import Server.

Definition is_websocket_upgrade (req : HttpRequest) : bool :=
  bool_decide (to_lower (get_header "Upgrade" req) = "websocket") &&
  bool_decide (is_Some (sfind "upgrade" (to_lower (get_header "Connection" req)))).

Definition path_after_prefix (path prefix : string) : string :=
  if bool_decide (slen path ≤ slen prefix) || negb (starts_with prefix path) then "" else sdrop (slen prefix) path.

Section upgrade.
Context {R : RedisServer} {J : JsonText} {O : HashOrder} {K : WsHandshake.Handshake} (S : Settings).

Definition send_http_error (conn : nat) (code : Z) (msg : string) : M Server () :=
  _ ← fresh_response; _ ← on_world (set_error code msg); send_response conn false.

(** The user of the token in the query, or else of the one in the header. *)
Definition authenticate_ws (time : Z) (req : HttpRequest) : Jwt.AuthResult :=
  let token := Query.query_param (query_ req) "token" in
  let token := if sempty token then default "" (Jwt.extract_token (get_header "Authorization" req)) else token in
  let auth_req := if sempty token then req else add_header "Authorization" ("Bearer " +:+ token) req in
  Jwt.authenticate (hmac S) (secret S) time auth_req.

Definition upload_session_owned_by (upload_id user_id : string) : M World bool :=
  owner ← on_redis (RedisClient.hget ("multipart:" +:+ upload_id) "user_id") None;
  mret (bool_decide (owner = Some user_id)).

(** Whether the request was dealt with. *)
Definition try_handle_upgrade (time : Z) (conn : nat) (req : HttpRequest) : M Server bool :=
  if negb (bool_decide (method_ req = GET)) || negb (is_websocket_upgrade req) then mret false
  else
    let ws_key := get_header "Sec-WebSocket-Key" req in
    if sempty ws_key then mret false
    else if bool_decide (path_ req = "/ws/metrics") then
      _ ← send conn (WsHandshake.build_upgrade_response ws_key);
      _ ← on_world (on_ws (WsSession.register_metrics conn));
      _ ← update (λ s, with_upgraded (<[conn := ""]> (upgraded s)) s);
      s ← get_st;
      _ ← on_world (on_ws (WsSession.push_metrics_snapshot (Metrics.dump_json (metrics s)) conn));
      mret true
    else if starts_with "/ws/upload/" (path_ req) then
      let upload_id := path_after_prefix (path_ req) "/ws/upload/" in
      if sempty upload_id then _ ← send_http_error conn 400 "missing upload_id"; mret true
      else
        let auth := authenticate_ws time req in
        if negb (Jwt.authenticated auth) then
          _ ← send_http_error conn 401 (Jwt.error_msg auth); mret true
        else
          owned ← on_world (upload_session_owned_by upload_id (Jwt.auth_user auth));
          if negb owned then _ ← send_http_error conn 403 "forbidden"; mret true
          else
            _ ← send conn (WsHandshake.build_upgrade_response ws_key);
            _ ← on_world (on_ws (WsSession.register_session upload_id conn));
            _ ← update (λ s, with_upgraded (<[conn := upload_id]> (upgraded s)) s);
            mret true
    else mret false.

End upgrade.

End WsUpgrade.

Module Api.
Import Server Routes.

Section api.
Context {R : RedisServer} {J : JsonText} {P : Postgres} {E : Evp} {C : Calendar} (S : Settings) (G : Process).

Definition health_json : string :=
  "{" +:+ WsSession.qkey "status" +:+ HttpResponse.quoted "ok" +:+ "," +:+
  WsSession.qkey "service" +:+ HttpResponse.quoted "SolarDrive" +:+ "}".

(** The closures [register_api_routes] registers; those of the handlers run in
    their world. *)
Definition in_world (a : Ambient) (e : endpoint) (req : HttpRequest) : M World () :=
  let '(v0, v1, v2, v3) := id_draws a in
  match e with
  | Health | MetricsDump => set_resp (HttpResponse.set_json health_json)
  | AuthRegister => AuthHandler.handle_register S (now a) req
  | AuthLogin => AuthHandler.handle_login S (now a) req
  | Upload => FileUpload.upload_route S (now a) req
  | UploadInit => Multipart.handle_init S (part_size G) v0 v1 v2 v3 req
  | UploadPart => Multipart.handle_upload_part S (part_size G) req
  | UploadComplete => Multipart.handle_complete S (now a) (part_size G) req
  | UploadStatus => Multipart.handle_status S (part_size G) req
  | UploadAbort => Multipart.handle_abort S (part_size G) req
  | FilesList => FileHandler.handle_list req
  | FilesDelete => FileHandler.handle_delete S req
  | FoldersList => FolderHandler.handle_list req
  | FoldersCreate => FolderHandler.handle_create req
  | FoldersRename => FolderHandler.handle_rename req
  | FoldersDelete => FolderHandler.handle_delete req
  | FileDownload => DownloadHandler.download_route S req
  | ShareCreate => Shares.handle_create (now a) (token_draws a) req
  | ShareSave => Shares.handle_save (now a) req
  | ShareList => Shares.handle_list req
  | ShareRevoke => Shares.handle_revoke req
  | ShareDownload => Shares.handle_download S (now a) req
  end.

Definition metrics_route : M Server () :=
  s ← get_st;
  on_world (set_resp (λ r, HttpResponse.set_header "Content-Type" "text/plain; version=0.0.4; charset=utf-8"
    (HttpResponse.set_body (Metrics.dump (metrics s)) r))).

Definition handle (a : Ambient) (e : endpoint) (req : HttpRequest) : M Server () :=
  match e with
  | MetricsDump => metrics_route
  | _ => on_world (in_world a e req)
  end.

(** As the router's handlers, which are given the response. *)
Definition as_handler (a : Ambient) (e : endpoint) : HttpRouter.Handler Server := λ req '(s, r),
  let '(x, s') := handle a e req (with_world (with_resp r (world s)) s) in (x, (s', resp (world s'))).

(** [router->dispatch(req, resp)]. *)
Definition dispatch (a : Ambient) (req : HttpRequest) : M Server () := λ s,
  match register_api_routes (as_handler a) with
  | Throw e => (Throw e, s)
  | Ok routes =>
      let '(x, (s', r)) := HttpRouter.dispatch routes req (s, resp (world s)) in
      (x, with_world (with_resp r (world s')) s')
  end.

End api.

End Api.

Module Pipeline.
Import Server.

Definition kMaxKeepAliveRequests : Z := 1000.

Section pipeline.
Context {R : RedisServer} {J : JsonText} {P : Postgres} {E : Evp} {C : Calendar} {O : HashOrder}
  {K : WsHandshake.Handshake} (S : Settings) (G : Process).

(** [rate_limiter->allow(client_ip)]: the limiter shares the handlers' client. *)
Definition allow (a : Ambient) (client_ip : string) : M Server bool := λ s,
  let l := RateLimiter.mk (rate_limit_per_ip G) (seq_ s) (redis (world s)) in
  let '(ok, l') := RateLimiter.allow (now_ms a) client_ip l in
  (Ok ok, with_seq (RateLimiter.seq_ l') (with_world (with_redis (RateLimiter.redis_ l') (world s)) s)).

Definition too_many : HttpResponse.HttpResponse → HttpResponse.HttpResponse := λ r,
  HttpResponse.set_json ("{" +:+ WsSession.qkey "error" +:+ HttpResponse.quoted "Too many requests" +:+ "}")
    (HttpResponse.set_header "Retry-After" (to_string RateLimiter.kWindowSeconds)
      (HttpResponse.set_status 429 "Too Many Requests" r)).

(** Whether the limiter lets the request pass; it is not asked about exempt paths. *)
Definition within_limit (a : Ambient) (req : HttpRequest) : M Server bool :=
  if RateLimiter.is_exempt (path_ req) then mret true
  else allow a (RateLimiter.resolve_client_ip (get_header_ic "X-Forwarded-For" req) (peer_ip a)).

(** Authentication, then the route. *)
Definition authenticated_dispatch (a : Ambient) (conn : nat) (keep_alive : bool) (req : HttpRequest) : M Server () :=
  if AuthMiddleware.is_whitelisted (path_ req) then
    _ ← Api.dispatch S G a req; finish conn keep_alive
  else
    let auth := Jwt.authenticate (hmac S) (secret S) (now a) req in
    if negb (Jwt.authenticated auth) then
      _ ← on_world (set_error 401 (Jwt.error_msg auth)); finish conn keep_alive
    else
      _ ← Api.dispatch S G a (set_auth_user (Jwt.auth_user auth) (Jwt.auth_name auth) req);
      finish conn keep_alive.

(** The callback a connection's parser calls with each request. *)
Definition on_request (a : Ambient) (conn : nat) (req : HttpRequest) : M Server () :=
  up ← WsUpgrade.try_handle_upgrade S (now a) conn req;
  if (up : bool) then mret ()
  else
    _ ← fresh_response;
    s ← get_st;
    let count := default 0%Z (request_count s !! conn) in
    let keep_alive := wants_keep_alive req && bool_decide (count < kMaxKeepAliveRequests)%Z in
    _ ← update (with_counts (<[conn := wrap_i32 (count + 1)]> (request_count s)));
    s ← get_st;
    let '(served, r) := if bool_decide (method_ req = GET)
      then StaticHandler.try_serve (read_web G) (web_dir G) req (resp (world s)) else (false, resp (world s)) in
    _ ← on_world (set_resp (λ _, r));
    if (served : bool) then finish conn keep_alive
    else
      ok ← within_limit a req;
      if negb ok then _ ← on_world (set_resp too_many); finish conn keep_alive
      else authenticated_dispatch a conn keep_alive req.

(** The connection callback's two branches. A new connection gets a context of
    its own, which speaks HTTP and has counted no request. *)
Definition on_connected (conn : nat) : M Server () :=
  _ ← update (λ s, with_metrics (Metrics.inc_active_connections (metrics s)) s);
  update (λ s, with_counts (<[conn := 0%Z]> (request_count s)) (with_upgraded (delete conn (upgraded s)) s)).
Definition on_disconnected (conn : nat) : M Server () :=
  _ ← update (λ s, with_metrics (Metrics.dec_active_connections (metrics s)) s);
  on_world (on_ws (WsSession.remove_session conn)).

(** The message callback on an upgraded connection: [WsHandler::feed] and what it
    sends. *)
Fixpoint send_all (conn : nat) (texts : list string) : M Server () :=
  match texts with [] => mret () | t :: texts => _ ← send conn t; send_all conn texts end.
Definition on_frame (conn : nat) (data : string) : M Server nat :=
  r ← lift_result (WsHandler.feed data);
  _ ← send_all conn (snd r);
  mret (Z.to_nat (fst r)).

(** The two timers. *)
Definition every_5_seconds : M Server () :=
  s ← get_st; on_world (on_ws (WsSession.broadcast_metrics (Metrics.dump_json (metrics s)))).
Definition every_hour : M Server () :=
  _ ← on_world (on_db ShareDao.revoke_expired); _ ← on_world (ContentGc.collect_orphans S 200); mret ().

End pipeline.

End Pipeline.
