(* ===== verification/Frames.v ===== *)
(** What every handler leaves alone: a relation between worlds that the operations
    on the components respect is respected by every endpoint. *)
From S2P Require Import Prelude Steps JsonValue HttpMessage HttpRouter Jwt ObjectStore Database Daos Redis WsCodec World.
From S2P Require Import Gc Files FoldersAccounts Multipart Shares Server.
Import World HttpRequest Routes.

(** Closed under what handlers do to one component at a time: anything to the
    database, the disk, Redis and the response, and the two kinds of frames that
    the multipart handlers push. *)
Class Frame {R : RedisServer} (Rel : World → World → Prop) := {
  frame_preorder :: PreOrder Rel;
  frame_db d w : Rel w (with_db d w);
  frame_fs f w : Rel w (with_fs f w);
  frame_redis r w : Rel w (with_redis r w);
  frame_resp r w : Rel w (with_resp r w);
  frame_progress u p b t w : Rel w (with_ws (WsSession.push_progress u p b t (ws w)) w);
  frame_complete u f w : Rel w (with_ws (WsSession.push_complete u f (ws w)) w)
}.

Module Frames.

Section frames.
Context {R : RedisServer} {J : JsonText} {P : Postgres} {EV : Evp} {C : Calendar} (S : Settings) (G : Process).
Context (Rel : World → World → Prop) {F : Frame Rel}.

Lemma on_db_rel {A} (m : M Schema.Db A) : steps Rel (on_db m).
Proof using F. intros w. unfold on_db. destruct (m (db w)). apply frame_db. Qed.
Lemma on_fs_rel {A} (m : M Fs.t A) : steps Rel (on_fs m).
Proof using F. intros w. unfold on_fs. destruct (m (fs w)). apply frame_fs. Qed.
Lemma on_resp_rel {A} (m : M HttpResponse.HttpResponse A) : steps Rel (on_resp m).
Proof using F. intros w. unfold on_resp. destruct (m (resp w)). apply frame_resp. Qed.
Lemma on_redis_rel {A} (f : RedisClient.Redis → A * RedisClient.Redis) a : steps Rel (on_redis f a).
Proof using F. intros w. unfold on_redis. destruct (redis w); [|cbn; reflexivity]. destruct (f _). apply frame_redis. Qed.
Lemma has_redis_rel : steps Rel has_redis.
Proof using F. intros w. cbn. reflexivity. Qed.
Lemma set_resp_rel f : steps Rel (set_resp f).
Proof using F. intros w. apply frame_resp. Qed.
Lemma set_error_rel c m : steps Rel (set_error c m).
Proof using F. apply on_resp_rel. Qed.
Lemma error_500_rel p e : steps Rel (error_500 p e).
Proof using F. apply set_error_rel. Qed.
Lemma invalid_json_rel p e : steps Rel (invalid_json p e).
Proof using F. unfold invalid_json. case_bool_decide; apply set_error_rel. Qed.
Lemma progress_rel u p b t : steps Rel (on_ws (WsSession.push_progress u p b t)).
Proof using F. intros w. apply frame_progress. Qed.
Lemma complete_rel u f : steps Rel (on_ws (WsSession.push_complete u f)).
Proof using F. intros w. apply frame_complete. Qed.
Lemma db_txn_rel {A} (m : M World (A * bool)) : steps Rel m → steps Rel (db_txn m).
Proof using F.
  intros Hm w. specialize (Hm w). unfold db_txn. destruct (m w) as [[[a []]|e] w1]; [done| |]; (etransitivity; [exact Hm|]); apply frame_db.
Qed.

#[local] Hint Resolve on_db_rel on_fs_rel on_resp_rel on_redis_rel has_redis_rel set_resp_rel set_error_rel error_500_rel
  invalid_json_rel progress_rel complete_rel db_txn_rel : solar.

Lemma reply_rel j : steps Rel (reply_json j).
Proof using F. unfold reply_json. step_rules. Qed.
#[local] Hint Resolve reply_rel : solar.

(** * Helpers of the handlers *)

Lemma folder_rel i u : steps Rel (AccessControl.resolve_folder_id i u).
Proof using F. unfold AccessControl.resolve_folder_id. step_rules. Qed.
Lemma owned_file_rel u i : steps Rel (AccessControl.require_owned_file u i).
Proof using F. unfold AccessControl.require_owned_file. step_rules. Qed.
Lemma owned_folder_rel u i m : steps Rel (FolderHandler.require_owned_folder u i m).
Proof using F. unfold FolderHandler.require_owned_folder. step_rules. Qed.
Lemma oversized_rel n m : steps Rel (FileUpload.reject_oversized n m).
Proof using F. unfold FileUpload.reject_oversized. step_rules. Qed.
Lemma link_rel t c f m u d : steps Rel (FileUpload.link_existing_content t c f m u d).
Proof using F. unfold FileUpload.link_existing_content. step_rules. Qed.
Lemma cached_rel h : steps Rel (FileUpload.cached_content h).
Proof using F. unfold FileUpload.cached_content. step_rules. Qed.
Lemma remove_chunks_rel n l : steps Rel (ContentGc.remove_chunks S n l).
Proof using F.
  revert n. induction l as [|h l IH]; intros n; cbn [ContentGc.remove_chunks]; [auto with solar|].
  apply steps_bind; [auto with solar|]. intros []; [apply IH|]. apply steps_bind; [auto with solar|]. intros g. apply IH.
Qed.
#[local] Hint Resolve remove_chunks_rel : solar.
Lemma purge_rel c : steps Rel (ContentGc.purge_content S c).
Proof using F.
  unfold ContentGc.purge_content. apply steps_bind; [auto with solar|]. intros n.
  case_bool_decide; [auto with solar|]. destruct (ContentGc.parse_chunk_hashes _); [|auto with solar].
  apply db_txn_rel. unfold ContentGc.purge_txn. step_rules.
Qed.
#[local] Hint Resolve purge_rel : solar.
Lemma purge_all_rel t l : steps Rel (ContentGc.purge_all S t l).
Proof using F.
  revert t. induction l as [|c l IH]; intros t; [apply steps_ret|]. cbn. apply steps_bind; [apply purge_rel|]. intros. apply IH.
Qed.
Lemma collect_rel n : steps Rel (ContentGc.collect_orphans S n).
Proof using F. apply steps_bind; [apply on_db_rel|]. intros. apply purge_all_rel. Qed.
Lemma try_collect_rel i : steps Rel (ContentGc.try_collect_content S i).
Proof using F. unfold ContentGc.try_collect_content. step_rules. Qed.
Lemma hset_rel k f v : steps Rel (Multipart.hset k f v).
Proof using F. unfold Multipart.hset. step_rules. Qed.
Lemma hget_rel k f : steps Rel (Multipart.hget k f).
Proof using F. unfold Multipart.hget. step_rules. Qed.
#[local] Hint Resolve folder_rel owned_file_rel owned_folder_rel oversized_rel link_rel cached_rel try_collect_rel hset_rel
  hget_rel : solar.

Lemma save_rel s : steps Rel (Multipart.save_to_redis s).
Proof using F. unfold Multipart.save_to_redis. cbv zeta. step_rules. Qed.
Lemma load_rel n id : steps Rel (Multipart.load_from_redis S n id).
Proof using F. unfold Multipart.load_from_redis. cbv zeta. step_rules. Qed.
Lemma delete_rel id : steps Rel (Multipart.delete_from_redis id).
Proof using F. unfold Multipart.delete_from_redis. step_rules. Qed.
Lemma notify_rel s : steps Rel (Multipart.notify_upload_progress s).
Proof using F. unfold Multipart.notify_upload_progress. cbv zeta. step_rules. Qed.
#[local] Hint Resolve save_rel load_rel delete_rel notify_rel : solar.
Lemma owned_session_rel n req id : steps Rel (Multipart.owned_session S n req id).
Proof using F. unfold Multipart.owned_session. step_rules. Qed.
Lemma record_rel t s c h : steps Rel (Multipart.record_upload t s c h).
Proof using F. unfold Multipart.record_upload. step_rules. Qed.
#[local] Hint Resolve owned_session_rel record_rel : solar.
Lemma with_session_rel n req p k : (∀ s id, steps Rel (k s id)) → steps Rel (Multipart.with_session S n req p k).
Proof using F. intros Hk. unfold Multipart.with_session. cbv zeta. step_rules. Qed.

Lemma resolve_share_rel t tok p c : steps Rel (Shares.resolve_share t tok p c).
Proof using F.
  unfold Shares.resolve_share, Shares.refuse, Shares.check_password, Shares.count_share, Shares.update_cache. step_rules.
Qed.
Lemma token_loop_rel d n a : steps Rel (Shares.token_loop d n a).
Proof using F.
  revert a. induction n as [|n IH]; intros a; cbn [Shares.token_loop]; [auto with solar|].
  apply steps_bind; [auto with solar|]. intros []; [apply IH|auto with solar].
Qed.
#[local] Hint Resolve resolve_share_rel token_loop_rel : solar.

(** * The endpoints *)

Lemma endpoint_rel a e req : steps Rel (Api.in_world S G a e req).
Proof using F.
  unfold Api.in_world. destruct (id_draws a) as [[[v0 v1] v2] v3]. destruct e; auto with solar.
  - unfold AuthHandler.handle_register, AuthHandler.reply_token. step_rules.
  - unfold AuthHandler.handle_login, AuthHandler.reply_token. step_rules.
  - unfold FileUpload.upload_route, FileUpload.handle_single_upload, FileUpload.upload_resolved, FileUpload.store_upload,
      FileUpload.reply_instant. cbv zeta. step_rules.
  - unfold Multipart.handle_init. cbv zeta. step_rules.
  - unfold Multipart.handle_upload_part, Multipart.store_part. cbv zeta. step_rules.
  - apply with_session_rel. intros. unfold Multipart.complete_session. cbv zeta. step_rules.
  - apply with_session_rel. intros. step_rules.
  - apply with_session_rel. intros. step_rules.
  - unfold FileHandler.handle_list. step_rules.
  - unfold FileHandler.handle_delete. cbv zeta. step_rules.
  - unfold FolderHandler.handle_list. step_rules.
  - unfold FolderHandler.handle_create, FolderHandler.create_folder. cbv zeta. step_rules.
  - unfold FolderHandler.handle_rename. cbv zeta. step_rules.
  - unfold FolderHandler.handle_delete. cbv zeta. step_rules.
  - unfold DownloadHandler.download_route, DownloadHandler.handle, DownloadHandler.send_content. cbv zeta. step_rules.
  - unfold Shares.handle_create, Shares.generate_token. cbv zeta. step_rules.
  - unfold Shares.handle_save. cbv zeta. step_rules.
  - unfold Shares.handle_list. step_rules.
  - unfold Shares.handle_revoke. cbv zeta. step_rules.
  - unfold Shares.handle_download, Shares.send_shared. cbv zeta. step_rules.
Qed.

End frames.

End Frames.
