(* ===== verification/Sessions.v ===== *)
(** The upload sessions in Redis: what every operation of the program keeps of
    the part hashes they hold ([sessions_ok]). *)
From S2P Require Import Prelude Steps JsonValue HttpMessage HttpRouter Jwt ObjectStore Database Daos Redis WsCodec World.
From S2P Require Import Gc Files FoldersAccounts Multipart Shares.
Import World HttpRequest.

(** The documented effect of commands on the fields of hashes, for the commands
    the program sends; [hash_field d k f] is the field's value in [d]. A key may
    expire, and only HSET gives a field a value. *)
Record hash_laws {R : RedisServer} (hash_field : rdb → string → string → option string) : Prop := {
  hget_law d k f v : fst (redis_call ["HGET"; k; f] d) = RString v → hash_field d k f = Some v;
  hash_frame c args d k f v :
    c ∈ ["PING"; "SET"; "EXPIRE"; "GET"; "DEL"; "HSET"; "HGET"; "INCR"; "ZREMRANGEBYSCORE"; "ZCARD"; "ZADD"; "PEXPIRE"] →
    hash_field (snd (redis_call (c :: args) d)) k f = Some v →
    hash_field d k f = Some v ∨ c :: args = ["HSET"; k; f; v]
}.

Module Sessions.

Section sessions.
Context {R : RedisServer} {J : JsonText} {P : Postgres} {EV : Evp}.
Context (hash_field : rdb → string → string → option string) (L : hash_laws hash_field).

(** A part hash is missing or that of a stored part. *)
Definition part_hash (h : string) : Prop := h = "" ∨ ObjectStore.is_hash h = true.

Definition hashes_text (v : string) : Prop := ∃ l, json_parse v = Ok (jstrs l) ∧ Forall part_hash l.

Definition server_ok (d : rdb) : Prop := ∀ k v, hash_field d k "part_hashes" = Some v → hashes_text v.
Definition sessions_ok (w : World) : Prop := ∀ r, redis w = Some r → server_ok (RedisClient.server r).

Abbreviation sess := (keeps sessions_ok).

(** * Commands *)

Definition calm (f : RedisClient.Redis → RedisClient.Redis) : Prop :=
  ∀ r, server_ok (RedisClient.server r) → server_ok (RedisClient.server (f r)).

Lemma call_calm c args d :
  c ∈ ["PING"; "SET"; "EXPIRE"; "GET"; "DEL"; "HSET"; "HGET"; "INCR"; "ZREMRANGEBYSCORE"; "ZCARD"; "ZADD"; "PEXPIRE"] →
  (∀ k v, c :: args = ["HSET"; k; "part_hashes"; v] → hashes_text v) →
  server_ok d → server_ok (snd (redis_call (c :: args) d)).
Proof using L.
  intros Hc Hh Hd k v Hv. destruct (hash_frame _ L c args d k _ v Hc Hv) as [?|Heq]; [by eapply Hd|by eapply Hh].
Qed.

Lemma called c args d rep d' : redis_call (c :: args) d = (rep, d') →
  c ∈ ["PING"; "SET"; "EXPIRE"; "GET"; "DEL"; "HSET"; "HGET"; "INCR"; "ZREMRANGEBYSCORE"; "ZCARD"; "ZADD"; "PEXPIRE"] →
  c ≠ "HSET" → server_ok d → server_ok d'.
Proof using L.
  intros Hrun Hc Hne Hd. change d' with (snd (rep, d')). rewrite <- Hrun. apply call_calm; [done| |done]. by intros k v [= ->].
Qed.

Lemma command_calm c args :
  c_str c ∈ ["PING"; "SET"; "EXPIRE"; "GET"; "DEL"; "HSET"; "HGET"; "INCR"] →
  (∀ k v, c_str <$> (c :: args) = ["HSET"; k; "part_hashes"; v] → hashes_text v) →
  calm (λ r, snd (RedisClient.redis_command (c :: args) r)).
Proof using L.
  intros Hc Hh r Hr. unfold RedisClient.redis_command. destruct (link _); [|done].
  destruct (redis_call _ _) as [rep d] eqn:E. cbn [snd RedisClient.server].
  change d with (snd (rep, d)). rewrite <- E. cbn [fmap list_fmap]. apply call_calm; [|done..].
  revert Hc. rewrite !elem_of_cons. tauto.
Qed.

Ltac command := apply command_calm;
  [apply (bool_decide_unpack _); vm_compute; done
  |let Heq := fresh in intros ? ? Heq; discriminate Heq].


Lemma get_calm k : calm (λ r, snd (RedisClient.get k r)).
Proof using L.
  intros r Hr. unfold RedisClient.get. destruct (RedisClient.ctx_ r); [|done].
  assert (calm (λ r, snd (RedisClient.redis_command ["GET"; k] r))) as Hc by command.
  specialize (Hc r Hr). cbv beta in Hc. by destruct (RedisClient.redis_command _ r).
Qed.

Lemma hget_calm k f : calm (λ r, snd (RedisClient.hget k f r)).
Proof using L.
  intros r Hr. unfold RedisClient.hget. destruct (RedisClient.ctx_ r); [|done].
  assert (calm (λ r, snd (RedisClient.redis_command ["HGET"; k; f] r))) as Hc by command.
  specialize (Hc r Hr). cbv beta in Hc. by destruct (RedisClient.redis_command _ r).
Qed.

Lemma del_calm k : calm (λ r, snd (RedisClient.del k r)).
Proof using L.
  intros r Hr. unfold RedisClient.del. destruct (RedisClient.ctx_ r); [|done].
  assert (calm (λ r, snd (RedisClient.redis_command ["DEL"; k] r))) as Hc by command.
  specialize (Hc r Hr). cbv beta in Hc. by destruct (RedisClient.redis_command _ r).
Qed.

Lemma expire_calm k t : calm (λ r, snd (RedisClient.expire k t r)).
Proof using L.
  intros r Hr. unfold RedisClient.expire. destruct (_ && _); [|done].
  assert (calm (λ r, snd (RedisClient.redis_command ["EXPIRE"; k; to_string t] r))) as Hc by command.
  specialize (Hc r Hr). cbv beta in Hc. by destruct (RedisClient.redis_command _ r).
Qed.

Lemma set_calm k v t : calm (λ r, snd (RedisClient.set k v t r)).
Proof using L.
  intros r Hr. unfold RedisClient.set. destruct (RedisClient.ctx_ r); [|done].
  assert (calm (λ r, snd (RedisClient.redis_command ["SET"; k; v] r))) as Hs by command.
  specialize (Hs r Hr). cbv beta in Hs. destruct (RedisClient.redis_command ["SET"; k; v] r) as [rep r1]. cbn [snd] in Hs.
  destruct (_ && _); [|done].
  assert (calm (λ r, snd (RedisClient.redis_command ["EXPIRE"; k; to_string t] r))) as Hc by command.
  specialize (Hc r1 Hs). cbv beta in Hc. by destruct (RedisClient.redis_command _ r1).
Qed.

(** A field other than the part hashes, or a good value of it. *)
Lemma hset_calm k f v : (c_str f = "part_hashes" → hashes_text (c_str v)) → calm (λ r, snd (RedisClient.hset k f v r)).
Proof using L.
  intros Hf r Hr. unfold RedisClient.hset. destruct (RedisClient.ctx_ r); [|done].
  assert (calm (λ r, snd (RedisClient.redis_command ["HSET"; k; f; v] r))) as Hc.
  { apply command_calm; [apply (bool_decide_unpack _); vm_compute; done|]. intros k' v' Heq.
    assert (c_str f = "part_hashes" ∧ c_str v = v') as [H1 <-].
    { change (["HSET"; c_str k; c_str f; c_str v] = ["HSET"; k'; "part_hashes"; v']) in Heq. by injection Heq. }
    by apply Hf. }
  specialize (Hc r Hr). cbv beta in Hc. by destruct (RedisClient.redis_command _ r).
Qed.

(** The limiter's script. *)
Lemma sliding_calm key n w l m : calm (λ r, snd (RedisClient.sliding_window_allow key n w l m r)).
Proof using L.
  intros r Hr. unfold RedisClient.sliding_window_allow. destruct (_ || _); [done|]. destruct (link _); [|done].
  unfold RedisClient.k_script.
  destruct (redis_call ["ZREMRANGEBYSCORE"; c_str key; "-inf"; to_string (n - w)] (RedisClient.server r)) as [r1 d1] eqn:E1.
  apply called in E1; [|by apply (bool_decide_unpack _); vm_compute|done|done].
  destruct (redis_call ["ZCARD"; c_str key] d1) as [r2 d2] eqn:E2.
  apply called in E2; [|by apply (bool_decide_unpack _); vm_compute|done|done]. case_bool_decide; [done|].
  destruct (redis_call ["ZADD"; c_str key; to_string n; c_str m] d2) as [r3 d3] eqn:E3.
  apply called in E3; [|by apply (bool_decide_unpack _); vm_compute|done|done].
  destruct (redis_call ["PEXPIRE"; c_str key; to_string w] d3) as [r4 d4] eqn:E4.
  apply called in E4; [|by apply (bool_decide_unpack _); vm_compute|done|done]. done.
Qed.

(** * Programs *)

Lemma sess_same w w' : redis w' = redis w → sess w w'.
Proof. unfold keeps, sessions_ok. by intros ->. Qed.

Lemma on_db_sess {A} (m : M Schema.Db A) : steps sess (on_db m).
Proof. intros w. unfold on_db. destruct (m (db w)) as [r d]. by apply sess_same. Qed.
Lemma on_fs_sess {A} (m : M Fs.t A) : steps sess (on_fs m).
Proof. intros w. unfold on_fs. destruct (m (fs w)) as [r d]. by apply sess_same. Qed.
Lemma on_resp_sess {A} (m : M HttpResponse.HttpResponse A) : steps sess (on_resp m).
Proof. intros w. unfold on_resp. destruct (m (resp w)) as [r d]. by apply sess_same. Qed.
Lemma set_resp_sess f : steps sess (set_resp f).
Proof. intros w. by apply sess_same. Qed.
Lemma on_ws_sess f : steps sess (on_ws f).
Proof. intros w. by apply sess_same. Qed.
Lemma has_redis_sess : steps sess has_redis.
Proof. intros w. by apply sess_same. Qed.
Lemma on_redis_sess {A} (f : RedisClient.Redis → A * RedisClient.Redis) a :
  calm (λ r, snd (f r)) → steps sess (on_redis f a).
Proof.
  intros Hf w Hw. unfold on_redis. destruct (redis w) as [r|] eqn:Er; [|done].
  specialize (Hf r (Hw r Er)). cbv beta in Hf. destruct (f r) as [x r']. intros r0 [= <-]. exact Hf.
Qed.
Lemma db_txn_sess {A} (m : M World (A * bool)) : steps sess m → steps sess (db_txn m).
Proof.
  intros Hm w. specialize (Hm w). unfold db_txn. destruct (m w) as [[[a []]|e] w']; cbn [snd] in *; [done|..];
    (transitivity w'; [done|by apply sess_same]).
Qed.

Lemma set_error_sess c m : steps sess (set_error c m).
Proof. apply on_resp_sess. Qed.
Lemma reply_json_sess j : steps sess (reply_json j).
Proof. unfold reply_json. apply steps_bind; [apply steps_lift|]. intros t. apply set_resp_sess. Qed.
Lemma error_500_sess p e : steps sess (error_500 p e).
Proof. apply set_error_sess. Qed.
Lemma invalid_json_sess p e : steps sess (invalid_json p e).
Proof. unfold invalid_json. case_match; apply set_error_sess. Qed.

Lemma redis_get_sess k a : steps sess (on_redis (RedisClient.get k) a).
Proof using L. apply on_redis_sess, get_calm. Qed.
Lemma redis_set_sess k v t a : steps sess (on_redis (RedisClient.set k v t) a).
Proof using L. apply on_redis_sess, set_calm. Qed.
Lemma redis_del_sess k a : steps sess (on_redis (RedisClient.del k) a).
Proof using L. apply on_redis_sess, del_calm. Qed.
Lemma redis_expire_sess k t a : steps sess (on_redis (RedisClient.expire k t) a).
Proof using L. apply on_redis_sess, expire_calm. Qed.
Lemma redis_hget_sess k f a : steps sess (on_redis (RedisClient.hget k f) a).
Proof using L. apply on_redis_sess, hget_calm. Qed.

End sessions.

#[export] Hint Resolve on_db_sess on_fs_sess on_resp_sess set_resp_sess on_ws_sess has_redis_sess set_error_sess
  reply_json_sess error_500_sess invalid_json_sess db_txn_sess : solar.
#[export] Hint Extern 1 (steps (keeps (sessions_ok _)) (on_redis (RedisClient.get _) _)) => eapply redis_get_sess; eassumption : solar.
#[export] Hint Extern 1 (steps (keeps (sessions_ok _)) (on_redis (RedisClient.set _ _ _) _)) => eapply redis_set_sess; eassumption : solar.
#[export] Hint Extern 1 (steps (keeps (sessions_ok _)) (on_redis (RedisClient.del _) _)) => eapply redis_del_sess; eassumption : solar.
#[export] Hint Extern 1 (steps (keeps (sessions_ok _)) (on_redis (RedisClient.expire _ _) _)) => eapply redis_expire_sess; eassumption : solar.
#[export] Hint Extern 1 (steps (keeps (sessions_ok _)) (on_redis (RedisClient.hget _ _) _)) => eapply redis_hget_sess; eassumption : solar.

(** * The multipart sessions *)

Section multipart.
Context {R : RedisServer} {J : JsonText} {P : Postgres} {EV : Evp} (S : Settings) (part_size : Z).
Context (hash_field : rdb → string → string → option string) (L : hash_laws hash_field).

Abbreviation sess := (keeps (sessions_ok hash_field)).

Lemma hget_sess k f : steps sess (Multipart.hget k f).
Proof using L. unfold Multipart.hget. auto with solar. Qed.

Lemma hget_hashes k w x w' : sessions_ok hash_field w → Multipart.hget k "part_hashes" w = (Ok x, w') →
  match x with Some v => hashes_text v | None => True end.
Proof using L.
  unfold Multipart.hget, on_redis. intros Hw. destruct (redis w) as [r|] eqn:Er; [|by intros [= <- <-]].
  unfold RedisClient.hget. destruct (RedisClient.ctx_ r); [|by intros [= <- <-]]. unfold RedisClient.redis_command.
  destruct (link _); [|by intros [= <- <-]]. destruct (redis_call _ _) as [rep d] eqn:E. intros [= <- <-].
  destruct rep as [|v| | |]; cbn; try done. apply (Hw r Er (c_str k)). apply (hget_law _ L).
  change (c_str <$> ["HGET"; k; "part_hashes"]) with ["HGET"; c_str k; "part_hashes"] in E. by rewrite E.
Qed.

Lemma load_sess id : steps sess (Multipart.load_from_redis S part_size id).
Proof using L. pose proof hget_sess. unfold Multipart.load_from_redis. cbv zeta. step_rules. Qed.

Lemma parse_hashes x l : match x with Some v => hashes_text v | None => True end →
  Multipart.parse_array jget_strs x = Ok l → Forall part_hash l.
Proof.
  unfold Multipart.parse_array. destruct x as [v|]; [|by intros _ [= <-]].
  intros (l'&Hp&Hl). destruct (sempty v); [by intros [= <-]|]. rewrite Hp. cbn [mbind result_mbind].
  rewrite jget_strs_jstrs. by intros [= <-].
Qed.

Lemma bind_keep {A B} (m : M World A) (f : A → M World B) w b w' : sessions_ok hash_field w → steps sess m →
  (m ≫= f) w = (Ok b, w') → ∃ a w1, m w = (Ok a, w1) ∧ sessions_ok hash_field w1 ∧ f a w1 = (Ok b, w').
Proof.
  intros Hw Hm (a&w1&H1&H2)%bind_ok. exists a, w1. split_and!; [done| |done]. by apply (ok_steps_of _ Hm _ _ _ H1).
Qed.

Lemma load_hashes id w s w' : sessions_ok hash_field w → Multipart.load_from_redis S part_size id w = (Ok s, w') →
  Forall part_hash (Multipart.part_hashes s).
Proof using L.
  pose proof hget_sess as Hg. intros Hw Hl. unfold Multipart.load_from_redis in Hl. cbv zeta in Hl.
  apply bind_keep in Hl as (n&w1&_&Hw1&Hl); [|done|done]. clear Hw w.
  destruct n as [n|]; [|apply ret_ok in Hl as [<- _]; constructor].
  do 9 (apply bind_keep in Hl as (?&w&_&Hw&Hl); [|done|auto with solar]; clear Hw1 w1; rename w into w1, Hw into Hw1).
  apply bind_keep in Hl as (y&w&Hx&Hw&Hl); [|done|auto with solar]. apply hget_hashes in Hx; [|done].
  apply bind_ok in Hl as (l&w2&Hp&Hl). apply lift_ok in Hp as [Hp ->]. apply parse_hashes in Hp; [|done].
  do 2 apply bind_ok in Hl as (?&?&_&Hl). apply ret_ok in Hl as [<- _]. done.
Qed.

(** The text of part hashes is plain, so Redis stores it whole. *)
Lemma part_hash_ascii h : part_hash h → ascii7 h = true.
Proof.
  intros [->|Hh]; [done|]. apply ObjectStore.is_hash_hex in Hh. eapply sall_impl; [|exact Hh].
  intros c. unfold ObjectStore.is_hex. rewrite orb_true_iff, !bool_decide_eq_true. lia.
Qed.

Lemma hashes_plain l : Forall part_hash l → ∃ t, json_dump (jstrs l) = Ok t ∧ c_str t = t.
Proof.
  intros Hl. destruct (json_dump_ascii (jstrs l)) as (t&Ht&Ha); [|exists t; split; [done|by apply plain_c_str]].
  rewrite jstrings_jstrs. apply forallb_forall. intros h Hh. rewrite <- list_elem_of_In in Hh.
  apply part_hash_ascii. by eapply Forall_forall in Hl.
Qed.

Lemma part_hashes_dump l : Forall part_hash l → ∃ t, json_dump (jstrs l) = Ok t ∧ hashes_text (c_str t).
Proof.
  intros Hl. destruct (hashes_plain l Hl) as (t&Ht&Hc). exists t. split; [done|]. rewrite Hc. exists l. split; [|done].
  apply json_parse_dump; [apply canonical_jstrs|done].
Qed.

Lemma hset_sess k f v : (c_str f = "part_hashes" → hashes_text (c_str v)) → steps sess (Multipart.hset k f v).
Proof using L.
  intros Hf. unfold Multipart.hset. apply steps_bind; [|intros; apply steps_ret].
  apply on_redis_sess. by apply (hset_calm hash_field).
Qed.

Lemma lift_bind {A B} (a : A) (k : A → M World B) : (lift_result (Ok a) ≫= k) = k a.
Proof. reflexivity. Qed.

Lemma save_sess s : Forall part_hash (Multipart.part_hashes s) → steps sess (Multipart.save_to_redis s).
Proof using L.
  intros Hs. destruct (part_hashes_dump _ Hs) as (t&Ht&Hok). unfold Multipart.save_to_redis. rewrite Ht. cbv zeta.
  apply steps_bind; [auto with solar|]. intros []; [|apply steps_ret]. cbn [negb].
  do 7 (apply steps_bind; [by apply hset_sess|intros _]).
  rewrite lift_bind. apply steps_bind; [by apply hset_sess|intros _].
  apply steps_bind; [apply steps_lift|]. intros t'. apply steps_bind; [by apply hset_sess|intros _].
  apply steps_bind; [auto with solar|]. intros _. apply steps_ret.
Qed.

Lemma delete_sess id : steps sess (Multipart.delete_from_redis id).
Proof using L. unfold Multipart.delete_from_redis. step_rules. Qed.

(** * The handlers *)

Lemma init_hashes s0 id u f n m t : Multipart.fresh_session S part_size id u f n m t = Ok s0 →
  Forall part_hash (Multipart.part_hashes s0).
Proof.
  unfold Multipart.fresh_session. case_bool_decide; [done|]. intros [= <-]. cbn [Multipart.part_hashes].
  apply Forall_replicate. by left.
Qed.

Lemma resolve_folder_sess i u : steps sess (AccessControl.resolve_folder_id i u).
Proof. unfold AccessControl.resolve_folder_id. step_rules. Qed.
Lemma oversized_sess n m : steps sess (FileUpload.reject_oversized n m).
Proof. unfold FileUpload.reject_oversized. step_rules. Qed.

Lemma init_sess v0 v1 v2 v3 req : steps sess (Multipart.handle_init S part_size v0 v1 v2 v3 req).
Proof using L.
  pose proof resolve_folder_sess. pose proof oversized_sess. unfold Multipart.handle_init. cbv zeta.
  apply steps_catch; [|auto with solar].
  destruct (negb _); [auto with solar|]. do 7 (apply steps_bind; [auto with solar|intros ?]).
  destruct (_ || _); [auto with solar|]. apply steps_bind; [auto with solar|]. intros []; [apply steps_ret|].
  apply steps_bind; [auto with solar|]. intros [folder|]; [|apply steps_ret].
  eapply steps_bind_post; [auto with solar|intros w s0 w1 [Hs _]%lift_ok; exact (init_hashes _ _ _ _ _ _ _ Hs)|].
  intros s0 Hs. apply steps_bind; [by apply save_sess|auto with solar].
Qed.

Lemma put_hash dw base data f h f' : ObjectStore.put dw base data f = (Ok h, f') → ObjectStore.is_hash h = true.
Proof.
  unfold ObjectStore.put. intros Hp. run_inv. destruct x as []; run_inv; [apply ObjectStore.sha256_hash|].
  rewrite ObjectStore.create_run in Hp. case_match; [|done]. injection Hp as <- _. apply ObjectStore.sha256_hash.
Qed.

Lemma store_part_sess s0 n data : Forall part_hash (Multipart.part_hashes s0) →
  steps sess (Multipart.store_part S s0 n data).
Proof using L.
  intros Hs. unfold Multipart.store_part. cbv zeta. eapply (steps_bind_post part_hash); [auto with solar| |].
  { intros w h w1 Hh. right. unfold on_fs in Hh. destruct (ObjectStore.put _ _ _ _) as [r f] eqn:Ep.
    injection Hh as -> <-. by eapply put_hash. }
  intros h Hh. apply steps_bind; [auto with solar|]. intros flags.
  eapply (steps_bind_post (Forall part_hash)); [auto with solar| |].
  { intros w l w1 [Hl _]%lift_ok. unfold vec_set in Hl. case_bool_decide; [|done]. injection Hl as <-. by apply Forall_insert. }
  intros l Hl. apply steps_bind; [by apply save_sess|]. intros _. unfold Multipart.notify_upload_progress. step_rules.
Qed.

Lemma owned_session_hashes req id : steps sess (Multipart.owned_session S part_size req id).
Proof using L. pose proof load_sess. unfold Multipart.owned_session. step_rules. Qed.

(** The session an owner gets has good part hashes. *)
Lemma owned_session_ok req id w s w' : sessions_ok hash_field w →
  Multipart.owned_session S part_size req id w = (Ok (Some s), w') →
  Forall part_hash (Multipart.part_hashes s).
Proof using L.
  intros Hw. unfold Multipart.owned_session. intros (s0&w1&Hl&Ho)%bind_ok. apply load_hashes in Hl; [|done].
  destruct (sempty _); [by apply bind_ok in Ho as (?&?&_&?)|].
  destruct (negb _); [by apply bind_ok in Ho as (?&?&_&?)|]. by injection Ho as <- _.
Qed.

Lemma upload_part_sess req : steps sess (Multipart.handle_upload_part S part_size req).
Proof using L.
  unfold Multipart.handle_upload_part. cbv zeta. apply steps_catch; [|auto with solar].
  destruct (negb _); [auto with solar|]. destruct (_ || _); [auto with solar|].
  apply steps_bind; [auto with solar|]. intros n. destruct (sempty _); [auto with solar|].
  intros w Hw. pose proof (owned_session_hashes req (get_path_param "upload_id" req) w Hw) as Hw1.
  unfold mbind, M_mbind. destruct (Multipart.owned_session _ _ _ _ w) as [[[s0|]|e] w1] eqn:Eo; try done.
  apply owned_session_ok in Eo; [|done]. revert Hw1. cbn [snd].
  repeat (case_match; [apply set_error_sess|]). by apply store_part_sess.
Qed.

Lemma with_session_sess req p k : (∀ s id, steps sess (k s id)) → steps sess (Multipart.with_session S part_size req p k).
Proof using L. pose proof owned_session_hashes. intros Hk. unfold Multipart.with_session. cbv zeta. step_rules. Qed.

Lemma link_sess t c f m u d : steps sess (FileUpload.link_existing_content t c f m u d).
Proof. unfold FileUpload.link_existing_content. step_rules. Qed.
Lemma record_sess t s0 c h : steps sess (Multipart.record_upload t s0 c h).
Proof using L. pose proof link_sess. unfold Multipart.record_upload. step_rules. Qed.

Lemma complete_sess t req : steps sess (Multipart.handle_complete S t part_size req).
Proof using L.
  pose proof record_sess. pose proof delete_sess. apply with_session_sess. intros s0 id. unfold Multipart.complete_session.
  cbv zeta. step_rules.
Qed.
Lemma status_sess req : steps sess (Multipart.handle_status S part_size req).
Proof using L. apply with_session_sess. intros. step_rules. Qed.
Lemma abort_sess req : steps sess (Multipart.handle_abort S part_size req).
Proof using L. pose proof delete_sess. apply with_session_sess. intros. step_rules. Qed.

End multipart.

End Sessions.
