(* ===== verification/StoredContent.v ===== *)
(** Every content row can be delivered: the invariant that ties the rows of
    content_objects to the objects of the store, and the exact effect of the
    garbage collector on both. *)
From S2P Require Import Prelude Steps JsonValue HttpMessage ObjectStore Database Daos Constraints Redis WsCodec World Gc.
Import World Schema Constraints.

Module StoredContent.

Section invariant.
Context {R : RedisServer} {J : JsonText} {P : Postgres} {E : Evp} (S : Settings).

Abbreviation object := (ObjectStore.object (base_path S)).
Abbreviation sha256 := ObjectStore.sha256.

(** The chunks a row names are in the store, and they make up data of the row's
    hash. *)
Definition content_ok (f : Fs.t) (c : content_row) : Prop :=
  ∃ cs, c_chunks c = jstrs (map sha256 cs) ∧ (∀ x, x ∈ cs → object f (sha256 x) = Some x) ∧
    c_hash c = sha256 (sconcat cs).

Definition stored (w : World) : Prop :=
  db_ok (db w) ∧ ObjectStore.sound (base_path S) (fs w) ∧ ∀ c, c ∈ contents (db w) → content_ok (fs w) c.

(** * Runs of lifted operations *)

Lemma on_db_run {A} (m : M Db A) w a d : m (db w) = (Ok a, d) → on_db m w = (Ok a, with_db d w).
Proof. unfold on_db. by intros ->. Qed.
Lemma on_fs_run {A} (m : M Fs.t A) w a f : m (fs w) = (Ok a, f) → on_fs m w = (Ok a, with_fs f w).
Proof. unfold on_fs. by intros ->. Qed.
Lemma with_db_id w : with_db (db w) w = w.
Proof. by destruct w. Qed.

Lemma on_db_ok {A} (m : M Db A) w a w' : on_db m w = (Ok a, w') → ∃ d, m (db w) = (Ok a, d) ∧ w' = with_db d w.
Proof. unfold on_db. destruct (m (db w)) as [r d]. intros [= -> <-]. eauto. Qed.

(** * Identifiers and hashes as parameters *)

Lemma used_uuid d i : db_ok d → in_use d i → uuid_in i = Some i ∧ sempty i = false.
Proof.
  intros Hok Hi. apply (ok_ids _ Hok) in Hi as (k&_&->). rewrite uuid_in_gen. split; [done|].
  apply bool_decide_eq_false. intros Hk. pose proof (uuid_in_gen k) as H. by rewrite Hk, uuid_in_empty in H.
Qed.

Lemma hash_text h : ObjectStore.is_hash h = true → text_in h = Some h.
Proof.
  intros Hh%ObjectStore.is_hash_hex. apply text_in_ascii. eapply sall_impl; [|exact Hh].
  intros c. unfold ObjectStore.is_hex. rewrite orb_true_iff, !bool_decide_eq_true. lia.
Qed.

Lemma string_items_strs l : ContentGc.string_items (map JStr l) = l.
Proof. induction l as [|x l IH]; [done|]. cbn. by rewrite IH. Qed.

Lemma parse_jsonb l : ContentGc.parse_chunk_hashes (pg_jsonb_out (jstrs l)) = Ok l.
Proof.
  unfold ContentGc.parse_chunk_hashes. rewrite json_parse_jsonb. cbn. by rewrite string_items_strs.
Qed.

Lemma has_chunk_strs h l : ContentDao.has_chunk h (jstrs l) = true ↔ h ∈ l.
Proof.
  cbn. induction l as [|x l IH]; cbn [map existsb].
  - split; [done|by intros ?%elem_of_nil].
  - rewrite orb_true_iff, IH, bool_decide_eq_true, elem_of_cons. naive_solver.
Qed.

(** * The transaction *)

(** The database without a content row nobody refers to, its tombstones and
    their shares. *)
Definition purged (i : string) (d : Db) : Db :=
  set_contents (filter (λ c, c_id c ≠ i) (contents d))
    (set_files (filter (λ f, f_content f ≠ i) (files d))
      (set_shares (filter (λ s, s_file s ∉ f_id <$> filter (λ f, f_content f = i) (files d)) (shares d)) d)).

Definition unreferenced (i : string) (d : Db) : Prop := ∀ f, f ∈ files d → f_content f = i → live_file f = false.

Lemma tombstones_all i d : unreferenced i d →
  filter (λ f, tombstone_of i f = true) (files d) = filter (λ f, f_content f = i) (files d).
Proof.
  intros Hu. apply filter_ext_in. intros f Hf. unfold tombstone_of.
  rewrite andb_true_iff, bool_decide_eq_true, negb_true_iff. split; [by intros []|]. auto.
Qed.

Lemma survivors i d : unreferenced i d →
  filter (λ f, tombstone_of i f = false) (files d) = filter (λ f, f_content f ≠ i) (files d).
Proof.
  intros Hu. apply filter_ext_in. intros f Hf. unfold tombstone_of.
  rewrite andb_false_iff, bool_decide_eq_false, negb_false_iff. split; [|auto].
  intros [?|Hl] Heq; [done|]. rewrite Hu in Hl by done. done.
Qed.

Lemma existsb_false {A} (p : A → bool) (l : list A) : (∀ x, x ∈ l → p x = false) → existsb p l = false.
Proof.
  intros H. apply not_true_iff_false. intros (x&Hx%list_elem_of_In&Hp)%existsb_exists. by rewrite H in Hp.
Qed.

Lemma purge_rows_run i d : uuid_in i = Some i → i ∈ c_id <$> contents d → unreferenced i d →
  (_ ← delete_tombstone_shares i; _ ← delete_tombstones i; ContentDao.delete_by_id_in_txn i) d = (Ok true, purged i d).
Proof.
  intros Hi Hin Hu.
  assert (∀ d, uuid_arg i d = (Ok i, d)) as Harg by (intros; unfold uuid_arg; by rewrite Hi).
  set (d1 := set_shares (filter (λ s, s_file s ∉ f_id <$> filter (λ f, f_content f = i) (files d)) (shares d)) d).
  set (d2 := set_files (filter (λ f, f_content f ≠ i) (files d)) d1).
  assert (delete_tombstone_shares i d = (Ok (), d1)) as H1.
  { unfold delete_tombstone_shares. rewrite (bind_run _ _ _ _ _ (Harg d)). erewrite bind_run by reflexivity. cbv zeta.
    rewrite tombstones_all by done. done. }
  assert (delete_tombstones i d1 = (Ok (), d2)) as H2.
  { unfold delete_tombstones. rewrite (bind_run _ _ _ _ _ (Harg d1)). unfold get_st, require.
    erewrite bind_run by reflexivity. cbn [files shares d1 set_shares].
    rewrite tombstones_all, survivors by done. rewrite existsb_false; [done|].
    intros s [Hs _]%list_elem_of_filter. by apply bool_decide_eq_false. }
  rewrite (bind_run _ _ _ _ _ H1), (bind_run _ _ _ _ _ H2).
  assert (∀ f, f ∈ files d2 → bool_decide (f_content f = i) = false) as Hnone.
  { intros f [Hf _]%list_elem_of_filter. by apply bool_decide_eq_false. }
  unfold ContentDao.delete_by_id_in_txn, delete_content. rewrite (bind_run _ _ _ _ _ (Harg d2)).
  unfold get_st, require. erewrite bind_run by reflexivity. cbv zeta.
  assert (∀ r, bool_decide (c_id r = i) && negb (existsb (λ f, bool_decide (f_content f = c_id r) && live_file f) (files d2))
    = bool_decide (c_id r = i)) as Hvic.
  { intros r. destruct (bool_decide_reflect (c_id r = i)) as [->|]; [|done].
    rewrite existsb_false; [done|]. intros f Hf. by rewrite Hnone. }
  assert (existsb (λ r, bool_decide (c_id r = i) && negb (existsb (λ f, bool_decide (f_content f = c_id r) && live_file f) (files d2)))
    (contents d2) = true) as ->.
  { apply existsb_exists. apply list_elem_of_fmap in Hin as (r&->&Hr). exists r. split; [by apply list_elem_of_In|].
    rewrite Hvic. by apply bool_decide_eq_true. }
  rewrite (existsb_false (λ f, bool_decide (f_content f = i)) (files d2) Hnone). cbn [negb].
  erewrite bind_run by reflexivity. unfold purged. fold d1. fold d2. repeat f_equal.
  apply (f_equal (λ l, (Ok true, set_contents l d2))). apply filter_ext_in. intros r _.
  by rewrite Hvic, bool_decide_eq_false.
Qed.

(** * The chunks *)

(** Does a content row name the chunk? *)
Definition chunk_used (d : Db) (h : string) : bool := existsb (λ r, ContentDao.has_chunk h (c_chunks r)) (contents d).

(** The objects that go: named by the list, by no row, and there. *)
Definition garbage (d : Db) (f : Fs.t) (hs : list string) : gset string :=
  list_to_set (filter (λ h, chunk_used d h = false ∧ is_Some (object f h)) hs).

Lemma garbage_cons_used d f h hs : chunk_used d h = true → garbage d f (h :: hs) = garbage d f hs.
Proof. intros H. unfold garbage. rewrite filter_cons, decide_False; [done|]. intros [? _]. congruence. Qed.

Lemma garbage_cons_absent d f h hs : object f h = None → garbage d f (h :: hs) = garbage d f hs.
Proof. intros H. unfold garbage. rewrite filter_cons, decide_False; [done|]. rewrite H. by intros [_ [? ?]]. Qed.

Lemma garbage_cons_gone d f f' h hs : Forall (λ h, ObjectStore.is_hash h = true) hs →
  chunk_used d h = false → is_Some (object f h) → object f' h = None →
  (∀ h', ObjectStore.is_hash h' = true → h' ≠ h → object f' h' = object f h') →
  garbage d f (h :: hs) = {[h]} ∪ garbage d f' hs ∧ h ∉ garbage d f' hs.
Proof.
  intros Hhs Hu Hs Hn Ho. unfold garbage. split.
  - rewrite filter_cons, decide_True by done. rewrite list_to_set_cons. apply set_eq. intros x.
    rewrite !elem_of_union, !elem_of_singleton, !elem_of_list_to_set, !list_elem_of_filter.
    destruct (decide (x = h)) as [->|Hne]; [tauto|]. split.
    + intros [?|[[??] Hin]]; [done|]. right. rewrite Ho; [done| |done]. by eapply Forall_forall in Hhs.
    + intros [?|[[??] Hin]]; [done|]. right. rewrite <- Ho; [done| |done]. by eapply Forall_forall in Hhs.
  - rewrite elem_of_list_to_set, list_elem_of_filter, Hn. by intros [[_ [? ?]] _].
Qed.

Lemma chunk_in_use_run h w : ObjectStore.is_hash h = true →
  on_db (ContentDao.chunk_hash_in_use h) w = (Ok (chunk_used (db w) h), w).
Proof.
  intros Hh. erewrite on_db_run; [by rewrite with_db_id|].
  unfold ContentDao.chunk_hash_in_use, text_arg. rewrite hash_text by done. by do 2 erewrite bind_run by reflexivity.
Qed.

Lemma remove_chunks_run n hs w : Forall (λ h, ObjectStore.is_hash h = true) hs → ObjectStore.sound (base_path S) (fs w) →
  ∃ f', ContentGc.remove_chunks S n hs w =
      (Ok (n + Z.of_nat (size (garbage (db w) (fs w) hs)))%Z, with_fs f' w) ∧
    ObjectStore.sound (base_path S) f' ∧
    ∀ h, ObjectStore.is_hash h = true →
      object f' h = if decide (h ∈ hs ∧ chunk_used (db w) h = false) then None else object (fs w) h.
Proof.
  revert n w. induction hs as [|h hs IH]; intros n w Hhs Hs.
  { exists (fs w). cbn. destruct w. split_and!; [by rewrite Z.add_0_r|done|].
    intros h Hh. rewrite decide_False; [done|]. by intros [?%elem_of_nil _]. }
  apply Forall_cons in Hhs as [Hh Hhs]. cbn [ContentGc.remove_chunks].
  rewrite (bind_run _ _ _ _ _ (chunk_in_use_run h w Hh)).
  destruct (chunk_used (db w) h) eqn:Eu.
  { destruct (IH n w Hhs Hs) as (f'&->&Hs'&Ho). exists f'. rewrite garbage_cons_used by done. split_and!; [done..|].
    intros h' Hh'. rewrite Ho by done. apply decide_ext. rewrite elem_of_cons. naive_solver congruence. }
  destruct (ObjectStore.remove_spec (base_path S) (fs w) h Hh Hs) as (f1&Hr&Hs1&Hn1&Ho1).
  erewrite bind_run by (apply on_fs_run; exact Hr).
  edestruct (IH (if bool_decide (is_Some (object (fs w) h)) then (n + 1)%Z else n) (with_fs f1 w) Hhs Hs1) as (f'&->&Hs'&Ho).
  exists f'. cbn [db fs with_fs] in *. split_and!; [|done|].
  - f_equal. f_equal. destruct (object (fs w) h) as [x|] eqn:Eo.
    + rewrite bool_decide_eq_true_2 by eauto.
      destruct (garbage_cons_gone (db w) (fs w) f1 h hs) as [-> Hni]; eauto.
      rewrite size_union, size_singleton by set_solver. lia.
    + rewrite bool_decide_eq_false_2 by by intros []. rewrite garbage_cons_absent by done.
      assert (garbage (db w) f1 hs = garbage (db w) (fs w) hs) as ->; [|done].
      unfold garbage. f_equal. apply filter_ext_in. intros x Hx.
      destruct (decide (x = h)) as [->|]; [by rewrite Eo, Hn1|]. rewrite Ho1; [done| |done]. by eapply Forall_forall in Hhs.
  - intros h' Hh'. rewrite Ho by done. destruct (decide (h' = h)) as [->|Hne].
    + rewrite Hn1. rewrite (decide_True (P := h ∈ h :: hs ∧ _)) by (split; [by left|done]). by case_decide.
    + rewrite Ho1 by done. apply decide_ext. rewrite elem_of_cons. naive_solver.
Qed.

(** * [purge_content] *)

Definition row_chunks (r : content_row) : list string :=
  match c_chunks r with JArr l => ContentGc.string_items l | _ => [] end.

(** Stored content can be read back. *)
Lemma stored_readable w c : stored w → c ∈ contents (db w) → ∃ data,
  ObjectStore.get_chunked (base_path S) (row_chunks c) (fs w) = (Ok data, fs w) ∧ sha256 data = c_hash c.
Proof.
  intros (_&Hs&Hrows) Hc. destruct (Hrows c Hc) as (cs&Hcs&Hob&Hh). exists (sconcat cs). split; [|done].
  unfold row_chunks. rewrite Hcs. cbn. rewrite string_items_strs. unfold ObjectStore.get_chunked.
  rewrite ObjectStore.get_loop_spec by done. by rewrite sapp_nil_l.
Qed.

Lemma content_chunks f r : content_ok f r →
  ContentGc.parse_chunk_hashes (pg_jsonb_out (c_chunks r)) = Ok (row_chunks r) ∧
  Forall (λ h, ObjectStore.is_hash h = true) (row_chunks r).
Proof.
  intros (cs&Hc&_). unfold row_chunks. rewrite Hc, parse_jsonb. cbn. rewrite string_items_strs. split; [done|].
  apply Forall_forall. intros h (x&->&_)%list_elem_of_fmap. apply ObjectStore.sha256_hash.
Qed.

Lemma unreferenced_refers i d : existsb (ContentDao.refers i) (files d) = false → unreferenced i d.
Proof.
  intros H f Hf Heq. apply not_true_iff_false. intros Hl. apply not_true_iff_false in H. apply H, existsb_exists.
  exists f. split; [by apply list_elem_of_In|]. unfold ContentDao.refers. by rewrite bool_decide_eq_true_2, Hl.
Qed.

Lemma refcount_run i w : uuid_in i = Some i →
  ∃ n, on_db (ContentDao.active_refcount i) w = (Ok n, w) ∧
    bool_decide (0 < n)%Z = existsb (ContentDao.refers i) (files (db w)).
Proof.
  intros Hi. exists (Z.of_nat (length (filter (λ f, ContentDao.refers i f = true) (files (db w))))). split.
  - erewrite on_db_run; [by rewrite with_db_id|]. unfold ContentDao.active_refcount, txn.
    unfold uuid_arg. rewrite Hi. by do 2 erewrite bind_run by reflexivity.
  - induction (files (db w)) as [|f l IH]; [done|]. rewrite filter_cons. cbn [existsb].
    destruct (ContentDao.refers i f); [by rewrite decide_True, bool_decide_eq_true_2 by (cbn; lia)|].
    by rewrite decide_False by done.
Qed.

Lemma purged_ok i d : db_ok d → uuid_in i = Some i → i ∈ c_id <$> contents d → unreferenced i d → db_ok (purged i d).
Proof.
  intros Hok Hi Hin Hu. pose proof (purge_rows_run i d Hi Hin Hu) as H. revert Hok.
  refine (_ : keeps db_ok d (purged i d)). revert H. apply (ok_steps_bind (R := keeps db_ok)); [auto with solar|].
  intros _. apply (ok_steps_bind (R := keeps db_ok)); [auto with solar|]. intros _. apply delete_content_ok.
Qed.

Lemma purge_content_run w r : stored w → r ∈ contents (db w) →
  let i := c_id r in
  let d' := purged i (db w) in
  if existsb (ContentDao.refers i) (files (db w))
  then ContentGc.purge_content S (ContentDao.row_to_content r) w = (Ok ContentGc.none, w)
  else ∃ f',
    ContentGc.purge_content S (ContentDao.row_to_content r) w =
      (Ok (ContentGc.mk 1 (Z.of_nat (size (garbage d' (fs w) (row_chunks r))))), with_fs f' (with_db d' w)) ∧
    (∀ h, ObjectStore.is_hash h = true →
       object f' h = if decide (h ∈ row_chunks r ∧ chunk_used d' h = false) then None else object (fs w) h) ∧
    stored (with_fs f' (with_db d' w)).
Proof.
  intros (Hok&Hsound&Hrows) Hr i d'. destruct (content_chunks _ _ (Hrows r Hr)) as [Hparse Hhash].
  assert (i ∈ c_id <$> contents (db w)) as Hin by by apply list_elem_of_fmap_2.
  destruct (used_uuid (db w) i Hok) as [Hi _]; [unfold in_use; tauto|].
  destruct (refcount_run i w Hi) as (n&Hn&Hb).
  unfold ContentGc.purge_content. cbn [ContentDao.id ContentDao.chunk_hashes ContentDao.row_to_content].
  fold i. rewrite (bind_run _ _ _ _ _ Hn), Hb, Hparse.
  destruct (existsb (ContentDao.refers i) (files (db w))) eqn:Er; [done|].
  apply unreferenced_refers in Er. pose proof (purge_rows_run i (db w) Hi Hin Er) as Hrun.
  apply bind_ok in Hrun as ([]&d1&H1&Hrun). apply bind_ok in Hrun as ([]&d2&H2&H3).
  destruct (remove_chunks_run 0 (row_chunks r) (with_db d' w) Hhash Hsound) as (f'&Hrem&Hs'&Hobj).
  exists f'. split_and!; [|done|split_and!].
  - unfold db_txn, ContentGc.purge_txn. erewrite bind_run by (apply on_db_run; exact H1).
    erewrite bind_run by (apply on_db_run; exact H2). erewrite bind_run by (apply on_db_run; exact H3).
    cbv iota. by erewrite bind_run by exact Hrem.
  - by apply purged_ok.
  - done.
  - intros c [Hne Hc]%list_elem_of_filter. destruct (Hrows c Hc) as (cs&Hcs&Hobjs&?). exists cs. split_and!; [done| |done..].
    intros x Hx. cbn [fs with_fs]. rewrite Hobj by apply ObjectStore.sha256_hash.
    rewrite decide_False; [by apply Hobjs|]. intros [_ Hunused]. apply not_true_iff_false in Hunused. apply Hunused.
    apply existsb_exists. exists c. split.
    + apply list_elem_of_In, list_elem_of_filter. done.
    + rewrite Hcs. apply has_chunk_strs. by apply list_elem_of_fmap_2.
Qed.

(** * Batches *)

Lemma purged_unreferenced i j d : unreferenced j d → unreferenced j (purged i d).
Proof. intros H f [_ Hf]%list_elem_of_filter. by apply H. Qed.

Lemma purged_live i d : unreferenced i d → filter live_file (files (purged i d)) = filter live_file (files d).
Proof.
  intros Hu. cbn. rewrite list_filter_filter. apply filter_ext_in. intros f Hf. split; [by intros []|].
  intros Hl. split; [done|]. intros Heq. specialize (Hu f Hf Heq). by rewrite Hu in Hl.
Qed.

Lemma refers_unreferenced i d : unreferenced i d → existsb (ContentDao.refers i) (files d) = false.
Proof.
  intros Hu. apply existsb_false. intros f Hf. unfold ContentDao.refers. case_bool_decide; [|done]. by apply Hu.
Qed.

Lemma purge_all_run l total w : stored w → NoDup (c_id <$> l) →
  (∀ r, r ∈ l → r ∈ contents (db w) ∧ unreferenced (c_id r) (db w)) →
  ∃ st w', ContentGc.purge_all S total (ContentDao.row_to_content <$> l) w = (Ok st, w') ∧ stored w' ∧
    ContentGc.content_rows_deleted st = (ContentGc.content_rows_deleted total + Z.of_nat (length l))%Z ∧
    contents (db w') = filter (λ c, c_id c ∉ c_id <$> l) (contents (db w)) ∧
    filter live_file (files (db w')) = filter live_file (files (db w)) ∧
    users (db w') = users (db w) ∧ folders (db w') = folders (db w).
Proof.
  revert total w. induction l as [|r l IH]; intros total w Hst Hnd Hl.
  { exists total, w. split_and!; [done|done|cbn; lia| |done..]. rewrite filter_all; [done|]. by intros c _ ?%elem_of_nil. }
  rewrite fmap_cons in Hnd. apply NoDup_cons in Hnd as [Hni Hnd]. destruct (Hl r) as [Hr Hu]; [by left|].
  pose proof (purge_content_run w r Hst Hr) as Hp. cbv zeta in Hp. rewrite refers_unreferenced in Hp by done.
  destruct Hp as (f'&Hrun&_&Hst'). cbn [fmap list_fmap ContentGc.purge_all]. rewrite (bind_run _ _ _ _ _ Hrun).
  edestruct (IH (ContentGc.add total (ContentGc.mk 1 (Z.of_nat (size (garbage (purged (c_id r) (db w)) (fs w) (row_chunks r))))))
    _ Hst' Hnd) as (st&w'&->&?&Hc&Hcont&Hlive&?&?).
  - intros r' Hr'. destruct (Hl r') as [Hin Hu']; [by right|]. cbn [db with_fs with_db]. split; [|by apply purged_unreferenced].
    apply list_elem_of_filter. split; [|done]. intros Heq. apply Hni. rewrite <- Heq. by apply list_elem_of_fmap_2.
  - exists st, w'. split_and!; [done..| | | |done|done].
    + rewrite Hc. cbn. lia.
    + rewrite Hcont. cbn [db with_fs with_db purged set_contents contents]. rewrite list_filter_filter.
      apply filter_ext_in. intros c _. rewrite not_elem_of_cons. tauto.
    + rewrite Hlive. by apply purged_live.
Qed.

(** C21. Purging a content row is exact. While a live file refers to the row,
    nothing happens. Otherwise the row goes, with its deleted files and their
    shares; the chunk objects that go are those the row names and no remaining row
    does, each counted once, and every other object stays; and all remaining rows
    can still be delivered. *)
Theorem purge_content_exact (w : World) (r : content_row) (Hst : stored w) (Hr : r ∈ contents (db w)) :
  let i := c_id r in
  let d' := purged i (db w) in
  if existsb (ContentDao.refers i) (files (db w))
  then ContentGc.purge_content S (ContentDao.row_to_content r) w = (Ok ContentGc.none, w)
  else ∃ f',
    ContentGc.purge_content S (ContentDao.row_to_content r) w =
      (Ok (ContentGc.mk 1 (Z.of_nat (size (garbage d' (fs w) (row_chunks r))))), with_fs f' (with_db d' w)) ∧
    (∀ h, ObjectStore.is_hash h = true →
       object f' h = if decide (h ∈ row_chunks r ∧ chunk_used d' h = false) then None else object (fs w) h) ∧
    stored (with_fs f' (with_db d' w)).
Proof. exact (purge_content_run w r Hst Hr). Qed.

(** C20. A batch of the collector removes as many orphans as it may, and only
    orphans: live files, folders and users stay as they were, every content row a
    live file refers to stays and can be delivered, and when the batch is as large
    as the number of orphans none is left. *)
Theorem collect_orphans_complete (w : World) (batch_limit : Z) (Hst : stored w) (Hlim : (0 ≤ batch_limit)%Z) :
  let orphans := filter (λ c, ContentDao.orphan (db w) c = true) (contents (db w)) in
  ∃ st w', ContentGc.collect_orphans S batch_limit w = (Ok st, w') ∧ stored w' ∧
    ContentGc.content_rows_deleted st = (batch_limit `min` Z.of_nat (length orphans))%Z ∧
    filter live_file (files (db w')) = filter live_file (files (db w)) ∧
    folders (db w') = folders (db w) ∧ users (db w') = users (db w) ∧
    (∀ c, c ∈ contents (db w) → ContentDao.orphan (db w) c = false → c ∈ contents (db w')) ∧
    ((Z.of_nat (length orphans) ≤ batch_limit)%Z →
       contents (db w') = filter (λ c, ContentDao.orphan (db w) c = false) (contents (db w))).
Proof.
  intros orphans. set (l := take (Z.to_nat batch_limit) (pg_scan orphans)).
  assert (pg_scan orphans ≡ₚ orphans) as Hperm by apply pg_scan_perm.
  assert (∀ r, r ∈ l → r ∈ orphans) as Hsub.
  { intros r Hr. rewrite <- Hperm. eapply elem_of_submseteq; [exact Hr|]. apply sublist_submseteq, sublist_take. }
  assert (NoDup (c_id <$> l)) as Hnd.
  { eapply sublist_NoDup; [|apply fmap_sublist, sublist_take]. rewrite Hperm. apply NoDup_fmap_filter. apply Hst. }
  assert (∀ r, r ∈ orphans → r ∈ contents (db w) ∧ unreferenced (c_id r) (db w)) as Horph.
  { intros r [Ho Hr]%list_elem_of_filter. split; [done|]. apply unreferenced_refers.
    unfold ContentDao.orphan in Ho. by apply negb_true_iff in Ho. }
  destruct (purge_all_run l ContentGc.none w Hst Hnd) as (st&w'&Hrun&Hst'&Hn&Hc&Hlive&Hu&Hf); [eauto|].
  exists st, w'. split_and!; try done.
  - unfold ContentGc.collect_orphans. erewrite bind_run; [exact Hrun|]. erewrite on_db_run; [by rewrite with_db_id|]. done.
  - rewrite Hn. cbn. subst l. rewrite length_take, Hperm. lia.
  - intros c Hin Ho. rewrite Hc. apply list_elem_of_filter. split; [|done]. intros (r&Heq&Hr%Hsub)%list_elem_of_fmap.
    apply list_elem_of_filter in Hr as [Hr _]. unfold ContentDao.orphan in *. congruence.
  - intros Hall. rewrite Hc. apply filter_ext_in. intros c Hin. rewrite <- not_true_iff_false. apply not_iff_compat.
    subst l. rewrite take_ge by (rewrite Hperm; lia). split.
    + intros (r&Heq&Hr)%list_elem_of_fmap. rewrite Hperm in Hr. apply list_elem_of_filter in Hr as [Hr _].
      unfold ContentDao.orphan in *. congruence.
    + intros Ho. apply list_elem_of_fmap_2. rewrite Hperm. by apply list_elem_of_filter.
Qed.

End invariant.

End StoredContent.
