(* ===== verification/Isolation.v ===== *)
(** Requests of one user and the data of the others: the relation every handler
    of src/api respects ([served]), with its rules for the components. *)
From S2P Require Import Prelude Steps JsonValue HttpMessage Jwt ObjectStore Database Daos Constraints Redis WsCodec World.
From S2P Require Import Gc Files FoldersAccounts StoredContent.
Import World Schema Constraints StoredContent.

Module Isolation.

(** * The database *)

#[export] Hint Extern 0 (_ `prefix_of` _) => reflexivity : core.

Section quiet.
Context {P : Postgres}.

(** The live files and folders of an owner. *)
Definition files_of (o : string) (d : Db) : list file_row := filter (λ f, f_owner f = o ∧ live_file f) (files d).
Definition folders_of (o : string) (d : Db) : list folder_row := filter (λ r, d_owner r = o ∧ live_folder r) (folders d).

(** The shares he has made of his live files. *)
Definition shares_of (o : string) (d : Db) : list share_row :=
  filter (λ r, s_owner r = o ∧ s_file r ∈ f_id <$> files_of o d) (shares d).

(** What others may do to a share: count a download, and, when the timer runs after
    it has expired, revoke it. *)
Definition share_kept (now : Z) (r r' : share_row) : Prop :=
  r' = mk_share (s_id r) (s_file r) (s_owner r) (s_token r) (s_password r) (s_expires r) (s_max r) (s_count r') (s_created r) (s_revoked r') ∧
  (s_count r ≤ s_count r')%Z ∧ (s_revoked r' = s_revoked r ∨ ∃ t, s_expires r = Some t ∧ (t < now)%Z).

Definition shares_kept (o : string) (d d' : Db) : Prop := Forall2 (share_kept (clock d')) (shares_of o d) (shares_of o d').

(** Accounts stay, the schema's version too, time does not run backwards, and so
    does what other users than [u] see of their files, folders and shares. *)
Definition others_kept (u : string) (d d' : Db) : Prop :=
  (users d `prefix_of` users d' ∧ version d' = version d ∧ (clock d ≤ clock d')%Z) ∧
  ∀ o, uuid_in u ≠ Some o → files_of o d' = files_of o d ∧ folders_of o d' = folders_of o d ∧ shares_kept o d d'.

Lemma share_kept_refl now r : share_kept now r r.
Proof. split_and!; [by destruct r|done|by left]. Qed.

Lemma share_kept_trans n1 n2 r1 r2 r3 : (n1 ≤ n2)%Z → share_kept n1 r1 r2 → share_kept n2 r2 r3 → share_kept n2 r1 r3.
Proof.
  intros Hn (E1&C1&R1) (E2&C2&R2). rewrite E1 in E2. cbn in E2. split_and!; [done|lia|].
  rewrite E1 in R2. cbn in R2. destruct R1 as [R1|(t&?&?)]; [|right; exists t; split; [done|lia]]. rewrite <- R1. exact R2.
Qed.

Lemma shares_same o d d' : shares d' = shares d → files_of o d' = files_of o d → shares_kept o d d'.
Proof.
  intros Hs Hf. unfold shares_kept, shares_of. rewrite Hs, Hf. apply Forall_Forall2_diag, Forall_forall.
  intros r _. apply share_kept_refl.
Qed.

Lemma shares_kept_trans o d1 d2 d3 : (clock d2 ≤ clock d3)%Z → shares_kept o d1 d2 → shares_kept o d2 d3 → shares_kept o d1 d3.
Proof.
  unfold shares_kept. intros Hc Hs1. generalize (shares_of o d3). induction Hs1 as [|r1 r2 l1 l2 Hr _ IH]; intros l3 H3.
  - by inversion H3.
  - inversion H3 as [|? r3 ? l3' Hr' Hl']; subst. constructor; [by eapply share_kept_trans|by apply IH].
Qed.

(** An operation on other tables. *)
Lemma others_intro u d d' : users d `prefix_of` users d' → version d' = version d → clock d' = clock d → shares d' = shares d →
  (∀ o, uuid_in u ≠ Some o → files_of o d' = files_of o d ∧ folders_of o d' = folders_of o d) → others_kept u d d'.
Proof.
  intros Hu Hv Hc Hs Ho. split; [split_and!; [done|done|lia]|]. intros o Hne. destruct (Ho o Hne) as [Hf Hd].
  split_and!; [done|done|by apply shares_same].
Qed.

(** An operation that leaves the content rows alone. *)
Definition quiet (u : string) (d d' : Db) : Prop :=
  db_ok d → db_ok d' ∧ contents d' = contents d ∧ others_kept u d d'.

#[export] Instance others_kept_preorder u : PreOrder (others_kept u).
Proof.
  split; [intros d; by apply others_intro|].
  intros d1 d2 d3 [(H1&Hv1&Hc1) H1'] [(H2&Hv2&Hc2) H2']. split; [split_and!; [by transitivity (users d2)|congruence|lia]|].
  intros o Ho. destruct (H1' o Ho) as (Hf1&Hd1&Hs1), (H2' o Ho) as (Hf2&Hd2&Hs2). split_and!; [congruence..|].
  by eapply shares_kept_trans.
Qed.

#[export] Instance quiet_preorder u : PreOrder (quiet u).
Proof.
  split; [intros d Hd; split_and!; [done|done|reflexivity]|].
  intros d1 d2 d3 H12 H23 Hd. destruct (H12 Hd) as (Hd2&?&?). destruct (H23 Hd2) as (?&?&?).
  split_and!; [done|congruence|by transitivity d2].
Qed.

(** Reading. *)
Lemma steps_eq {A} (Q : Db → Db → Prop) `{!PreOrder Q} (m : M Db A) : steps eq m → steps Q m.
Proof. intros H d. rewrite <- (H d). reflexivity. Qed.

Lemma read_ok {A} (m : M Db A) d a d' : steps eq m → m d = (Ok a, d') → d' = d.
Proof. intros H E. specialize (H d). by rewrite E in H. Qed.

End quiet.

Section reads.
Context {J : JsonText} {P : Postgres} {EV : Evp}.

Ltac read := intros; unfold ContentDao.find_by_hash, ContentDao.find_by_id, ContentDao.active_refcount, ContentDao.list_orphans,
  FileDao.find_by_id, FileDao.find_owned_by_id, FileDao.list_by_folder,
  FileDao.name_exists_in_folder, FolderDao.find_by_id, FolderDao.list_by_parent, FolderDao.name_exists, FolderDao.has_children,
  ShareDao.find_by_token, ShareDao.list_by_owner, ShareDao.token_exists, UserDao.login, UserDao.find_by_id, FileDao.folder_arg; db_rules.

Lemma content_by_hash_reads h : steps eq (ContentDao.find_by_hash h). Proof. read. Qed.
Lemma content_by_id_reads i : steps eq (ContentDao.find_by_id i). Proof. read. Qed.
Lemma refcount_reads i : steps eq (ContentDao.active_refcount i). Proof. read. Qed.
Lemma orphans_reads n : steps eq (ContentDao.list_orphans n). Proof. read. Qed.
Lemma file_by_id_reads i : steps eq (FileDao.find_by_id i). Proof. read. Qed.
Lemma owned_reads o i : steps eq (FileDao.find_owned_by_id o i). Proof. read. Qed.
Lemma list_files_reads o f n : steps eq (FileDao.list_by_folder o f n). Proof. read. Qed.
Lemma name_in_folder_reads o f n : steps eq (FileDao.name_exists_in_folder o f n). Proof. read. Qed.
Lemma folder_by_id_reads i : steps eq (FolderDao.find_by_id i). Proof. read. Qed.
Lemma list_folders_reads o f n : steps eq (FolderDao.list_by_parent o f n). Proof. read. Qed.
Lemma folder_name_reads o f n : steps eq (FolderDao.name_exists o f n). Proof. read. Qed.
Lemma has_children_reads i : steps eq (FolderDao.has_children i). Proof. read. Qed.
Lemma share_by_token_reads t : steps eq (ShareDao.find_by_token t). Proof. read. Qed.
Lemma list_shares_reads o l n : steps eq (ShareDao.list_by_owner o l n). Proof. read. Qed.
Lemma token_reads t : steps eq (ShareDao.token_exists t). Proof. read. Qed.
Lemma login_reads u p : steps eq (UserDao.login u p). Proof. read. Qed.

Lemma content_of_hash_reads h : steps eq (FileDao.find_content_by_hash h).
Proof. unfold FileDao.find_content_by_hash. apply steps_bind; [apply content_by_hash_reads|]. intros c d. done. Qed.

Lemma unique_loop_reads fuel n t a o f : steps eq (FileDao.unique_loop fuel n t a o f).
Proof.
  revert n. induction fuel as [|fuel IH]; intros n; cbn [FileDao.unique_loop]; [by intros d|].
  apply steps_bind; [apply name_in_folder_reads|]. intros []; [apply IH|by intros d].
Qed.
Lemma unique_name_reads t a o f : steps eq (FileDao.make_unique_name t a o f).
Proof.
  unfold FileDao.make_unique_name. apply steps_bind; [apply name_in_folder_reads|].
  intros []; [apply unique_loop_reads|by intros d].
Qed.

End reads.

#[export] Hint Resolve content_by_hash_reads content_by_id_reads refcount_reads orphans_reads file_by_id_reads owned_reads
  list_files_reads name_in_folder_reads folder_by_id_reads list_folders_reads folder_name_reads has_children_reads
  share_by_token_reads list_shares_reads token_reads login_reads content_of_hash_reads unique_name_reads : reads.
#[export] Hint Extern 2 (steps (quiet _) _) => solve [apply steps_eq; [apply _|auto with reads]] : solar.

(** * Writing *)

Lemma filter_app_none {A} (p : A → Prop) `{!∀ x, Decision (p x)} (l : list A) x :
  ¬ p x → filter p (l ++ [x]) = filter p l.
Proof. intros Hp. by rewrite filter_app, filter_cons_False, filter_nil, app_nil_r. Qed.

(** Rewriting rows that are not selected, neither before nor after. *)
Lemma filter_map_outside {A} (p : A → Prop) `{!∀ x, Decision (p x)} (g : A → A) (l : list A) :
  (∀ x, x ∈ l → g x = x ∨ ¬ p x ∧ ¬ p (g x)) → filter p (g <$> l) = filter p l.
Proof.
  induction l as [|x l IH]; intros Hout; [done|]. rewrite fmap_cons, !filter_cons, IH by (intros; apply Hout; by right).
  destruct (Hout x) as [->|[Hx Hg]]; [by left|done|]. by rewrite !decide_False.
Qed.

Lemma id_inj {A B} (f : A → B) (l : list A) x y : NoDup (f <$> l) → x ∈ l → y ∈ l → f x = f y → x = y.
Proof.
  intros Hnd [i Hi]%list_elem_of_lookup [j Hj]%list_elem_of_lookup Heq.
  assert (i = j) as ->; [|congruence]. eapply NoDup_lookup; [exact Hnd| |].
  - by rewrite list_lookup_fmap, Hi.
  - by rewrite list_lookup_fmap, Hj, Heq.
Qed.

Section writes.
Context {J : JsonText} {P : Postgres} {EV : Evp}.

Lemma quiet_steps {A} u (m : M Db (A * bool)) :
  ok_steps (keeps db_ok) m → (∀ d a d', m d = (Ok a, d') → contents d' = contents d ∧ others_kept u d d') →
  steps (quiet u) (txn m).
Proof.
  intros Hok Hm. apply steps_txn; [apply _|]. intros d a d' E Hd. destruct (Hm _ _ _ E). split_and!; [|done|done].
  by apply (Hok _ _ _ E).
Qed.

Lemma insert_file_quiet u n f c : ok_steps (quiet u) (insert_file n u f c).
Proof.
  intros d i d' Ei Hd. split; [by apply (insert_file_ok _ _ _ _ _ _ _ Ei)|].
  unfold insert_file in Ei. db_inv. split; [done|]. apply others_intro; [done..|]. intros o Ho. split; [|done].
  apply filter_app_none. cbn. intros [-> _]. done.
Qed.

Lemma insert_folder_quiet u n p : ok_steps (quiet u) (insert_folder n p u).
Proof.
  intros d i d' Ei Hd. split; [by apply (insert_folder_ok _ _ _ _ _ _ Ei)|].
  unfold insert_folder in Ei. db_inv. split; [done|]. apply others_intro; [done..|]. intros o Ho. split; [done|].
  apply filter_app_none. cbn. intros [-> _]. done.
Qed.

Lemma insert_link_quiet f c : steps (quiet (FileDao.owner_id f)) (FileDao.insert_link f c).
Proof.
  unfold FileDao.insert_link, FileDao.require_owner_id. db_rules. apply insert_file_quiet.
Qed.

Lemma folder_insert_quiet f : steps (quiet (FolderDao.owner_id f)) (FolderDao.insert f).
Proof. unfold FolderDao.insert. db_rules. apply insert_folder_quiet. Qed.

Lemma share_insert_quiet r : steps (quiet (ShareDao.owner_id r)) (ShareDao.insert r).
Proof.
  unfold ShareDao.insert. apply quiet_steps.
  - db_rules.
  - intros d a d' Ei. unfold insert_share, commit in Ei. db_inv.
    match goal with H : (if sempty ?e then _ else _) _ = (_, ?d1) |- _ =>
      assert (d1 = d) as -> by (destruct (sempty e); [|case_match]; db_inv; done) end.
    split; [done|]. split; [by split_and!|]. intros o Ho. split_and!; [done..|]. unfold shares_kept, shares_of.
    cbn [shares set_shares set_next]. rewrite filter_app_none by (cbn; intros [-> _]; done). by apply (shares_same o d d).
Qed.

Lemma shares_of_map o g d : (∀ r, s_owner (g r) = s_owner r ∧ s_file (g r) = s_file r) →
  shares_of o (set_shares (g <$> shares d) d) = g <$> shares_of o d.
Proof.
  intros Hg. unfold shares_of. change (files_of o (set_shares (g <$> shares d) d)) with (files_of o d). cbn [shares set_shares].
  induction (shares d) as [|r l IH]; [done|]. destruct (Hg r) as [Ho Hf]. rewrite fmap_cons, !filter_cons, IH. cbn beta.
  rewrite Ho, Hf. by case_decide.
Qed.

(** Changing rows that are the user's own, or as others may. *)
Lemma update_shares_quiet_at u p g d n d' :
  (∀ r, s_id (g r) = s_id r ∧ s_token (g r) = s_token r ∧ s_file (g r) = s_file r ∧ s_owner (g r) = s_owner r) →
  (db_ok d → ∀ o r, uuid_in u ≠ Some o → r ∈ shares_of o d → p r = true → share_kept (clock d) r (g r)) →
  update_shares p g d = (Ok n, d') → quiet u d d'.
Proof.
  intros Hg Hk Eu Hd. specialize (Hk Hd). split; [by apply (update_shares_ok p g Hg _ _ _ Eu)|]. unfold update_shares in Eu. db_inv.
  split; [done|]. split; [by split_and!|]. intros o Ho. split_and!; [done..|]. unfold shares_kept.
  rewrite shares_of_map by (intros r; destruct (p r), (Hg r) as (?&?&?&?); done). cbn [clock set_shares].
  apply Forall2_fmap_r, Forall_Forall2_diag, Forall_forall. intros r Hr.
  change (share_kept (clock d) r (if p r then g r else r)).
  destruct (p r) eqn:Ep; [by apply (Hk o)|apply share_kept_refl].
Qed.

Lemma increment_quiet u i : steps (quiet u) (ShareDao.increment_download_count i).
Proof.
  unfold ShareDao.increment_download_count. db_rules. intros d n d' Eu. eapply update_shares_quiet_at; [|intros _ o r _ _ _|exact Eu]; [done|].
  split_and!; [done|cbn; lia|by left].
Qed.

(** Revoking one's own. *)
Lemma revoke_quiet u i : steps (quiet u) (ShareDao.revoke i u).
Proof.
  unfold ShareDao.revoke. apply steps_txn; [apply _|]. intros d a d' Er. unfold commit in Er. db_inv.
  match goal with H : update_shares _ _ _ = _ |- _ => refine (update_shares_quiet_at _ _ _ _ _ _ _ _ H); [done|] end.
  intros _ o r Ho [[Hr _] _]%list_elem_of_filter Hp%bool_decide_eq_true. destruct Hp as [_ Hp]. congruence.
Qed.

Lemma revoke_file_quiet u i j d f : uuid_in i = Some j → f ∈ files d → f_id f = j → uuid_in u = Some (f_owner f) →
  quiet u d (snd (ShareDao.revoke_by_file_id i d)).
Proof.
  intros Hi Hf Hj Hu. unfold ShareDao.revoke_by_file_id, txn.
  match goal with |- context [match ?m with _ => _ end] => destruct m as [[[a []]|e] d'] eqn:Es end; cbn [snd]; try reflexivity.
  unfold commit in Es. db_inv. match goal with H : update_shares _ _ _ = _ |- _ => refine (update_shares_quiet_at _ _ _ _ _ _ _ _ H); [done|] end.
  intros Hd o r Ho [(_&(y&Hy&[[Hyo _] Hin]%list_elem_of_filter)%list_elem_of_fmap) _]%list_elem_of_filter [Hp _]%andb_true_iff.
  apply bool_decide_eq_true in Hp. assert (y = f) as ->; [|congruence]. eapply (id_inj f_id); [apply Hd|done|done|]. congruence.
Qed.

Lemma revoke_expired_quiet u : steps (quiet u) ShareDao.revoke_expired.
Proof.
  unfold ShareDao.revoke_expired. apply steps_txn; [apply _|]. intros d a d' Er. unfold commit in Er. db_inv.
  match goal with H : update_shares _ _ _ = _ |- _ => refine (update_shares_quiet_at _ _ _ _ _ _ _ _ H); [done|] end.
  intros _ o r _ _. unfold ShareDao.expired. intros [_ Hp]%andb_true_iff. split_and!; [done|done|]. right.
  destruct (s_expires r) as [t|]; [|done]. exists t. by apply bool_decide_eq_true in Hp.
Qed.

(** Deleting a file or a folder, or renaming a folder, of the user. *)
Lemma soft_delete_quiet u i j d f : uuid_in i = Some j → f ∈ files d → f_id f = j → uuid_in u = Some (f_owner f) →
  quiet u d (snd (FileDao.soft_delete i d)).
Proof.
  intros Hi Hf Hj Hu Hd. unfold FileDao.soft_delete, txn.
  destruct ((_ ← soft_delete_file i; commit ()) d) as [[[[] []]|e] d'] eqn:Es; cbn [snd]; try by split_and!.
  apply bind_ok in Es as ([]&d1&Es&[= <-]). split; [by apply (soft_delete_file_ok _ _ _ _ Es)|].
  unfold soft_delete_file in Es. db_inv. split; [done|]. apply others_intro; [done..|]. intros o Ho. split; [|done].
  apply filter_map_outside. intros y Hy. unfold delete_file_row. case_bool_decide as Hid; [right|by left].
  assert (y = f) as ->. { eapply (id_inj f_id); [apply Hd|done|done|congruence]. }
  split; intros [<- _]; by apply Ho.
Qed.

Lemma folder_rewrite_quiet u d j r g : db_ok d → r ∈ folders d → d_id r = j → uuid_in u = Some (d_owner r) →
  (∀ x, d_owner (g x) = d_owner x) → (∀ x, d_id x ≠ j → g x = x) →
  others_kept u d (set_folders (g <$> folders d) d).
Proof.
  intros Hd Hr Hj Hu Ho Hg. apply others_intro; [done..|]. intros o Hne. split; [done|].
  apply filter_map_outside. intros x Hx. destruct (decide (d_id x = j)) as [Hid|]; [right|left; auto].
  assert (x = r) as ->. { eapply (id_inj d_id); [apply Hd|done|done|congruence]. }
  rewrite Ho. split; intros [<- _]; by apply Hne.
Qed.

Lemma folder_delete_quiet u i j d r : uuid_in i = Some j → r ∈ folders d → d_id r = j → uuid_in u = Some (d_owner r) →
  quiet u d (snd (FolderDao.soft_delete i d)).
Proof.
  intros Hi Hr Hj Hu Hd. unfold FolderDao.soft_delete, txn.
  destruct ((_ ← soft_delete_folder i; commit ()) d) as [[[[] []]|e] d'] eqn:Es; cbn [snd]; try by split_and!.
  apply bind_ok in Es as ([]&d1&Es&[= <-]). split; [by apply (soft_delete_folder_ok _ _ _ _ Es)|].
  unfold soft_delete_folder in Es. db_inv. split; [done|]. simplify_eq.
  eapply folder_rewrite_quiet; [done..| |].
  - intros y. unfold delete_folder_row. by case_bool_decide.
  - intros y Hy. unfold delete_folder_row. by rewrite bool_decide_eq_false_2.
Qed.

Lemma rename_quiet u i n j d r : uuid_in i = Some j → r ∈ folders d → d_id r = j → uuid_in u = Some (d_owner r) →
  quiet u d (snd (FolderDao.rename i n d)).
Proof.
  intros Hi Hr Hj Hu Hd. unfold FolderDao.rename, txn.
  destruct ((_ ← rename_folder i n; commit true) d) as [[[a []]|e] d'] eqn:Es; cbn [snd]; try by split_and!.
  apply bind_ok in Es as ([]&d1&Es&[= <- <-]). split; [by apply (rename_folder_ok _ _ _ _ _ Es)|].
  unfold rename_folder in Es. db_inv. case_match eqn:El; [db_inv|done]. apply rename_rows_spec in El as [-> _]. cbn [app].
  split; [done|]. simplify_eq.
  eapply folder_rewrite_quiet; [done..| |].
  - intros y. unfold rename_row. by case_match.
  - intros y Hy. unfold rename_row. by rewrite bool_decide_eq_false_2.
Qed.

End writes.

(** * Requests *)

Section served.
Context {R : RedisServer} {J : JsonText} {P : Postgres} {EV : Evp} (S : Settings).

Abbreviation object := (ObjectStore.object (base_path S)).

(** What the others see: their rows, and the content rows and chunk objects
    behind their live files. *)
Definition kept_for_others (u : string) (w w' : World) : Prop :=
  others_kept u (db w) (db w') ∧
  ∀ o f c, uuid_in u ≠ Some o → f ∈ files_of o (db w) → c ∈ contents (db w) → c_id c = f_content f →
    c ∈ contents (db w') ∧ ∀ h, h ∈ row_chunks c → object (fs w') h = object (fs w) h.

Definition served (u : string) (w w' : World) : Prop :=
  stored S w → stored S w' ∧ kept_for_others u w w'.

#[export] Instance served_preorder u : PreOrder (served u).
Proof.
  split.
  - intros w Hw. split; [done|]. split; [reflexivity|]. intros o f c _ _ Hc _. done.
  - intros w1 w2 w3 H12 H23 Hw. destruct (H12 Hw) as [Hw2 [K12 C12]]. destruct (H23 Hw2) as [Hw3 [K23 C23]].
    split; [done|]. split; [by transitivity (db w2)|]. intros o f c Ho Hf Hc Hid.
    destruct (C12 o f c Ho Hf Hc Hid) as [Hc2 Hob2].
    assert (f ∈ files_of o (db w2)) as Hf2 by (by rewrite (proj1 (proj2 K12 o Ho))).
    destruct (C23 o f c Ho Hf2 Hc2 Hid) as [Hc3 Hob3]. split; [done|]. intros h Hh. by rewrite Hob3, Hob2.
Qed.

(** Parts of the world that hold no stored data. *)
Lemma same_served u w w' : db w' = db w → fs w' = fs w → served u w w'.
Proof.
  intros Hd Hf Hw. split; [unfold stored; by rewrite Hd, Hf|]. split; [rewrite Hd; reflexivity|].
  intros o f c _ _ Hc _. by rewrite Hd, Hf.
Qed.

Lemma on_resp_served {A} u (m : M HttpResponse.HttpResponse A) : steps (served u) (on_resp m).
Proof. intros w. unfold on_resp. destruct (m (resp w)) as [r p]. by apply same_served. Qed.
Lemma set_resp_served u f : steps (served u) (set_resp f).
Proof. intros w. by apply same_served. Qed.
Lemma on_ws_served u f : steps (served u) (on_ws f).
Proof. intros w. by apply same_served. Qed.
Lemma on_redis_served {A} u (f : RedisClient.Redis → A * RedisClient.Redis) a : steps (served u) (on_redis f a).
Proof. intros w. unfold on_redis. destruct (redis w) as [r|]; [destruct (f r) as [x r']|]; by apply same_served. Qed.
Lemma has_redis_served u : steps (served u) has_redis.
Proof. intros w. by apply same_served. Qed.
Lemma set_error_served u c m : steps (served u) (set_error c m).
Proof. apply on_resp_served. Qed.

Lemma reply_json_served u j : steps (served u) (reply_json j).
Proof. unfold reply_json. apply steps_bind; [apply steps_lift|]. intros t. apply set_resp_served. Qed.
Lemma error_500_served u p e : steps (served u) (error_500 p e).
Proof. apply set_error_served. Qed.
Lemma invalid_json_served u p e : steps (served u) (invalid_json p e).
Proof. unfold invalid_json. case_match; apply set_error_served. Qed.

(** Reading the object store. *)
Lemma on_fs_read_served {A} u (m : M Fs.t A) : (∀ f, snd (m f) = f) → steps (served u) (on_fs m).
Proof. intros Hm w. unfold on_fs. specialize (Hm (fs w)). destruct (m (fs w)) as [r f]. cbn in *. subst. by apply same_served. Qed.

(** A quiet operation of the database. *)
Lemma quiet_served u w d : quiet u (db w) d → served u w (with_db d w).
Proof.
  intros Hq (Hok&Hs&Hc). destruct (Hq Hok) as (Hok'&Hcon&Hoth). split.
  - split_and!; [done|done|]. intros c. cbn [db with_db fs]. rewrite Hcon. apply Hc.
  - split; [done|]. intros o f c _ _ Hin _. cbn [db with_db fs]. by rewrite Hcon.
Qed.

Lemma on_db_served {A} u (m : M Db A) : steps (quiet u) m → steps (served u) (on_db m).
Proof.
  intros Hm w. unfold on_db. specialize (Hm (db w)). destruct (m (db w)) as [r d]. by apply quiet_served.
Qed.

(** One that is quiet in this state. *)
Lemma on_db_served_at {A} u (m : M Db A) w : quiet u (db w) (snd (m (db w))) → served u w (snd (on_db m w)).
Proof. intros Hm. unfold on_db. destruct (m (db w)) as [r d]. by apply quiet_served. Qed.

Lemma on_db_read_ok {A} (m : M Db A) w a w' : steps eq m → on_db m w = (Ok a, w') → m (db w) = (Ok a, db w) ∧ w' = w.
Proof.
  intros Hm Hw. apply on_db_ok in Hw as (d&Hd&->). pose proof (read_ok _ _ _ _ Hm Hd) as ->. by rewrite with_db_id.
Qed.

(** The collector. *)
Lemma row_chunk_hash f r h : content_ok S f r → h ∈ row_chunks r → ObjectStore.is_hash h = true.
Proof using J. intros [_ Hf]%content_chunks Hh. by eapply Forall_forall in Hf. Qed.

Lemma files_of_live d d' o : filter live_file (files d') = filter live_file (files d) → files_of o d' = files_of o d.
Proof.
  intros Hl. unfold files_of. by rewrite <- !(list_filter_filter (λ f, f_owner f = o) live_file), Hl.
Qed.

Lemma purged_shares i o d : db_ok d → unreferenced i d → shares_of o (purged i d) = shares_of o d.
Proof.
  intros Hok Hu. assert (files_of o (purged i d) = files_of o d) as Hf by (by apply files_of_live, purged_live).
  unfold shares_of. rewrite Hf. cbn [shares purged set_contents set_files set_shares]. rewrite list_filter_filter.
  apply filter_ext_in. intros s Hs. split; [tauto|]. intros [Ho Hin]. split; [by split|].
  apply list_elem_of_fmap in Hin as (f&Hid&[[_ Hl] Hin]%list_elem_of_filter). intros (y&Hy&[Hc Hyin]%list_elem_of_filter)%list_elem_of_fmap.
  assert (y = f) as -> by (eapply (id_inj f_id); [apply Hok|done|done|congruence]). rewrite (Hu f Hin Hc) in Hl. done.
Qed.

Lemma purge_served u w r : r ∈ contents (db w) → served u w (snd (ContentGc.purge_content S (ContentDao.row_to_content r) w)).
Proof.
  intros Hr Hw. pose proof (purge_content_run S w r Hw Hr) as Hp. cbv zeta in Hp.
  destruct (existsb (ContentDao.refers (c_id r)) (files (db w))) eqn:Er; [rewrite Hp; by apply same_served|].
  destruct Hp as (f'&->&Hobj&Hw'). cbn [snd]. split; [done|]. pose proof (unreferenced_refers _ _ Er) as Hu. split.
  - split; [by split_and!|]. intros o _. split_and!; [by apply files_of_live, purged_live|done|].
    unfold shares_kept. cbn [db with_db with_fs]. rewrite purged_shares by (try done; by destruct Hw). by apply (shares_same o (db w) (db w)).
  - intros o f c _ [[_ Hlive] Hf]%list_elem_of_filter Hc Hid.
    assert (c_id c ≠ c_id r) as Hne.
    { intros Heq. rewrite (Hu f Hf) in Hlive by congruence. done. }
    split; [by apply list_elem_of_filter|]. intros h Hh.
    destruct Hw as (_&_&Hrows). cbn [fs with_fs]. rewrite Hobj by eauto using row_chunk_hash.
    apply decide_False. intros [_ Hun]. apply not_true_iff_false in Hun. apply Hun, existsb_exists. exists c. split.
    + by apply list_elem_of_In, list_elem_of_filter.
    + destruct (Hrows c Hc) as (cs&Hcs&_). unfold row_chunks in Hh. rewrite Hcs in *. cbn in Hh.
      rewrite string_items_strs in Hh. by apply has_chunk_strs.
Qed.

Lemma try_collect_served u i : steps (served u) (ContentGc.try_collect_content S i).
Proof.
  unfold ContentGc.try_collect_content. case_match; [apply steps_ret|].
  apply steps_bind_ok; [apply on_db_served; auto with solar|].
  intros w c w1 [Hc ->]%on_db_read_ok; [|auto with reads]. destruct c as [c|]; [|apply steps_ret].
  unfold ContentDao.find_by_id in Hc. apply txn_ok in Hc as [Hc|[_ [d1 Hc]]]; unfold no_commit in Hc; db_inv; [done|].
  match goal with H : _ <$> head ?l = Some c |- _ => destruct (head l) as [r|] eqn:Eh; [|done]; injection H as <- end.
  apply purge_served. apply head_Some_elem_of, list_elem_of_filter in Eh. by destruct Eh.
Qed.

End served.

#[export] Hint Resolve on_resp_served set_resp_served on_ws_served on_redis_served has_redis_served set_error_served
  reply_json_served error_500_served invalid_json_served on_db_served try_collect_served : solar.

End Isolation.
