(* ===== verification/HandlerSafety.v ===== *)
(** What the handlers of src/api keep: whatever a user's request is and however it
    ends, the stored content stays deliverable and the other users' data is left
    alone. *)
From S2P Require Import Prelude Steps JsonValue HttpMessage Jwt ObjectStore Database Daos Constraints Redis WsCodec World.
From S2P Require Import Gc Files FoldersAccounts StoredContent Isolation.
Import World Schema Constraints StoredContent Isolation HttpRequest.

Module HandlerSafety.

Section handlers.
Context {R : RedisServer} {J : JsonText} {P : Postgres} {EV : Evp} (S : Settings).

(** * Reads of the object store *)

Lemma get_reads h f : snd (ObjectStore.get (base_path S) h f) = f.
Proof. unfold ObjectStore.get. repeat case_match; done. Qed.

Lemma get_loop_reads acc l f : snd (ObjectStore.get_loop (base_path S) acc l f) = f.
Proof.
  revert acc f. induction l as [|h l IH]; intros acc f; [done|]. cbn [ObjectStore.get_loop].
  pose proof (get_reads h f) as Hg. unfold mbind, M_mbind. destruct (ObjectStore.get (base_path S) h f) as [[d|e] f1]; cbn in *; subst; [apply IH|done].
Qed.

Lemma get_chunked_served u l : steps (served S u) (on_fs (ObjectStore.get_chunked (base_path S) l)).
Proof. apply on_fs_read_served. intros f. apply get_loop_reads. Qed.

(** * Ownership checks *)

Lemma resolve_folder_served v i u : steps (served S v) (AccessControl.resolve_folder_id i u).
Proof. unfold AccessControl.resolve_folder_id. step_rules. Qed.
Lemma owned_file_served v u i : steps (served S v) (AccessControl.require_owned_file u i).
Proof. unfold AccessControl.require_owned_file. step_rules. Qed.
Lemma owned_folder_served v u i m : steps (served S v) (FolderHandler.require_owned_folder u i m).
Proof. unfold FolderHandler.require_owned_folder. step_rules. Qed.

(** What a successful check has seen. *)
Lemma find_owned_some o i d r d' : FileDao.find_owned_by_id o i d = (Ok (Some r), d') →
  d' = d ∧ ∃ j u f c, uuid_in i = Some j ∧ uuid_in o = Some u ∧ f ∈ files d ∧ f_id f = j ∧ f_owner f = u ∧
    f_deleted f = None ∧ c ∈ contents d ∧ c_id c = f_content f ∧ r = FileDao.row_to_record f c.
Proof.
  intros H. pose proof (read_ok _ _ _ _ (owned_reads o i) H) as ->. split; [done|].
  unfold FileDao.find_owned_by_id in H. apply txn_ok in H as [H|[_ [d1 H]]]; unfold no_commit in H; db_inv; [done|].
  match goal with H : head ?l = Some r |- _ => apply head_Some_elem_of in H; rename H into Hin end.
  apply list_elem_of_In, in_concat in Hin as (l&Hl&Hr).
  rewrite <- list_elem_of_In in Hl. rewrite <- list_elem_of_In in Hr. apply list_elem_of_fmap in Hl as (f&->&Hf).
  apply list_elem_of_filter in Hf as [(?&?&?) Hf]. unfold FileDao.join_content in Hr.
  apply list_elem_of_fmap in Hr as (c&->&[? Hc]%list_elem_of_filter). subst. eauto 20.
Qed.

Lemma owned_file_some u i w r w' : AccessControl.require_owned_file u i w = (Ok (Some r), w') →
  w' = w ∧ ∃ j v f c, uuid_in i = Some j ∧ uuid_in u = Some v ∧ f ∈ files (db w) ∧ f_id f = j ∧ f_owner f = v ∧
    f_deleted f = None ∧ c ∈ contents (db w) ∧ c_id c = f_content f ∧ r = FileDao.row_to_record f c.
Proof.
  unfold AccessControl.require_owned_file. destruct (sempty u); [intros H; run_inv; done|].
  intros (x&w1&H1&H)%bind_ok. apply on_db_read_ok in H1 as [H1 ->]; [|auto with reads].
  destruct x as [f|]; run_inv; [|done]. split; [done|]. simplify_eq. by apply find_owned_some in H1 as [_ H1].
Qed.

Lemma owned_folder_some u i m w r w' : FolderHandler.require_owned_folder u i m w = (Ok (Some r), w') →
  w' = w ∧ ∃ j f, uuid_in i = Some j ∧ f ∈ folders (db w) ∧ d_id f = j ∧ d_owner f = u ∧
    d_deleted f = None ∧ r = FolderDao.row_to_folder f.
Proof.
  unfold FolderHandler.require_owned_folder. intros (x&w1&H1&H)%bind_ok.
  apply on_db_read_ok in H1 as [H1 ->]; [|auto with reads].
  destruct x as [f|]; [|run_inv; done]. case_bool_decide as Ho; run_inv; [|done]. simplify_eq. split; [done|].
  unfold FolderDao.find_by_id in H1. apply txn_ok in H1 as [H1|[_ [d1 H1]]]; unfold no_commit in H1; db_inv; [done|].
  match goal with H : _ <$> head ?l = Some r |- _ => destruct (head l) as [x1|] eqn:Eh; [|done]; injection H as <- end.
  apply head_Some_elem_of, list_elem_of_filter in Eh as [[??] ?]. eauto 20.
Qed.

(** * Handlers that only read *)

#[local] Hint Resolve get_chunked_served resolve_folder_served owned_file_served owned_folder_served : solar.

Lemma download_served req : steps (served S (auth_user_id_ req)) (DownloadHandler.download_route S req).
Proof.
  unfold DownloadHandler.download_route, DownloadHandler.handle, DownloadHandler.send_content. cbv zeta. step_rules.
Qed.

Lemma list_files_served req : steps (served S (auth_user_id_ req)) (FileHandler.handle_list req).
Proof. unfold FileHandler.handle_list. step_rules. Qed.

Lemma list_folders_served req : steps (served S (auth_user_id_ req)) (FolderHandler.handle_list req).
Proof. unfold FolderHandler.handle_list. step_rules. Qed.

(** Issuing a token reads and writes nothing but the response. *)
Lemma reply_token_served u time i n : steps (served S u) (AuthHandler.reply_token S time i n).
Proof. unfold AuthHandler.reply_token. step_rules. Qed.

Lemma login_served u time req : steps (served S u) (AuthHandler.handle_login S time req).
Proof. pose proof reply_token_served. unfold AuthHandler.handle_login. step_rules. Qed.

(** * Handlers that write *)

(** A step on the database, then the rest. *)
Lemma served_then {A B} u (m : M Db A) (k : A → M World B) w :
  served S u w (snd (on_db m w)) → (∀ a, steps (served S u) (k a)) → served S u w (snd ((on_db m ≫= k) w)).
Proof.
  intros Hm Hk. unfold mbind, M_mbind. destruct (on_db m w) as [[a|e] w1]; cbn [snd] in *; [|done].
  transitivity w1; [done|apply Hk].
Qed.

(** A deleted file stays its owner's. *)
Lemma soft_delete_owner i j d f d' : FileDao.soft_delete i d = (Ok (), d') → uuid_in i = Some j → f ∈ files d → f_id f = j →
  ∃ f', f' ∈ files d' ∧ f_id f' = j ∧ f_owner f' = f_owner f.
Proof.
  intros Hs Hi Hf Hj. unfold FileDao.soft_delete in Hs. apply txn_ok in Hs as [Hs|[_ [d2 Hs]]];
    apply bind_ok in Hs as ([]&d1&Es&Hs); [injection Hs as <-|done].
  unfold soft_delete_file in Es. db_inv. exists (delete_file_row (clock d) x f). split; [by apply list_elem_of_fmap_2|].
  unfold delete_file_row. by case_bool_decide.
Qed.

Lemma delete_file_served req : steps (served S (auth_user_id_ req)) (FileHandler.handle_delete S req).
Proof.
  unfold FileHandler.handle_delete. cbv zeta. apply steps_catch; [|intros; apply error_500_served].
  apply steps_bind; [auto with solar|]. intros []; [|apply steps_ret].
  destruct (sempty (get_path_param "id" req)); [auto with solar|].
  apply steps_bind_ok; [auto with solar|]. intros w r w1 Hr. destruct r as [r|].
  2:{ cbn. reflexivity. }
  apply owned_file_some in Hr as [-> (j&v&f&c&Hj&Hv&Hf&Hid&Ho&_)].
  assert (steps (served S (auth_user_id_ req)) (_ ← ContentGc.try_collect_content S (FileDao.content_id r);
     set_resp (HttpResponse.set_json FileHandler.deleted_json))) as Hrest by step_rules.
  assert (served S (auth_user_id_ req) w (snd (on_db (FileDao.soft_delete (get_path_param "id" req)) w))) as Hdel.
  { apply on_db_served_at. eapply soft_delete_quiet; eauto. congruence. }
  unfold mbind at 1, M_mbind at 1.
  destruct (on_db (FileDao.soft_delete (get_path_param "id" req)) w) as [[[]|e] w2] eqn:Ed; cbn [snd] in *; [|done].
  transitivity w2; [done|]. apply on_db_ok in Ed as (d2&Ed&->).
  destruct (soft_delete_owner _ _ _ _ _ Ed Hj Hf Hid) as (f'&Hf'&Hid'&Ho').
  apply served_then; [|intros ?; exact Hrest]. apply on_db_served_at. eapply revoke_file_quiet; [exact Hj|exact Hf'|done|congruence].
Qed.

Lemma create_folder_served u n p : steps (served S u) (FolderHandler.create_folder u n p).
Proof.
  unfold FolderHandler.create_folder. apply steps_bind; [auto with solar|]. intros []; [auto with solar|].
  apply steps_bind; [|auto with solar]. apply on_db_served. apply (folder_insert_quiet (FolderDao.mk "" n p u "")).
Qed.

Lemma create_served req : steps (served S (auth_user_id_ req)) (FolderHandler.handle_create req).
Proof. pose proof create_folder_served. unfold FolderHandler.handle_create. cbv zeta. step_rules. Qed.

(** An owned folder, then a quiet operation on it. *)
Lemma owned_folder_then {A} u i m (k : option FolderDao.FolderRecord → M World A) :
  (∀ w, served S u w (snd (k None w))) →
  (∀ w j f r, uuid_in i = Some j → f ∈ folders (db w) → d_id f = j → d_owner f = u → r = FolderDao.row_to_folder f →
     served S u w (snd (k (Some r) w))) →
  steps (served S u) (r ← FolderHandler.require_owned_folder u i m; k r).
Proof.
  intros Hnone Hsome. apply steps_bind_ok; [auto with solar|]. intros w r w1 Hr. destruct r as [r|]; [|apply Hnone].
  apply owned_folder_some in Hr as [-> (j&f&?&?&?&?&_&?)]. eauto.
Qed.

(** The owner of a row is the text its parameter was. *)
Lemma owner_uuid d f : db_ok d → f ∈ folders d → uuid_in (d_owner f) = Some (d_owner f).
Proof.
  intros Hok Hf. apply (used_uuid d); [done|]. left. destruct (ok_folder_fks _ Hok f Hf) as [_ Hu].
  by apply bool_decide_eq_true in Hu.
Qed.

(** What holds under the invariant may assume it. *)
Lemma served_ok u w w' : (stored S w → served S u w w') → served S u w w'.
Proof. intros H Hw. by apply H. Qed.

(** Reading the database, or computing, before the rest. *)
Lemma read_then {A B} u (m : M Db A) (k : A → M World B) w :
  steps eq m → (∀ a, served S u w (snd (k a w))) → served S u w (snd ((on_db m ≫= k) w)).
Proof.
  intros Hm Hk. unfold mbind, M_mbind. destruct (on_db m w) as [[a|e] w1] eqn:E.
  - apply on_db_read_ok in E as [_ ->]; [|done]. apply Hk.
  - unfold on_db in E. specialize (Hm (db w)). destruct (m (db w)) as [r d]. cbn in Hm. subst d. injection E as _ <-. cbn.
    rewrite with_db_id. reflexivity.
Qed.

Lemma lift_then {A B} u (r : result A) (k : A → M World B) w :
  (∀ a, served S u w (snd (k a w))) → served S u w (snd ((lift_result r ≫= k) w)).
Proof. intros Hk. unfold mbind, M_mbind, lift_result. destruct r; [apply Hk|cbn; reflexivity]. Qed.

Lemma delete_folder_served req : steps (served S (auth_user_id_ req)) (FolderHandler.handle_delete req).
Proof.
  unfold FolderHandler.handle_delete. cbv zeta. apply steps_catch; [|intros; apply error_500_served].
  apply steps_bind; [auto with solar|]. intros []; [|apply steps_ret].
  destruct (sempty (get_path_param "id" req)); [auto with solar|].
  apply owned_folder_then; [intros w; cbn; reflexivity|]. intros w j f r Hj Hf Hid Ho Hr.
  apply served_ok. intros [Hok _]. pose proof (owner_uuid _ _ Hok Hf) as Hu.
  apply read_then; [auto with reads|]. intros []; [apply set_error_served|].
  apply served_then; [|auto with solar]. apply on_db_served_at. eapply folder_delete_quiet; eauto. congruence.
Qed.

Lemma rename_folder_served req : steps (served S (auth_user_id_ req)) (FolderHandler.handle_rename req).
Proof.
  unfold FolderHandler.handle_rename. cbv zeta. apply steps_catch; [|intros; apply invalid_json_served].
  apply steps_bind; [auto with solar|]. intros []; [|apply steps_ret].
  destruct (sempty (get_path_param "id" req)); [auto with solar|].
  apply owned_folder_then; [intros w; cbn; reflexivity|]. intros w j f r Hj Hf Hid Ho Hr.
  apply served_ok. intros [Hok _]. pose proof (owner_uuid _ _ Hok Hf) as Hu.
  apply lift_then. intros body. apply lift_then. intros name. destruct (sempty name); [apply set_error_served|].
  apply read_then; [auto with reads|]. intros taken.
  destruct (taken && negb (bool_decide (name = FolderDao.name r))); [apply set_error_served|].
  apply served_then; [|auto with solar]. apply on_db_served_at. eapply rename_quiet; eauto. congruence.
Qed.

(** * Upload *)

(** The data can be stored: the disk keeps its chunks, and no other data in the
    store has the hash of one of them. *)
Definition fits (f : Fs.t) (data : string) : Prop :=
  let cs := ObjectStore.chunks_of (chunk_size S) data in
  0 < chunk_size S ∧ (∀ c, c ∈ cs → disk_write S c = c) ∧ ObjectStore.no_collision (base_path S) f cs.

(** Steps that change neither the rows nor the objects. *)
Definition idle (w w' : World) : Prop := db w' = db w ∧ fs w' = fs w.

#[export] Instance idle_preorder : PreOrder idle.
Proof. split; [by split|]. intros w1 w2 w3 [] []. split; congruence. Qed.

Lemma idle_read {A} (m : M Db A) : steps eq m → steps idle (on_db m).
Proof. intros Hm w. unfold on_db. specialize (Hm (db w)). destruct (m (db w)) as [r d]. cbn in *. by subst. Qed.
Lemma idle_redis {A} (f : RedisClient.Redis → A * RedisClient.Redis) a : steps idle (on_redis f a).
Proof. intros w. unfold on_redis. destruct (redis w) as [r|]; [destruct (f r) as [x r']|]; done. Qed.
Lemma idle_resp {A} (m : M HttpResponse.HttpResponse A) : steps idle (on_resp m).
Proof. intros w. unfold on_resp. by destruct (m (resp w)) as [r p]. Qed.

Lemma idle_then {A B} u (m : M World A) (k : A → M World B) w : steps idle m →
  (∀ a w1, idle w w1 → served S u w1 (snd (k a w1))) → served S u w (snd ((m ≫= k) w)).
Proof.
  intros Hm Hk. specialize (Hm w). unfold mbind, M_mbind. destruct (m w) as [[a|e] w1]; cbn [snd] in *.
  - transitivity w1; [|by apply Hk]. destruct Hm. by apply same_served.
  - destruct Hm. by apply same_served.
Qed.

Lemma catch_served {A} u (m : M World A) h w : served S u w (snd (m w)) → (∀ e, steps (served S u) (h e)) →
  served S u w (snd (try_catch m h w)).
Proof.
  intros Hm Hh. unfold try_catch. destruct (m w) as [[a|e] w1]; cbn [snd] in *; [done|].
  case_match; [done|]. transitivity w1; [done|apply Hh].
Qed.

Lemma link_served u time c n m f : steps (served S u) (FileUpload.link_existing_content time c n m u f).
Proof.
  unfold FileUpload.link_existing_content. apply steps_bind; [auto with solar|]. intros name. apply on_db_served.
  match goal with |- steps _ (FileDao.insert_link ?r _) => apply (insert_link_quiet r) end.
Qed.

(** The row [FileDao::insert] adds to content_objects, when it adds one. *)
Definition new_content (file : FileDao.FileRecord) (c : content_row) : Prop :=
  text_in (FileDao.hash file) = Some (c_hash c) ∧ c_size c = FileDao.size file ∧
  ∃ t, text_in (FileDao.chunk_hashes file) = Some t ∧ pg_jsonb_in t = Some (c_chunks c).

Definition grown_by (file : FileDao.FileRecord) (d d' : Db) : Prop :=
  contents d' = contents d ∨ ∃ c, contents d' = contents d ++ [c] ∧ new_content file c.

Lemma insert_content_grown file h z t m d o d' : h = FileDao.hash file → z = FileDao.size file → t = FileDao.chunk_hashes file →
  insert_content h z t m d = (Ok o, d') → grown_by file d d' ∧ (users d' = users d ∧ version d' = version d ∧ clock d' = clock d ∧ shares d' = shares d) ∧ files d' = files d ∧ folders d' = folders d.
Proof.
  intros -> -> -> H. unfold insert_content in H. db_inv. case_match; [|done]. db_inv. case_bool_decide; db_inv.
  - split; [by left|done].
  - split; [|done]. right. eexists. split; [done|]. split_and!; cbn; eauto.
Qed.

Lemma ensure_grown file d i d' : ContentDao.ensure_in_txn (FileDao.file_to_content file) d = (Ok i, d') →
  grown_by file d d' ∧ (users d' = users d ∧ version d' = version d ∧ clock d' = clock d ∧ shares d' = shares d) ∧ files d' = files d ∧ folders d' = folders d.
Proof.
  unfold ContentDao.ensure_in_txn, ContentDao.select_id. intros H. db_inv.
  destruct (head _); db_inv; [split; [by left|done]|].
  match goal with H : insert_content _ _ _ _ _ = _ |- _ => eapply insert_content_grown in H as (Hg&(?&?&?&?)&?&?); [|done..] end.
  case_match; db_inv; [by split_and!|]. destruct (head _); db_inv; by split_and!.
Qed.

Lemma insert_effect file d : db_ok d → let d' := snd (FileDao.insert file d) in
  db_ok d' ∧ others_kept (FileDao.owner_id file) d d' ∧ grown_by file d d'.
Proof.
  intros Hok. unfold FileDao.insert, FileDao.require_owner_id. destruct (sempty _); [split_and!; [done|reflexivity|by left]|].
  erewrite bind_run by reflexivity. unfold txn.
  match goal with |- context [match ?m with _ => _ end] => destruct m as [[[a []]|e] d'] eqn:Ei end;
    cbn [snd]; try (split_and!; [done|reflexivity|by left]).
  apply bind_ok in Ei as (c&d1&He&Ei). apply bind_ok in Ei as (i&d2&Hi&[= <- <-]).
  pose proof (ensure_in_txn_ok _ _ _ _ He Hok) as Hok1.
  apply ensure_grown in He as (Hg&(Hu&Hv&Hck&Hsh)&Hf&Hd). destruct (insert_file_quiet _ _ _ _ _ _ _ Hi Hok1) as (Hok2&Hc&Ho).
  split_and!; [done| |].
  - transitivity d1; [|done]. apply others_intro; [by rewrite Hu|done..|]. intros o _. unfold files_of, folders_of. by rewrite Hf, Hd.
  - unfold grown_by in *. by rewrite Hc.
Qed.

(** A rule of the relation, used at a state. *)
Lemma served_at {A} u (m : M World A) w : steps (served S u) m → served S u w (snd (m w)).
Proof. intros Hm. apply Hm. Qed.
Ltac at_state := match goal with |- served _ _ ?w (snd (?m ?w)) => apply (served_at _ m w) end.

(** The chunks of some data make it up. *)
Lemma chunks_of_concat data : 0 < chunk_size S → sconcat (ObjectStore.chunks_of (chunk_size S) data) = data.
Proof.
  intros Hc. unfold ObjectStore.chunks_of.
  destruct (ObjectStore.chunks_bound (chunk_size S) (slen data) data Hc (le_n _)) as (Hcat&_).
  destruct (ObjectStore.chunks _ _ _) eqn:E; [|done]. cbn in *. by rewrite sapp_nil_r || done.
Qed.

(** Storing the chunks. *)
Lemma put_chunked_fits data f : ObjectStore.sound (base_path S) f → fits f data →
  ∃ f', ObjectStore.put_chunked (disk_write S) (base_path S) (chunk_size S) data f =
      (Ok (map ObjectStore.sha256 (ObjectStore.chunks_of (chunk_size S) data)), f') ∧
    ObjectStore.sound (base_path S) f' ∧
    (∀ c, c ∈ ObjectStore.chunks_of (chunk_size S) data → ObjectStore.object (base_path S) f' (ObjectStore.sha256 c) = Some c) ∧
    (∀ h d, ObjectStore.is_hash h = true → ObjectStore.object (base_path S) f h = Some d → ObjectStore.object (base_path S) f' h = Some d).
Proof.
  intros Hs (Hc&Hdisk&Hcol). rewrite ObjectStore.put_chunked_list by done.
  destruct (ObjectStore.put_list_spec (disk_write S) (base_path S) f (ObjectStore.chunks_of (chunk_size S) data) Hs Hdisk Hcol)
    as (f'&?&?&?&?&_). eauto 10.
Qed.

Lemma content_ok_grow f f' c :
  (∀ h d, ObjectStore.is_hash h = true → ObjectStore.object (base_path S) f h = Some d → ObjectStore.object (base_path S) f' h = Some d) →
  content_ok S f c → content_ok S f' c.
Proof.
  intros Hg (cs&Hcs&Hob&?). exists cs. split_and!; [done| |done..]. intros x Hx.
  apply Hg; [apply ObjectStore.sha256_hash|by apply Hob].
Qed.

Lemma put_served u w f' : ObjectStore.sound (base_path S) f' →
  (∀ h d, ObjectStore.is_hash h = true → ObjectStore.object (base_path S) (fs w) h = Some d → ObjectStore.object (base_path S) f' h = Some d) →
  served S u w (with_fs f' w).
Proof.
  intros Hs Hg (Hok&_&Hrows). split; [split_and!; [done..|]; intros c Hc; eapply content_ok_grow; eauto|].
  split; [cbn; reflexivity|]. intros o f c _ _ Hc _. split; [done|]. intros h Hh.
  destruct (Hrows c Hc) as (cs&Hcs&Hob&_). unfold row_chunks in Hh. rewrite Hcs in Hh. cbn in Hh.
  rewrite string_items_strs in Hh. apply list_elem_of_fmap in Hh as (x&->&Hx). cbn.
  rewrite (Hob x Hx). apply Hg; [apply ObjectStore.sha256_hash|by apply Hob].
Qed.

(** The dump of a list of hashes, as the database reads it. *)
Lemma dump_hashes l : Forall (λ h, ObjectStore.is_hash h = true) l →
  ∃ t, json_dump (jstrs l) = Ok t ∧ text_in t = Some t ∧ pg_jsonb_in t = Some (jstrs l).
Proof.
  intros Hl. destruct (json_dump_ascii (jstrs l)) as (t&Ht&Ha).
  { rewrite jstrings_jstrs. apply forallb_forall. intros h Hh. rewrite <- list_elem_of_In in Hh.
    eapply Forall_forall in Hl; [|done]. apply ObjectStore.is_hash_hex in Hl. eapply sall_impl; [|exact Hl].
    intros c. unfold ObjectStore.is_hex. rewrite orb_true_iff, !bool_decide_eq_true. lia. }
  exists t. split_and!; [done|by apply text_in_ascii|]. apply pg_jsonb_in_dump; [apply canonical_jstrs|done].
Qed.

Lemma hashes_of_chunks l : Forall (λ h, ObjectStore.is_hash h = true) (map ObjectStore.sha256 l).
Proof. apply Forall_forall. intros h (x&->&_)%list_elem_of_fmap. apply ObjectStore.sha256_hash. Qed.

(** Inserting a file whose content is in the store. *)
Lemma insert_served u w file cs t : FileDao.owner_id file = u → FileDao.hash file = ObjectStore.sha256 (sconcat cs) →
  FileDao.chunk_hashes file = t →
  text_in t = Some t → pg_jsonb_in t = Some (jstrs (map ObjectStore.sha256 cs)) →
  (∀ c, c ∈ cs → ObjectStore.object (base_path S) (fs w) (ObjectStore.sha256 c) = Some c) →
  served S u w (snd (on_db (FileDao.insert file) w)).
Proof.
  intros <- Hh Ht Htext Hj Hob (Hok&Hs&Hrows). pose proof (insert_effect file (db w) Hok) as (Hok'&Ho&Hg).
  unfold on_db. destruct (FileDao.insert file (db w)) as [r d']. cbn [snd] in *. split.
  - split_and!; [done..|]. intros c Hc. destruct Hg as [Hg|(c'&Hg&Hc1&Hc2&t'&Ht'&Hj')]; cbn [db with_db fs] in *;
      rewrite Hg in Hc; [by apply Hrows|].
    apply elem_of_app in Hc as [Hc|Hc%list_elem_of_singleton]; [by apply Hrows|]. subst c'. exists cs.
    rewrite Hh, hash_text in Hc1 by apply ObjectStore.sha256_hash. split_and!; congruence || done.
  - split; [done|]. intros o f c _ _ Hc _. split; [|done]. cbn [db with_db].
    destruct Hg as [->|(c'&->&_)]; [done|]. apply elem_of_app. by left.
Qed.

Lemma store_upload_served u w data n m f : fits (fs w) data →
  served S u w (snd (FileUpload.store_upload S data (ObjectStore.sha256 data) n m u f w)).
Proof.
  intros Hfit. apply served_ok. intros (Hok&Hs&_). destruct (put_chunked_fits data (fs w) Hs Hfit) as (f'&Hput&Hs'&Hob&Hg).
  pose proof (chunks_of_concat data (proj1 Hfit)) as Hcat. unfold FileUpload.store_upload.
  erewrite bind_run by (apply on_fs_run; exact Hput). transitivity (with_fs f' w); [by apply put_served|].
  destruct (dump_hashes _ (hashes_of_chunks (ObjectStore.chunks_of (chunk_size S) data))) as (t&Hd&Ht&Hj).
  rewrite Hd. erewrite bind_run by reflexivity. cbv zeta. apply served_then.
  - eapply insert_served with (cs := ObjectStore.chunks_of (chunk_size S) data); rewrite ?Hcat; cbn; eauto.
  - intros i. step_rules.
Qed.

(** An upload whose data fits. *)
Lemma upload_served time req w : fits (fs w) (body_ req) →
  served S (auth_user_id_ req) w (snd (FileUpload.upload_route S time req w)).
Proof.
  intros Hfit. unfold FileUpload.upload_route. apply catch_served; [|intros e; apply error_500_served].
  apply idle_then; [apply idle_resp|]. intros ok w1 [_ Hf1]. rewrite <- Hf1 in Hfit. clear Hf1 w.
  destruct ok; [|cbn; reflexivity]. unfold FileUpload.handle_single_upload.
  destruct (sempty (body_ req)); [apply set_error_served|]. apply idle_then.
  { unfold FileUpload.reject_oversized. case_match; [|apply steps_ret]. apply steps_bind; [apply idle_resp|intros; apply steps_ret]. }
  intros big w2 [_ Hf2]. rewrite <- Hf2 in Hfit. clear Hf2 w1. destruct big; [cbn; reflexivity|]. apply idle_then.
  { unfold AccessControl.resolve_folder_id. case_match; [apply steps_ret|]. apply steps_bind; [apply idle_read; auto with reads|].
    intros [r|]; [case_bool_decide; [apply steps_ret|]|]; (apply steps_bind; [apply idle_resp|intros; apply steps_ret]). }
  intros [folder|] w3 [_ Hf3]; [|cbn; reflexivity]. rewrite <- Hf3 in Hfit. clear Hf3 w2.
  unfold FileUpload.upload_resolved. cbv zeta. pose proof link_served as Hlink. apply idle_then.
  { unfold FileUpload.cached_content. apply steps_bind; [apply idle_redis|]. intros [x|]; [apply idle_read; auto with reads|apply steps_ret]. }
  intros [c|] w4 [_ Hf4]; [unfold FileUpload.reply_instant; at_state; step_rules|].
  apply idle_then; [apply idle_read; auto with reads|]. intros [c|] w5 [_ Hf5].
  - unfold FileUpload.reply_instant. at_state. step_rules.
  - apply store_upload_served. by rewrite Hf5, Hf4.
Qed.

End handlers.

Ltac at_state := match goal with |- served _ _ ?w (snd (?m ?w)) => apply (served_at _ _ m w) end.

End HandlerSafety.
