(* ===== verification/ApiSafety.v ===== *)
(** What the whole API keeps: accounts, shares and multipart uploads, then every
    endpoint, every request and every timer of the server. *)
From S2P Require Import Prelude Steps JsonValue HttpMessage HttpRouter Jwt ObjectStore Database Daos Constraints Redis WsCodec.
From S2P Require Import World Gc Files FoldersAccounts Multipart Shares Server Sessions StoredContent Isolation HandlerSafety.
Import World Schema Constraints StoredContent Isolation HandlerSafety Sessions HttpRequest.

Module ApiSafety.

Section handlers.
Context {R : RedisServer} {J : JsonText} {P : Postgres} {EV : Evp} {C : Calendar} (S : Settings).

#[local] Hint Resolve get_chunked_served resolve_folder_served owned_file_served owned_folder_served : solar.

(** * Accounts *)

Lemma insert_user_quiet u n h : ok_steps (quiet u) (insert_user n h).
Proof.
  intros d i d' Ei Hd. split; [by apply (insert_user_ok _ _ _ _ _ Ei)|]. unfold insert_user in Ei. db_inv.
  split; [done|]. apply others_intro; [by apply prefix_app_r|done..].
Qed.

Lemma register_user_quiet u n p : steps (quiet u) (UserDao.register_user n p).
Proof.
  pose proof insert_user_quiet. unfold UserDao.register_user. apply steps_catch; [|intros e; case_match; auto with solar].
  apply steps_bind; [|auto with solar]. apply steps_txn; [apply _|]. apply ok_steps_bind; [auto|]. intros i.
  by apply ok_steps_of.
Qed.

Lemma register_served u time req : steps (served S u) (AuthHandler.handle_register S time req).
Proof.
  pose proof (reply_token_served S). unfold AuthHandler.handle_register. apply steps_catch; [|auto with solar].
  apply steps_bind; [auto with solar|]. intros [n p]. destruct (_ || _); [auto with solar|].
  apply steps_bind; [apply on_db_served, register_user_quiet|]. intros [i|]; auto with solar.
Qed.

(** * Shares *)

Lemma token_loop_served u draws n a : steps (served S u) (Shares.token_loop draws n a).
Proof.
  revert a. induction n as [|n IH]; intros a; cbn [Shares.token_loop]; [auto with solar|].
  apply steps_bind; [auto with solar|]. intros []; [apply IH|auto with solar].
Qed.
Lemma generate_token_served u draws : steps (served S u) (Shares.generate_token draws).
Proof. apply token_loop_served. Qed.

Lemma update_cache_served u t n : steps (served S u) (Shares.update_cache t n).
Proof. unfold Shares.update_cache. step_rules. Qed.
Lemma check_password_served u s p : steps (served S u) (Shares.check_password s p).
Proof. unfold Shares.check_password. step_rules. Qed.
Lemma refuse_served u A c m : steps (served S u) (Shares.refuse (A:=A) c m).
Proof. unfold Shares.refuse. step_rules. Qed.
Lemma count_share_served u t s : steps (served S u) (Shares.count_share t s).
Proof.
  pose proof update_cache_served. unfold Shares.count_share. apply steps_bind; [apply on_db_served, increment_quiet|].
  intros _. step_rules.
Qed.
#[local] Hint Resolve generate_token_served check_password_served refuse_served count_share_served : solar.

Lemma resolve_share_served u time t p c : steps (served S u) (Shares.resolve_share time t p c).
Proof. unfold Shares.resolve_share. step_rules. Qed.
#[local] Hint Resolve resolve_share_served : solar.

Lemma share_create_served time draws req : steps (served S (auth_user_id_ req)) (Shares.handle_create time draws req).
Proof.
  unfold Shares.handle_create. apply steps_catch; [|auto with solar]. destruct (negb _); [auto with solar|]. cbv zeta.
  do 6 (apply steps_bind; [auto with solar|intros ?]). apply steps_bind; [auto with solar|]. intros [f|]; [|auto with solar].
  apply steps_bind; [auto with solar|]. intros token. apply steps_bind; [apply on_db_served|].
  { match goal with |- steps _ (ShareDao.insert ?r) => apply (share_insert_quiet r) end. }
  intros _.
  step_rules.
Qed.

Lemma share_list_served u req : steps (served S u) (Shares.handle_list req).
Proof. unfold Shares.handle_list. step_rules. Qed.

Lemma share_revoke_served req : steps (served S (auth_user_id_ req)) (Shares.handle_revoke req).
Proof.
  unfold Shares.handle_revoke. apply steps_catch; [|auto with solar]. destruct (negb _); [auto with solar|]. cbv zeta.
  destruct (sempty _); [auto with solar|]. apply steps_bind; [auto with solar|]. intros [s|]; [|auto with solar].
  destruct (negb _); [auto with solar|]. apply steps_bind; [apply on_db_served, revoke_quiet|]. intros _. step_rules.
Qed.

Lemma share_download_served u time req : steps (served S u) (Shares.handle_download S time req).
Proof. unfold Shares.handle_download, Shares.send_shared. cbv zeta. step_rules. Qed.

Lemma share_save_served time req : steps (served S (auth_user_id_ req)) (Shares.handle_save time req).
Proof.
  unfold Shares.handle_save. apply steps_catch; [|auto with solar]. destruct (negb _); [auto with solar|]. cbv zeta.
  apply steps_bind; [auto with solar|]. intros body. apply steps_bind; [auto with solar|]. intros t0.
  apply steps_bind; [step_rules|]. intros t. do 2 (apply steps_bind; [auto with solar|]; intros ?).
  destruct a0 as [s|]; [|auto with solar]. apply steps_bind; [auto with solar|]. intros [f|]; [|auto with solar].
  apply steps_bind; [auto with solar|]. intros name. apply steps_bind; [|auto with solar]. apply on_db_served.
  match goal with |- steps _ (FileDao.insert_link ?r _) => apply (insert_link_quiet r) end.
Qed.

(** * Multipart uploads *)

Section multipart.
Variable part_size : Z.

Lemma oversized_served u n m : steps (served S u) (FileUpload.reject_oversized n m).
Proof. unfold FileUpload.reject_oversized. step_rules. Qed.
Lemma hset_served u k f v : steps (served S u) (Multipart.hset k f v).
Proof. unfold Multipart.hset. step_rules. Qed.
Lemma hget_served u k f : steps (served S u) (Multipart.hget k f).
Proof. unfold Multipart.hget. step_rules. Qed.
#[local] Hint Resolve oversized_served hset_served hget_served : solar.

Lemma save_served u s : steps (served S u) (Multipart.save_to_redis s).
Proof. unfold Multipart.save_to_redis. cbv zeta. step_rules. Qed.
Lemma load_served u id : steps (served S u) (Multipart.load_from_redis S part_size id).
Proof. unfold Multipart.load_from_redis. cbv zeta. step_rules. Qed.
Lemma delete_session_served u id : steps (served S u) (Multipart.delete_from_redis id).
Proof. unfold Multipart.delete_from_redis. step_rules. Qed.
#[local] Hint Resolve save_served load_served delete_session_served : solar.

Lemma init_served u v0 v1 v2 v3 req : steps (served S u) (Multipart.handle_init S part_size v0 v1 v2 v3 req).
Proof. unfold Multipart.handle_init. cbv zeta. step_rules. Qed.

Lemma owned_session_served u req id : steps (served S u) (Multipart.owned_session S part_size req id).
Proof. unfold Multipart.owned_session. step_rules. Qed.
#[local] Hint Resolve owned_session_served : solar.

Lemma with_session_served u req p k : (∀ s id, steps (served S u) (k s id)) →
  steps (served S u) (Multipart.with_session S part_size req p k).
Proof. intros Hk. unfold Multipart.with_session. cbv zeta. step_rules. Qed.

Lemma status_served u req : steps (served S u) (Multipart.handle_status S part_size req).
Proof. apply with_session_served. intros. step_rules. Qed.
Lemma abort_served u req : steps (served S u) (Multipart.handle_abort S part_size req).
Proof. apply with_session_served. intros. step_rules. Qed.

(** Storing a part the disk keeps. *)
Lemma put_part_served u data : disk_write S data = data →
  steps (served S u) (on_fs (ObjectStore.put (disk_write S) (base_path S) data)).
Proof.
  intros Hdisk w. apply served_ok. intros (_&Hs&_).
  destruct (ObjectStore.put_spec (disk_write S) (base_path S) (fs w) data Hs) as (f'&Hput&Hobj&Hoth&Hsnd).
  unfold on_fs. rewrite Hput. cbn [snd]. apply put_served; [apply Hsnd; by rewrite Hdisk|]. intros h d Hh Hd.
  destruct (decide (h = ObjectStore.sha256 data)) as [->|Hne]; [|by rewrite Hoth].
  rewrite bool_decide_eq_true_2 in Hobj by eauto. by subst.
Qed.

Lemma upload_part_served u req : disk_write S (body_ req) = body_ req →
  steps (served S u) (Multipart.handle_upload_part S part_size req).
Proof.
  intros Hdisk. pose proof (put_part_served u _ Hdisk).
  unfold Multipart.handle_upload_part, Multipart.store_part, Multipart.notify_upload_progress. cbv zeta. step_rules.
Qed.

(** Reading the parts of a session whose hashes are good. *)
Lemma get_parts f acc l full f' : ObjectStore.sound (base_path S) f → Forall part_hash l →
  ObjectStore.get_loop (base_path S) acc l f = (Ok full, f') →
  ∃ cs, l = map ObjectStore.sha256 cs ∧ full = acc +:+ sconcat cs ∧
    ∀ c, c ∈ cs → ObjectStore.object (base_path S) f (ObjectStore.sha256 c) = Some c.
Proof.
  intros Hs. revert acc. induction l as [|h l IH]; intros acc Hl Hrun.
  { injection Hrun as <- _. exists []. split_and!; [done|by rewrite sapp_nil_r|by intros c ?%elem_of_nil]. }
  apply Forall_cons in Hl as [Hh Hl]. cbn [ObjectStore.get_loop] in Hrun. apply bind_ok in Hrun as (d&f1&Hget&Hrun).
  destruct Hh as [->|Hh]; [done|]. rewrite ObjectStore.get_spec in Hget by done.
  destruct (ObjectStore.object (base_path S) f h) as [d'|] eqn:Eo; [|done]. injection Hget as <- <-.
  apply IH in Hrun as (cs&->&->&Hcs); [|done]. destruct Hs as (_&_&Hint). pose proof (Hint h d' Hh Eo) as <-.
  exists (d' :: cs). split_and!; [done|by cbn; rewrite sapp_assoc|].
  intros c [->|Hc]%elem_of_cons; [done|by apply Hcs].
Qed.

Lemma record_served time s cs t w : Multipart.part_hashes s = map ObjectStore.sha256 cs →
  json_dump (jstrs (Multipart.part_hashes s)) = Ok t →
  (∀ c, c ∈ cs → ObjectStore.object (base_path S) (fs w) (ObjectStore.sha256 c) = Some c) →
  served S (Multipart.user_id s) w (snd (Multipart.record_upload time s t (ObjectStore.sha256 (sconcat cs)) w)).
Proof.
  intros Hl Ht Hcs. pose proof (link_served S). unfold Multipart.record_upload. apply read_then; [auto with reads|].
  intros [c|]; [at_state; step_rules|]. rewrite Hl in Ht.
  destruct (dump_hashes _ (hashes_of_chunks cs)) as (t'&Ht'&Htext&Hj). rewrite Ht in Ht'. injection Ht' as <-.
  apply served_then; [|intros i; step_rules]. by eapply insert_served with (cs := cs).
Qed.

Lemma complete_session_served time s id w : Forall part_hash (Multipart.part_hashes s) →
  served S (Multipart.user_id s) w (snd (Multipart.complete_session S time s id w)).
Proof.
  intros Hl. apply served_ok. intros (_&Hs&_). unfold Multipart.complete_session.
  apply lift_then. intros [i|]; [apply set_error_served|].
  unfold mbind at 1, M_mbind at 1, lift_result at 1. destruct (json_dump _) as [t|e] eqn:Et; [|cbn; reflexivity].
  unfold mbind at 1, M_mbind at 1. destruct (on_fs _ w) as [[full|e] w1] eqn:Eg.
  - unfold on_fs in Eg. destruct (ObjectStore.get_chunked _ _ _) as [r f'] eqn:Eo. injection Eg as -> <-.
    pose proof (get_loop_reads S "" (Multipart.part_hashes s) (fs w)) as Hf.
    unfold ObjectStore.get_chunked in Eo. rewrite Eo in Hf. cbn in Hf. subst f'.
    apply get_parts in Eo as (cs&Hcs&->&Hobj); [|done|done]. rewrite sapp_nil_l. cbv zeta.
    assert (with_fs (fs w) w = w) as -> by by destruct w. pose proof (record_served time s cs t w Hcs Et Hobj) as Hrec.
    unfold mbind at 1, M_mbind at 1.
    destruct (Multipart.record_upload _ _ _ _ w) as [[[i b]|e] w2]; cbn [snd] in *; [|done].
    transitivity w2; [done|]. at_state. step_rules.
  - apply (f_equal snd) in Eg. cbn [snd] in *. rewrite <- Eg. apply get_chunked_served.
Qed.

Context (hash_field : rdb → string → string → option string) (L : hash_laws hash_field).

Lemma complete_served time req w : sessions_ok hash_field w →
  served S (auth_user_id_ req) w (snd (Multipart.handle_complete S time part_size req w)).
Proof using L.
  intros Hw. unfold Multipart.handle_complete, Multipart.with_session. apply catch_served; [|intros e; apply error_500_served].
  destruct (negb _); [apply set_error_served|]. cbv zeta. destruct (sempty _); [apply set_error_served|].
  pose proof (owned_session_served (auth_user_id_ req) req (get_path_param "upload_id" req) w) as Ho.
  unfold mbind at 1, M_mbind at 1. destruct (Multipart.owned_session _ _ _ _ w) as [[[s|]|e] w1] eqn:Es; cbn [snd] in *; try done.
  transitivity w1; [done|]. pose proof (owned_session_ok _ _ _ L _ _ _ _ _ Hw Es) as Hl.
  replace (auth_user_id_ req) with (Multipart.user_id s); [by apply complete_session_served|].
  unfold Multipart.owned_session in Es. apply bind_ok in Es as (s0&w2&_&Es). destruct (sempty _); [run_inv; done|].
  destruct (bool_decide_reflect (Multipart.user_id s0 = auth_user_id_ req)); cbn [negb] in Es; run_inv; [congruence|done].
Qed.

End multipart.

End handlers.

End ApiSafety.
