(* ===== verification/ServerSafety.v ===== *)
(** What every event of the server keeps: the invariant of the stored data and of
    the upload sessions, and the data of the users who are not involved. *)
From S2P Require Import Prelude Steps JsonValue HttpMessage HttpRouter Jwt ObjectStore Database Daos Constraints Redis WsCodec.
From S2P Require Import World Gc Files FoldersAccounts Multipart Shares Server Sessions StoredContent Isolation HandlerSafety.
From S2P Require Import ApiSafety.
Import World Schema StoredContent Isolation HandlerSafety ApiSafety Sessions HttpRequest.
Import Routes HttpRouter.

Module ServerSafety.

(** * Which handler a request reaches *)

(** The endpoint and the request it is given. *)
Definition route_of (req : HttpRequest) : option (endpoint * HttpRequest) := find_route api_routes req.

Lemma find_row_map {A B} (h : A → B) (rows : list (HttpMethod * list seg * A)) req :
  find_row (map (map_row h) rows) req = (λ p, (h (fst p), snd p)) <$> find_row rows req.
Proof.
  induction rows as [|[[m l] e] rows IH]; [done|]. cbn [map find_row map_row fst snd].
  case_bool_decide; [|done]. by destruct (path_match _ _).
Qed.

Lemma set_params_kept names args r :
  auth_user_id_ (set_params names args r) = auth_user_id_ r ∧ body_ (set_params names args r) = body_ r.
Proof. revert args r. induction names as [|n names IH]; intros [|a args] r; try done. exact (IH args (set_path_param n a r)). Qed.

Lemma route_of_rows req : route_of req = find_row api_rows req.
Proof.
  unfold route_of, api_routes. destruct (register_rows (@id endpoint)) as (rs&->&Hf). rewrite Hf, find_row_map.
  destruct (find_row _ _) as [[e q]|]; done.
Qed.

Lemma find_row_kept {A} (rows : list (HttpMethod * list seg * A)) req e q : find_row rows req = Some (e, q) →
  auth_user_id_ q = auth_user_id_ req ∧ body_ q = body_ req.
Proof.
  induction rows as [|[[m l] a] rows IH]; [done|]. cbn [find_row]. case_bool_decide; [|done].
  destruct (path_match _ _); [|done]. intros [= <- <-]. apply (set_params_kept _ _ (clear_path_params req)).
Qed.

(** The handler is given the request of the route, as it is now. *)
Lemma find_row_user rows req i n : find_row rows (set_auth_user i n req) =
  (λ p : endpoint * HttpRequest, (fst p, set_auth_user i n (snd p))) <$> find_row rows req.
Proof.
  induction rows as [|[[m l] a] rows IH]; [done|]. cbn [find_row]. rewrite IH.
  change (method_ (set_auth_user i n req)) with (method_ req). change (path_ (set_auth_user i n req)) with (path_ req).
  case_bool_decide; [|done]. destruct (path_match l _) as [args|]; [|done]. cbn. do 2 f_equal.
  change (clear_path_params (set_auth_user i n req)) with (set_auth_user i n (clear_path_params req)).
  generalize (clear_path_params req). clear IH. revert args.
  induction (params l) as [|x l' IH]; intros [|y args] r; try done. cbn [set_params].
  rewrite <- IH. done.
Qed.

Section server.
Context {R : RedisServer} {J : JsonText} {P : Postgres} {EV : Evp} {C : Calendar} {O : HashOrder}
  {K : WsHandshake.Handshake} (S : Settings) (G : Process).
Context (hash_field : rdb → string → string → option string) (L : hash_laws hash_field).

Lemma dispatch_route a req s : Api.dispatch S G a req s =
  match route_of req with
  | Some (e, q) => Api.handle S G a e q s
  | None => Server.on_world (set_error 404 "Not Found") s
  end.
Proof.
  rewrite route_of_rows. unfold Api.dispatch. destruct (register_rows (Api.as_handler S G a)) as (rs&->&Hf).
  unfold dispatch. rewrite Hf, find_row_map. destruct s as [w m n c u cl]. destruct w as [d f r x p].
  destruct (find_row api_rows req) as [[e q]|]; cbn [fmap option_fmap option_map fst snd].
  - unfold Api.as_handler. cbn [Server.world Server.with_world with_resp resp db fs redis ws Server.metrics Server.seq_
      Server.request_count Server.upgraded Server.closing].
    destruct (Api.handle S G a e q _) as [y [w' ? ? ? ? ?]]. cbn. by destruct w'.
  - unfold Server.on_world, set_error, World.on_resp, on_resp. cbn [resp Server.world].
    by destruct (HttpResponse.set_error _ _ p).
Qed.

(** * Sessions, through every endpoint *)

Abbreviation sess := (keeps (sessions_ok hash_field)).

Lemma owned_file_sess u i : steps sess (AccessControl.require_owned_file u i).
Proof. unfold AccessControl.require_owned_file. step_rules. Qed.
Lemma owned_folder_sess u i m : steps sess (FolderHandler.require_owned_folder u i m).
Proof. unfold FolderHandler.require_owned_folder. step_rules. Qed.
Lemma remove_chunks_sess n l : steps sess (ContentGc.remove_chunks S n l).
Proof.
  revert n. induction l as [|h l IH]; intros n; cbn [ContentGc.remove_chunks]; [auto with solar|].
  apply steps_bind; [auto with solar|]. intros []; [apply IH|]. apply steps_bind; [auto with solar|]. intros g. apply IH.
Qed.
Lemma purge_sess c : steps sess (ContentGc.purge_content S c).
Proof.
  pose proof remove_chunks_sess. unfold ContentGc.purge_content. apply steps_bind; [auto with solar|]. intros n.
  case_bool_decide; [auto with solar|]. destruct (ContentGc.parse_chunk_hashes _); [|auto with solar].
  apply db_txn_sess. unfold ContentGc.purge_txn. step_rules.
Qed.
Lemma purge_all_sess t l : steps sess (ContentGc.purge_all S t l).
Proof.
  pose proof purge_sess. revert t. induction l as [|c l IH]; intros t; cbn [ContentGc.purge_all]; [auto with solar|].
  apply steps_bind; [auto|]. intros one. apply IH.
Qed.
Lemma try_collect_sess i : steps sess (ContentGc.try_collect_content S i).
Proof. pose proof purge_sess. unfold ContentGc.try_collect_content. step_rules. Qed.

#[local] Hint Resolve owned_file_sess owned_folder_sess try_collect_sess resolve_folder_sess oversized_sess : solar.

Lemma cached_sess h : steps sess (FileUpload.cached_content h).
Proof using L. unfold FileUpload.cached_content. step_rules. Qed.
Lemma upload_sess t req : steps sess (FileUpload.upload_route S t req).
Proof using L.
  pose proof cached_sess. pose proof (link_sess hash_field).
  unfold FileUpload.upload_route, FileUpload.handle_single_upload, FileUpload.upload_resolved, FileUpload.store_upload,
    FileUpload.reply_instant. cbv zeta. step_rules.
Qed.
Lemma auth_sess t req : steps sess (AuthHandler.handle_register S t req) ∧ steps sess (AuthHandler.handle_login S t req).
Proof.
  unfold AuthHandler.handle_register, AuthHandler.handle_login, AuthHandler.reply_token. split; step_rules.
Qed.
Lemma files_sess req : steps sess (FileHandler.handle_list req) ∧ steps sess (FileHandler.handle_delete S req) ∧
  steps sess (DownloadHandler.download_route S req).
Proof.
  unfold FileHandler.handle_list, FileHandler.handle_delete, DownloadHandler.download_route, DownloadHandler.handle,
    DownloadHandler.send_content. cbv zeta. split_and!; step_rules.
Qed.
Lemma folders_sess req : steps sess (FolderHandler.handle_list req) ∧ steps sess (FolderHandler.handle_create req) ∧
  steps sess (FolderHandler.handle_rename req) ∧ steps sess (FolderHandler.handle_delete req).
Proof.
  unfold FolderHandler.handle_list, FolderHandler.handle_create, FolderHandler.handle_rename, FolderHandler.handle_delete,
    FolderHandler.create_folder. cbv zeta. split_and!; step_rules.
Qed.

Lemma token_loop_sess d n a : steps sess (Shares.token_loop d n a).
Proof.
  revert a. induction n as [|n IH]; intros a; cbn [Shares.token_loop]; [auto with solar|].
  apply steps_bind; [auto with solar|]. intros []; [apply IH|auto with solar].
Qed.
Lemma resolve_share_sess t tok p c : steps sess (Shares.resolve_share t tok p c).
Proof using L.
  unfold Shares.resolve_share, Shares.refuse, Shares.check_password, Shares.count_share, Shares.update_cache. step_rules.
Qed.
#[local] Hint Resolve resolve_share_sess : solar.
Lemma shares_sess t d req : steps sess (Shares.handle_create t d req) ∧ steps sess (Shares.handle_save t req) ∧
  steps sess (Shares.handle_list req) ∧ steps sess (Shares.handle_revoke req) ∧ steps sess (Shares.handle_download S t req).
Proof using L.
  pose proof token_loop_sess. unfold Shares.handle_create, Shares.handle_save, Shares.handle_list, Shares.handle_revoke,
    Shares.handle_download, Shares.generate_token, Shares.send_shared. cbv zeta. split_and!; step_rules.
Qed.

Lemma endpoint_sess a e req : steps sess (Api.in_world S G a e req).
Proof using L.
  unfold Api.in_world. destruct (id_draws a) as [[[v0 v1] v2] v3]. destruct e; try apply set_resp_sess;
    try apply auth_sess; try apply files_sess; try apply folders_sess; try (by eapply shares_sess);
    try (by eapply upload_sess).
  - by apply init_sess.
  - by apply upload_part_sess.
  - by apply complete_sess.
  - by apply status_sess.
  - by apply abort_sess.
Qed.

(** * Stored data, through every endpoint *)

(** What an endpoint that stores data needs of the disk and of the hash. *)
Definition storable (e : endpoint) (body : string) (f : Fs.t) : Prop :=
  match e with
  | Upload => fits S f body
  | UploadPart => disk_write S body = body
  | _ => True
  end.

Lemma endpoint_served a e req w : storable e (body_ req) (fs w) → sessions_ok hash_field w →
  served S (auth_user_id_ req) w (snd (Api.in_world S G a e req w)).
Proof using L.
  intros Hst Hw. unfold Api.in_world. destruct (id_draws a) as [[[v0 v1] v2] v3].
  destruct e; cbn [storable] in Hst; try apply set_resp_served.
  - apply register_served.
  - apply login_served.
  - by apply upload_served.
  - apply init_served.
  - by apply upload_part_served.
  - by eapply complete_served.
  - apply status_served.
  - apply abort_served.
  - apply list_files_served.
  - apply delete_file_served.
  - apply list_folders_served.
  - apply create_served.
  - apply rename_folder_served.
  - apply delete_folder_served.
  - apply download_served.
  - apply share_create_served.
  - apply share_save_served.
  - apply share_list_served.
  - apply share_revoke_served.
  - apply share_download_served.
Qed.

(** * The server *)

(** Every content row can be delivered, the constraints of the schema hold, and
    upload sessions name parts by their hash. *)
Definition server_ok (s : Server.Server) : Prop :=
  stored S (Server.world s) ∧ sessions_ok hash_field (Server.world s).

(** An event on behalf of [u]: the invariant stays, and the others' data too. *)
Definition keeps_for (u : string) (s s' : Server.Server) : Prop :=
  server_ok s → server_ok s' ∧ kept_for_others S u (Server.world s) (Server.world s').

#[export] Instance keeps_for_preorder u : PreOrder (keeps_for u).
Proof.
  assert (∀ s s', keeps_for u s s' ↔ (server_ok s → served S u (Server.world s) (Server.world s') ∧ server_ok s')) as Heq.
  { intros s s'. unfold keeps_for, served, server_ok. naive_solver. }
  split.
  - intros s. apply Heq. intros Hs. split; [reflexivity|done].
  - intros s1 s2 s3 H12 H23. apply Heq. intros H1. destruct (proj1 (Heq _ _) H12 H1) as [K1 H2].
    destruct (proj1 (Heq _ _) H23 H2) as [K2 H3].
    split; [by transitivity (Server.world s2)|done].
Qed.

Lemma keeps_for_world u s s' : served S u (Server.world s) (Server.world s') →
  sess (Server.world s) (Server.world s') → keeps_for u s s'.
Proof. intros Hv Hs [H1 H2]. destruct (Hv H1) as [H1' Hk]. split; [|done]. split; [done|by apply Hs]. Qed.

Lemma on_world_keeps {A} u (m : M World A) : steps (served S u) m → steps sess m → steps (keeps_for u) (Server.on_world m).
Proof.
  intros Hv Hs s. unfold Server.on_world. specialize (Hv (Server.world s)). specialize (Hs (Server.world s)).
  destruct (m (Server.world s)) as [r w]. by apply keeps_for_world.
Qed.
Lemma update_keeps u f : (∀ s, Server.world (f s) = Server.world s) → steps (keeps_for u) (Server.update f).
Proof. intros Hf s. cbn. apply keeps_for_world; rewrite Hf; reflexivity. Qed.
Lemma send_keeps u conn t : steps (keeps_for u) (Server.send conn t).
Proof. apply on_world_keeps; auto with solar. Qed.
Lemma error_keeps u c m : steps (keeps_for u) (Server.on_world (set_error c m)).
Proof. apply on_world_keeps; auto with solar. Qed.
Lemma set_resp_keeps u f : steps (keeps_for u) (Server.on_world (set_resp f)).
Proof. apply on_world_keeps; auto with solar. Qed.
Lemma send_response_keeps u conn k : steps (keeps_for u) (Server.send_response conn k).
Proof.
  unfold Server.send_response. apply steps_bind; [apply steps_get|]. intros s. destruct (HttpResponse.send_response _ _).
  apply steps_bind; [by apply update_keeps|]. intros _. apply send_keeps.
Qed.
Lemma finish_keeps u conn k : steps (keeps_for u) (Server.finish conn k).
Proof.
  unfold Server.finish, Server.record_response_metrics. apply steps_bind; [|intros _; apply send_response_keeps].
  apply steps_bind; [apply steps_get|]. intros s. by apply update_keeps.
Qed.
Lemma fresh_keeps u : steps (keeps_for u) Server.fresh_response.
Proof. apply set_resp_keeps. Qed.

#[local] Hint Resolve send_keeps error_keeps set_resp_keeps send_response_keeps finish_keeps fresh_keeps : solar.
#[local] Hint Extern 1 (steps (keeps_for _) (Server.update _)) => (by apply update_keeps) : solar.

(** The upgrade to WebSocket. *)
Lemma upgrade_keeps u t conn req : steps (keeps_for u) (WsUpgrade.try_handle_upgrade S t conn req).
Proof using L.
  assert (∀ i v, steps (keeps_for u) (Server.on_world (WsUpgrade.upload_session_owned_by i v))) as Howned.
  { intros i v. unfold WsUpgrade.upload_session_owned_by. apply on_world_keeps; step_rules. }
  assert (∀ f, steps (keeps_for u) (Server.on_world (on_ws f))) as Hws by (intros f; apply on_world_keeps; auto with solar).
  unfold WsUpgrade.try_handle_upgrade, WsUpgrade.send_http_error. cbv zeta. step_rules.
Qed.

Lemma limit_keeps u a req : steps (keeps_for u) (Pipeline.within_limit G a req).
Proof using L.
  unfold Pipeline.within_limit. destruct (RateLimiter.is_exempt _); [apply steps_ret|]. intros s. unfold Pipeline.allow.
  destruct (RateLimiter.allow _ _ _) as [ok l] eqn:El. cbn [snd].
  apply keeps_for_world; cbn [Server.world Server.with_seq Server.with_world]; [by apply same_served|].
  intros Hw r Hr. cbn [redis with_redis] in Hr. unfold RateLimiter.allow in El. cbn [RateLimiter.redis_ RateLimiter.limit_] in El.
  destruct (_ || _); [injection El as _ <-; by apply Hw|].
  destruct (redis (Server.world s)) as [r0|] eqn:Er; [|injection El as _ <-; cbn in Hr; congruence].
  destruct (negb _); [injection El as _ <-; cbn in Hr; injection Hr as <-; by apply Hw|].
  destruct (RedisClient.sliding_window_allow _ _ _ _ _ r0) as [b r1] eqn:Es. injection El as _ <-. injection Hr as <-.
  change r1 with (snd (b, r1)). rewrite <- Es. apply (sliding_calm hash_field L). by apply Hw.
Qed.

(** ** Requests *)

(** Steps that leave the object store alone. *)
Definition same_fs (s s' : Server.Server) : Prop := fs (Server.world s') = fs (Server.world s).
#[export] Instance same_fs_preorder : PreOrder same_fs.
Proof. unfold same_fs. split; [done|]. intros s1 s2 s3. congruence. Qed.

Lemma world_same_fs {A} (m : M World A) : steps idle m → steps same_fs (Server.on_world m).
Proof. intros Hm s. unfold Server.on_world. specialize (Hm (Server.world s)). destruct (m _) as [r w]. by destruct Hm. Qed.
Lemma update_same_fs f : (∀ s, Server.world (f s) = Server.world s) → steps same_fs (Server.update f).
Proof. intros Hf s. unfold same_fs. cbn. by rewrite Hf. Qed.
Lemma send_same_fs conn t : steps same_fs (Server.send conn t).
Proof. by apply world_same_fs. Qed.
Lemma response_same_fs conn k : steps same_fs (Server.send_response conn k).
Proof.
  unfold Server.send_response. apply steps_bind; [apply steps_get|]. intros s. destruct (HttpResponse.send_response _ _).
  apply steps_bind; [by apply update_same_fs|]. intros _. apply send_same_fs.
Qed.
Lemma upgrade_same_fs t conn req : steps same_fs (WsUpgrade.try_handle_upgrade S t conn req).
Proof.
  assert (∀ c m, steps same_fs (Server.on_world (set_error c m))) by (intros; apply world_same_fs, idle_resp).
  assert (∀ f, steps same_fs (Server.on_world (on_ws f))) by (intros; by apply world_same_fs).
  assert (∀ f, steps same_fs (Server.on_world (set_resp f))) by (intros; by apply world_same_fs).
  assert (∀ i v, steps same_fs (Server.on_world (WsUpgrade.upload_session_owned_by i v))).
  { intros i v. apply world_same_fs. unfold WsUpgrade.upload_session_owned_by.
    apply steps_bind; [apply idle_redis|intros; apply steps_ret]. }
  assert (∀ f, (∀ s, Server.world (f s) = Server.world s) → steps same_fs (Server.update f)) as Hup by apply update_same_fs.
  pose proof send_same_fs. pose proof response_same_fs.
  unfold WsUpgrade.try_handle_upgrade, WsUpgrade.send_http_error, Server.fresh_response. cbv zeta.
  repeat (step_rule || (apply Hup; done)).
Qed.
Lemma limit_same_fs a req : steps same_fs (Pipeline.within_limit G a req).
Proof.
  unfold Pipeline.within_limit. case_match; [apply steps_ret|]. intros s. unfold Pipeline.allow.
  by destruct (RateLimiter.allow _ _ _) as [ok l].
Qed.

Lemma keeps_then {A B} u (m : M Server.Server A) (k : A → M Server.Server B) s :
  keeps_for u s (snd (m s)) → (∀ a, steps (keeps_for u) (k a)) → keeps_for u s (snd ((m ≫= k) s)).
Proof.
  intros Hm Hk. unfold mbind, M_mbind. destruct (m s) as [[a|e] s1]; cbn [snd] in *; [|done]. transitivity s1; [done|apply Hk].
Qed.
Lemma same_fs_then {A B} u (m : M Server.Server A) (k : A → M Server.Server B) s :
  steps (keeps_for u) m → steps same_fs m → (∀ a s1, same_fs s s1 → keeps_for u s1 (snd (k a s1))) →
  keeps_for u s (snd ((m ≫= k) s)).
Proof.
  intros Hm Hs Hk. specialize (Hm s). specialize (Hs s). unfold mbind, M_mbind.
  destruct (m s) as [[a|e] s1]; cbn [snd] in *; [|done]. transitivity s1; [done|by apply Hk].
Qed.

(** The request can be stored, when its route stores it. *)
Definition request_storable (req : HttpRequest) (s : Server.Server) : Prop :=
  ∀ e q, route_of req = Some (e, q) → storable e (body_ req) (fs (Server.world s)).

Lemma dispatch_keeps a req s : request_storable req s →
  keeps_for (auth_user_id_ req) s (snd (Api.dispatch S G a req s)).
Proof using L.
  intros Hst. rewrite dispatch_route. unfold request_storable in Hst.
  destruct (route_of req) as [[e q]|] eqn:Er; [|apply error_keeps]. specialize (Hst e q eq_refl).
  rewrite route_of_rows in Er. apply find_row_kept in Er as [<- Hb]. rewrite <- Hb in Hst.
  assert (keeps_for (auth_user_id_ q) s (snd (Server.on_world (Api.in_world S G a e q) s))) as Hw.
  { intros Hok. revert Hok. unfold Server.on_world. destruct (Api.in_world S G a e q (Server.world s)) as [r w] eqn:Ew.
    intros Hok. cbn [snd]. assert (w = snd (Api.in_world S G a e q (Server.world s))) as -> by by rewrite Ew.
    apply keeps_for_world; [|by apply endpoint_sess|done]. by apply endpoint_served, Hok. }
  destruct e; try exact Hw. cbn [Api.handle]. unfold Api.metrics_route.
  apply (steps_bind (R := keeps_for (auth_user_id_ q)) get_st _ (steps_get)). intros s'. apply set_resp_keeps.
Qed.

(** On whose behalf a request acts: nobody's on the public paths. *)
Definition requester (a : Ambient) (req : HttpRequest) : string :=
  if AuthMiddleware.is_whitelisted (path_ req) then ""
  else Jwt.auth_user (Jwt.authenticate (hmac S) (secret S) (now a) req).

Lemma authenticated_keeps a conn k req s : auth_user_id_ req = "" → request_storable req s →
  keeps_for (requester a req) s (snd (Pipeline.authenticated_dispatch S G a conn k req s)).
Proof using L.
  intros Hu Hst. unfold Pipeline.authenticated_dispatch, requester.
  destruct (AuthMiddleware.is_whitelisted (path_ req)).
  - apply keeps_then; [rewrite <- Hu; by apply dispatch_keeps|]. intros _. apply finish_keeps.
  - cbv zeta. set (auth := Jwt.authenticate _ _ _ _). destruct (Jwt.authenticated auth); cbn [negb].
    + apply keeps_then; [|intros _; apply finish_keeps].
      apply (dispatch_keeps a (set_auth_user (Jwt.auth_user auth) (Jwt.auth_name auth) req)).
      intros e q Hr. rewrite route_of_rows, find_row_user, <- route_of_rows in Hr.
      destruct (route_of req) as [[e' q']|] eqn:Er; [|done]. injection Hr as <- <-. by eapply Hst.
    + apply keeps_then; [apply error_keeps|]. intros _. apply finish_keeps.
Qed.

Lemma request_keeps a conn req s : auth_user_id_ req = "" → request_storable req s →
  keeps_for (requester a req) s (snd (Pipeline.on_request S G a conn req s)).
Proof using L.
  intros Hu Hst. unfold Pipeline.on_request.
  apply same_fs_then; [apply upgrade_keeps|apply upgrade_same_fs|]. intros up s1 H1. destruct up; [cbn; reflexivity|].
  apply same_fs_then; [apply fresh_keeps|by apply world_same_fs|]. intros _ s2 H2.
  apply same_fs_then; [apply steps_get|apply steps_get|]. intros s2' s3 H3. cbv zeta.
  apply same_fs_then; [by apply update_keeps|by apply update_same_fs|]. intros _ s4 H4.
  apply same_fs_then; [apply steps_get|apply steps_get|]. intros s4' s5 H5. destruct (if bool_decide _ then _ else _) as [served r].
  apply same_fs_then; [apply set_resp_keeps|by apply world_same_fs|]. intros _ s6 H6.
  destruct served; [apply finish_keeps|].
  apply same_fs_then; [apply limit_keeps|apply limit_same_fs|]. intros ok s7 H7.
  destruct ok; cbn [negb].
  - apply authenticated_keeps; [done|]. intros e q Hr. unfold same_fs in *.
    rewrite H7, H6, H5, H4, H3, H2, H1. by eapply Hst.
  - apply keeps_then; [apply set_resp_keeps|]. intros _. apply finish_keeps.
Qed.

(** ** The collector's batches *)

Lemma purge_all_served u t l w : NoDup (c_id <$> l) → (∀ r, r ∈ l → r ∈ contents (db w)) →
  served S u w (snd (ContentGc.purge_all S t (ContentDao.row_to_content <$> l) w)).
Proof.
  revert t w. induction l as [|r l IH]; intros t w Hnd Hl; [cbn; reflexivity|]. apply served_ok. intros Hst.
  rewrite fmap_cons in Hnd. apply NoDup_cons in Hnd as [Hni Hnd].
  assert (r ∈ contents (db w)) as Hr by (apply Hl; by left). pose proof (purge_served S u w r Hr) as Hserved.
  pose proof (purge_content_run S w r Hst Hr) as Hrun. cbv zeta in Hrun.
  cbn [fmap list_fmap ContentGc.purge_all]. unfold mbind, M_mbind.
  destruct (existsb (ContentDao.refers (c_id r)) (files (db w))).
  - rewrite Hrun. apply IH; [done|]. intros r' Hr'. apply Hl. by right.
  - destruct Hrun as (f'&Hrun&_). rewrite Hrun in *. cbn [snd] in *.
    etransitivity; [exact Hserved|]. apply IH; [done|]. intros r' Hr'. apply list_elem_of_filter.
    split; [|apply Hl; by right]. intros Heq. apply Hni. rewrite <- Heq. by apply list_elem_of_fmap_2.
Qed.

Lemma collect_orphans_served u n w : served S u w (snd (ContentGc.collect_orphans S n w)).
Proof.
  apply served_ok. intros (Hok&_). unfold ContentGc.collect_orphans. erewrite bind_run.
  2:{ erewrite on_db_run; [by rewrite with_db_id|]. done. }
  assert (∀ r, r ∈ take (Z.to_nat n) (pg_scan (filter (λ r, ContentDao.orphan (db w) r = true) (contents (db w)))) →
    r ∈ filter (λ r, ContentDao.orphan (db w) r = true) (contents (db w))) as Hsub.
  { intros r Hr. rewrite <- (pg_scan_perm (filter _ _)). eapply elem_of_submseteq; [exact Hr|].
    apply sublist_submseteq, sublist_take. }
  apply purge_all_served.
  - eapply sublist_NoDup; [|apply fmap_sublist, sublist_take]. rewrite pg_scan_perm. apply Constraints.NoDup_fmap_filter, Hok.
  - intros r [_ Hr]%Hsub%list_elem_of_filter. done.
Qed.

(** * Events *)

Inductive event :=
  | Request (a : Ambient) (conn : nat) (req : HttpRequest)
  | Connected (conn : nat)
  | Disconnected (conn : nat)
  | WsData (conn : nat) (data : string)
  | FiveSeconds
  | Hour
  | DbTime (now : Z).

Definition run_event (e : event) : M Server.Server () :=
  match e with
  | Request a conn req => Pipeline.on_request S G a conn req
  | Connected conn => Pipeline.on_connected conn
  | Disconnected conn => Pipeline.on_disconnected conn
  | WsData conn data => _ ← Pipeline.on_frame conn data; mret ()
  | FiveSeconds => Pipeline.every_5_seconds
  | Hour => Pipeline.every_hour S
  | DbTime now => Server.on_world (on_db (Constraints.tick now))
  end.

(** The parser hands over requests without a user; what a request stores is kept
    by the disk and does not collide; time does not run backwards. *)
Definition event_ok (e : event) (s : Server.Server) : Prop :=
  match e with
  | Request _ _ req => auth_user_id_ req = "" ∧ request_storable req s
  | DbTime now => (clock (db (Server.world s)) ≤ now)%Z
  | _ => True
  end.

Definition on_behalf (e : event) : string := match e with Request a _ req => requester a req | _ => "" end.

Inductive step (e : event) (s : Server.Server) : Server.Server → Prop :=
  | step_run : event_ok e s → step e s (snd (run_event e s)).

Lemma hour_keeps u : steps (keeps_for u) (Pipeline.every_hour S).
Proof.
  unfold Pipeline.every_hour. apply steps_bind.
  { apply on_world_keeps; [|auto with solar]. apply on_db_served.
    apply revoke_expired_quiet. }
  intros _. apply steps_bind; [|intros; apply steps_ret]. apply on_world_keeps; [intros w; apply collect_orphans_served|].
  unfold ContentGc.collect_orphans. apply steps_bind; [auto with solar|]. intros l. apply purge_all_sess.
Qed.

Lemma send_all_keeps u conn l : steps (keeps_for u) (Pipeline.send_all conn l).
Proof.
  induction l as [|t l IH]; [apply steps_ret|]. apply (steps_bind (R := keeps_for u)); [apply send_keeps|done].
Qed.

Lemma frame_keeps u conn data : steps (keeps_for u) (Pipeline.on_frame conn data).
Proof.
  apply (steps_bind (R := keeps_for u)); [apply steps_lift|]. intros r.
  apply (steps_bind (R := keeps_for u)); [apply send_all_keeps|]. intros. apply steps_ret.
Qed.

Lemma step_keeps e s s' : step e s s' → keeps_for (on_behalf e) s s'.
Proof using L.
  intros [Hok]. destruct e; cbn [run_event on_behalf event_ok] in *.
  - destruct Hok. by apply request_keeps.
  - by apply keeps_for_world; cbn.
  - unfold Pipeline.on_disconnected. apply (steps_bind (R := keeps_for "")); [by apply update_keeps|]. intros _.
    apply on_world_keeps; auto with solar.
  - apply (steps_bind (R := keeps_for "")); [apply frame_keeps|]. intros. apply steps_ret.
  - unfold Pipeline.every_5_seconds. apply (steps_bind (R := keeps_for "")); [apply steps_get|]. intros s0.
    apply on_world_keeps; auto with solar.
  - apply hour_keeps.
  - apply keeps_for_world; [|by apply sess_same]. intros (Hd&Hs&Hrows). split; [split_and!; [by apply (Constraints.tick_keeps now)|done|done]|].
    split; [|by intros o f c]. split; [by split_and!|]. intros o _. split_and!; [done..|]. by apply (shares_same o (db (Server.world s))).
Qed.

Definition next (s s' : Server.Server) : Prop := ∃ e, step e s s'.

Lemma reachable_ok s s' : rtc next s s' → server_ok s → server_ok s'.
Proof using L. induction 1 as [|s1 s2 s3 [e He] _ IH]; [done|]. intros Hs. apply IH. by apply (step_keeps _ _ _ He). Qed.

(** What an owner sees: files, folders, shares, and the content behind the files. *)
Definition kept_of (o : string) (w w' : World) : Prop :=
  files_of o (db w') = files_of o (db w) ∧ folders_of o (db w') = folders_of o (db w) ∧
  ((clock (db w) ≤ clock (db w'))%Z ∧ shares_kept o (db w) (db w')) ∧
  ∀ f c, f ∈ files_of o (db w) → c ∈ contents (db w) → c_id c = f_content f →
    c ∈ contents (db w') ∧ ∀ h, h ∈ row_chunks c → ObjectStore.object (base_path S) (fs w') h = ObjectStore.object (base_path S) (fs w) h.

(** An event that is not on behalf of the owner. *)
Definition next_by_others (o : string) (s s' : Server.Server) : Prop :=
  ∃ e, uuid_in (on_behalf e) ≠ Some o ∧ step e s s'.

Lemma others_next o s s' : rtc (next_by_others o) s s' → server_ok s →
  server_ok s' ∧ kept_of o (Server.world s) (Server.world s').
Proof using L.
  induction 1 as [s|s1 s2 s3 (e&Hne&He) _ IH]; intros Hs.
  { split; [done|]. split_and!; try done. by apply shares_same. }
  destruct (step_keeps _ _ _ He Hs) as [Hs2 [[(_&_&Hck) Ho] Hc]]. destruct (IH Hs2) as [Hs3 (Hf&Hd&[Hck2 Hsh]&Hk)]. split; [done|].
  destruct (Ho o Hne) as (Hf2&Hd2&Hsh2). split_and!; [congruence|congruence|lia|by eapply shares_kept_trans|]. intros f c Hin Hcin Hid.
  destruct (Hc o f c Hne Hin Hcin Hid) as [Hc2 Hob2]. destruct (Hk f c) as [Hc3 Hob3]; [by rewrite Hf2|done..|].
  split; [done|]. intros h Hh. by rewrite Hob3, Hob2.
Qed.

End server.

End ServerSafety.
