(* ===== verification/Answers.v ===== *)
(** How the server answers: every request that is dealt with as HTTP gets one
    response on its connection, and requests without a valid token get no further
    than the answer 401. *)
From S2P Require Import Prelude Steps JsonValue HttpMessage HttpRouter Jwt ObjectStore Database Daos Redis WsCodec World.
From S2P Require Import Gc Files FoldersAccounts Multipart Shares Server Frames ServerSafety.
Import World HttpRequest ServerSafety.

Module Answers.

Section answers.
Context {R : RedisServer} {J : JsonText} {P : Postgres} {EV : Evp} {C : Calendar} {O : HashOrder}
  {K : WsHandshake.Handshake} (S : Settings) (G : Process).

(** Nothing is sent to a connection the session manager does not know. *)
Definition silent_to (conn : nat) (m m' : WsSession.WsSessionManager) : Prop :=
  WsSession.unknown conn m → WsSession.unknown conn m' ∧ WsSession.sent_to conn m' = WsSession.sent_to conn m.

#[export] Instance silent_preorder conn : PreOrder (silent_to conn).
Proof. split; [by intros m H|]. intros m1 m2 m3 H1 H2 Hu. destruct (H1 Hu) as [Hu2 <-]. by apply H2. Qed.

Lemma silent_send conn c j m : WsSession.sessions_ m !! j = Some c → ∀ t, silent_to conn m (WsSession.send_text_frame c t m).
Proof. intros Hc t Hu. split; [by apply WsSession.send_unknown|]. apply WsSession.send_other. intros ->. by apply (proj1 Hu j). Qed.

#[export] Instance silent_frame conn : Frame (λ w w', silent_to conn (ws w) (ws w')).
Proof.
  split; try (intros; cbn; reflexivity).
  - split; [intros w; reflexivity|]. intros w1 w2 w3. apply silent_preorder.
  - intros u p b t w. cbn. unfold WsSession.push_progress. destruct (WsSession.sessions_ (ws w) !! u) eqn:E; [|reflexivity].
    by eapply silent_send.
  - intros u f w. cbn. unfold WsSession.push_complete. destruct (WsSession.sessions_ (ws w) !! u) eqn:E; [|reflexivity].
    by eapply silent_send.
Qed.

(** Between the reading of a request and its answer: nothing is sent to its
    connection, and the metrics, the counts and the pending closes stay. *)
Definition calm (conn : nat) (s s' : Server.Server) : Prop :=
  silent_to conn (ws (Server.world s)) (ws (Server.world s')) ∧ Server.metrics s' = Server.metrics s ∧
  Server.request_count s' = Server.request_count s ∧ Server.closing s' = Server.closing s ∧
  Server.upgraded s' = Server.upgraded s.

#[export] Instance calm_preorder conn : PreOrder (calm conn).
Proof.
  split; [intros s; by split; [reflexivity|]|]. intros s1 s2 s3 (H1&H2&H3&H4&H4') (H5&H6&H7&H8&H8').
  split_and!; [by transitivity (ws (Server.world s2))|congruence..].
Qed.

Lemma on_world_calm {A} conn (m : M World A) : steps (λ w w', silent_to conn (ws w) (ws w')) m → steps (calm conn) (Server.on_world m).
Proof. intros Hm s. specialize (Hm (Server.world s)). unfold Server.on_world. by destruct (m (Server.world s)). Qed.

Lemma dispatch_calm a conn req : steps (calm conn) (Api.dispatch S G a req).
Proof.
  intros s. rewrite dispatch_route. destruct (route_of req) as [[e q]|].
  - assert (steps (calm conn) (Api.handle S G a e q)) as H; [|apply H].
    assert (steps (calm conn) (Server.on_world (Api.in_world S G a e q))) as Hw.
    { apply on_world_calm, Frames.endpoint_rel, _. }
    destruct e; try exact Hw. cbn [Api.handle]. unfold Api.metrics_route. apply steps_bind; [apply steps_get|].
    intros s0. apply on_world_calm, (Frames.set_resp_rel _).
  - apply (on_world_calm conn (set_error 404 "Not Found")), (Frames.set_error_rel _).
Qed.

Lemma limit_calm a conn req : steps (calm conn) (Pipeline.within_limit G a req).
Proof.
  intros s. unfold Pipeline.within_limit. destruct (RateLimiter.is_exempt _); [cbn; reflexivity|].
  unfold Pipeline.allow. cbv zeta. destruct (RateLimiter.allow _ _ _). cbn. by split.
Qed.

(** A response in the metrics. *)
Definition count_response (status : Z) (m : Metrics.Metrics) : Metrics.Metrics :=
  if bool_decide (400 ≤ status)%Z then Metrics.inc_errors (Metrics.inc_requests m) else Metrics.inc_requests m.

(** What the answer [finish] writes on the connection changes. *)
Definition answered (conn : nat) (keep_alive : bool) (s s' : Server.Server) : Prop :=
  WsSession.unknown conn (ws (Server.world s)) →
  WsSession.unknown conn (ws (Server.world s')) ∧
  WsSession.sent_to conn (ws (Server.world s')) =
    WsSession.sent_to conn (ws (Server.world s)) ++ [(conn, fst (HttpResponse.send_response (resp (Server.world s')) keep_alive))] ∧
  Server.metrics s' = count_response (HttpResponse.status_code_ (resp (Server.world s'))) (Server.metrics s) ∧
  Server.request_count s' = Server.request_count s ∧ Server.upgraded s' = Server.upgraded s ∧
  (conn ∈ Server.closing s' ↔ keep_alive = false).

Lemma finish_answers conn ka s s' : Server.finish conn ka s = (Ok (), s') → answered conn ka s s'.
Proof.
  intros Hf Hu. unfold Server.finish in Hf. rewrite (bind_run Server.record_response_metrics _ _ _ _ eq_refl) in Hf.
  unfold Server.send_response in Hf. rewrite (bind_run get_st _ _ _ _ eq_refl) in Hf.
  destruct (HttpResponse.send_response _ ka) as [payload close] eqn:Ep.
  assert (close = negb ka) as -> by (by unfold HttpResponse.send_response in Ep; injection Ep).
  injection Hf as <-. unfold Server.on_world. cbn. split_and!; try done.
  - unfold WsSession.sent_to. cbn. rewrite filter_app. f_equal. rewrite filter_cons, decide_True by done. cbn.
    do 2 f_equal. change payload with (fst (payload, negb ka)). rewrite <- Ep. done.
  - destruct ka; cbn; set_solver.
Qed.

Lemma answered_after conn ka s s1 s' : calm conn s s1 → answered conn ka s1 s' → answered conn ka s s'.
Proof.
  intros (Hw&Hm&Hc&_&Hg) Ha Hu. destruct (Hw Hu) as [Hu1 Hs]. destruct (Ha Hu1) as (H1&H2&H3&H4&H5&H6).
  by rewrite H2, Hs, H3, Hm, H4, Hc, H5, Hg.
Qed.

Lemma then_finish {A} (m : M Server.Server A) conn ka s s' : steps (calm conn) m →
  (_ ← m; Server.finish conn ka) s = (Ok (), s') → answered conn ka s s'.
Proof.
  intros Hm (x&s1&Hx&Hf)%bind_ok. eapply answered_after; [|by apply finish_answers].
  specialize (Hm s). by rewrite Hx in Hm.
Qed.

Lemma authenticated_answers a conn ka req s s' :
  Pipeline.authenticated_dispatch S G a conn ka req s = (Ok (), s') → answered conn ka s s'.
Proof.
  unfold Pipeline.authenticated_dispatch. destruct (AuthMiddleware.is_whitelisted _); [apply then_finish, dispatch_calm|].
  cbv zeta. destruct (Jwt.authenticated _); cbn [negb]; [apply then_finish, dispatch_calm|].
  apply then_finish. apply (on_world_calm conn (set_error _ _)), (Frames.set_error_rel _).
Qed.

(** The state in which an HTTP request's callback goes on: a response of its own
    and the request counted. *)
Definition counted (conn : nat) (s : Server.Server) : Server.Server :=
  Server.with_counts (<[conn := wrap_i32 (default 0%Z (Server.request_count s !! conn) + 1)]> (Server.request_count s))
    (Server.with_world (with_resp HttpResponse.empty (Server.world s)) s).

Definition keeps_alive (conn : nat) (req : HttpRequest) (s : Server.Server) : bool :=
  wants_keep_alive req && bool_decide (default 0%Z (Server.request_count s !! conn) < Pipeline.kMaxKeepAliveRequests)%Z.

(** Static files, the limiter and the authenticated part, in this order. *)
Definition serve (a : Ambient) (conn : nat) (ka : bool) (req : HttpRequest) : M Server.Server () :=
  s ← get_st;
  let '(served, r) := if bool_decide (method_ req = GET)
    then StaticHandler.try_serve (read_web G) (web_dir G) req (resp (Server.world s)) else (false, resp (Server.world s)) in
  _ ← Server.on_world (set_resp (λ _, r));
  if (served : bool) then Server.finish conn ka
  else
    ok ← Pipeline.within_limit G a req;
    if negb ok then _ ← Server.on_world (set_resp Pipeline.too_many); Server.finish conn ka
    else Pipeline.authenticated_dispatch S G a conn ka req.

Lemma on_request_cases a conn req s :
  Pipeline.on_request S G a conn req s =
  match WsUpgrade.try_handle_upgrade S (now a) conn req s with
  | (Ok true, s1) => (Ok (), s1)
  | (Ok false, s1) => serve a conn (keeps_alive conn req s1) req (counted conn s1)
  | (Throw e, s1) => (Throw e, s1)
  end.
Proof.
  unfold Pipeline.on_request. destruct (WsUpgrade.try_handle_upgrade S (now a) conn req s) as [[[|]|e] s1] eqn:E.
  - by rewrite (bind_run _ _ _ _ _ E).
  - rewrite (bind_run _ _ _ _ _ E). cbv iota.
    rewrite (bind_run Server.fresh_response _ _ _ _ eq_refl), (bind_run get_st _ _ _ _ eq_refl). cbv zeta.
    by rewrite (bind_run (Server.update _) _ _ _ _ eq_refl).
  - by rewrite (bind_throw _ _ _ _ _ E).
Qed.

(** The requests the server deals with as WebSocket handshakes: all others are HTTP
    requests to it, whatever they ask to be upgraded to. *)
Definition upgrades (req : HttpRequest) : bool :=
  bool_decide (method_ req = GET) && WsUpgrade.is_websocket_upgrade req && negb (sempty (get_header "Sec-WebSocket-Key" req)) &&
  (bool_decide (path_ req = "/ws/metrics") || starts_with "/ws/upload/" (path_ req)).

Lemma upgrade_declined t conn req s : upgrades req = false → WsUpgrade.try_handle_upgrade S t conn req s = (Ok false, s).
Proof.
  unfold upgrades, WsUpgrade.try_handle_upgrade. cbv zeta. case_bool_decide; [|done]. cbn [negb orb andb].
  destruct (WsUpgrade.is_websocket_upgrade req); [|done]. cbn [negb orb andb]. destruct (sempty _); [done|]. cbn [negb andb].
  case_bool_decide; [done|]. cbn [orb]. by intros ->.
Qed.

(** No path of the API is a handshake's. *)
Lemma api_not_upgraded req : starts_with "/api/" (path_ req) = true → upgrades req = false.
Proof.
  intros Hp. unfold upgrades. apply starts_with_iff in Hp as [rest ->].
  assert (bool_decide ("/api/" +:+ rest = "/ws/metrics") = false) as -> by (by apply bool_decide_eq_false_2).
  by rewrite andb_false_r.
Qed.

Lemma on_request_run a conn req s : upgrades req = false →
  Pipeline.on_request S G a conn req s = serve a conn (keeps_alive conn req s) req (counted conn s).
Proof.
  intros Hu. rewrite on_request_cases. by rewrite upgrade_declined.
Qed.

Lemma serve_answers a conn ka req s s' : serve a conn ka req s = (Ok (), s') → answered conn ka s s'.
Proof.
  unfold serve. intros (s0&s1&[-> ->]%get_ok&H)%bind_ok. destruct (if bool_decide _ then _ else _) as [served r].
  apply bind_ok in H as (u&s2&Hset&H). apply (answered_after _ _ _ s2).
  { pose proof (on_world_calm conn _ (Frames.set_resp_rel (λ w w', silent_to conn (ws w) (ws w')) (λ _, r)) s) as Hc.
    by rewrite Hset in Hc. }
  destruct served; [by apply finish_answers|]. apply bind_ok in H as (ok&s3&Hl&H). apply (answered_after _ _ _ s3).
  { pose proof (limit_calm a conn req s2) as Hc. by rewrite Hl in Hc. }
  destruct ok; cbn [negb] in H; [by eapply authenticated_answers|].
  eapply then_finish; [|exact H]. apply on_world_calm, (Frames.set_resp_rel _).
Qed.

(** One request, one response: a request that is not a WebSocket handshake and whose
    handling ends normally, on a connection of plain HTTP, adds to what its connection
    is sent exactly one message, the text of the response the request ended with; it
    is counted as one request, and as one error exactly if its status is 400 or more;
    and the connection is left to close after it exactly if the request does not keep
    it alive or is the connection's thousandth or later. *)
Theorem one_response (a : Ambient) (conn : nat) (req : HttpRequest) (s s' : Server.Server)
    (Hup : upgrades req = false) (Hu : WsSession.unknown conn (ws (Server.world s)))
    (Hrun : Pipeline.on_request S G a conn req s = (Ok (), s')) :
  WsSession.sent_to conn (ws (Server.world s')) = WsSession.sent_to conn (ws (Server.world s)) ++
    [(conn, HttpResponse.serialize (HttpResponse.set_close_connection (negb (keeps_alive conn req s)) (resp (Server.world s'))))] ∧
  Server.metrics s' = count_response (HttpResponse.status_code_ (resp (Server.world s'))) (Server.metrics s) ∧
  Server.request_count s' !! conn = Some (wrap_i32 (default 0%Z (Server.request_count s !! conn) + 1)) ∧
  (conn ∈ Server.closing s' ↔ keeps_alive conn req s = false).
Proof.
  rewrite on_request_run in Hrun by done. apply serve_answers in Hrun. destruct (Hrun Hu) as (_&H1&H2&H3&_&H4).
  split_and!; [exact H1|exact H2| |exact H4]. rewrite H3. cbn. by rewrite lookup_insert_eq.
Qed.

(** A plain message always makes an error response. *)
Lemma set_error_plain c m w : forallb ascii7 [m] = true → ∃ r,
  set_error c m w = (Ok (), with_resp r w) ∧ HttpResponse.status_code_ r = c.
Proof.
  intros Hm. destruct (json_dump_ascii (JObj [("error", JStr m)])) as (t&Ht&_); [done|].
  unfold set_error, on_resp, HttpResponse.set_error. rewrite Ht. by eexists.
Qed.

Lemma refused_plain t req : forallb ascii7 [Jwt.error_msg (Jwt.authenticate (hmac S) (secret S) t req)] = true.
Proof.
  unfold Jwt.authenticate. destruct (AuthMiddleware.is_whitelisted _); [done|]. cbv zeta. destruct (sempty _); [done|].
  destruct (Jwt.extract_token _); [|done]. by destruct (Jwt.verify _ _ _ _).
Qed.

(** The last lines of a request's callback: the response as it is goes out. *)
Lemma finish_run conn ka s : ∃ s', Server.finish conn ka s = (Ok (), s') ∧ db (Server.world s') = db (Server.world s) ∧
  fs (Server.world s') = fs (Server.world s) ∧ resp (Server.world s') = resp (Server.world s) ∧
  WsSession.sent (ws (Server.world s')) = WsSession.sent (ws (Server.world s)) ++
    [(conn, HttpResponse.serialize (HttpResponse.set_close_connection (negb ka) (resp (Server.world s))))].
Proof. eexists. split; [reflexivity|]. by destruct ka. Qed.

(** What the limiter says of a request, and that it changes neither data nor messages. *)
Lemma limit_run a req s s0 : redis (Server.world s0) = redis (Server.world s) → Server.seq_ s0 = Server.seq_ s →
  ∃ ok s', Pipeline.within_limit G a req s = (Ok ok, s') ∧ fst (Pipeline.within_limit G a req s0) = Ok ok ∧
  db (Server.world s') = db (Server.world s) ∧ fs (Server.world s') = fs (Server.world s) ∧
  ws (Server.world s') = ws (Server.world s).
Proof.
  intros Hr Hq. unfold Pipeline.within_limit, Pipeline.allow. destruct (RateLimiter.is_exempt _); [by exists true, s|].
  cbv zeta. rewrite Hr, Hq. destruct (RateLimiter.allow _ _ _) as [ok l]. by exists ok; eexists.
Qed.

(** C11. Nothing happens without a token: a request to a protected API path whose
    token is missing, malformed, forged or expired is always answered, with 401, or
    with 429 exactly when the limiter refuses its address: one message goes out, the
    text of that answer, to its own connection, and neither the database nor the
    store is changed, whatever its method, headers and body. *)
Theorem unauthenticated_refused (a : Ambient) (conn : nat) (req : HttpRequest) (s : Server.Server)
    (Hapi : starts_with "/api/" (path_ req) = true) (Hw : AuthMiddleware.is_whitelisted (path_ req) = false)
    (Ha : Jwt.authenticated (Jwt.authenticate (hmac S) (secret S) (now a) req) = false) :
  ∃ ok s', fst (Pipeline.within_limit G a req s) = Ok ok ∧ Pipeline.on_request S G a conn req s = (Ok (), s') ∧
    HttpResponse.status_code_ (resp (Server.world s')) = (if (ok : bool) then 401 else 429)%Z ∧
    WsSession.sent (ws (Server.world s')) = WsSession.sent (ws (Server.world s)) ++
      [(conn, HttpResponse.serialize (HttpResponse.set_close_connection (negb (keeps_alive conn req s)) (resp (Server.world s'))))] ∧
    db (Server.world s') = db (Server.world s) ∧ fs (Server.world s') = fs (Server.world s).
Proof.
  rewrite on_request_run by by apply api_not_upgraded. set (s1 := counted conn s). generalize (keeps_alive conn req s). intros ka.
  unfold serve. rewrite (bind_run get_st _ _ _ _ eq_refl).
  assert ((if bool_decide (method_ req = GET) then StaticHandler.try_serve (read_web G) (web_dir G) req (resp (Server.world s1))
    else (false, resp (Server.world s1))) = (false, resp (Server.world s1))) as ->.
  { case_bool_decide as Hm; [|done]. unfold StaticHandler.try_serve. by rewrite bool_decide_eq_true_2, Hapi. }
  rewrite (bind_run (Server.on_world (set_resp (λ _, resp (Server.world s1)))) _ _ _ _ eq_refl). set (s2 := Server.with_world _ s1).
  destruct (limit_run a req s2 s eq_refl eq_refl) as (ok&s3&Hl&Hok&Hd&Hf&Hs). rewrite (bind_run _ _ _ _ _ Hl).
  exists ok. destruct ok; cbn [negb].
  - unfold Pipeline.authenticated_dispatch. rewrite Hw. cbv zeta. rewrite Ha. cbn [negb].
    destruct (set_error_plain 401 _ (Server.world s3) (refused_plain (now a) req)) as (r&He&Hr).
    assert (Server.on_world (set_error 401 (Jwt.error_msg (Jwt.authenticate (hmac S) (secret S) (now a) req))) s3 =
      (Ok (), Server.with_world (with_resp r (Server.world s3)) s3)) as Hset by (unfold Server.on_world; by rewrite He).
    rewrite (bind_run _ _ _ _ _ Hset).
    destruct (finish_run conn ka (Server.with_world (with_resp r (Server.world s3)) s3)) as (s'&->&H1&H2&H3&H4).
    exists s'. rewrite H3, H4, H1, H2. cbn. by rewrite Hs.
  - rewrite (bind_run (Server.on_world (set_resp Pipeline.too_many)) _ _ _ _ eq_refl).
    match goal with |- context [Server.finish conn ka ?x] => destruct (finish_run conn ka x) as (s'&->&H1&H2&H3&H4) end.
    exists s'. rewrite H3, H4, H1, H2. cbn. by rewrite Hs.
Qed.

End answers.

End Answers.
