(* ===== verification/Connections.v ===== *)
(** From bytes to requests: the connection and message callbacks of main.cpp on the
    state of a connection (its parser or WebSocket handler and its unread bytes),
    for all connections of the process, and what they make of the byte streams. *)
From S2P Require Import Prelude Steps JsonValue HttpMessage HttpParser HttpRouter Jwt ObjectStore Database Daos Redis WsCodec World.
From S2P Require Import Gc Files FoldersAccounts Multipart Shares Server Frames ServerSafety Answers.
From stdpp Require Import relations.
Import World HttpRequest ServerSafety Answers.

Module Connections.

Section connections.
Context {R : RedisServer} {J : JsonText} {P : Postgres} {EV : Evp} {C : Calendar} {O : HashOrder}
  {K : WsHandshake.Handshake} (S : Settings) (G : Process).

(** What the connections' contexts add to the server: the parser of each, and the
    bytes of its input buffer that no callback has taken yet. *)
Record Service := mk {
  server : Server.Server;
  parsers : gmap nat HttpParser.HttpParser;
  inputs : gmap nat string
}.

Definition with_server (s : Server.Server) (x : Service) : Service := mk s (parsers x) (inputs x).
Definition with_parser (conn : nat) (p : HttpParser.HttpParser) (x : Service) : Service :=
  mk (server x) (<[conn := p]> (parsers x)) (inputs x).
Definition with_input (conn : nat) (data : string) (x : Service) : Service :=
  mk (server x) (parsers x) (<[conn := data]> (inputs x)).

Definition on_server {A} (m : M Server.Server A) : M Service A := λ x,
  let '(r, s) := m (server x) in (r, with_server s x).

Definition update (f : Service → Service) : M Service () := λ x, (Ok (), f x).

(** [HttpParser::feed] with the callback of main.cpp; [a i] is what the [i]-th
    request of this call finds outside the program. *)
Fixpoint feed (a : nat → Ambient) (conn i : nat) (p : HttpParser.HttpParser) (data : string) (s : Server.Server) :
    result () * HttpParser.HttpParser * Server.Server :=
  match data with
  | "" => (Ok (), p, s)
  | String c data' =>
      match HttpParser.parse_char c p with
      | (Throw e, p1) => (Throw e, p1, s)
      | (Ok _, p1) =>
          if HttpParser.complete_ p1 then
            match Pipeline.on_request S G (a i) conn (HttpParser.cur_req_ p1) s with
            | (Ok _, s1) => feed a conn (i + 1) (HttpParser.reset p1) data' s1
            | (Throw e, s1) => (Throw e, p1, s1)
            end
          else feed a conn i p1 data' s
      end
  end.

(** The message callback on the readable bytes: how many it takes. A context that
    is neither of the two makes [any_cast] throw. *)
Definition message_cb (a : nat → Ambient) (conn : nat) (data : string) : M Service nat := λ x,
  if sempty data then (Ok 0, x)
  else
    match Server.upgraded (server x) !! conn with
    | Some _ => on_server (Pipeline.on_frame conn data) x
    | None =>
        match parsers x !! conn with
        | None => (Throw (Exn ERuntime "bad any_cast"), x)
        | Some p =>
            let '(r, p', s') := feed a conn 0 p data (server x) in
            (match r with Ok _ => Ok (slen data) | Throw e => Throw e end, with_parser conn p' (with_server s' x))
        end
    end.

(** A read: the bytes join those left in the buffer, the callback runs, and what it
    has taken leaves the buffer. *)
Definition on_read (a : nat → Ambient) (conn : nat) (bytes : string) : M Service () := λ x,
  let data := default "" (inputs x !! conn) +:+ bytes in
  match message_cb a conn data x with
  | (Ok n, x') => (Ok (), with_input conn (sdrop n data) x')
  | (Throw e, x') => (Throw e, with_input conn data x')
  end.

(** A connection is made: its callback, a context with a new parser, and empty buffers. *)
Definition on_connected (conn : nat) : M Service () :=
  _ ← on_server (Pipeline.on_connected conn);
  update (λ x, with_input conn "" (with_parser conn HttpParser.init x)).

Inductive event :=
  | Connect (conn : nat)
  | Arrive (a : nat → Ambient) (conn : nat) (bytes : string)
  | Disconnect (conn : nat)
  | MetricsTimer
  | HourTimer.

Definition run_event (e : event) : M Service () :=
  match e with
  | Connect conn => on_connected conn
  | Arrive a conn bytes => on_read a conn bytes
  | Disconnect conn => on_server (Pipeline.on_disconnected conn)
  | MetricsTimer => on_server Pipeline.every_5_seconds
  | HourTimer => on_server (Pipeline.every_hour S)
  end.

Fixpoint run_all (es : list event) : M Service () :=
  match es with [] => mret () | e :: es => _ ← run_event e; run_all es end.

(** ** The requests in the bytes *)

Fixpoint serve_all (a : nat → Ambient) (conn i : nat) (reqs : list HttpRequest) : M Server.Server () :=
  match reqs with
  | [] => mret ()
  | req :: reqs => _ ← Pipeline.on_request S G (a i) conn req; serve_all a conn (i + 1) reqs
  end.

(** Feeding is parsing and then serving the requests in their order, up to the
    first failure. *)
Lemma feed_serves a conn data i p s :
  let '(r, p', reqs) := HttpParser.feed p data in
  let '(r', s') := serve_all a conn i reqs s in
  snd (feed a conn i p data s) = s' ∧
  match r' with Ok _ => fst (feed a conn i p data s) = (r, p') | Throw e => fst (fst (feed a conn i p data s)) = Throw e end.
Proof.
  revert i p s. induction data as [|c data IH]; intros i p s; [done|]. cbn [HttpParser.feed feed]. unfold HttpParser.feed_char.
  destruct (HttpParser.parse_char c p) as [[[]|e] p1]; [|done]. destruct (HttpParser.complete_ p1).
  - destruct (HttpParser.feed (HttpParser.reset p1) data) as [[r p2] out] eqn:E. cbn [app serve_all].
    unfold mbind, M_mbind. destruct (Pipeline.on_request S G (a i) conn _ s) as [[[]|e] s1]; [|done].
    specialize (IH (i + 1) (HttpParser.reset p1) s1). by rewrite E in IH.
  - specialize (IH i p1 s). destruct (HttpParser.feed p1 data) as [[r p2] out]. done.
Qed.

(** ** Every byte stream is a sequence of requests to the server *)

(** The parsers of all connections are between two characters of some input. *)
Definition parsing (x : Service) : Prop :=
  ∀ conn p, parsers x !! conn = Some p → HttpParser.parser_inv p ∧ HttpParser.complete_ p = false.

(** What the requests store is kept by the disk and does not collide. *)
Fixpoint each_storable (a : nat → Ambient) (conn i : nat) (reqs : list HttpRequest) (s : Server.Server) : Prop :=
  match reqs with
  | [] => True
  | req :: reqs => request_storable S req s ∧
      each_storable a conn (i + 1) reqs (snd (Pipeline.on_request S G (a i) conn req s))
  end.

(** The requests the next read hands over. *)
Definition requests (conn : nat) (bytes : string) (x : Service) : list HttpRequest :=
  match Server.upgraded (server x) !! conn, parsers x !! conn with
  | None, Some p => snd (HttpParser.feed p (default "" (inputs x !! conn) +:+ bytes))
  | _, _ => []
  end.

Definition event_ok (e : event) (x : Service) : Prop :=
  match e with Arrive a conn bytes => each_storable a conn 0 (requests conn bytes x) (server x) | _ => True end.

Lemma next_run (e : ServerSafety.event) s : ServerSafety.event_ok S e s → next S G s (snd (ServerSafety.run_event S G e s)).
Proof. intros H. exists e. by constructor. Qed.

Lemma serve_all_next a conn reqs i s : Forall HttpParser.emitted_ok reqs → each_storable a conn i reqs s →
  rtc (next S G) s (snd (serve_all a conn i reqs s)).
Proof.
  revert i s. induction reqs as [|req reqs IH]; intros i s Hr Hs; [done|]. apply Forall_cons in Hr as [Hr Hrs].
  destruct Hs as [Hst Hs]. cbn [serve_all]. assert (next S G s (snd (Pipeline.on_request S G (a i) conn req s))) as Hn.
  { apply (next_run (Request (a i) conn req)). split; [apply Hr|exact Hst]. }
  unfold mbind, M_mbind. destruct (Pipeline.on_request S G (a i) conn req s) as [[u|e] s1]; [|by apply rtc_once].
  eapply rtc_l; [exact Hn|]. by apply IH.
Qed.

Lemma parsing_insert conn p x : HttpParser.parser_inv p → HttpParser.complete_ p = false → parsing x →
  ∀ c q, <[conn := p]> (parsers x) !! c = Some q → HttpParser.parser_inv q ∧ HttpParser.complete_ q = false.
Proof. intros Hi Hc Hx c q [[_ <-]|[_ Hq]]%lookup_insert_Some; [done|by eapply Hx]. Qed.

(** The outcome of one event. *)
Definition follows (x : Service) (r : result ()) (x' : Service) : Prop :=
  rtc (next S G) (server x) (server x') ∧ (r = Ok () → parsing x').

Lemma read_follows a conn bytes x : parsing x → event_ok (Arrive a conn bytes) x →
  follows x (fst (on_read a conn bytes x)) (snd (on_read a conn bytes x)).
Proof.
  intros Hx Hok. unfold on_read, message_cb. cbn [event_ok] in Hok. unfold requests in Hok.
  set (data := default "" (inputs x !! conn) +:+ bytes) in *. destruct (sempty data); [by split|].
  destruct (Server.upgraded (server x) !! conn) as [u|].
  - unfold on_server. pose proof (next_run (WsData conn data) (server x) I) as Hn. cbn [ServerSafety.run_event] in Hn.
    unfold mbind, M_mbind in Hn. destruct (Pipeline.on_frame conn data (server x)) as [[n|e] s1]; (split; [by apply rtc_once|done]).
  - destruct (parsers x !! conn) as [p|] eqn:Ep; [|by split]. destruct (Hx conn p Ep) as [Hi Hc].
    pose proof (HttpParser.feed_inv p data Hi Hc) as Hf. pose proof (feed_serves a conn data 0 p (server x)) as Hs.
    destruct (HttpParser.feed p data) as [[r p'] reqs]. destruct Hf as [Hem Hf]. cbn [snd] in Hok.
    pose proof (serve_all_next a conn reqs 0 (server x) Hem Hok) as Hn.
    destruct (serve_all a conn 0 reqs (server x)) as [r' s']. destruct (feed a conn 0 p data (server x)) as [[r2 p2] s2].
    cbn [fst snd] in *. destruct Hs as [-> Hs]. split.
    + by destruct r2.
    + destruct r2 as [[]|e]; [|done]. intros _. destruct r' as [u|e]; [|done]. injection Hs as <- ->.
      destruct (Hf eq_refl). intros c q. by apply parsing_insert.
Qed.

Lemma event_follows e x : parsing x → event_ok e x → follows x (fst (run_event e x)) (snd (run_event e x)).
Proof.
  intros Hx Hok. destruct e as [conn|a conn bytes|conn| |]; cbn [run_event].
  - split; [|intros _ c q; apply (parsing_insert conn HttpParser.init x HttpParser.init_inv eq_refl Hx)].
    apply rtc_once. exact (next_run (Connected conn) (server x) I).
  - by apply read_follows.
  - unfold on_server. pose proof (next_run (Disconnected conn) (server x) I) as Hn. cbn [ServerSafety.run_event] in Hn.
    destruct (Pipeline.on_disconnected conn (server x)). split; [by apply rtc_once|done].
  - unfold on_server. pose proof (next_run FiveSeconds (server x) I) as Hn. cbn [ServerSafety.run_event] in Hn.
    destruct (Pipeline.every_5_seconds (server x)). split; [by apply rtc_once|done].
  - unfold on_server. pose proof (next_run Hour (server x) I) as Hn. cbn [ServerSafety.run_event] in Hn.
    destruct (Pipeline.every_hour S (server x)). split; [by apply rtc_once|done].
Qed.

(** One event that ends normally; an exception that leaves a callback ends the process. *)
Inductive step (x : Service) : Service → Prop :=
  | step_event e x' : event_ok e x → run_event e x = (Ok (), x') → step x x'.

(** C10. The byte level refines the request level: whatever bytes arrive on whatever
    connections, cut into whatever reads, with connections made and lost and both
    timers in between, every run of the callbacks is a run of the server on
    requests, connections, frames and timers, so what holds of every reachable
    state of the server holds of the process; and every parser stays in a state
    its machine reaches. *)
Theorem bytes_refine_requests (x x' : Service) (Hx : parsing x) (Hr : rtc step x x') :
  rtc (next S G) (server x) (server x') ∧ parsing x'.
Proof.
  induction Hr as [x|x1 x2 x3 [e y Hok Hrun] _ IH]; [done|]. destruct (event_follows e x1 Hx Hok) as [Hn Hp].
  rewrite Hrun in Hn, Hp. destruct (IH (Hp eq_refl)) as [Hn' Hp']. split; [|done]. by etransitivity.
Qed.

(** ** What a connection is answered *)

(** For a connection: events of others send it nothing and leave its context alone. *)
Definition apart (conn : nat) (s s' : Server.Server) : Prop :=
  silent_to conn (ws (Server.world s)) (ws (Server.world s')) ∧
  Server.request_count s' !! conn = Server.request_count s !! conn ∧
  Server.upgraded s' !! conn = Server.upgraded s !! conn.

#[export] Instance apart_preorder conn : PreOrder (apart conn).
Proof.
  split; [intros s; by split_and!|]. intros s1 s2 s3 (H1&H2&H3) (H4&H5&H6). split_and!; [|congruence..].
  by transitivity (ws (Server.world s2)).
Qed.

Lemma calm_apart conn s s' : calm conn s s' → apart conn s s'.
Proof. intros (H1&H2&H3&H4&H5). unfold apart. by rewrite H3, H5. Qed.

Lemma calm_apart_steps {A} conn (m : M Server.Server A) : steps (calm conn) m → steps (apart conn) m.
Proof. apply steps_weaken, calm_apart. Qed.

Lemma frame_apart {A} conn (m : M World A) :
  steps (λ w w', silent_to conn (ws w) (ws w')) m → steps (apart conn) (Server.on_world m).
Proof. intros Hm. by apply calm_apart_steps, on_world_calm. Qed.

Lemma on_ws_apart conn o : WsSession.silent conn o → steps (apart conn) (Server.on_world (on_ws (WsSession.run o))).
Proof. intros Ho. apply frame_apart. intros w Hu. by apply WsSession.run_unknown. Qed.

Lemma send_apart conn c text : c ≠ conn → steps (apart conn) (Server.send c text).
Proof.
  intros Hne. apply frame_apart. intros w Hu. split; [exact Hu|]. cbn. unfold WsSession.sent_to. cbn.
  by rewrite filter_app, filter_cons_False, app_nil_r.
Qed.

Lemma update_apart conn f : (∀ s, Server.world (f s) = Server.world s) →
  (∀ s, Server.request_count (f s) !! conn = Server.request_count s !! conn) →
  (∀ s, Server.upgraded (f s) !! conn = Server.upgraded s !! conn) → steps (apart conn) (Server.update f).
Proof. intros Hw Hc Hu s. cbn. split_and!; [by rewrite Hw|done|done]. Qed.

Lemma response_apart conn c k : c ≠ conn → steps (apart conn) (Server.send_response c k).
Proof.
  intros Hne. unfold Server.send_response. apply steps_bind; [apply steps_get|]. intros s.
  destruct (HttpResponse.send_response _ k). apply steps_bind; [by apply update_apart|]. intros _. by apply send_apart.
Qed.

Lemma finish_apart conn c k : c ≠ conn → steps (apart conn) (Server.finish c k).
Proof.
  intros Hne. unfold Server.finish, Server.record_response_metrics. apply steps_bind; [|intros; by apply response_apart].
  apply steps_bind; [apply steps_get|]. intros s. by apply update_apart.
Qed.

Lemma error_apart conn c m : steps (apart conn) (Server.on_world (set_error c m)).
Proof. apply frame_apart, (Frames.set_error_rel _). Qed.
Lemma set_resp_apart conn f : steps (apart conn) (Server.on_world (set_resp f)).
Proof. apply frame_apart, (Frames.set_resp_rel _). Qed.

Lemma upgrade_apart conn t c req : c ≠ conn → steps (apart conn) (WsUpgrade.try_handle_upgrade S t c req).
Proof.
  intros Hne.
  assert (∀ u, steps (apart conn) (Server.update (λ s, Server.with_upgraded (<[c := u]> (Server.upgraded s)) s))) as Hup.
  { intros u. apply update_apart; [done..|]. intros s. cbn. by rewrite lookup_insert_ne. }
  assert (∀ n m, steps (apart conn) (WsUpgrade.send_http_error c n m)) as Herr.
  { intros n m. unfold WsUpgrade.send_http_error. apply steps_bind; [apply set_resp_apart|]. intros _.
    apply steps_bind; [apply error_apart|]. intros _. by apply response_apart. }
  assert (∀ u, steps (apart conn) (Server.on_world (on_ws (WsSession.register_session u c)))) as Hreg
    by (intros u; by apply (on_ws_apart conn (WsSession.RegisterSession u c))).
  assert (steps (apart conn) (Server.on_world (on_ws (WsSession.register_metrics c)))) as Hmet
    by (by apply (on_ws_apart conn (WsSession.RegisterMetrics c))).
  assert (∀ d, steps (apart conn) (Server.on_world (on_ws (WsSession.push_metrics_snapshot d c)))) as Hsnap
    by (intros d; by apply (on_ws_apart conn (WsSession.PushSnapshot d c))).
  assert (∀ u o, steps (apart conn) (Server.on_world (WsUpgrade.upload_session_owned_by u o))) as Hown.
  { intros u o. apply frame_apart. unfold WsUpgrade.upload_session_owned_by. apply steps_bind; [apply (Frames.on_redis_rel _)|].
    intros. apply steps_ret. }
  pose proof (λ text, send_apart conn c text Hne) as Hsend. unfold WsUpgrade.try_handle_upgrade. cbv zeta. step_rules.
Qed.

Lemma serve_apart conn a c ka req : c ≠ conn → steps (apart conn) (serve S G a c ka req).
Proof.
  intros Hne. pose proof (λ ka, finish_apart conn c ka Hne) as Hfin. pose proof (set_resp_apart conn) as Hresp.
  assert (∀ req, steps (apart conn) (Api.dispatch S G a req)) as Hdis by (intros; apply calm_apart_steps, dispatch_calm).
  assert (steps (apart conn) (Pipeline.within_limit G a req)) as Hlim by apply calm_apart_steps, limit_calm.
  unfold serve. apply steps_bind; [apply steps_get|]. intros s. destruct (if bool_decide _ then _ else _) as [served r].
  apply steps_bind; [apply Hresp|]. intros _. destruct served; [apply Hfin|]. apply steps_bind; [exact Hlim|]. intros ok.
  destruct (negb ok); [apply steps_bind; [apply Hresp|intros _; apply Hfin]|]. pose proof (error_apart conn) as Herr.
  unfold Pipeline.authenticated_dispatch. cbv zeta. step_rules.
Qed.

(** A request of another connection. *)
Lemma request_apart conn a c req : c ≠ conn → steps (apart conn) (Pipeline.on_request S G a c req).
Proof.
  intros Hne s. rewrite on_request_cases. pose proof (upgrade_apart conn (now a) c req Hne s) as Hup.
  destruct (WsUpgrade.try_handle_upgrade S (now a) c req s) as [[[|]|e] s1]; cbn [snd] in *; [done| |done].
  transitivity s1; [done|]. transitivity (counted c s1); [|by apply serve_apart].
  split_and!; [intros Hu; by split| |done]. cbn. by rewrite lookup_insert_ne.
Qed.

(** An event of others leaves a connection as it is. *)
Definition aside (conn : nat) (x x' : Service) : Prop :=
  apart conn (server x) (server x') ∧ parsers x' !! conn = parsers x !! conn ∧ inputs x' !! conn = inputs x !! conn.

Definition of_others (conn : nat) (e : event) : Prop :=
  match e with Connect c | Disconnect c => c ≠ conn | Arrive _ c _ => c ≠ conn | _ => True end.

Lemma on_server_aside {A} conn (m : M Server.Server A) : steps (apart conn) m → steps (aside conn) (on_server m).
Proof. intros Hm x. specialize (Hm (server x)). unfold on_server. destruct (m (server x)). by split. Qed.

Lemma feed_apart conn a c data i p s : c ≠ conn → apart conn s (snd (feed a c i p data s)).
Proof.
  intros Hne. revert i p s. induction data as [|ch data IH]; intros i p s; [cbn; reflexivity|]. cbn [feed].
  destruct (HttpParser.parse_char ch p) as [[[]|e] p1]; [|cbn; reflexivity]. destruct (HttpParser.complete_ p1); [|apply IH].
  pose proof (request_apart conn (a i) c (HttpParser.cur_req_ p1) Hne s) as Hr.
  destruct (Pipeline.on_request S G (a i) c _ s) as [[[]|e] s1]; [|done]. by transitivity s1.
Qed.

Lemma send_all_apart conn c l : c ≠ conn → steps (apart conn) (Pipeline.send_all c l).
Proof.
  intros Hne. induction l as [|t l IH]; [apply steps_ret|]. cbn. apply steps_bind; [by apply send_apart|done].
Qed.

Lemma read_aside conn a c bytes : c ≠ conn → steps (aside conn) (on_read a c bytes).
Proof.
  intros Hne x. unfold on_read. set (data := default "" (inputs x !! c) +:+ bytes).
  assert (aside conn x (snd (message_cb a c data x))) as H.
  { unfold message_cb. destruct (sempty data); [by split|]. destruct (Server.upgraded (server x) !! c).
    - apply (on_server_aside conn). unfold Pipeline.on_frame. apply steps_bind; [apply steps_lift|]. intros r.
      apply steps_bind; [by apply send_all_apart|]. intros. apply steps_ret.
    - destruct (parsers x !! c) as [p|]; [|by split]. pose proof (feed_apart conn a c data 0 p (server x) Hne) as Hf.
      destruct (feed a c 0 p data (server x)) as [[r p'] s']. split; [done|]. cbn. by rewrite lookup_insert_ne. }
  destruct (message_cb a c data x) as [[n|e] x1]; destruct H as (H1&H2&H3); (split; [done|]; cbn; by rewrite lookup_insert_ne).
Qed.

Lemma hour_apart conn : steps (apart conn) (Pipeline.every_hour S).
Proof.
  unfold Pipeline.every_hour. apply steps_bind; [apply frame_apart, (Frames.on_db_rel _)|]. intros _.
  apply steps_bind; [|intros; apply steps_ret]. apply frame_apart, (Frames.collect_rel S _).
Qed.

Lemma others_aside conn e : of_others conn e → steps (aside conn) (run_event e).
Proof.
  intros He. destruct e as [c|a c bytes|c| |]; cbn [run_event of_others] in *.
  - intros x. unfold on_connected, on_server, Pipeline.on_connected, mbind, M_mbind.
    split; [split_and!|split]; cbn; rewrite ?lookup_insert_ne, ?lookup_delete_ne by done; try done.
  - by apply read_aside.
  - apply on_server_aside. unfold Pipeline.on_disconnected. apply steps_bind; [by apply update_apart|]. intros _.
    by apply (on_ws_apart conn (WsSession.RemoveSession c)).
  - apply on_server_aside. unfold Pipeline.every_5_seconds. apply steps_bind; [apply steps_get|]. intros s.
    by apply (on_ws_apart conn (WsSession.Broadcast _)).
  - apply on_server_aside, hour_apart.
Qed.

(** A connection that speaks HTTP: its parser, an empty input buffer, and the
    number of requests it has made. *)
Definition http (conn : nat) (p : HttpParser.HttpParser) (n : Z) (x : Service) : Prop :=
  parsers x !! conn = Some p ∧ inputs x !! conn = Some "" ∧ Server.upgraded (server x) !! conn = None ∧
  Server.request_count (server x) !! conn = Some n ∧ WsSession.unknown conn (ws (Server.world (server x))).

Definition sent_to (conn : nat) (s : Server.Server) : list (nat * string) := WsSession.sent_to conn (ws (Server.world s)).

Lemma aside_http conn p n x x' : aside conn x x' → http conn p n x →
  http conn p n x' ∧ sent_to conn (server x') = sent_to conn (server x).
Proof.
  intros ((Hs&Hc&Hg)&Hp&Hi) (H1&H2&H3&H4&H5). destruct (Hs H5) as [Hu Hsent]. split; [|exact Hsent].
  unfold http. by rewrite Hp, Hi, Hg, Hc.
Qed.

(** The answer to the request that [n] others of its connection preceded. *)
Definition answer (conn : nat) (n : Z) (req : HttpRequest) (r : HttpResponse.HttpResponse) : nat * string :=
  (conn, HttpResponse.serialize (HttpResponse.set_close_connection
    (negb (wants_keep_alive req && bool_decide (n < Pipeline.kMaxKeepAliveRequests)%Z)) r)).

Fixpoint answers (conn : nat) (n : Z) (reqs : list HttpRequest) (resps : list HttpResponse.HttpResponse) : list (nat * string) :=
  match reqs, resps with
  | req :: reqs, r :: resps => answer conn n req r :: answers conn (n + 1) reqs resps
  | _, _ => []
  end.

(** The response the server ends up with when it handles the request. *)
Definition responds (conn : nat) (req : HttpRequest) (r : HttpResponse.HttpResponse) : Prop :=
  ∃ a s s', Pipeline.on_request S G a conn req s = (Ok (), s') ∧ resp (Server.world s') = r.

Lemma answers_app conn reqs1 resps1 reqs2 resps2 n : length reqs1 = length resps1 →
  answers conn n (reqs1 ++ reqs2) (resps1 ++ resps2) =
  answers conn n reqs1 resps1 ++ answers conn (n + Z.of_nat (length reqs1)) reqs2 resps2.
Proof.
  revert resps1 n. induction reqs1 as [|q reqs1 IH]; intros [|r resps1] n; try done.
  - intros _. cbn [answers app length]. by rewrite Z.add_0_r.
  - intros [= Hl]. cbn [answers app length]. rewrite IH by done. do 3 f_equal. lia.
Qed.

(** A run of one connection's requests. *)
Definition served_by (conn : nat) (n : Z) (reqs : list HttpRequest) (s s' : Server.Server) : Prop :=
  Server.upgraded s' !! conn = None ∧ Server.request_count s' !! conn = Some (n + Z.of_nat (length reqs))%Z ∧
  WsSession.unknown conn (ws (Server.world s')) ∧
  ∃ resps, Forall2 (responds conn) reqs resps ∧ sent_to conn s' = sent_to conn s ++ answers conn n reqs resps.

Lemma request_served a conn n req s s' : upgrades req = false →
  Server.upgraded s !! conn = None → Server.request_count s !! conn = Some n → (0 ≤ n < int_max)%Z →
  WsSession.unknown conn (ws (Server.world s)) → Pipeline.on_request S G a conn req s = (Ok (), s') →
  served_by conn n [req] s s'.
Proof.
  intros Hup Hg Hn Hr Hu Hrun. pose proof Hrun as Hresp. rewrite on_request_run in Hrun by done. apply serve_answers in Hrun.
  destruct (Hrun Hu) as (H1&H2&_&H4&H5&_). split_and!.
  - by rewrite H5.
  - rewrite H4. cbn. rewrite lookup_insert_eq, Hn. cbn [from_option id]. f_equal.
    unfold wrap_i32, int_max in *.
    rewrite Z.mod_small by lia. rewrite bool_decide_eq_true_2; lia.
  - done.
  - exists [resp (Server.world s')]. split; [constructor; [by exists a, s, s'|done]|]. unfold sent_to. rewrite H2.
    unfold keeps_alive. by rewrite Hn.
Qed.

Lemma served_app conn n reqs1 reqs2 s1 s2 s3 : served_by conn n reqs1 s1 s2 →
  served_by conn (n + Z.of_nat (length reqs1)) reqs2 s2 s3 → served_by conn n (reqs1 ++ reqs2) s1 s3.
Proof.
  intros (_&_&_&l1&Hl1&H1) (Hg&Hn&Hu&l2&Hl2&H2). split_and!; [done| |done|].
  - rewrite Hn. f_equal. rewrite length_app. lia.
  - exists (l1 ++ l2). split; [by apply Forall2_app|].
    rewrite H2, H1, answers_app, (assoc_L (++)) by (by eapply Forall2_length). done.
Qed.

Lemma serve_all_served a conn reqs i n s s' : Forall (λ r, upgrades r = false) reqs →
  Server.upgraded s !! conn = None → Server.request_count s !! conn = Some n →
  (0 ≤ n)%Z → (n + Z.of_nat (length reqs) ≤ int_max)%Z →
  WsSession.unknown conn (ws (Server.world s)) → serve_all a conn i reqs s = (Ok (), s') → served_by conn n reqs s s'.
Proof.
  revert i n s. induction reqs as [|req reqs IH]; intros i n s Hup Hg Hn H0 Hmax Hu Hrun.
  - apply ret_ok in Hrun as [_ <-]. split_and!; [done| |done|].
    + rewrite Hn. f_equal. simpl. lia.
    + exists []. split; [constructor|]. cbn. by rewrite app_nil_r.
  - apply Forall_cons in Hup as [Hr Hup]. cbn [length] in Hmax. apply bind_ok in Hrun as ([]&s1&H1&Hrun).
    assert (served_by conn n [req] s s1) as Hs1 by (eapply request_served; [done..| |done|done]; lia).
    apply (served_app conn n [req] reqs s s1 s' Hs1). destruct Hs1 as (Hg1&Hn1&Hu1&_). cbn [length] in *.
    eapply IH; [done..| | |done|done]; lia.
Qed.

(** A read of the connection: the requests its bytes complete are served. *)
Lemma read_served a conn bytes p n x x' : http conn p n x → let '(r, p', reqs) := HttpParser.feed p bytes in
  Forall (λ r, upgrades r = false) reqs → (0 ≤ n)%Z → (n + Z.of_nat (length reqs) ≤ int_max)%Z →
  on_read a conn bytes x = (Ok (), x') →
  r = Ok () ∧ http conn p' (n + Z.of_nat (length reqs)) x' ∧ served_by conn n reqs (server x) (server x').
Proof.
  intros (Hp&Hi&Hg&Hn&Hu). pose proof (feed_serves a conn bytes 0 p (server x)) as Hf. unfold on_read. rewrite Hi.
  cbn [from_option id]. rewrite sapp_nil_l. unfold message_cb. rewrite Hg, Hp.
  destruct (sempty bytes) eqn:Ee.
  { apply bool_decide_eq_true in Ee as ->. cbn [HttpParser.feed]. intros _ H0 _ [= <-]. split; [done|]. cbn [length sdrop].
    rewrite Z.add_0_r. split; [split_and!; cbn; rewrite ?lookup_insert_eq; done|]. split_and!; cbn [length]; rewrite ?Z.add_0_r; try done.
    exists []. split; [constructor|]. cbn. by rewrite app_nil_r. }
  destruct (HttpParser.feed p bytes) as [[r p'] reqs]. intros Hup H0 Hmax.
  destruct (serve_all a conn 0 reqs (server x)) as [r' s'] eqn:Es.
  destruct (feed a conn 0 p bytes (server x)) as [[r2 p2] s2]. cbn [fst snd] in *. destruct Hf as [-> Hf].
  destruct r2 as [[]|e]; [|done]. intros [= <-]. destruct r' as [[]|e]; [|done]. injection Hf as <- <-.
  pose proof (serve_all_served a conn reqs 0 n _ _ Hup Hg Hn H0 Hmax Hu Es) as Hs. split; [done|]. split; [|exact Hs].
  destruct Hs as (Hg'&Hn'&Hu'&_). split_and!; cbn; rewrite ?lookup_insert_eq; try done. by rewrite sdrop_ge.
Qed.

(** The bytes that arrive on one connection, read by read. *)
Fixpoint reads_of (conn : nat) (es : list event) : list string :=
  match es with
  | [] => []
  | Arrive _ c bytes :: es => if bool_decide (c = conn) then bytes :: reads_of conn es else reads_of conn es
  | _ :: es => reads_of conn es
  end.

(** The connection is neither made nor lost. *)
Definition keeps_open (conn : nat) (e : event) : Prop :=
  match e with Connect c | Disconnect c => c ≠ conn | _ => True end.

#[local] Instance of_others_dec conn e : Decision (of_others conn e).
Proof. destruct e; apply _. Defined.

Lemma run_served conn es p n x x' r p' reqs : http conn p n x → Forall (keeps_open conn) es →
  HttpParser.feed_all p (reads_of conn es) = (r, p', reqs) →
  Forall (λ r, upgrades r = false) reqs → (0 ≤ n)%Z → (n + Z.of_nat (length reqs) ≤ int_max)%Z →
  run_all es x = (Ok (), x') →
  http conn p' (n + Z.of_nat (length reqs)) x' ∧ served_by conn n reqs (server x) (server x').
Proof.
  revert p n x r reqs. induction es as [|e es IH]; intros p n x r reqs Hx Hes Hfeed Hup H0 Hmax Hrun.
  { injection Hfeed as <- <- <-. apply ret_ok in Hrun as [_ <-]. cbn [length]. rewrite Z.add_0_r. split; [done|].
    destruct Hx as (_&_&Hg&Hn&Hu). split_and!; cbn [length]; rewrite ?Z.add_0_r; try done.
    exists []. split; [constructor|]. cbn. by rewrite app_nil_r. }
  apply Forall_cons in Hes as [He Hes]. cbn [run_all] in Hrun. apply bind_ok in Hrun as ([]&x1&He1&Hrun).
  destruct (decide (of_others conn e)) as [Ho|Ho].
  - pose proof (others_aside conn e Ho x) as Ha. rewrite He1 in Ha. cbn [snd] in Ha.
    destruct (aside_http conn p n x x1 Ha Hx) as [Hx1 Hs1].
    assert (reads_of conn (e :: es) = reads_of conn es) as Hreads.
    { destruct e; try done. cbn. by rewrite bool_decide_eq_false_2. }
    rewrite Hreads in Hfeed. destruct (IH p n x1 r reqs Hx1 Hes Hfeed Hup H0 Hmax Hrun) as [Hh (G1&G2&G3&l&Hl&G4)].
    split; [done|]. split_and!; try done. exists l. by rewrite G4, Hs1.
  - destruct e as [c|a c bytes|c| |]; cbn [of_others keeps_open] in Ho, He; try (by destruct Ho).
    apply dec_stable in Ho as ->. cbn [reads_of] in Hfeed. rewrite bool_decide_eq_true_2 in Hfeed by done. cbn [HttpParser.feed_all] in Hfeed.
    pose proof (read_served a conn bytes p n x x1 Hx) as Hread. destruct (HttpParser.feed p bytes) as [[r1 p1] reqs1].
    destruct r1 as [[]|e1].
    + destruct (HttpParser.feed_all p1 (reads_of conn es)) as [[r2 p2] reqs2] eqn:E2. injection Hfeed as <- <- <-.
      apply Forall_app in Hup as [Hup1 Hup2]. rewrite length_app in Hmax. destruct Hread as (_&Hx1&Hs1); [done..|lia|done|].
      destruct (IH p1 _ x1 r2 reqs2 Hx1 Hes E2 Hup2) as [Hh Hs2]; [lia..|done|].
      rewrite length_app. replace (n + Z.of_nat (length reqs1 + length reqs2))%Z
        with (n + Z.of_nat (length reqs1) + Z.of_nat (length reqs2))%Z by lia.
      split; [done|]. by eapply served_app.
    + injection Hfeed as <- <- <-. destruct Hread as (?&_); [done..|]. done.
Qed.


End connections.

End Connections.
