(* ===== verification/ShareRules.v ===== *)
(** Who may fetch a share: [ShareHandler::resolve_share] (src/api/share_handler.cpp)
    decides exactly by the share's row, and counts a download exactly once. *)
From S2P Require Import Prelude Steps JsonValue HttpMessage Jwt ObjectStore Database Daos Constraints Redis WsCodec World Gc.
From S2P Require Import Files Shares StoredContent Frames Answers.
Import World Schema StoredContent Answers HttpRequest.

Module ShareRules.

Section rules.
Context {R : RedisServer} {J : JsonText} {P : Postgres} {EV : Evp} {C : Calendar} (time : Z).

(** The verdict on a request for a share's content. *)
Inductive verdict := Refused (code : Z) | Granted (r : share_row).

Definition judge (row : option share_row) (password : string) (count_download : bool) : verdict :=
  match row with
  | None => Refused 404
  | Some r =>
      let hash := default "" (s_password r) in
      if s_revoked r then Refused 403
      else if Shares.expired time (ShareDao.row_to_share r) then Refused 410
      else if negb (sempty hash) && sempty password then Refused 401
      else if negb (sempty hash) && negb (bool_decide (ObjectStore.sha256 password = hash)) then Refused 403
      else if count_download && bool_decide (0 < s_max r)%Z && bool_decide (s_max r ≤ s_count r)%Z then Refused 403
      else Granted r
  end.

(** The table after a counted download of a share. *)
Definition counted_rows (r : share_row) (d : Db) : Db :=
  set_shares ((λ x, if bool_decide (s_id x = s_id r) then count_row x else x) <$> shares d) d.

Lemma find_run token tok d : text_in token = Some tok →
  ShareDao.find_by_token token d = (Ok (ShareDao.row_to_share <$> head (filter (λ r, s_token r = tok) (shares d))), d).
Proof. intros Ht. unfold ShareDao.find_by_token, txn, text_arg. rewrite Ht. by do 2 erewrite bind_run by reflexivity. Qed.

Lemma increment_run r d : db_ok d → r ∈ shares d → (∀ x, x ∈ shares d → s_count x < int_max)%Z →
  ShareDao.increment_download_count (s_id r) d = (Ok (), counted_rows r d).
Proof.
  intros Hok Hr Hmax. destruct (used_uuid d (s_id r) Hok) as [Hu _].
  { repeat right. by apply list_elem_of_fmap_2. }
  unfold ShareDao.increment_download_count, txn, uuid_arg. rewrite Hu. do 2 erewrite bind_run by reflexivity. unfold require.
  assert (forallb (λ x, negb (bool_decide (s_id x = s_id r)) || bool_decide (s_count x < int_max)%Z) (shares d) = true) as ->.
  { apply forallb_forall. intros x Hx%list_elem_of_In. rewrite (bool_decide_eq_true_2 (s_count x < int_max)%Z) by auto. apply orb_true_r. }
  by do 2 erewrite bind_run by reflexivity.
Qed.

(** The cached counter: whatever Redis holds, the database, the store and the answer stay. *)
Lemma update_cache_run token n w : ∃ w', Shares.update_cache token n w = (Ok (), w') ∧ db w' = db w ∧ fs w' = fs w ∧ resp w' = resp w.
Proof.
  assert (∀ {A} (f : RedisClient.Redis → A * RedisClient.Redis) a w, ∃ x w', on_redis f a w = (Ok x, w') ∧ db w' = db w ∧ fs w' = fs w ∧ resp w' = resp w)
    as Hred.
  { intros A f a w0. unfold on_redis. destruct (redis w0) as [r|]; [|by exists a, w0]. destruct (f r) as [x r']. by eexists _, _. }
  unfold Shares.update_cache. destruct (Hred _ (RedisClient.get ("share:" +:+ token)) None w) as (x&w1&H1&Hd1&Hf1&Hr1).
  rewrite (bind_run _ _ _ _ _ H1). destruct x as [text|]; [|by exists w1].
  assert (∀ (m : M World ()), (∃ r w', m w1 = (r, w') ∧ db w' = db w1 ∧ fs w' = fs w1 ∧ resp w' = resp w1 ∧
    ∀ e, r = Throw e → ex_kind e = EJson) → ∃ w', try_catch m (λ _, mret ()) w1 = (Ok (), w') ∧ db w' = db w ∧ fs w' = fs w ∧ resp w' = resp w) as Htry.
  { intros m (r&w'&Hm&Hd&Hf&Hr&He). unfold try_catch. rewrite Hm. exists w'. destruct r as [[]|e]; [split_and!; congruence|].
    rewrite bool_decide_eq_false_2 by (by rewrite He). split_and!; [done|congruence..]. }
  apply Htry. unfold mbind, M_mbind, lift_result.
  destruct (json_parse text) as [info|e] eqn:Ep; [|eexists _, w1; split_and!; [done..|]; intros ? [= <-]; by eapply json_parse_kind].
  destruct (Shares.jset info "download_count" (JInt n)) as [info'|e] eqn:Es.
  2:{ eexists _, w1. split_and!; [done..|]. intros ? [= <-]. destruct info; simpl in Es; try done; by injection Es as <-. }
  destruct (json_dump info') as [t|e] eqn:Ed; [|eexists _, w1; split_and!; [done..|]; intros ? [= <-]; by eapply json_dump_kind].
  destruct (Hred _ (RedisClient.set ("share:" +:+ token) t 0) false w1) as (y&w2&->&?&?&?). by eexists _, w2.
Qed.

Lemma refuse_run {A} code msg w : forallb ascii7 [msg] = true →
  ∃ r, Shares.refuse (A := A) code msg w = (Ok None, with_resp r w) ∧ HttpResponse.status_code_ r = code.
Proof.
  intros Hm. destruct (set_error_plain code msg w Hm) as (r&He&Hr). exists r. unfold Shares.refuse. by rewrite (bind_run _ _ _ _ _ He).
Qed.

(** The password check refuses, or leaves everything as it is. *)
Lemma password_run s password w : ∃ b w', Shares.check_password s password w = (Ok b, w') ∧ db w' = db w ∧ fs w' = fs w ∧
  let hash := ShareDao.password_hash s in
  if negb (sempty hash) && sempty password then b = false ∧ HttpResponse.status_code_ (resp w') = 401%Z
  else if negb (sempty hash) && negb (bool_decide (ObjectStore.sha256 password = hash)) then b = false ∧ HttpResponse.status_code_ (resp w') = 403%Z
  else b = true ∧ w' = w.
Proof.
  unfold Shares.check_password. destruct (sempty (ShareDao.password_hash s)); cbn [negb andb]; [by exists true, w|].
  destruct (sempty password).
  - destruct (set_error_plain 401 "password required" w) as (r&He&Hr); [done|]. rewrite (bind_run _ _ _ _ _ He).
    rewrite (bind_run (set_resp _) _ _ _ _ eq_refl). by eexists _, _.
  - destruct (negb (bool_decide _)); [|by exists true, w].
    destruct (set_error_plain 403 "incorrect password" w) as (r&He&Hr); [done|]. rewrite (bind_run _ _ _ _ _ He). by eexists _, _.
Qed.

Lemma head_filter {A} (p : A → Prop) `{!∀ x, Decision (p x)} (l : list A) x : head (filter p l) = Some x → p x ∧ x ∈ l.
Proof. intros Hh%head_Some_elem_of. by apply list_elem_of_filter in Hh. Qed.

Lemma counted_record r : (int_min ≤ s_count r < int_max)%Z →
  Shares.with_count (ShareDao.row_to_share r) (wrap_i32 (ShareDao.download_count (ShareDao.row_to_share r) + 1)) = ShareDao.row_to_share (count_row r).
Proof.
  intros Hr. unfold Shares.with_count, ShareDao.row_to_share. cbn. f_equal. unfold wrap_i32, int_min, int_max in *.
  destruct (decide (0 ≤ s_count r + 1)%Z).
  - rewrite Z.mod_small by lia. rewrite bool_decide_eq_true_2; lia.
  - rewrite <- (Z.mod_add _ 1) by lia. rewrite Z.mod_small by lia. rewrite bool_decide_eq_false_2; lia.
Qed.

Lemma resolve_share_run (w : World) (token tok password : string) (count_download : bool) (Hok : db_ok (db w))
    (Hne : sempty token = false) (Htok : text_in token = Some tok)
    (Hcounts : ∀ r, r ∈ shares (db w) → (int_min ≤ s_count r < int_max)%Z) :
  ∃ res w', Shares.resolve_share time token password count_download w = (Ok res, w') ∧ fs w' = fs w ∧
    match judge (head (filter (λ r, s_token r = tok) (shares (db w)))) password count_download with
    | Refused code => res = None ∧ HttpResponse.status_code_ (resp w') = code ∧ db w' = db w
    | Granted r => r ∈ shares (db w) ∧ s_token r = tok ∧ resp w' = resp w ∧
        if count_download then res = Some (ShareDao.row_to_share (count_row r)) ∧ db w' = counted_rows r (db w)
        else res = Some (ShareDao.row_to_share r) ∧ db w' = db w
    end.
Proof.
  unfold Shares.resolve_share. rewrite Hne. rewrite (bind_run _ _ _ _ _ (on_db_run _ w _ _ (find_run token tok (db w) Htok))), with_db_id.
  destruct (head _) as [r|] eqn:Eh; cbn [option_map fmap option_fmap judge].
  2:{ destruct (refuse_run (A := ShareDao.ShareRecord) 404 "share not found" w) as (x&->&?); [done|]. by eexists _, _. }
  apply head_filter in Eh as [Htk Hin]. change (ShareDao.is_revoked (ShareDao.row_to_share r)) with (s_revoked r).
  destruct (s_revoked r).
  { destruct (refuse_run (A := ShareDao.ShareRecord) 403 "share has been revoked" w) as (x&->&?); [done|]. by eexists _, _. }
  destruct (Shares.expired time _).
  { destruct (refuse_run (A := ShareDao.ShareRecord) 410 "share has expired" w) as (x&->&?); [done|]. by eexists _, _. }
  destruct (password_run (ShareDao.row_to_share r) password w) as (b&w1&Hp&Hd&Hf&Hb). rewrite (bind_run _ _ _ _ _ Hp). cbv zeta in Hb |- *.
  change (ShareDao.password_hash (ShareDao.row_to_share r)) with (default "" (s_password r)) in Hb.
  destruct (negb (sempty (default "" (s_password r))) && sempty password).
  { destruct Hb as [-> Hs]. by eexists _, w1. }
  destruct (negb (sempty (default "" (s_password r))) && negb (bool_decide _)).
  { destruct Hb as [-> Hs]. by eexists _, w1. }
  destruct Hb as [-> ->]. cbn [negb]. clear Hp Hd Hf.
  change (count_download && Shares.limit_reached (ShareDao.row_to_share r)) with
    (count_download && (bool_decide (0 < s_max r)%Z && bool_decide (s_max r ≤ s_count r)%Z)). rewrite andb_assoc.
  destruct (count_download && _ && _).
  { destruct (refuse_run (A := ShareDao.ShareRecord) 403 "download limit reached" w) as (x&->&?); [done|]. by eexists _, _. }
  destruct count_download; [|by eexists _, w].
  pose proof (increment_run r (db w) Hok Hin (λ x Hx, proj2 (Hcounts x Hx))) as Hi. unfold Shares.count_share.
  destruct (update_cache_run token (wrap_i32 (ShareDao.download_count (ShareDao.row_to_share r) + 1)) (with_db (counted_rows r (db w)) w))
    as (w2&Hc&Hd2&Hf2&Hr2).
  erewrite bind_run.
  2:{ rewrite (bind_run _ _ _ _ _ (on_db_run _ w _ _ Hi)), (bind_run _ _ _ _ _ Hc). reflexivity. }
  eexists _, w2. split; [reflexivity|]. rewrite counted_record by auto. by split_and!.
Qed.

(** C16. A share is given exactly to those it is meant for: a request for a share link,
    with or without a password, is always decided, by the share's row alone: 404 when
    no share has the token, 403 when it was revoked, 410 when it has expired, 401 or
    403 when its password is missing or wrong, 403 when a download would exceed its
    limit; otherwise it is granted. A refusal changes nothing; a granted download
    counts exactly one download, on that share, and a granted preview none. *)
Theorem resolve_share_exact (w : World) (token tok password : string) (count_download : bool) (Hok : db_ok (db w))
    (Hne : sempty token = false) (Htok : text_in token = Some tok)
    (Hcounts : ∀ r, r ∈ shares (db w) → (int_min ≤ s_count r < int_max)%Z) :
  ∃ res w', Shares.resolve_share time token password count_download w = (Ok res, w') ∧ fs w' = fs w ∧
    match judge (head (filter (λ r, s_token r = tok) (shares (db w)))) password count_download with
    | Refused code => res = None ∧ HttpResponse.status_code_ (resp w') = code ∧ db w' = db w
    | Granted r => r ∈ shares (db w) ∧ s_token r = tok ∧ resp w' = resp w ∧
        if count_download then res = Some (ShareDao.row_to_share (count_row r)) ∧ db w' = counted_rows r (db w)
        else res = Some (ShareDao.row_to_share r) ∧ db w' = db w
    end.
Proof. by apply resolve_share_run. Qed.

End rules.

End ShareRules.
