(* ===== verification/Startup.v ===== *)
(** From nothing to a serving process, and across restarts: the body of [main]
    (src/main.cpp) up to [main_loop.loop()], and what a later start finds of the
    data an earlier process left. *)
From S2P Require Import Prelude Steps JsonValue HttpMessage HttpParser HttpRouter Jwt Reactor TcpConnection TcpServer ObjectStore Database Daos DbPool.
From S2P Require Import Constraints Config Redis WsCodec World Gc Files FoldersAccounts Multipart Shares Server Sessions StoredContent.
From S2P Require Import Isolation HandlerSafety ServerSafety Connections.
From stdpp Require Import relations.
Import World Schema StoredContent Isolation ServerSafety.

Module Startup.

Section startup.
Context {R : RedisServer} {J : JsonText} {P : Postgres} {EV : Evp} {C : Calendar} {O : HashOrder}
  {K : WsHandshake.Handshake} {Y : Yaml}.

(** What the process finds and does not change: the environment, the files other
    than the store's, whether the log file can be opened (Logging.v), OpenSSL's HMAC,
    what the disk keeps of a write, and which services answer; [sockets] are the descriptors of /dev/null and of the
    listening socket, when it can be bound to the port. *)
Record Site := mk_site {
  getenv : string → option string;
  good : string → bool;
  realpath : string → option string;
  self_exe : option string;
  read_web : string → option string;
  log_opens : string → bool;
  hmac : string → string → string;
  disk_write : string → string;
  db_answers : string → bool;
  redis_answers : string → Z → bool;
  sockets : Z → option (Z * Z);
  listens : bool
}.

(** What outlives the process. *)
Record Machine := mk_machine { db : Db; fs : Fs.t; redis_data : rdb }.

(** A process that serves: what its parts were constructed with, and their state. *)
Record Running := mk_running {
  settings : Settings; process : Process; service : Connections.Service;
  pool : DbPool.DbPool; tcp : TcpServer.TcpServer; port : Z }.

(** How [main] ends before it serves, or that it serves. [acquire] on a pool without
    connections never returns; a socket that cannot be bound aborts, and so does the
    exception of a log file that cannot be opened, which nothing catches. *)
Inductive outcome := Exit (code : Z) | Aborted | Blocked | Undefined | Serving (x : Running).

(** The redis client: a context, or none if the server does not answer. *)
Definition redis_client (X : Site) (c : Config.AppConfig) (d : rdb) : RedisClient.Redis :=
  RedisClient.mk (redis_answers X (Config.redis_host (Config.redis c)) (Config.redis_port (Config.redis c))) d.

Definition settings_of (X : Site) (base : string) (c : Config.AppConfig) : Settings :=
  mk_settings (disk_write X) base (Z.to_nat (ObjectStore.effective_chunk_size (Config.chunk_size (Config.storage c))))
    (Config.max_file_size_bytes (Config.limits c)) (hmac X) (Config.secret (Config.jwt c)) (Config.ttl_hours (Config.jwt c)).
Definition process_of (X : Site) (web : string) (c : Config.AppConfig) : Process :=
  mk_process web (read_web X) (Config.rate_limit_per_ip (Config.limits c)) (Config.chunk_size (Config.storage c)).

(** Nobody is connected yet. *)
Definition service_of (d : Db) (f : Fs.t) (r : RedisClient.Redis) : Connections.Service :=
  Connections.mk (Server.mk (mk d f (Some r) WsSession.empty HttpResponse.empty) Metrics.zero 0 ∅ ∅ ∅) ∅ ∅.

(** The TCP server of a port, constructed and started. *)
Definition tcp_of (X : Site) (c : Config.AppConfig) (idle fd : Z) : result () * TcpServer.TcpServer :=
  (_ ← TcpServer.set_thread_num (Config.threads (Config.server c)); TcpServer.start (listens X))
    (TcpServer.make "SolarDrive" (Acceptor.make idle fd EpollPoller.make)).

(** Sections 2 to 7 of [main], once the settings are known and the store is there. *)
Definition serve (X : Site) (c : Config.AppConfig) (db_conn web base : string) (m : Machine) : outcome * Machine :=
  if negb (db_answers X db_conn) then (Exit 1, m)
  else
    let pool := DbPool.make (Config.pool_size (Config.database c)) in
    if bool_decide (DbPool.pool_ pool = []) then (Blocked, m)
    else
      match bootstrap_schema (db m) with
      | (Throw _, d) => (Exit 1, mk_machine d (fs m) (redis_data m))
      | (Ok _, d) =>
          let '(_, redis) := RedisClient.ping (redis_client X c (redis_data m)) in
          let m := mk_machine d (fs m) (RedisClient.server redis) in
          match sockets X (Config.port (Config.server c)) with
          | None => (Aborted, m)
          | Some (idle, fd) =>
              match tcp_of X c idle fd with
              | (Throw _, _) => (Undefined, m)
              | (Ok _, tcp) =>
                  (Serving (mk_running (settings_of X base c) (process_of X web c)
                     (service_of (db m) (fs m) redis) pool tcp (Config.port (Config.server c))), m)
              end
          end
      end.

Definition main (X : Site) (args : list string) (m : Machine) : outcome * Machine :=
  match Config.parse_cli (getenv X) (good X) args with
  | None => (Exit 0, m)
  | Some cli =>
      match Config.effective (getenv X) cli with
      | None => (Undefined, m)
      | Some (c, db_conn) =>
          let log := Config.file (Config.logging c) in
          let web := Config.resolve_web_root (good X) (realpath X) (self_exe X) (getenv X "SOLAR_WEB") in
          if negb (sempty log) && negb (log_opens X log) then (Aborted, m)
          else if negb (Config.web_root_has_index (good X) web) then (Exit 1, m)
          else
            let '(base, f) := ObjectStore.construct (Config.base_path (Config.storage c)) (fs m) in
            serve X c db_conn web base (mk_machine (db m) f (redis_data m))
      end
  end.

(** * What a process that serves starts with *)

Lemma bootstrap_run d : ∃ b, bootstrap_schema d =
  (Ok b, if bool_decide (current_version d < kSchemaVersion)%Z then set_version (Some kSchemaVersion) (drop_file_metadata d) else d).
Proof. unfold bootstrap_schema, txn. rewrite (bind_run get_st _ _ _ _ eq_refl). case_bool_decide; by eexists. Qed.

(** The settings [main] works with, when it gets to them. *)
Definition configured (X : Site) (args : list string) (c : Config.AppConfig) (db_conn : string) : Prop :=
  ∃ cli, Config.parse_cli (getenv X) (good X) args = Some cli ∧ Config.effective (getenv X) cli = Some (c, db_conn).

Lemma main_serving X args m x m' : main X args m = (Serving x, m') → ∃ c db_conn idle fd,
  configured X args c db_conn ∧ tcp_of X c idle fd = (Ok (), tcp x) ∧
  let '(base, f) := ObjectStore.construct (Config.base_path (Config.storage c)) (fs m) in
  let d := snd (bootstrap_schema (db m)) in
  let r := snd (RedisClient.ping (redis_client X c (redis_data m))) in
  settings x = settings_of X base c ∧ service x = service_of d f r ∧ m' = mk_machine d f (RedisClient.server r).
Proof.
  unfold main. destruct (Config.parse_cli _ _ _) as [cli|] eqn:Ecli; [|done].
  destruct (Config.effective _ _) as [[c conn]|] eqn:Ec; [|done]. cbv zeta. destruct (negb _ && _); [done|]. destruct (negb _); [done|].
  destruct (ObjectStore.construct _ _) as [base f] eqn:Ef. unfold serve.
  destruct (negb _); [done|]. case_bool_decide; [done|].
  destruct (bootstrap_run (db m)) as [b Hb]. cbn [db fs redis_data]. rewrite Hb.
  destruct (RedisClient.ping _) as [up redis] eqn:Er. destruct (sockets X _) as [[idle fd]|]; [|done].
  destruct (tcp_of X c idle fd) as [[[]|e] tcp] eqn:Et; [|done]. intros [= <- <-]. cbn [db fs redis_data].
  exists c, conn, idle, fd. split; [by exists cli|]. split; [exact Et|]. rewrite Ef, Er. by split_and!.
Qed.

Lemma bootstrap_current d : version d = Some kSchemaVersion → snd (bootstrap_schema d) = d.
Proof. intros Hv. destruct (bootstrap_run d) as [b ->]. unfold current_version. by rewrite Hv. Qed.

Lemma tcp_started X c idle fd t : tcp_of X c idle fd = (Ok (), t) →
  TcpServer.conns t = [] ∧ TcpServer.connections_ t = ∅ ∧ TcpServer.started_ t = true ∧
  Acceptor.listening_ (TcpServer.acceptor_ t) = listens X ∧
  length (default [] (EventLoopThreadPool.loops_ <$> TcpServer.thread_pool_ t)) = Z.to_nat (Config.threads (Config.server c)).
Proof.
  unfold tcp_of, TcpServer.start. rewrite (bind_run (TcpServer.set_thread_num _) _ _ _ _ eq_refl), (bind_run get_st _ _ _ _ eq_refl).
  cbn. intros [= <-]. cbn. rewrite length_map, length_seq. by destruct (listens X).
Qed.

(** A restart loses nothing: when the database has the schema's version and the
    store at the configured path is sound, a process that gets to serve has every row
    of every table as it was and every object of the store; it has no connection,
    request or session left of an earlier one, listens exactly if the port's socket
    does, and its loops are as many as the settings say. *)
Theorem restart_exact (X : Site) (args : list string) (m m' : Machine) (x : Running)
    (Hm : main X args m = (Serving x, m')) (Hv : version (db m) = Some kSchemaVersion)
    (Hs : ObjectStore.sound (base_path (settings x)) (fs m)) :
  ∃ c db_conn, configured X args c db_conn ∧
  let w := Server.world (Connections.server (service x)) in
  World.db w = db m ∧ db m' = db m ∧ ObjectStore.sound (base_path (settings x)) (World.fs w) ∧
  (∀ h, ObjectStore.object (base_path (settings x)) (World.fs w) h = ObjectStore.object (base_path (settings x)) (fs m) h) ∧
  TcpServer.conns (tcp x) = [] ∧ TcpServer.connections_ (tcp x) = ∅ ∧ TcpServer.started_ (tcp x) = true ∧
  Acceptor.listening_ (TcpServer.acceptor_ (tcp x)) = listens X ∧
  length (default [] (EventLoopThreadPool.loops_ <$> TcpServer.thread_pool_ (tcp x))) = Z.to_nat (Config.threads (Config.server c)) ∧
  Connections.parsing (service x) ∧ WsSession.sent (ws w) = [].
Proof.
  destruct (main_serving X args m x m' Hm) as (c&conn&idle&fd&Hc&Ht&Hx).
  pose proof (ObjectStore.construct_again (Config.base_path (Config.storage c)) (fs m)) as Hagain.
  destruct (ObjectStore.construct _ _) as [base f] eqn:Ef. destruct Hx as (Hset&Hserv&->).
  rewrite Hset, Hserv in *. cbn in *. rewrite (bootstrap_current _ Hv). injection Ef as Hb _. rewrite <- Hb in Hs.
  destruct (Hagain Hs) as (_&Hs'&Hobj). destruct (tcp_started _ _ _ _ _ Ht) as (?&?&?&?&?).
  exists c, conn. split; [done|]. split_and!; try done.
Qed.

(** * Any number of runs *)

Section runs.
Context (hash_field : rdb → string → string → option string) (L : hash_laws hash_field).

(** What a process left on the machine: the database and the store as they were
    after its last event; Redis may have lost fields since. *)
Definition left_by (s : Server.Server) (m : Machine) : Prop :=
  db m = World.db (Server.world s) ∧ fs m = World.fs (Server.world s) ∧
  ∀ k v, hash_field (redis_data m) k "part_hashes" = Some v →
    ∃ r, World.redis (Server.world s) = Some r ∧ hash_field (RedisClient.server r) k "part_hashes" = Some v.

(** A process, and the ones that follow it on the same store: each event of the
    server, and the start of another process, with settings of its own, after the
    last one was stopped or killed between two events. *)
Definition Stage : Type := Settings * Process * Server.Server.
Definition stage_of (x : Running) : Stage := (settings x, process x, Connections.server (service x)).

Inductive life : Stage → Stage → Prop :=
  | life_event St G s s' : next St G s s' → life (St, G, s) (St, G, s')
  | life_restart St G s X args m m' x : left_by s m → main X args m = (Serving x, m') →
      base_path (settings x) = base_path St → life (St, G, s) (stage_of x).

(** A machine on which nothing was stored. *)
Definition unused (m : Machine) : Prop :=
  db_ok (db m) ∧ contents (db m) = [] ∧ fs m = ∅ ∧ ∀ k, hash_field (redis_data m) k "part_hashes" = None.

Definition stage_ok (t : Stage) : Prop :=
  let '(St, _, s) := t in server_ok St hash_field s ∧ version (World.db (Server.world s)) = Some kSchemaVersion.

Lemma ping_kept X c d : Sessions.server_ok hash_field d → Sessions.server_ok hash_field (RedisClient.server (snd (RedisClient.ping (redis_client X c d)))).
Proof using L.
  intros Hd. unfold RedisClient.ping, redis_client. cbn. destruct (redis_answers _ _ _); [|done].
  unfold RedisClient.redis_command. destruct (link _); [|done]. cbn. destruct (redis_call _ _) as [rep d'] eqn:E. cbn.
  by eapply Sessions.called; [..|exact Hd]; [exact L|exact E|left|].
Qed.

Lemma bootstrap_version d : version (snd (bootstrap_schema d)) = Some kSchemaVersion ∨ (kSchemaVersion ≤ current_version d)%Z.
Proof. destruct (bootstrap_run d) as [b ->]. case_bool_decide; [by left|right; lia]. Qed.

Lemma sessions_kept St s m : left_by s m → server_ok St hash_field s → Sessions.server_ok hash_field (redis_data m).
Proof. intros (_&_&Hr) [_ Hs] k v Hv. destruct (Hr k v Hv) as (r&Hred&Hf). by eapply (Hs r Hred). Qed.

Lemma stage_first X args m m' x : unused m → version (snd (bootstrap_schema (db m))) = Some kSchemaVersion →
  main X args m = (Serving x, m') → stage_ok (stage_of x).
Proof using L.
  intros (Hok&Hc&Hf&Hr) Hv Hm. destruct (main_serving X args m x m' Hm) as (c&conn&idle&fd&_&_&Hx). rewrite Hf in Hx.
  pose proof (ObjectStore.construct_spec (Config.base_path (Config.storage c))) as Hs.
  destruct (ObjectStore.construct _ _) as [base f]. destruct Hs as (_&Hs&_), Hx as (Hset&Hserv&_).
  unfold stage_ok, stage_of. rewrite Hset, Hserv. split; [|exact Hv]. split.
  - split_and!; [by apply (Constraints.bootstrap_keeps (db m))|done|]. intros r Hin. exfalso. revert Hin. cbn.
    destruct (bootstrap_run (db m)) as [b ->]. cbn. case_bool_decide; cbn; [|rewrite Hc]; apply not_elem_of_nil.
  - intros r [= <-]. apply ping_kept. intros k v. by rewrite Hr.
Qed.

Lemma life_ok t t' : life t t' → stage_ok t → stage_ok t'.
Proof using L.
  destruct 1 as [St G s s' [e He]|St G s X args m m' x Hl Hm Hb]; intros [Hok Hv].
  - destruct (step_keeps St G hash_field L e s s' He Hok) as [Hok' [[(_&Hv'&_) _] _]]. split; [done|congruence].
  - pose proof Hl as (Hdb&Hfs&_). rewrite <- Hdb in Hv. pose proof Hok as [(Hdok&Hsound&Hrows) _].
    destruct (main_serving X args m x m' Hm) as (c&conn&idle&fd&_&_&Hx). rewrite <- Hfs, <- Hb in Hsound.
    pose proof (ObjectStore.construct_again (Config.base_path (Config.storage c)) (fs m)) as Hagain.
    destruct (ObjectStore.construct _ _) as [base f] eqn:Ef. injection Ef as Eb _. destruct Hx as (Hset&Hserv&_).
    rewrite Hset in Hsound, Hb. cbn in Hsound, Hb. rewrite <- Eb in Hsound.
    destruct (Hagain Hsound) as (_&Hs'&Hobj). rewrite (bootstrap_current _ Hv) in Hserv.
    unfold stage_ok, stage_of. rewrite Hset, Hserv. split; [|exact Hv]. split.
    + split_and!; [cbn; by rewrite Hdb|done|]. cbn. rewrite Hdb. intros r Hin. destruct (Hrows r Hin) as (cs&?&Hcs&?).
      exists cs. split_and!; [done| |done]. intros y Hy. cbn. rewrite Hobj, Hb, Hfs. by apply Hcs.
    + intros r [= <-]. apply ping_kept. by eapply sessions_kept.
Qed.

(** A process that has just started leaves what it found. *)
Lemma left_at_once X args m m' x : main X args m = (Serving x, m') → left_by (Connections.server (service x)) m'.
Proof.
  intros Hm. destruct (main_serving X args m x m' Hm) as (c&conn&idle&fd&_&_&Hx).
  destruct (ObjectStore.construct _ _) as [base f]. destruct Hx as (_&Hserv&->). rewrite Hserv.
  split_and!; [done..|]. intros k v Hv. by eexists.
Qed.

(** C1. No restart, no crash between two events and no change of the settings loses
    stored data: from the first start on an unused machine, through any number of
    processes, each serving any requests on any connections, connections made and
    lost and both timers, and each followed by another one on the same store, the
    constraints of the schema hold, every object of the store has the hash it is
    stored under, every content row can be read back from its chunks, with the hash
    the row says, and the schema is never migrated again. *)
Theorem every_run_deliverable (X : Site) (args : list string) (m m' : Machine) (x : Running) (St : Settings) (G : Process) (s : Server.Server)
    (Hm : unused m) (Hv : version (db m) = None) (Hx : main X args m = (Serving x, m')) (Hl : rtc life (stage_of x) (St, G, s)) :
  let w := Server.world s in
  db_ok (World.db w) ∧ ObjectStore.sound (base_path St) (World.fs w) ∧
  (∀ c, c ∈ contents (World.db w) → ∃ data,
     ObjectStore.get_chunked (base_path St) (row_chunks c) (World.fs w) = (Ok data, World.fs w) ∧ ObjectStore.sha256 data = c_hash c) ∧
  version (World.db w) = Some kSchemaVersion.
Proof using L.
  assert (stage_ok (St, G, s)) as [[(Hok&Hs&Hrows) _] Hver].
  { assert (stage_ok (stage_of x)) as H0.
    { eapply stage_first; [exact Hm| |exact Hx]. destruct (bootstrap_version (db m)) as [?|H]; [done|].
      unfold current_version in H. rewrite Hv in H. by cbv in H. }
    clear -L H0 Hl. induction Hl as [|t1 t2 t3 H12 _ IH]; [done|]. by apply IH, (life_ok t1). }
  split_and!; [done|done| |done]. intros c Hc. by apply (stored_readable St).
Qed.

End runs.

End startup.

End Startup.
