(* ===== verification/Delivery.v ===== *)
(** From upload to download: what a successful upload leaves behind, what a
    download of it answers, and that nothing other users do comes in between. *)
From S2P Require Import Prelude Steps JsonValue HttpMessage HttpRouter Jwt ObjectStore Database Daos Constraints Redis WsCodec.
From S2P Require Import World Gc Files FoldersAccounts Multipart Shares Server Sessions StoredContent Isolation HandlerSafety.
From S2P Require Import ApiSafety ServerSafety.
Import World Schema Constraints StoredContent Isolation HandlerSafety ServerSafety Sessions HttpRequest.

Module Delivery.

Lemma filter_unique {A B} (g : A → B) (p : A → Prop) `{!∀ x, Decision (p x)} (l : list A) x :
  NoDup (g <$> l) → x ∈ l → p x → (∀ y, p y → g y = g x) → filter p l = [x].
Proof.
  induction l as [|y l IH]; [by intros _ ?%elem_of_nil|]. rewrite fmap_cons. intros [Hy Hnd]%NoDup_cons Hx Hp Huniq.
  apply elem_of_cons in Hx as [->|Hx].
  - rewrite filter_cons_True by done. f_equal. destruct (filter p l) as [|z l'] eqn:Ef; [done|].
    assert (z ∈ filter p l) as [Hz Hin]%list_elem_of_filter by (rewrite Ef; by left).
    exfalso. apply Hy. rewrite <- (Huniq z Hz). by apply list_elem_of_fmap_2.
  - rewrite filter_cons_False; [by apply IH|]. intros Hpy. apply Hy. rewrite (Huniq y Hpy). by apply list_elem_of_fmap_2.
Qed.

Section delivery.
Context {R : RedisServer} {J : JsonText} {P : Postgres} {EV : Evp} (S : Settings).

Abbreviation object := (ObjectStore.object (base_path S)).
Abbreviation sha256 := ObjectStore.sha256.

(** The file [i] of the owner [o] holds the data. *)
Definition delivers (o i data : string) (w : World) : Prop :=
  ∃ f c cs, f ∈ files_of o (db w) ∧ f_id f = i ∧ c ∈ contents (db w) ∧ c_id c = f_content f ∧
    c_chunks c = jstrs (map sha256 cs) ∧ (∀ x, x ∈ cs → object (fs w) (sha256 x) = Some x) ∧ sconcat cs = data.

Lemma kept_delivers o i data w w' : kept_of S o w w' → delivers o i data w → delivers o i data w'.
Proof.
  intros (Hf&_&_&Hk) (f&c&cs&Hin&Hid&Hc&Hcid&Hch&Hob&Hcat). destruct (Hk f c Hin Hc Hcid) as [Hc' Hob'].
  exists f, c, cs. split_and!; try done; [by rewrite Hf|]. intros x Hx. rewrite Hob'; [by apply Hob|].
  unfold row_chunks. rewrite Hch. cbn. rewrite string_items_strs. by apply list_elem_of_fmap_2.
Qed.

(** Looking a live file of the owner up. *)
Lemma find_owned_run d u o f c : db_ok d → uuid_in u = Some o → f ∈ files_of o d → c ∈ contents d → c_id c = f_content f →
  FileDao.find_owned_by_id u (f_id f) d = (Ok (Some (FileDao.row_to_record f c)), d).
Proof.
  intros Hok Hu [[Ho Hl] Hf]%list_elem_of_filter Hc Hid.
  destruct (used_uuid d (f_id f) Hok) as [Hi _].
  { do 3 right. left. by apply list_elem_of_fmap_2. }
  unfold FileDao.find_owned_by_id, txn, uuid_arg. rewrite Hi, Hu. do 3 erewrite bind_run by reflexivity. unfold no_commit.
  rewrite (filter_unique f_id _ _ f); [|apply Hok|done| |].
  - cbn [fmap list_fmap concat app]. unfold FileDao.join_content. rewrite (filter_unique c_id _ _ c); [done|apply Hok|done|done|].
    intros y Hy. congruence.
  - split_and!; [done|done|]. unfold Is_true, live_file in Hl. by case_bool_decide.
  - by intros y (?&_).
Qed.

Lemma jmap_items l : jmap jget_str (DownloadHandler.items (jstrs l)) = Ok l.
Proof. apply jmap_strs. Qed.

(** The download of a file that is delivered. *)
Lemma download_run req w o data : stored S w → uuid_in (auth_user_id_ req) = Some o →
  delivers o (get_path_param "id" req) data w →
  ∃ w', DownloadHandler.download_route S req w = (Ok (), w') ∧
    HttpResponse.body_ (resp w') = data ∧ HttpResponse.status_code_ (resp w') = HttpResponse.status_code_ (resp w) ∧
    db w' = db w ∧ fs w' = fs w.
Proof.
  intros (Hok&Hs&_) Hu (f&c&cs&Hin&Hid&Hc&Hcid&Hch&Hob&Hcat).
  assert (sempty (auth_user_id_ req) = false) as Hne.
  { apply bool_decide_eq_false. intros He. by rewrite He, uuid_in_empty in Hu. }
  destruct (used_uuid (db w) (f_id f) Hok) as [_ Hi].
  { do 3 right. left. apply list_elem_of_fmap_2. by apply list_elem_of_filter in Hin as [_ ?]. }
  unfold DownloadHandler.download_route, DownloadHandler.handle, has_auth_user. rewrite Hne. cbn [negb].
  rewrite <- Hid, Hi, Hi. unfold AccessControl.require_owned_file. rewrite Hne.
  pose proof (find_owned_run (db w) _ o f c Hok Hu Hin Hc Hcid) as Hfind.
  unfold try_catch. erewrite bind_run.
  2:{ erewrite bind_run by (apply on_db_run; exact Hfind). cbv iota. reflexivity. }
  rewrite with_db_id. unfold DownloadHandler.send_content.
  cbn [FileDao.chunk_hashes FileDao.row_to_record]. rewrite Hch, json_parse_jsonb.
  do 2 erewrite bind_run by (try rewrite jmap_items; reflexivity). erewrite bind_run.
  2:{ apply on_fs_run. unfold ObjectStore.get_chunked. apply ObjectStore.get_loop_spec; [done|exact Hob]. }
  rewrite sapp_nil_l, Hcat. cbv zeta. eexists. split; [reflexivity|]. done.
Qed.

(** * What an upload leaves *)

Lemma insert_file_row n u f c d i d' : insert_file n u f c d = (Ok i, d') →
  contents d' = contents d ∧ ∃ row, files d' = files d ++ [row] ∧ f_id row = i ∧ uuid_in u = Some (f_owner row) ∧
    uuid_in c = Some (f_content row) ∧ f_deleted row = None.
Proof. intros Hi. unfold insert_file in Hi. db_inv. split; [done|]. eexists. by split_and!. Qed.

Lemma head_map {A B} (f : A → B) (l : list A) y : head (f <$> l) = Some y → ∃ x, x ∈ l ∧ f x = y.
Proof. destruct l as [|x l]; [done|]. intros [= <-]. exists x. split; [by left|done]. Qed.

Lemma insert_content_row hash z t m d i d' h : insert_content hash z t m d = (Ok (Some i), d') → text_in hash = Some h →
  ∃ c, c ∈ contents d' ∧ c_id c = i ∧ c_hash c = h.
Proof.
  intros Hrun Hh. unfold insert_content in Hrun. db_inv. case_match; [|done]. db_inv. simplify_eq.
  case_bool_decide; db_inv; simplify_eq. eexists. split; [apply elem_of_app; right; by left|]. done.
Qed.

(** The row the identifier of a content leads to. *)
Lemma ensure_row content d i d' h : ContentDao.ensure_in_txn content d = (Ok i, d') →
  text_in (ContentDao.hash content) = Some h → ∃ c, c ∈ contents d' ∧ c_id c = i ∧ c_hash c = h.
Proof.
  intros Hrun Hh. unfold ContentDao.ensure_in_txn, ContentDao.select_id in Hrun. db_inv. simplify_eq.
  destruct (head _) as [i0|] eqn:Eh; db_inv.
  { apply head_map in Eh as (c&[? ?]%list_elem_of_filter&?). eauto. }
  match goal with H : insert_content _ _ _ _ _ = (Ok ?x, _) |- _ => destruct x as [i0|] end; db_inv.
  - by eapply insert_content_row.
  - clear Eh. destruct (head _) as [i0|] eqn:Eh; db_inv. simplify_eq. apply head_map in Eh as (c&[? ?]%list_elem_of_filter&?). eauto.
Qed.

Lemma live_owned d d' row o : files d' = files d ++ [row] → f_owner row = o → f_deleted row = None → row ∈ files_of o d'.
Proof.
  intros Hf Ho Hd. apply list_elem_of_filter. split; [split; [done|]|rewrite Hf; apply elem_of_app; right; by left].
  unfold live_file. by rewrite Hd.
Qed.

(** No stored content collides with the data. *)
Definition content_agrees (data : string) (w : World) : Prop :=
  ∀ c cs, c ∈ contents (db w) → c_chunks c = jstrs (map sha256 cs) → (∀ x, x ∈ cs → object (fs w) (sha256 x) = Some x) →
    sha256 (sconcat cs) = sha256 data → sconcat cs = data.

Lemma agreed_data data w c : stored S w → content_agrees data w → c ∈ contents (db w) → c_hash c = sha256 data →
  ∃ cs, c_chunks c = jstrs (map sha256 cs) ∧ (∀ x, x ∈ cs → object (fs w) (sha256 x) = Some x) ∧ sconcat cs = data.
Proof.
  intros (_&_&Hrows) Ha Hc Hh. destruct (Hrows c Hc) as (cs&Hcs&Hob&Hhc). exists cs. split_and!; [done..|].
  eapply Ha; eauto. congruence.
Qed.

Lemma found_content h w r w' : on_db (FileDao.find_content_by_hash h) w = (Ok (Some r), w') → text_in h = Some h →
  w' = w ∧ ∃ c, c ∈ contents (db w) ∧ c_hash c = h ∧ FileDao.content_id r = c_id c.
Proof.
  intros Hf Hh. apply on_db_read_ok in Hf as [Hf ->]; [|auto with reads]. split; [done|].
  unfold FileDao.find_content_by_hash in Hf. apply bind_ok in Hf as (c&d1&Hc&Hf). apply ret_ok in Hf as [Hf _].
  unfold ContentDao.find_by_hash in Hc. destruct c as [rc|]; [|done]. injection Hf as <-.
  apply txn_ok in Hc as [Hc|[_ [d2 Hc]]]; unfold no_commit in Hc; db_inv; [done|]. simplify_eq.
  match goal with H : _ <$> head ?l = Some _ |- _ => destruct (head l) as [c|] eqn:Eh; [|done]; injection H as <- end.
  apply head_Some_elem_of, list_elem_of_filter in Eh as [? ?]. by exists c.
Qed.

(** Linking known content. *)
Lemma link_delivers t r n m u fo w i w' o data c : stored S w →
  FileUpload.link_existing_content t r n m u fo w = (Ok i, w') → uuid_in u = Some o →
  c ∈ contents (db w) → FileDao.content_id r = c_id c → c_hash c = sha256 data → content_agrees data w →
  delivers o i data w' ∧ resp w' = resp w.
Proof.
  intros Hst Hrun Hu Hc Hid Hh Ha. unfold FileUpload.link_existing_content in Hrun.
  apply bind_ok in Hrun as (name&w1&Hn&Hrun). apply on_db_read_ok in Hn as [_ ->]; [|auto with reads].
  apply on_db_ok in Hrun as (d'&Hins&->). unfold FileDao.insert_link, FileDao.require_owner_id in Hins.
  destruct (sempty (FileDao.owner_id _)); [by apply bind_ok in Hins as (?&?&?&?)|]. erewrite bind_run in Hins by reflexivity.
  destruct (sempty _); [done|]. apply txn_ok in Hins as [Hins|[_ [d2 Hins]]];
    apply bind_ok in Hins as (i'&d1&Hf&[= <- <-]).
  apply insert_file_row in Hf as (Hcont&row&Hfiles&Hrid&Ho&Hfc&Hdel). cbn in Ho, Hfc.
  destruct (agreed_data data w c Hst Ha Hc Hh) as (cs&Hcs&Hob&Hcat). split; [|done].
  destruct (used_uuid (db w) (c_id c)) as [Hcu _]; [by destruct Hst|right; left; by apply list_elem_of_fmap_2|].
  exists row, c, cs. split_and!; try done.
  - eapply live_owned; [done| |done]. congruence.
  - cbn. by rewrite Hcont.
  - congruence.
Qed.

(** Inserting the file of new content. *)
Lemma insert_delivers file w i w' o cs t : stored S w → on_db (FileDao.insert file) w = (Ok i, w') →
  uuid_in (FileDao.owner_id file) = Some o → FileDao.hash file = sha256 (sconcat cs) → FileDao.chunk_hashes file = t →
  text_in t = Some t → pg_jsonb_in t = Some (jstrs (map sha256 cs)) →
  (∀ x, x ∈ cs → object (fs w) (sha256 x) = Some x) → content_agrees (sconcat cs) w →
  delivers o i (sconcat cs) w' ∧ resp w' = resp w.
Proof.
  intros Hst Hrun Hu Hh Ht Htext Hj Hob Ha. apply on_db_ok in Hrun as (d'&Hins&->). split; [|done].
  pose proof (insert_effect file (db w)) as He. cbv zeta in He. rewrite Hins in He. cbn [snd] in He.
  destruct He as (Hok'&_&Hg); [by destruct Hst|].
  unfold FileDao.insert, FileDao.require_owner_id in Hins.
  destruct (sempty (FileDao.owner_id file)); [by apply bind_ok in Hins as (?&?&?&?)|]. erewrite bind_run in Hins by reflexivity.
  apply txn_ok in Hins as [Hins|[_ [d2 Hins]]]; apply bind_ok in Hins as (ci&d1&Hens&Hins);
    apply bind_ok in Hins as (i'&d3&Hf&[= <- <-]).
  apply (ensure_row _ _ _ _ (sha256 (sconcat cs))) in Hens as (c&Hc&Hcid&Hch).
  2:{ cbn. rewrite Hh. by apply hash_text, ObjectStore.sha256_hash. }
  apply insert_file_row in Hf as (Hcont&row&Hfiles&Hrid&Ho&Hfc&Hdel).
  assert (row ∈ files_of o d3) as Hrow by (eapply live_owned; [done|congruence|done]).
  destruct (used_uuid d3 ci Hok') as [Hcu _]; [right; left; rewrite Hcont, <- Hcid; by apply list_elem_of_fmap_2|].
  assert (∃ cs', c_chunks c = jstrs (map sha256 cs') ∧ (∀ x, x ∈ cs' → object (fs w) (sha256 x) = Some x) ∧ sconcat cs' = sconcat cs)
    as (cs'&Hcs'&Hob'&Hcat').
  { rewrite <- Hcont in Hc. destruct Hg as [Hg|(c'&Hg&_&_&t'&Ht'&Hj')]; rewrite Hg in Hc.
    - by apply agreed_data.
    - apply elem_of_app in Hc as [Hc|Hc%list_elem_of_singleton]; [by apply agreed_data|]. subst c'.
      exists cs. split_and!; [congruence|done|done]. }
  exists row, c, cs'. cbn [db with_db fs]. split_and!; try done; [by rewrite Hcont|congruence].
Qed.

(** ** The handler *)

Lemma set_error_status c m w x w' : set_error c m w = (Ok x, w') → HttpResponse.status_code_ (resp w') = c.
Proof.
  unfold set_error, World.on_resp, HttpResponse.set_error. destruct (json_dump _); [|done]. by intros [= _ <-].
Qed.

Lemma reply_json_run j w x w' : reply_json j w = (Ok x, w') →
  json_dump j = Ok (HttpResponse.body_ (resp w')) ∧ HttpResponse.status_code_ (resp w') = HttpResponse.status_code_ (resp w) ∧
  idle w w'.
Proof. unfold reply_json. intros (t&w1&[Ht ->]%lift_ok&Hr)%bind_ok. by injection Hr as <- <-. Qed.

Lemma delivers_idle o i data w w' : idle w w' → delivers o i data w → delivers o i data w'.
Proof. intros [Hd Hf]. unfold delivers. by rewrite Hd, Hf. Qed.
Lemma stored_idle w w' : idle w w' → stored S w → stored S w'.
Proof. intros [Hd Hf]. unfold stored. by rewrite Hd, Hf. Qed.
Lemma agrees_idle data w w' : idle w w' → content_agrees data w → content_agrees data w'.
Proof. intros [Hd Hf]. unfold content_agrees. by rewrite Hd, Hf. Qed.

(** The answer names the file, and the file delivers the data. *)
Definition answered (o data : string) (w : World) : Prop :=
  ∃ l i, json_dump (JObj l) = Ok (HttpResponse.body_ (resp w)) ∧ jlookup "file_id" l = Some (JStr i) ∧ delivers o i data w.

Lemma reply_answers o data i w l x w' : delivers o i data w → jlookup "file_id" l = Some (JStr i) →
  reply_json (JObj l) w = (Ok x, w') → answered o data w'.
Proof.
  intros Hd Hl (Hj&_&Hi)%reply_json_run. exists l, i. split_and!; [done|done|]. by eapply delivers_idle.
Qed.

Lemma text_hash d : text_in (sha256 d) = Some (sha256 d).
Proof. apply hash_text, ObjectStore.sha256_hash. Qed.

(** Known content, by whichever way it was found. *)
Lemma instant_answers t r n m u fo w w' o data z c x : stored S w → uuid_in u = Some o →
  c ∈ contents (db w) → FileDao.content_id r = c_id c → c_hash c = sha256 data → content_agrees data w →
  (i ← FileUpload.link_existing_content t r n m u fo; FileUpload.reply_instant i (sha256 data) z) w = (Ok x, w') →
  answered o data w'.
Proof.
  intros Hst Hu Hc Hid Hh Ha (i&w1&Hl&Hr)%bind_ok.
  destruct (link_delivers _ _ _ _ _ _ _ _ _ o data c Hst Hl Hu Hc Hid Hh Ha) as [Hd _].
  by eapply reply_answers; [| |exact Hr].
Qed.

Lemma cached_some h w r w' : text_in h = Some h → FileUpload.cached_content h w = (Ok (Some r), w') →
  idle w w' ∧ ∃ c, c ∈ contents (db w') ∧ c_hash c = h ∧ FileDao.content_id r = c_id c.
Proof.
  intros Hh Hc. unfold FileUpload.cached_content in Hc. apply bind_ok in Hc as (hit&w1&Hr&Hc).
  pose proof (ok_steps_of _ (idle_redis _ _) _ _ _ Hr) as Hi. destruct hit as [hit|]; [|by injection Hc].
  apply found_content in Hc as [-> (c&?&?&?)]; [|done]. eauto 10.
Qed.

Lemma cached_none h w w' : FileUpload.cached_content h w = (Ok None, w') → idle w w'.
Proof.
  intros Hc. unfold FileUpload.cached_content in Hc. apply bind_ok in Hc as (hit&w1&Hr&Hc).
  pose proof (ok_steps_of _ (idle_redis _ _) _ _ _ Hr) as Hi. destruct hit as [hit|]; [|by injection Hc as <-].
  apply on_db_read_ok in Hc as [_ ->]; [done|auto with reads].
Qed.

Lemma store_answers data n m u fo w w' o x : stored S w → uuid_in u = Some o → fits S (fs w) data → content_agrees data w →
  FileUpload.store_upload S data (sha256 data) n m u fo w = (Ok x, w') → answered o data w'.
Proof.
  intros Hst Hu Hfit Ha Hrun. destruct (put_chunked_fits S data (fs w) (proj1 (proj2 Hst)) Hfit) as (f'&Hput&Hs'&Hob&Hg).
  pose proof (chunks_of_concat S data (proj1 Hfit)) as Hcat. set (cs := ObjectStore.chunks_of (chunk_size S) data) in *.
  unfold FileUpload.store_upload in Hrun. erewrite bind_run in Hrun by (apply on_fs_run; exact Hput).
  destruct (dump_hashes _ (hashes_of_chunks cs)) as (t&Hd&Ht&Hj). rewrite Hd in Hrun. erewrite bind_run in Hrun by reflexivity.
  cbv zeta in Hrun. apply bind_ok in Hrun as (i&w1&Hins&Hrun).
  assert (content_agrees data (with_fs f' w)) as Ha'.
  { intros c cs' Hc Hcs' Hob' Heq. destruct (proj2 (proj2 Hst) c Hc) as (cs0&Hcs0&Hob0&_).
    assert (cs' = cs0) as ->; [|by eapply Ha].
    rewrite Hcs' in Hcs0. unfold jstrs in Hcs0. injection Hcs0 as Hm.
    clear Hcs' Heq. revert cs0 Hm Hob0. induction cs' as [|y cs' IH]; intros [|y0 cs0] Hm Hob0; try done.
    cbn in Hm. injection Hm as Hy Hm. f_equal.
    - specialize (Hob' y ltac:(by left)). specialize (Hob0 y0 ltac:(by left)). cbn [fs with_fs] in Hob'. rewrite Hy in Hob'.
      assert (object f' (sha256 y0) = Some y0) by (apply Hg; [apply ObjectStore.sha256_hash|done]). congruence.
    - apply IH; [|done|]; intros z Hz; [apply Hob'|apply Hob0]; by right. }
  assert (stored S (with_fs f' w)) as Hst' by (by apply (put_served S "" w f' Hs' Hg)).
  eapply (insert_delivers _ _ _ _ o cs) in Hins as [Hdel _]; cbn [FileDao.owner_id FileDao.hash FileDao.chunk_hashes];
    rewrite ?Hcat; try done.
  rewrite Hcat in Hdel. apply bind_ok in Hrun as (r&w2&Hr&Hrun). injection Hr as <- <-.
  apply bind_ok in Hrun as ([]&w2&Hx&Hrun).
  assert (idle w1 w2) as Hidle.
  { revert Hx. apply ok_steps_of. case_match; [|apply steps_ret]. apply steps_bind; [apply idle_read; auto with reads|].
    intros [c|]; [|apply steps_ret]. apply steps_bind; [apply idle_redis|intros; apply steps_ret]. }
  eapply reply_answers; [by eapply delivers_idle| |exact Hrun]. done.
Qed.

Lemma upload_answers t req o w w' : stored S w → uuid_in (auth_user_id_ req) = Some o → fits S (fs w) (body_ req) →
  content_agrees (body_ req) w → FileUpload.upload_route S t req w = (Ok (), w') →
  HttpResponse.status_code_ (resp w') = 200%Z → answered o (body_ req) w'.
Proof.
  intros Hst Hu Hfit Ha Hrun Hok. apply try_catch_ok in Hrun as [Ein|(e&w1&_&He)].
  2:{ apply set_error_status in He. by rewrite Hok in He. }
  apply bind_ok in Ein as (ok&w1&H1&Ein).
  assert (has_auth_user req = true) as Hauth.
  { apply negb_true_iff, bool_decide_eq_false. intros He. by rewrite He, uuid_in_empty in Hu. }
  unfold World.on_resp, Jwt.require_auth_user in H1. rewrite Hauth in H1. injection H1 as <- <-.
  assert (with_resp (resp w) w = w) as Hw by by destruct w. rewrite Hw in Ein. clear Hw.
  unfold FileUpload.handle_single_upload in Ein.
  destruct (sempty _); [apply set_error_status in Ein; by rewrite Hok in Ein|].
  apply bind_ok in Ein as (big&w1&H1&Ein). unfold FileUpload.reject_oversized in H1.
  destruct (_ && _); [apply bind_ok in H1 as (?&w2&He&H1); injection H1 as <- <-; injection Ein as <-;
    apply set_error_status in He; by rewrite Hok in He|].
  injection H1 as <- <-. apply bind_ok in Ein as (fo&w1&H1&Ein).
  destruct fo as [fo|].
  2:{ injection Ein as <-. unfold AccessControl.resolve_folder_id in H1. destruct (sempty _); [done|].
      apply bind_ok in H1 as (fr&w2&H2&H1).
      destruct fr as [fr|]; [destruct (bool_decide _); [done|]|];
        apply bind_ok in H1 as (?&w3&He&H1); injection H1 as <-; apply set_error_status in He; by rewrite Hok in He. }
  assert (w1 = w) as ->.
  { unfold AccessControl.resolve_folder_id in H1. destruct (sempty _); [by injection H1|].
    apply bind_ok in H1 as (fr&w2&H2&H1). apply on_db_read_ok in H2 as [_ ->]; [|auto with reads].
    destruct fr as [fr|]; [destruct (bool_decide _); [by injection H1|]|]; by apply bind_ok in H1 as (?&w3&He&?). }
  unfold FileUpload.upload_resolved in Ein. cbv zeta in Ein. apply bind_ok in Ein as (cached&w1&H2&Ein).
  destruct cached as [r|].
  { apply cached_some in H2 as [Hi (c&?&?&?)]; [|apply text_hash].
    eapply instant_answers; [by eapply stored_idle|done..|by eapply agrees_idle|exact Ein]. }
  apply cached_none in H2 as Hi. apply bind_ok in Ein as (found&w2&H3&Ein). destruct found as [r|].
  - apply found_content in H3 as [-> (c&Hc&?&?)]; [|apply text_hash].
    apply bind_ok in Ein as (b&w3&H4&Ein). pose proof (ok_steps_of _ (idle_redis _ _) _ _ _ H4) as Hi2.
    assert (idle w w3) as Hi3 by by etransitivity.
    eapply instant_answers; [by eapply stored_idle|done| |done|done|by eapply agrees_idle|exact Ein].
    destruct Hi2 as [-> _]. done.
  - apply on_db_read_ok in H3 as [_ ->]; [|auto with reads].
    eapply store_answers; [by eapply stored_idle|done| |by eapply agrees_idle|exact Ein]. destruct Hi as [_ ->]. done.
Qed.

End delivery.

End Delivery.
