(* ===== verification/Parts.v ===== *)
(** Multipart uploads as a whole: the session in Redis and the part objects
    represent a list of the parts received so far, every request acts on that
    list, and a completed upload delivers the parts in their order. *)
From S2P Require Import Prelude Steps JsonValue HttpMessage HttpRouter Jwt ObjectStore Database Daos Constraints Redis WsCodec.
From S2P Require Import World Gc Files FoldersAccounts Multipart Shares Server Sessions StoredContent Isolation HandlerSafety.
From S2P Require Import ApiSafety ServerSafety Answers Delivery.
Import World Schema StoredContent Isolation HandlerSafety Sessions Answers Delivery HttpRequest.

Module Parts.
Import Multipart.

(** What the session commands do on a server that stays connected and lets no
    key expire while a request is handled; between two requests the server may
    do anything. *)
Record hash_server {R : RedisServer} (hash_field : rdb → string → string → option string) : Prop := {
  server_hget d id f : link d = true → fst (redis_call ["HGET"; session_key id; f] d) =
    match hash_field d (session_key id) f with Some v => RString v | None => RNil end;
  server_hget_keeps d id f : link d = true → let d' := snd (redis_call ["HGET"; session_key id; f] d) in
    link d' = true ∧ ∀ id' f', hash_field d' (session_key id') f' = hash_field d (session_key id') f';
  server_hset d id f v : link d = true → let d' := snd (redis_call ["HSET"; session_key id; f; v] d) in
    link d' = true ∧ ∀ id' f', hash_field d' (session_key id') f' =
      if bool_decide (id' = id) && bool_decide (f' = f) then Some v else hash_field d (session_key id') f';
  server_expire d id t : link d = true → (0 < t)%Z → let d' := snd (redis_call ["EXPIRE"; session_key id; to_string t] d) in
    link d' = true ∧ ∀ id' f', hash_field d' (session_key id') f' = hash_field d (session_key id') f'
}.

Section redis.
Context {R : RedisServer} {J : JsonText} {P : Postgres} {EV : Evp}.
Context (hash_field : rdb → string → string → option string) (L : hash_server hash_field).

(** * The hash of a session *)

Definition live (w : World) : Prop := ∃ r, redis w = Some r ∧ RedisClient.ctx_ r = true ∧ link (RedisClient.server r) = true.
Definition field (w : World) (id f : string) : option string :=
  match redis w with Some r => hash_field (RedisClient.server r) (session_key id) f | None => None end.

Abbreviation fields := (string → string → option string).
Definition upd (id f v : string) (F : fields) : fields := λ id' f',
  if bool_decide (id' = id) && bool_decide (f' = f) then Some v else F id' f'.

(** From [w0] on only Redis changed, and the hashes are [F] now. *)
Definition after (w0 : World) (F : fields) (w : World) : Prop :=
  live w ∧ (∃ r, w = with_redis r w0) ∧ ∀ id f, field w id f = F id f.

Lemma after_refl w : live w → after w (field w) w.
Proof. intros Hl. split; [done|]. split; [exists (redis w); by destruct w|done]. Qed.

Lemma key_c_str id : c_str id = id → c_str (session_key id) = session_key id.
Proof.
  intros Hid. unfold session_key. transitivity ("multipart:" +:+ c_str id); [reflexivity|by rewrite Hid].
Qed.

Lemma hget_run w0 F w id f : after w0 F w → c_str id = id → c_str f = f →
  ∃ w', hget (session_key id) f w = (Ok (F id f), w') ∧ after w0 F w'.
Proof using L.
  intros ((r&Hr&Hc&Hl)&(r0&Hw)&HF) Hid Hf. unfold hget, on_redis, RedisClient.hget, RedisClient.redis_command.
  rewrite Hr, Hc, Hl. cbn [fmap list_fmap]. rewrite key_c_str, Hf by done. change (c_str "HGET") with "HGET".
  pose proof (server_hget _ L _ id f Hl) as Hrep. destruct (server_hget_keeps _ L _ id f Hl) as [Hl' Hk].
  destruct (redis_call _ _) as [rep d]. cbn [fst snd] in *. eexists. split.
  - f_equal. f_equal. rewrite Hrep, <- HF. unfold field. rewrite Hr. by destruct (hash_field _ _ _).
  - split; [by eexists|]. split; [subst w; by eexists|]. intros id' f'. cbn. rewrite Hk, <- HF. unfold field. by rewrite Hr.
Qed.

Lemma hset_run w0 F w id f v : after w0 F w → c_str id = id → c_str f = f → c_str v = v →
  ∃ w', hset (session_key id) f v w = (Ok (), w') ∧ after w0 (upd id f v F) w'.
Proof using L.
  intros ((r&Hr&Hc&Hl)&(r0&Hw)&HF) Hid Hf Hv. unfold hset, on_redis, RedisClient.hset, RedisClient.redis_command.
  unfold mbind, M_mbind. rewrite Hr, Hc, Hl. cbn [fmap list_fmap]. rewrite key_c_str, Hf, Hv by done. change (c_str "HSET") with "HSET".
  destruct (server_hset _ L _ id f v Hl) as [Hl' Hk]. destruct (redis_call _ _) as [rep d]. cbn [snd] in *.
  eexists. split; [reflexivity|]. split; [by eexists|]. split; [subst w; by eexists|].
  intros id' f'. cbn. unfold upd. rewrite Hk. destruct (_ && _); [done|]. rewrite <- HF. unfold field. by rewrite Hr.
Qed.

Lemma expire_run w0 F w id t : after w0 F w → c_str id = id → (0 < t)%Z →
  ∃ b w', on_redis (RedisClient.expire (session_key id) t) false w = (Ok b, w') ∧ after w0 F w'.
Proof using L.
  intros ((r&Hr&Hc&Hl)&(r0&Hw)&HF) Hid Ht. unfold on_redis, RedisClient.expire, RedisClient.redis_command.
  rewrite Hr, Hc, Hl, bool_decide_eq_true_2 by done. cbn [fmap list_fmap andb]. rewrite key_c_str, to_string_plain by done.
  change (c_str "EXPIRE") with "EXPIRE".
  destruct (server_expire _ L _ id t Hl Ht) as [Hl' Hk]. destruct (redis_call _ _) as [rep d]. cbn [snd] in *.
  eexists _, _. split; [reflexivity|]. split; [by eexists|]. split; [subst w; by eexists|].
  intros id' f'. cbn. rewrite Hk, <- HF. unfold field. by rewrite Hr.
Qed.

(** One command of a program, for whatever is to be shown of the whole. *)
Lemma hget_then {B} w0 F w id f (k : option string → M World B) (Q : result B * World → Prop) :
  after w0 F w → c_str id = id → c_str f = f → (∀ w1, after w0 F w1 → Q (k (F id f) w1)) →
  Q ((hget (session_key id) f ≫= k) w).
Proof using L.
  intros Ha Hid Hf HQ. destruct (hget_run _ _ _ id f Ha Hid Hf) as (w1&Hg&Ha1). rewrite (bind_run _ _ _ _ _ Hg). by apply HQ.
Qed.

Lemma hset_then {B} w0 F w id f v (k : () → M World B) (Q : result B * World → Prop) :
  after w0 F w → c_str id = id → c_str f = f → c_str v = v → (∀ w1, after w0 (upd id f v F) w1 → Q (k () w1)) →
  Q ((hset (session_key id) f v ≫= k) w).
Proof using L.
  intros Ha Hid Hf Hv HQ. destruct (hset_run _ _ _ id f v Ha Hid Hf Hv) as (w1&Hg&Ha1). rewrite (bind_run _ _ _ _ _ Hg). by apply HQ.
Qed.

(** * Saving and loading *)

(** The session as the hash holds it. *)
Definition holds (F : fields) (s : MultipartSession) : Prop :=
  ∃ hashes flags, json_dump (jstrs (part_hashes s)) = Ok hashes ∧ json_dump (JArr (map JBool (uploaded s))) = Ok flags ∧
    c_str hashes = hashes ∧ c_str flags = flags ∧
    Forall (λ fv, F (upload_id s) (fst fv) = Some (snd fv))
      [("file_name", file_name s); ("mime_type", mime_type s); ("user_id", user_id s); ("folder_id", folder_id s);
       ("total_size", to_string (total_size s)); ("chunk_size", to_string (session_chunk_size s));
       ("chunk_count", to_string (chunk_count s)); ("part_hashes", hashes); ("uploaded", flags)].

(** Texts without NUL and numbers of their types: what survives Redis. *)
Record plain (s : MultipartSession) : Prop := {
  plain_id : c_str (upload_id s) = upload_id s;
  plain_name : c_str (file_name s) = file_name s;
  plain_mime : c_str (mime_type s) = mime_type s;
  plain_user : c_str (user_id s) = user_id s;
  plain_folder : c_str (folder_id s) = folder_id s;
  plain_total : (i64_min ≤ total_size s ≤ i64_max)%Z;
  plain_chunk : (i64_min ≤ session_chunk_size s ≤ i64_max)%Z;
  plain_count : (int_min ≤ chunk_count s ≤ int_max)%Z;
  plain_hashes : Forall part_hash (part_hashes s)
}.

Lemma flags_dump l : ∃ t, json_dump (JArr (map JBool l)) = Ok t ∧ c_str t = t.
Proof.
  destruct (json_dump_ascii (JArr (map JBool l))) as (t&Ht&Ha); [by rewrite jstrings_bools|].
  exists t. split; [done|by apply plain_c_str].
Qed.

(** Saving writes the session's hash and nothing else. *)
Lemma save_run w0 F w s : after w0 F w → plain s →
  ∃ w' F', save_to_redis s w = (Ok (), w') ∧ after w0 F' w' ∧ holds F' s ∧ ∀ id f, id ≠ upload_id s → F' id f = F id f.
Proof using L.
  intros Ha [Hid Hn Hm Hu Hf Ht Hc Hk Hh].
  destruct (hashes_plain _ Hh) as (th&Hth&Hch), (flags_dump (uploaded s)) as (tf&Htf&Hcf).
  unfold save_to_redis. assert (has_redis w = (Ok true, w)) as Hhas.
  { unfold has_redis. destruct Ha as ((r&->&_)&_). done. }
  rewrite (bind_run _ _ _ _ _ Hhas). cbn [negb]. rewrite Hth, Htf. cbv zeta.
  clear Hhas. set (Q := λ x : result () * World, ∃ w' F', x = (Ok (), w') ∧ after w0 F' w' ∧ holds F' s ∧
    ∀ id f, id ≠ upload_id s → F' id f = F id f).
  match goal with |- ∃ w' F', ?x = _ ∧ _ => change (Q x) end.
  repeat first [eapply (hset_then w0 _ w _ _ _ _ Q); [exact Ha|done|done|first [done|apply to_string_plain]|clear w Ha; intros w Ha]
    | rewrite lift_bind].
  destruct (expire_run _ _ _ (upload_id s) (24 * 3600) Ha Hid ltac:(lia)) as (b&w1&He&Ha1). rewrite (bind_run _ _ _ _ _ He).
  eexists w1, _. split; [reflexivity|]. split; [exact Ha1|]. split.
  - exists th, tf. split_and!; [done..|]. rewrite !Forall_cons. unfold upd.
    rewrite !(bool_decide_eq_true_2 (upload_id s = upload_id s)) by done. cbn [fst snd andb]. by split_and!.
  - intros id f Hne. unfold upd. by rewrite !(bool_decide_eq_false_2 (id = upload_id s)).
Qed.

(** Loading reads it back. *)
Lemma load_run S part_size w0 F w s : after w0 F w → plain s → holds F s →
  ∃ w', load_from_redis S part_size (upload_id s) w = (Ok s, w') ∧ after w0 F w'.
Proof using L.
  intros Ha [Hid Hn Hm Hu Hf Ht Hc Hk Hh] (th&tf&Hth&Htf&_&_&Hall). rewrite !Forall_cons in Hall.
  destruct Hall as (H1&H2&H3&H4&H5&H6&H7&H8&H9&_). cbn [fst snd] in *. unfold load_from_redis. cbv zeta.
  set (Q := λ x : result MultipartSession * World, ∃ w', x = (Ok s, w') ∧ after w0 F w').
  match goal with |- ∃ w', ?x = _ ∧ _ => change (Q x) end.
  assert (parse_array jget_strs (Some th) = Ok (part_hashes s)) as Hph.
  { unfold parse_array, sempty. rewrite bool_decide_eq_false_2 by by eapply json_dump_text.
    rewrite (json_parse_dump _ _ (canonical_jstrs _) Hth). apply jget_strs_jstrs. }
  assert (parse_array jget_bools (Some tf) = Ok (uploaded s)) as Hpf.
  { unfold parse_array, sempty. rewrite bool_decide_eq_false_2 by by eapply json_dump_text.
    rewrite (json_parse_dump _ _ (canonical_bools _) Htf). apply jmap_bools. }
  eapply (hget_then w0 F w _ _ _ Q); [exact Ha|done|done|clear w Ha; intros w Ha]. rewrite H1.
  repeat first [ eapply (hget_then w0 F w _ _ _ Q); [exact Ha|done|done|clear w Ha; intros w Ha;
      rewrite ?H2, ?H3, ?H4, ?H5, ?H6, ?H7, ?H8, ?H9, ?Hph, ?Hpf; cbv iota]
    | rewrite lift_bind | (unfold stoll, stoi; rewrite sto_signed_to_string by done) ].
  exists w. split; [|done]. by destruct s.
Qed.

End redis.

(** * The parts of an upload *)

Section uploads.
Context {R : RedisServer} {J : JsonText} {P : Postgres} {EV : Evp} (St : Settings) (part_size : Z).
Context (hash_field : rdb → string → string → option string) (L : hash_server hash_field).

Abbreviation object := (ObjectStore.object (base_path St)).
Abbreviation sha256 := ObjectStore.sha256.
Abbreviation field := (field hash_field).

(** The session of an upload of which the given parts have arrived. *)
Definition part_name (p : option string) : string := match p with Some x => sha256 x | None => "" end.
Definition arrived (p : option string) : bool := match p with Some _ => true | None => false end.
Definition with_parts (s : MultipartSession) (ps : list (option string)) : MultipartSession :=
  mk (upload_id s) (user_id s) (folder_id s) (file_name s) (mime_type s) (total_size s) (session_chunk_size s) (chunk_count s)
    (map arrived ps) (map part_name ps).

(** Redis holds that session, and the store the parts. *)
Definition tracks (s : MultipartSession) (ps : list (option string)) (w : World) : Prop :=
  live w ∧ holds (field w) (with_parts s ps) ∧ chunk_count s = Z.of_nat (length ps) ∧
  ∀ x, Some x ∈ ps → object (fs w) (sha256 x) = Some x.

Lemma holds_ext (F F' : string → string → option string) s : (∀ id f, F' id f = F id f) → holds F s → holds F' s.
Proof.
  intros HF (th&tf&?&?&?&?&Hall). exists th, tf. split_and!; [done..|]. eapply Forall_impl; [exact Hall|].
  intros [f v] Hv. by rewrite HF.
Qed.

Lemma with_parts_plain s ps : plain s → plain (with_parts s ps).
Proof.
  intros []. split; try done. apply Forall_forall. intros h (p&->&_)%list_elem_of_fmap.
  destruct p; [right; apply ObjectStore.sha256_hash|by left].
Qed.

Lemma tracks_after s ps w w' : tracks s ps w → after hash_field w (field w) w' → tracks s ps w'.
Proof.
  intros (_&Hh&Hn&Hob) (Hl&(r&->)&HF). split_and!; [done|by eapply holds_ext|done|done].
Qed.

Lemma tracks_resp s ps w r : tracks s ps w → tracks s ps (with_resp r w).
Proof. done. Qed.

(** The owner's requests find the session; those of others are refused. *)
Lemma owned_run req w s ps : tracks s ps w → plain s → upload_id s ≠ "" → ∃ w',
  after hash_field w (field w) w' ∧
  if bool_decide (user_id s = auth_user_id_ req) then owned_session St part_size req (upload_id s) w = (Ok (Some (with_parts s ps)), w')
  else ∃ r, owned_session St part_size req (upload_id s) w = (Ok None, with_resp r w') ∧ HttpResponse.status_code_ r = 403%Z.
Proof using L.
  intros (Hl&Hh&_) Hp Hid.
  destruct (load_run hash_field L St part_size w (field w) w (with_parts s ps)) as (w'&Hrun&Ha);
    [by apply after_refl|by apply with_parts_plain|done|].
  exists w'. split; [done|]. change (upload_id (with_parts s ps)) with (upload_id s) in Hrun.
  unfold owned_session. rewrite (bind_run _ _ _ _ _ Hrun). unfold sempty.
  change (upload_id (with_parts s ps)) with (upload_id s). change (user_id (with_parts s ps)) with (user_id s).
  rewrite (bool_decide_eq_false_2 (upload_id s = "")) by done. destruct (bool_decide _); cbn [negb]; [done|].
  destruct (set_error_plain 403 "forbidden" w') as (r&He&Hr); [done|]. rewrite (bind_run _ _ _ _ _ He). by exists r.
Qed.

(** ** Receiving a part *)

(** What a request for a part deserves: an error, or its place. *)
Inductive part_verdict := Denied (code : Z) | Accepted (n : nat).

Definition judge_part (s : MultipartSession) (req : HttpRequest) : part_verdict :=
  if negb (has_auth_user req) then Denied 401
  else if sempty (get_path_param "part_num" req) then Denied 400
  else match stoi (get_path_param "part_num" req) with
       | Throw _ => Denied 500
       | Ok n =>
           if sempty (body_ req) then Denied 400
           else if negb (bool_decide (user_id s = auth_user_id_ req)) then Denied 403
           else if bool_decide (0 ≤ n < chunk_count s)%Z then
             if bool_decide (Z.of_nat (slen (body_ req)) ≤ session_chunk_size s)%Z then Accepted (Z.to_nat n) else Denied 413
           else Denied 400
       end.

(** The parts after the request. *)
Definition receive (s : MultipartSession) (req : HttpRequest) (ps : list (option string)) : list (option string) :=
  match judge_part s req with Accepted n => <[n := Some (body_ req)]> ps | Denied _ => ps end.

(** The disk keeps the part, and nothing else in the store has its hash. *)
Definition part_fits (f : Fs.t) (data : string) : Prop :=
  disk_write St data = data ∧ ∀ x, object f (sha256 data) = Some x → x = data.

Lemma put_part f data : ObjectStore.sound (base_path St) f → part_fits f data → ∃ f',
  ObjectStore.put (disk_write St) (base_path St) data f = (Ok (sha256 data), f') ∧ ObjectStore.sound (base_path St) f' ∧
  object f' (sha256 data) = Some data ∧ ∀ h d, ObjectStore.is_hash h = true → object f h = Some d → object f' h = Some d.
Proof.
  intros Hs [Hd Hc]. destruct (ObjectStore.put_spec (disk_write St) (base_path St) f data Hs) as (f'&Hput&Hobj&Hoth&Hsnd).
  rewrite Hd in Hobj, Hsnd. exists f'. split_and!; [done|by apply Hsnd| |].
  - case_bool_decide as Hx; [|done]. destruct Hx as [x Hx]. subst f'. rewrite Hx. f_equal. by apply Hc.
  - intros h d Hh Hx. destruct (decide (h = sha256 data)) as [->|]; [|by rewrite Hoth].
    rewrite bool_decide_eq_true_2 in Hobj by eauto. by subst.
Qed.

Lemma vec_set_map {A B} (g : A → B) (l : list A) n a : n < length l → vec_set (map g l) (Z.of_nat n) (g a) = Ok (map g (<[n := a]> l)).
Proof.
  intros Hn. unfold vec_set. rewrite length_map, bool_decide_eq_true_2, Nat2Z.id by lia. f_equal. symmetry. apply list_fmap_insert.
Qed.

Lemma reply_plain j w : forallb ascii7 (jstrings j) = true → ∃ t, json_dump j = Ok t ∧
  reply_json j w = (Ok (), with_resp (HttpResponse.set_json t (resp w)) w).
Proof.
  intros Ha. destruct (json_dump_ascii j Ha) as (t&Ht&_). exists t. split; [done|]. unfold reply_json. by rewrite Ht.
Qed.

Lemma hash_ascii h : ObjectStore.is_hash h = true → ascii7 h = true.
Proof. intros Hh. apply part_hash_ascii. by right. Qed.

(** What a received part leaves behind. *)
Definition part_reply (n : nat) (data : string) : json :=
  JObj [("hash", JStr (sha256 data)); ("part_num", JInt (Z.of_nat n)); ("size", JInt (Z.of_nat (slen data)))].

Lemma store_part_run s ps w n data : tracks s ps w → plain s → n < length ps →
  ObjectStore.sound (base_path St) (fs w) → part_fits (fs w) data →
  ∃ w', store_part St (with_parts s ps) (Z.of_nat n) data w = (Ok (), w') ∧ tracks s (<[n := Some data]> ps) w' ∧
    db w' = db w ∧ HttpResponse.status_code_ (resp w') = HttpResponse.status_code_ (resp w) ∧
    json_dump (part_reply n data) = Ok (HttpResponse.body_ (resp w')).
Proof using L.
  intros (Hl&Hh&Hn&Hob) Hp Hlt Hs Hfit. destruct (put_part (fs w) data Hs Hfit) as (f'&Hput&Hs'&Hnew&Hgrow).
  unfold store_part. rewrite (bind_run _ _ _ _ _ (on_fs_run _ w _ _ Hput)). cbn [uploaded part_hashes with_parts].
  rewrite (vec_set_map arrived ps n (Some data) Hlt : vec_set _ _ true = _), lift_bind.
  rewrite (vec_set_map part_name ps n (Some data) Hlt : vec_set _ _ (sha256 data) = _), lift_bind. cbv zeta.
  change (mk _ _ _ _ _ _ _ _ _ _) with (with_parts s (<[n := Some data]> ps)).
  destruct (save_run hash_field L (with_fs f' w) (field w) (with_fs f' w) (with_parts s (<[n := Some data]> ps)))
    as (w1&F&Hsave&(Hl1&(r&->)&HF)&Hh1&_).
  { split; [done|]. split; [by exists (redis w)|done]. }
  { by apply with_parts_plain. }
  rewrite (bind_run _ _ _ _ _ Hsave). unfold notify_upload_progress. cbv zeta.
  erewrite (bind_run (on_ws _)) by reflexivity.
  match goal with |- context [reply_json _ ?x] => destruct (reply_plain (part_reply n data) x) as (t&Ht&Hrep) end.
  { cbn. rewrite hash_ascii by apply ObjectStore.sha256_hash. done. }
  unfold part_reply in Hrep. rewrite Hrep. eexists. split; [reflexivity|]. split_and!; [|done..|exact Ht].
  split_and!; [exact Hl1|eapply holds_ext; [|exact Hh1]; exact HF|by rewrite length_insert|].
  intros x Hx. cbn. apply list_elem_of_lookup in Hx as [i Hi]. apply list_lookup_insert_Some in Hi as [(_&[= <-]&_)|[_ Hi]]; [done|].
  apply Hgrow; [apply ObjectStore.sha256_hash|]. apply Hob. by eapply list_elem_of_lookup_2.
Qed.

(** The failures of [std::stoi] are ordinary exceptions with plain texts. *)
Lemma stoi_throws t e : stoi t = Throw e → ex_what e = "stoi" ∧ ex_kind e ≠ EUndefined.
Proof.
  unfold stoi, sto_signed. destruct (scan_int t) as [[neg v]|]; [|by intros [= <-]]. cbv zeta. case_bool_decide; [done|by intros [= <-]].
Qed.

(** A handler that answers with an error. *)
Lemma denied_run code m w (h : exn → M World ()) s ps : forallb ascii7 [m] = true → tracks s ps w → ∃ w',
  try_catch (set_error code m) h w = (Ok (), w') ∧ tracks s ps w' ∧ db w' = db w ∧ fs w' = fs w ∧
  HttpResponse.status_code_ (resp w') = code.
Proof.
  intros Hm Ht. destruct (set_error_plain code m w Hm) as (r&He&Hr). exists (with_resp r w). unfold try_catch. rewrite He.
  by split_and!.
Qed.

Lemma catch_run {S A} (m : M S A) h w a w' : m w = (Ok a, w') → try_catch m h w = (Ok a, w').
Proof. unfold try_catch. by intros ->. Qed.

(** A request for a part acts on the list of parts and on nothing else. *)
Lemma part_request (s : MultipartSession) (ps : list (option string)) (req : HttpRequest) (w : World)
    (Ht : tracks s ps w) (Hp : plain s) (Hid : upload_id s ≠ "") (Hreq : get_path_param "upload_id" req = upload_id s)
    (Hs : ObjectStore.sound (base_path St) (fs w)) (Hfit : part_fits (fs w) (body_ req)) :
  ∃ w', handle_upload_part St part_size req w = (Ok (), w') ∧ tracks s (receive s req ps) w' ∧ db w' = db w ∧
    match judge_part s req with
    | Denied code => HttpResponse.status_code_ (resp w') = code ∧ fs w' = fs w
    | Accepted n => HttpResponse.status_code_ (resp w') = HttpResponse.status_code_ (resp w) ∧ n < length ps ∧
        json_dump (part_reply n (body_ req)) = Ok (HttpResponse.body_ (resp w'))
    end.
Proof using L.
  unfold handle_upload_part, receive, judge_part. cbv zeta. rewrite Hreq.
  destruct (negb (has_auth_user req)); [destruct (denied_run 401 "Unauthorized" w (error_500 "upload part failed: ") s ps) as (w'&?&?&?&?&?); [done..|by exists w']|].
  assert (sempty (upload_id s) = false) as -> by by apply bool_decide_eq_false. cbn [orb].
  destruct (sempty (get_path_param _ req));
    [destruct (denied_run 400 "missing upload_id or part_num" w (error_500 "upload part failed: ") s ps) as (w'&?&?&?&?&?); [done..|by exists w']|].
  destruct (stoi _) as [n|e] eqn:En.
  2:{ apply stoi_throws in En as [Hw He]. unfold try_catch, lift_result, mbind, M_mbind. rewrite bool_decide_eq_false_2 by done.
      unfold error_500. rewrite Hw. destruct (set_error_plain 500 ("upload part failed: " +:+ "stoi") w) as (r&Hr&?); [done|].
      rewrite Hr. eexists. by split_and!. }
  rewrite lift_bind. destruct (sempty (body_ req));
    [destruct (denied_run 400 "empty part body" w (error_500 "upload part failed: ") s ps) as (w'&?&?&?&?&?); [done..|by exists w']|].
  destruct (owned_run req w s ps Ht Hp Hid) as (w1&Ha&Ho). pose proof (tracks_after _ _ _ _ Ht Ha) as Ht1.
  destruct Ha as (_&(r1&->)&_). destruct (bool_decide (user_id s = auth_user_id_ req)); cbn [negb].
  2:{ destruct Ho as (r&Ho&Hr). eexists. split; [apply catch_run; erewrite bind_run by exact Ho; reflexivity|]. by split_and!. }
  assert (chunk_count (with_parts s ps) = chunk_count s) as Hcc by done.
  assert (session_chunk_size (with_parts s ps) = session_chunk_size s) as Hcs by done.
  destruct Ht as (_&_&Hn&_). destruct (bool_decide_reflect (0 ≤ n < chunk_count s)%Z) as [Hrange|Hrange].
  2:{ destruct (set_error_plain 400 "invalid part_num" (with_redis r1 w)) as (r&Hr&?); [done|].
      exists (with_resp r (with_redis r1 w)). split; [apply catch_run; erewrite bind_run by exact Ho; cbv iota; rewrite Hcc|by split_and!].
      replace (bool_decide (n < 0)%Z || bool_decide (chunk_count s ≤ n)%Z) with true; [exact Hr|].
      symmetry. apply orb_true_iff. rewrite !bool_decide_eq_true. lia. }
  assert (bool_decide (n < 0)%Z || bool_decide (chunk_count s ≤ n)%Z = false) as Hin.
  { apply orb_false_iff. rewrite !bool_decide_eq_false. lia. }
  destruct (bool_decide_reflect (Z.of_nat (slen (body_ req)) ≤ session_chunk_size s)%Z) as [Hsize|Hsize].
  2:{ destruct (set_error_plain 413 "part too large" (with_redis r1 w)) as (r&Hr&?); [done|].
      exists (with_resp r (with_redis r1 w)). split; [apply catch_run; erewrite bind_run by exact Ho; cbv iota; rewrite Hcc, Hcs, Hin|by split_and!].
      rewrite bool_decide_eq_true_2 by lia. exact Hr. }
  destruct (store_part_run s ps (with_redis r1 w) (Z.to_nat n) (body_ req) Ht1 Hp ltac:(lia) Hs Hfit) as (w'&Hst&Ht'&Hd&Hstat&Hj).
  rewrite Z2Nat.id in Hst by lia. exists w'. split_and!; [|done..|lia|done].
  apply catch_run. erewrite bind_run by exact Ho. cbv iota. rewrite Hcc, Hcs, Hin, bool_decide_eq_false_2 by lia. exact Hst.
Qed.

(** ** Completing *)

Lemma missing_part_spec (ps : list (option string)) fuel i : i + fuel = length ps →
  (∃ j, missing_part fuel (Z.of_nat i) (map arrived ps) = Ok (Some (Z.of_nat j)) ∧ ps !! j = Some None) ∨
  (missing_part fuel (Z.of_nat i) (map arrived ps) = Ok None ∧ ∃ cs, drop i ps = map Some cs).
Proof.
  revert i. induction fuel as [|fuel IH]; intros i Hi.
  - right. split; [done|]. exists []. apply drop_ge. lia.
  - destruct (lookup_lt_is_Some_2 ps i ltac:(lia)) as [p Hp]. cbn [missing_part]. unfold vec_get.
    rewrite bool_decide_eq_true_2, Nat2Z.id by lia. rewrite (list_lookup_fmap arrived ps i : map arrived ps !! i = _), Hp.
    cbn [fmap option_fmap option_map mbind result_mbind]. destruct p as [x|]; cbn [arrived]; [|left; by exists i].
    replace (Z.of_nat i + 1)%Z with (Z.of_nat (i + 1)) by lia.
    destruct (IH (i + 1) ltac:(lia)) as [Hm|(Hm&cs&Hcs)]; [by left|right]. split; [done|]. exists (x :: cs).
    rewrite (drop_S ps (Some x) i) by done. replace (S i) with (i + 1) by lia. by rewrite Hcs.
Qed.

Lemma map_part_names cs : map part_name (map Some cs) = map sha256 cs.
Proof. rewrite map_map. done. Qed.

(** While a part is missing the upload cannot be completed, and goes on. *)
Lemma complete_missing t s ps req w : tracks s ps w → plain s → upload_id s ≠ "" → get_path_param "upload_id" req = upload_id s →
  auth_user_id_ req = user_id s → has_auth_user req = true → None ∈ ps →
  ∃ w', handle_complete St t part_size req w = (Ok (), w') ∧ tracks s ps w' ∧ db w' = db w ∧ fs w' = fs w ∧
    HttpResponse.status_code_ (resp w') = 400%Z.
Proof using L.
  intros Ht Hp Hid Hreq Hu Hauth Hnone. unfold handle_complete, with_session. rewrite Hauth, Hreq. cbn [negb]. cbv zeta.
  assert (sempty (upload_id s) = false) as -> by by apply bool_decide_eq_false.
  destruct (owned_run req w s ps Ht Hp Hid) as (w1&Ha&Ho). pose proof (tracks_after _ _ _ _ Ht Ha) as Ht1.
  destruct Ha as (_&(r1&->)&_). rewrite bool_decide_eq_true_2 in Ho by done.
  pose proof Ht as (_&_&Hn&_). destruct (missing_part_spec ps (length ps) 0) as [(j&Hm&Hj)|(Hm&cs&Hcs)]; [lia| |].
  - destruct (set_error_plain 400 ("part " +:+ to_string (Z.of_nat j) +:+ " not uploaded yet") (with_redis r1 w)) as (r&Hr&?).
    { cbn [forallb]. rewrite andb_true_r. unfold ascii7. rewrite !sall_app. cbn [sall].
      rewrite (sall_impl num_char _ (to_string (Z.of_nat j))); [done| |apply to_string_num].
      intros c. unfold num_char, isdigit. rewrite orb_true_iff, !bool_decide_eq_true. intros [?| ->]; [lia|done]. }
    exists (with_resp r (with_redis r1 w)). split; [apply catch_run; erewrite bind_run by exact Ho; cbv iota|by split_and!].
    unfold complete_session. change (chunk_count (with_parts s ps)) with (chunk_count s). rewrite Hn, Nat2Z.id.
    change (uploaded (with_parts s ps)) with (map arrived ps). change 0%Z with (Z.of_nat 0). rewrite Hm, lift_bind. exact Hr.
  - exfalso. rewrite drop_0 in Hcs. subst ps. by apply list_elem_of_fmap in Hnone as (?&?&_).
Qed.

Lemma read_parts cs w : ObjectStore.sound (base_path St) (fs w) → (∀ x, x ∈ cs → object (fs w) (sha256 x) = Some x) →
  on_fs (ObjectStore.get_chunked (base_path St) (map sha256 cs)) w = (Ok (sconcat cs), w).
Proof.
  intros Hs Hob. unfold on_fs, ObjectStore.get_chunked. rewrite ObjectStore.get_loop_spec, sapp_nil_l by done. by destruct w.
Qed.

(** Recording the rows of the whole, known or new. *)
Lemma record_delivers t s cs text w i b w' o : uuid_in (user_id s) = Some o → stored St w → content_agrees St (sconcat cs) w →
  json_dump (jstrs (map sha256 cs)) = Ok text → (∀ x, x ∈ cs → object (fs w) (sha256 x) = Some x) →
  record_upload t s text (sha256 (sconcat cs)) w = (Ok (i, b), w') → delivers St o i (sconcat cs) w'.
Proof.
  intros Hu Hst Hag Ht Hob Hrun. unfold record_upload in Hrun. apply bind_ok in Hrun as (found&w1&Hf&Hrun). destruct found as [r|].
  - apply found_content in Hf as [-> (c&Hc&Hh&Hid)]; [|apply text_hash].
    apply bind_ok in Hrun as (i'&w1&Hl&Hrun). apply bind_ok in Hrun as (y&w2&Hr&Hrun). apply ret_ok in Hrun as [[= <- <-] <-].
    destruct (link_delivers St _ _ _ _ _ _ _ _ _ o (sconcat cs) c Hst Hl Hu Hc Hid Hh Hag) as [Hd _].
    eapply delivers_idle; [|exact Hd]. exact (ok_steps_of _ (idle_redis _ _) _ _ _ Hr).
  - apply on_db_read_ok in Hf as [_ ->]; [|auto with reads]. apply bind_ok in Hrun as (i'&w1&Hins&Hrun).
    destruct (dump_hashes _ (hashes_of_chunks cs)) as (t'&Ht'&Htext&Hj). rewrite Ht in Ht'. injection Ht' as <-.
    eapply (insert_delivers St _ _ _ _ o cs) in Hins as [Hdel _]; [|done..].
    apply bind_ok in Hrun as (r&w2&Hr&Hrun). injection Hr as <- <-. apply bind_ok in Hrun as ([]&w2&Hx&Hrun).
    apply ret_ok in Hrun as [[= <- <-] <-]. eapply delivers_idle; [|exact Hdel].
    revert Hx. apply ok_steps_of. case_match; [|apply steps_ret]. apply steps_bind; [apply idle_read; auto with reads|].
    intros [c|]; [|apply steps_ret]. apply steps_bind; [apply idle_redis|intros; apply steps_ret].
Qed.

(** What a client that resumes is told. *)
Definition status_reply (s : MultipartSession) (ps : list (option string)) : json :=
  JObj [("chunk_count", JInt (Z.of_nat (length ps))); ("chunk_size", JInt (session_chunk_size s)); ("file_name", JStr (file_name s));
    ("part_hashes", JArr (map (λ p, match p with Some x => JStr (sha256 x) | None => JNull end) ps));
    ("total_size", JInt (total_size s)); ("upload_id", JStr (upload_id s));
    ("uploaded_count", JInt (Z.of_nat (length (omap id ps))))].

Lemma uploaded_count_arrived ps : uploaded_count (map arrived ps) = Z.of_nat (length (omap id ps)).
Proof.
  unfold uploaded_count. f_equal. induction ps as [|[x|] ps IH]; [done| |].
  - change (map arrived (Some x :: ps)) with (true :: map arrived ps). rewrite filter_cons_True by done. cbn [length]. by rewrite IH.
  - change (map arrived (None :: ps)) with (false :: map arrived ps). rewrite filter_cons_False by done. exact IH.
Qed.

Lemma shown_hashes ps : map (λ h, if sempty h then JNull else JStr h) (map part_name ps) =
  map (λ p, match p with Some x => JStr (sha256 x) | None => JNull end) ps.
Proof.
  rewrite map_map. apply map_ext. intros [x|]; [|done]. cbn [part_name].
  by rewrite ObjectStore.is_hash_nonempty by apply ObjectStore.sha256_hash.
Qed.

Lemma status_reports s ps req w text : tracks s ps w → plain s → upload_id s ≠ "" → get_path_param "upload_id" req = upload_id s →
  auth_user_id_ req = user_id s → has_auth_user req = true → json_dump (status_reply s ps) = Ok text →
  ∃ w', handle_status St part_size req w = (Ok (), w') ∧ tracks s ps w' ∧ db w' = db w ∧ fs w' = fs w ∧
    HttpResponse.body_ (resp w') = text ∧ HttpResponse.status_code_ (resp w') = HttpResponse.status_code_ (resp w).
Proof using L.
  intros Ht Hp Hid Hreq Hu Hauth Htext. unfold handle_status, with_session. rewrite Hauth, Hreq. cbn [negb]. cbv zeta.
  assert (sempty (upload_id s) = false) as -> by by apply bool_decide_eq_false.
  destruct (owned_run req w s ps Ht Hp Hid) as (w1&Ha&Ho). pose proof (tracks_after _ _ _ _ Ht Ha) as Ht1.
  destruct Ha as (_&(r1&->)&_). rewrite bool_decide_eq_true_2 in Ho by done. destruct Ht as (_&_&Hn&_).
  exists (with_resp (HttpResponse.set_json text (resp w)) (with_redis r1 w)).
  split; [apply catch_run; erewrite bind_run by exact Ho; cbv iota|by split_and!].
  unfold reply_json, with_parts. cbn [chunk_count session_chunk_size file_name part_hashes total_size upload_id uploaded].
  rewrite shown_hashes, uploaded_count_arrived, Hn. unfold status_reply in Htext. by rewrite Htext, lift_bind.
Qed.

(** C15. The requests of a multipart upload refine a list of received parts: while
    Redis holds the session and the store its parts, a request for a part is
    refused with the right code and changes nothing, or puts its bytes in their
    place; the status tells exactly which parts are there; and completing an
    upload with a part missing answers 400 and leaves it as it is. *)
Theorem upload_session_refines (s : MultipartSession) (ps : list (option string)) (req : HttpRequest) (w : World) (t : Z)
    (Ht : tracks s ps w) (Hp : plain s) (Hid : upload_id s ≠ "") (Hreq : get_path_param "upload_id" req = upload_id s)
    (Hs : ObjectStore.sound (base_path St) (fs w)) :
  (part_fits (fs w) (body_ req) → ∃ w', handle_upload_part St part_size req w = (Ok (), w') ∧
    tracks s (receive s req ps) w' ∧ db w' = db w ∧
    match judge_part s req with
    | Denied code => HttpResponse.status_code_ (resp w') = code ∧ fs w' = fs w
    | Accepted n => HttpResponse.status_code_ (resp w') = HttpResponse.status_code_ (resp w) ∧ n < length ps ∧
        json_dump (part_reply n (body_ req)) = Ok (HttpResponse.body_ (resp w'))
    end) ∧
  (auth_user_id_ req = user_id s → has_auth_user req = true →
    (∀ text, json_dump (status_reply s ps) = Ok text → ∃ w', handle_status St part_size req w = (Ok (), w') ∧
      tracks s ps w' ∧ db w' = db w ∧ fs w' = fs w ∧ HttpResponse.body_ (resp w') = text ∧
      HttpResponse.status_code_ (resp w') = HttpResponse.status_code_ (resp w)) ∧
    (None ∈ ps → ∃ w', handle_complete St t part_size req w = (Ok (), w') ∧ tracks s ps w' ∧ db w' = db w ∧ fs w' = fs w ∧
      HttpResponse.status_code_ (resp w') = 400%Z)).
Proof using L.
  split; [by apply part_request|]. intros Hu Hauth. split; [intros text; by apply status_reports|by apply complete_missing].
Qed.

(** A completed upload had all its parts, and delivers them in their order. *)
Lemma complete_answers t s ps req w w' o : tracks s ps w → plain s → upload_id s ≠ "" →
  get_path_param "upload_id" req = upload_id s → auth_user_id_ req = user_id s → uuid_in (user_id s) = Some o → stored St w →
  (∀ cs, ps = map Some cs → content_agrees St (sconcat cs) w) →
  handle_complete St t part_size req w = (Ok (), w') → HttpResponse.status_code_ (resp w') = 200%Z →
  ∃ cs, ps = map Some cs ∧ answered St o (sconcat cs) w'.
Proof using L.
  intros Ht Hp Hid Hreq Hu Ho Hst Hag Hrun Hok. apply try_catch_ok in Hrun as [Hrun|(e&w1&_&He)].
  2:{ apply set_error_status in He. by rewrite Hok in He. }
  destruct (negb _); [apply set_error_status in Hrun; by rewrite Hok in Hrun|]. cbv zeta in Hrun. rewrite Hreq in Hrun.
  destruct (sempty _); [apply set_error_status in Hrun; by rewrite Hok in Hrun|].
  destruct (owned_run req w s ps Ht Hp Hid) as (w1&Ha&Hown). pose proof (tracks_after _ _ _ _ Ht Ha) as (_&_&Hn&Hob).
  destruct Ha as (_&(r1&->)&_). rewrite bool_decide_eq_true_2 in Hown by done. rewrite (bind_run _ _ _ _ _ Hown) in Hrun.
  unfold complete_session in Hrun. change (chunk_count (with_parts s ps)) with (chunk_count s) in Hrun. rewrite Hn, Nat2Z.id in Hrun.
  change (uploaded (with_parts s ps)) with (map arrived ps) in Hrun. change 0%Z with (Z.of_nat 0) in Hrun.
  destruct (missing_part_spec ps (length ps) 0) as [(j&Hm&_)|(Hm&cs&Hcs)]; [lia| |]; rewrite Hm, lift_bind in Hrun.
  { apply set_error_status in Hrun. by rewrite Hok in Hrun. }
  rewrite drop_0 in Hcs. exists cs. split; [done|]. specialize (Hag cs Hcs). subst ps.
  change (part_hashes (with_parts s (map Some cs))) with (map part_name (map Some cs)) in Hrun. rewrite map_part_names in Hrun.
  apply bind_ok in Hrun as (text&w1&[Htext ->]%lift_ok&Hrun).
  assert (∀ x, x ∈ cs → object (fs w) (sha256 x) = Some x) as Hparts by (intros x Hx; apply Hob; by apply list_elem_of_fmap_2).
  rewrite (bind_run _ _ _ _ _ (read_parts cs (with_redis r1 w) ltac:(by apply Hst) Hparts)) in Hrun. cbv zeta in Hrun.
  apply bind_ok in Hrun as ([i b]&w2&Hrec&Hrun).
  apply (record_delivers t (with_parts s (map Some cs)) cs text _ i b w2 o Ho) in Hrec; [|done..].
  apply bind_ok in Hrun as ([]&w3&Hdel&Hrun). unfold delete_from_redis in Hdel.
  apply bind_ok in Hdel as (y&w4&Hdel&[_ ->]%ret_ok). pose proof (ok_steps_of _ (idle_redis _ _) _ _ _ Hdel) as Hidle.
  apply bind_ok in Hrun as ([]&w4&Hws&Hrun). injection Hws as <-.
  eapply reply_answers; [| |exact Hrun]; [|done]. eapply delivers_idle; [|exact Hrec]. destruct Hidle. split; [done|done].
Qed.

(** ** Beginning *)

Lemma jlookup_strings k l x : jlookup k l = Some (JStr x) → x ∈ jstrings (JObj l).
Proof.
  induction l as [|[k' v] l IH]; [done|]. cbn [jlookup jstrings map concat fst snd]. rewrite elem_of_app, elem_of_cons. case_bool_decide.
  - intros [= ->]. left. right. by left.
  - intros Hl. right. by apply IH.
Qed.

Lemma field_text body k f x : jfield body k = Ok f → jget_str f = Ok x → x ∈ jstrings body.
Proof.
  destruct body as [| | | | | |l]; cbn [jfield]; try done; [by intros [= <-]|]. intros [= <-].
  destruct (jlookup k l) as [v|] eqn:El; [|done]. destruct v; try done. intros [= ->]. by eapply jlookup_strings.
Qed.

Lemma value_text body k d x : jvalue jget_str body k d = Ok x → x = d ∨ x ∈ jstrings body.
Proof.
  destruct body as [| | | | | |l]; cbn [jvalue]; try done. destruct (jlookup k l) as [v|] eqn:El; [|intros [= <-]; by left].
  destruct v; try done. intros [= ->]. right. by eapply jlookup_strings.
Qed.

Lemma folder_text body x : folder_of body = Ok x → x = "" ∨ x ∈ jstrings body.
Proof.
  unfold folder_of. destruct (jcontains _ _); [|intros [= <-]; by left]. intros (v&Hv&Hx)%result_bind_ok.
  destruct v; try done; [injection Hx as <-; by left|]. right. by eapply field_text.
Qed.

Lemma hex_digits_hex fuel z acc : sall ObjectStore.is_hex acc = true → sall ObjectStore.is_hex (hex_digits fuel z acc) = true.
Proof.
  revert z acc. induction fuel as [|fuel IH]; intros z acc Ha; [done|]. cbn [hex_digits]. cbv zeta.
  assert (sall ObjectStore.is_hex (String (ObjectStore.hex_digit (z `mod` 16)) acc) = true).
  { cbn [sall]. rewrite Ha, ObjectStore.hex_digit_hex; [done|]. apply Z.mod_pos_bound. lia. }
  case_bool_decide; auto.
Qed.

Lemma hex64_plain z : sall (λ c, negb (bool_decide (c = NUL))) (hex64 z) = true.
Proof.
  eapply sall_impl; [|by apply (hex_digits_hex 16 z "")]. intros c Hc. apply negb_true_iff, bool_decide_eq_false. by intros ->.
Qed.

Lemma uuid_plain v0 v1 v2 v3 : c_str (generate_uuid v0 v1 v2 v3) = generate_uuid v0 v1 v2 v3 ∧ generate_uuid v0 v1 v2 v3 ≠ "".
Proof.
  split.
  - apply c_str_id. unfold generate_uuid. rewrite !sall_app, !hex64_plain. done.
  - intros He%(f_equal slen). unfold generate_uuid in He. rewrite !slen_app in He. cbn in He. lia.
Qed.

Lemma jget_i64_range j z : jget_i64 j = Ok z → (i64_min ≤ z ≤ i64_max)%Z.
Proof. destruct j; try done; intros [= <-]; apply wrap_i64_range. Qed.

(** The session [init] makes: nothing has arrived. *)
Lemma fresh_spec id u fo n m t s : fresh_session St part_size id u fo n m t = Ok s →
  s = with_parts s (replicate (Z.to_nat (chunk_count s)) None) ∧ upload_id s = id ∧ user_id s = u ∧ folder_id s = fo ∧
  file_name s = n ∧ mime_type s = m ∧ total_size s = t ∧ session_chunk_size s = chunk_size_ St part_size ∧
  (0 ≤ chunk_count s ≤ int_max)%Z ∧ Forall part_hash (part_hashes s).
Proof.
  intros Hf. pose proof (init_hashes _ _ _ _ _ _ _ _ _ Hf) as Hh. revert Hf. unfold fresh_session. case_bool_decide as Hc; [done|].
  intros [= <-]. unfold with_parts. cbn [upload_id user_id folder_id file_name mime_type total_size session_chunk_size chunk_count].
  change (@map (option string)) with (@fmap list _ (option string)). rewrite !fmap_replicate. cbn [arrived part_name]. pose proof (wrap_i32_range (Z.quot (wrap_i64 (t + chunk_size_ St part_size - 1)) (chunk_size_ St part_size))).
  split_and!; [done..|lia|lia|done].
Qed.

Definition init_reply (s : MultipartSession) : json :=
  JObj [("chunk_count", JInt (chunk_count s)); ("chunk_size", JInt (session_chunk_size s)); ("upload_id", JStr (upload_id s))].

Lemma begin_tracks w w1 s x : live w → plain s → s = with_parts s (replicate (Z.to_nat (chunk_count s)) None) → (0 ≤ chunk_count s)%Z →
  (_ ← save_to_redis s; reply_json (init_reply s)) w = (Ok x, w1) →
  tracks s (replicate (Z.to_nat (chunk_count s)) None) w1 ∧ json_dump (init_reply s) = Ok (HttpResponse.body_ (resp w1)) ∧ idle w w1.
Proof using L.
  intros Hl Hp Hs Hn Hrun. destruct (save_run hash_field L w (field w) w s) as (w2&F&Hsave&(Hl2&(r&->)&HF)&Hh&_);
    [by apply after_refl|done|].
  rewrite (bind_run _ _ _ _ _ Hsave) in Hrun. unfold reply_json in Hrun.
  apply bind_ok in Hrun as (t&w3&[Ht ->]%lift_ok&Hrun). injection Hrun as _ <-. split; [|done].
  split_and!; [done|rewrite <- Hs; by eapply holds_ext|rewrite length_replicate; lia|].
  intros y Hy. by apply elem_of_replicate in Hy as [? _].
Qed.

(** The request's texts hold no NUL. *)
Definition plain_texts (req : HttpRequest) : Prop :=
  c_str (auth_user_id_ req) = auth_user_id_ req ∧ ∀ j x, json_parse (body_ req) = Ok j → x ∈ jstrings j → c_str x = x.

Lemma resolved_folder i u r w w1 : AccessControl.resolve_folder_id i u w = (Ok r, w1) →
  match r with Some f => f = i ∧ w1 = w | None => HttpResponse.status_code_ (resp w1) ≠ 200%Z end.
Proof.
  unfold AccessControl.resolve_folder_id. destruct (sempty i) eqn:Ei; [by intros [= <- <-]; apply bool_decide_eq_true in Ei|].
  intros (fr&w2&H2&H1)%bind_ok. apply on_db_read_ok in H2 as [_ ->]; [|auto with reads].
  destruct fr as [fr|]; [destruct (bool_decide _); [by injection H1 as <- <-|]|];
    apply bind_ok in H1 as (?&w3&He%set_error_status&[<- <-]%ret_ok); by rewrite He.
Qed.

Lemma not_oversized n m b w w1 : FileUpload.reject_oversized n m w = (Ok b, w1) →
  if (b : bool) then HttpResponse.status_code_ (resp w1) ≠ 200%Z else w1 = w.
Proof.
  unfold FileUpload.reject_oversized. destruct (_ && _); [|by intros [= <- <-]].
  intros (?&w2&He%set_error_status&[<- <-]%ret_ok)%bind_ok. by rewrite He.
Qed.

(** An [init] that is answered with 200 begins an upload of the size asked for. *)
Lemma init_begins v0 v1 v2 v3 req w w1 : live w → plain_texts req → (chunk_size_ St part_size ≤ i64_max)%Z →
  (0 ≤ chunk_size_ St part_size)%Z → handle_init St part_size v0 v1 v2 v3 req w = (Ok (), w1) →
  HttpResponse.status_code_ (resp w1) = 200%Z →
  ∃ s, json_dump (init_reply s) = Ok (HttpResponse.body_ (resp w1)) ∧ user_id s = auth_user_id_ req ∧ plain s ∧ upload_id s ≠ "" ∧
    tracks s (replicate (Z.to_nat (chunk_count s)) None) w1 ∧ idle w w1.
Proof using L.
  intros Hl [Hup Htext] Hc1 Hc2 Hrun Hok. apply try_catch_ok in Hrun as [Hrun|(e&w2&_&He)].
  2:{ unfold invalid_json in He. revert He. case_match; intros He%set_error_status; by rewrite Hok in He. }
  destruct (negb _); [apply set_error_status in Hrun; by rewrite Hok in Hrun|]. cbv zeta in Hrun.
  apply bind_ok in Hrun as (body&w2&[Hb ->]%lift_ok&Hrun).
  apply bind_ok in Hrun as (f&w2&[Hf ->]%lift_ok&Hrun). apply bind_ok in Hrun as (fn&w2&[Hfn ->]%lift_ok&Hrun).
  apply bind_ok in Hrun as (tt&w2&[_ ->]%lift_ok&Hrun). apply bind_ok in Hrun as (total&w2&[Htot%jget_i64_range ->]%lift_ok&Hrun).
  apply bind_ok in Hrun as (mime&w2&[Hmime%value_text ->]%lift_ok&Hrun).
  apply bind_ok in Hrun as (folder&w2&[Hfolder%folder_text ->]%lift_ok&Hrun).
  pose proof (field_text _ _ _ _ Hf Hfn) as Hname. destruct (_ || _); [apply set_error_status in Hrun; by rewrite Hok in Hrun|].
  apply bind_ok in Hrun as (big&w2&Hbig%not_oversized&Hrun). destruct big; [by apply ret_ok in Hrun as [_ <-]|]. subst w2.
  apply bind_ok in Hrun as (res&w2&Hres%resolved_folder&Hrun). destruct res as [fo|]; [|by apply ret_ok in Hrun as [_ <-]].
  destruct Hres as [-> ->]. apply bind_ok in Hrun as (s&w2&[Hs%fresh_spec ->]%lift_ok&Hrun).
  destruct Hs as (Hs&Hid&Hu&Hfo&Hn&Hm&Ht&Hcs&Hcount&Hhashes). destruct (uuid_plain v0 v1 v2 v3) as [Huuid Hne].
  rewrite <- Hid in Huuid, Hne.
  assert (∀ x, x ∈ jstrings body → c_str x = x) as Hplain by (intros; by eapply Htext).
  assert (plain s) as Hp.
  { split; [done|rewrite Hn; by apply Hplain|rewrite Hm; destruct Hmime as [->|?]; [done|by apply Hplain]|by rewrite Hu|
      rewrite Hfo; destruct Hfolder as [->|?]; [done|by apply Hplain]|by rewrite Ht|rewrite Hcs|unfold int_min; lia|done].
    unfold i64_min. lia. }
  exists s. destruct (begin_tracks w w1 s () Hl Hp Hs ltac:(lia) Hrun) as (?&?&?). by split_and!.
Qed.

(** ** A whole upload *)

Definition intact (w : World) : Prop := stored St w ∧ sessions_ok hash_field w.

(** What others may do in between: anything that keeps the session's hash and
    the objects of the parts it names. *)
Definition undisturbed (s : MultipartSession) (w w' : World) : Prop :=
  intact w' ∧ live w' ∧ (∀ f, field w' (upload_id s) f = field w (upload_id s) f) ∧
  ∀ t l h, field w (upload_id s) "part_hashes" = Some t → json_parse t = Ok (jstrs l) → h ∈ l → object (fs w') h = object (fs w) h.

(** Requests for parts of the upload, by whomever, and whatever happens in between. *)
Inductive session_run (s : MultipartSession) : list HttpRequest → World → World → Prop :=
  | run_done w : session_run s [] w w
  | run_part req reqs w w1 w' : get_path_param "upload_id" req = upload_id s → part_fits (fs w) (body_ req) →
      handle_upload_part St part_size req w = (Ok (), w1) → session_run s reqs w1 w' → session_run s (req :: reqs) w w'
  | run_other reqs w w1 w' : undisturbed s w w1 → session_run s reqs w1 w' → session_run s reqs w w'.

(** The parts there are after some requests. *)
Definition received (s : MultipartSession) (reqs : list HttpRequest) : list (option string) :=
  foldl (λ ps req, receive s req ps) (replicate (Z.to_nat (chunk_count s)) None) reqs.

Lemma tracks_undisturbed s ps w w' : tracks s ps w → undisturbed s w w' → tracks s ps w'.
Proof.
  intros (_&(th&tf&Hth&Htf&H1&H2&Hall)&Hn&Hob) (_&Hl&HF&Hkeep). split_and!; [done| |done|].
  - exists th, tf. split_and!; [done..|]. eapply Forall_impl; [exact Hall|]. intros [f v] Hv. cbn [fst snd] in *.
    change (upload_id (with_parts s ps)) with (upload_id s) in *. by rewrite HF.
  - intros x Hx. rewrite !Forall_cons in Hall. destruct Hall as (_&_&_&_&_&_&_&Hh&_). cbn [fst snd] in Hh.
    rewrite (Hkeep th (map part_name ps) (sha256 x)); [by apply Hob|exact Hh| |].
    + apply json_parse_dump; [apply canonical_jstrs|done].
    + by apply (list_elem_of_fmap_2 part_name) in Hx.
Qed.

Context (HL : hash_laws hash_field).

Lemma session_run_tracks s reqs w w' : session_run s reqs w w' → plain s → upload_id s ≠ "" → intact w →
  ∀ ps, tracks s ps w → tracks s (foldl (λ ps req, receive s req ps) ps reqs) w' ∧ intact w'.
Proof using L HL.
  intros Hrun Hp Hid. induction Hrun as [w|req reqs w w1 w' Hreq Hfit Hpart _ IH|reqs w w1 w' Hund _ IH]; intros Hw ps Ht; [done| |].
  - destruct Hw as [Hst Hse]. destruct (part_request s ps req w Ht Hp Hid Hreq ltac:(by apply Hst) Hfit) as (w2&Hrun&Ht2&_).
    rewrite Hpart in Hrun. injection Hrun as <-. cbn [foldl]. apply IH; [|done].
    pose proof (ApiSafety.upload_part_served St part_size (auth_user_id_ req) req (proj1 Hfit) w) as Hserved.
    pose proof (upload_part_sess St part_size hash_field HL req w Hse) as Hsess. rewrite Hpart in Hserved, Hsess.
    split; [by apply Hserved|done].
  - apply IH; [by destruct Hund|by eapply tracks_undisturbed].
Qed.

(** An upload that is given up leaves its parts in the store. *)
Lemma abort_keeps_parts req w : let w' := snd (handle_abort St part_size req w) in db w' = db w ∧ fs w' = fs w.
Proof.
  assert (∀ m, steps idle (World.on_resp (R := R) (A := ()) m)) as Hresp by (intros; apply idle_resp).
  assert (∀ c m, steps idle (set_error c m)) as Herr by (intros; apply idle_resp).
  assert (∀ k f, steps idle (hget k f)) as Hget by (intros; apply idle_redis).
  assert (∀ f, steps idle (set_resp f)) as Hset by (by intros f w0).
  assert (∀ id, steps idle (delete_from_redis id)) as Hdel.
  { intros id. unfold delete_from_redis. apply steps_bind; [apply idle_redis|intros; apply steps_ret]. }
  assert (steps idle (handle_abort St part_size req)) as Habort.
  { unfold handle_abort, with_session, owned_session, load_from_redis, error_500. cbv zeta. step_rules. }
  exact (Habort w).
Qed.

End uploads.

End Parts.
