(* ===== verification/ShareDelivery.v ===== *)
(** From making a share to using it: what a created share leaves in the database,
    what other users may do to it, and what whoever presents its token is given. *)
From S2P Require Import Prelude Steps JsonValue HttpMessage HttpRouter Jwt ObjectStore Database Daos Constraints Redis WsCodec.
From S2P Require Import World Gc Files FoldersAccounts Multipart Shares Server Sessions StoredContent Isolation HandlerSafety.
From S2P Require Import ApiSafety ServerSafety Answers ShareRules Delivery.
Import World Schema Constraints StoredContent Isolation HandlerSafety ServerSafety Answers ShareRules Delivery HttpRequest.

Module ShareDelivery.

Section delivery.
Context {R : RedisServer} {J : JsonText} {P : Postgres} {EV : Evp} {C : Calendar} (St : Settings).

(** * Making a share *)

(** The row a share is given. *)
Definition share_row_of (file owner token password : string) (max : Z) (r : share_row) : Prop :=
  uuid_in file = Some (s_file r) ∧ uuid_in owner = Some (s_owner r) ∧ text_in token = Some (s_token r) ∧
  s_password r = (if sempty password then None else Some (ObjectStore.sha256 password)) ∧ s_max r = max ∧
  s_count r = 0%Z ∧ s_revoked r = false.

Lemma text_empty : text_in "" = Some "".
Proof. by apply text_in_ascii. Qed.

Lemma insert_share_row file owner token pw expires max d i d' :
  insert_share file owner token (if sempty pw then "" else ObjectStore.sha256 pw) expires max d = (Ok i, d') →
  ∃ r, shares d' = shares d ++ [r] ∧ share_row_of file owner token pw max r ∧
    files d' = files d ∧ contents d' = contents d.
Proof.
  unfold insert_share. intros Hi. db_inv.
  match goal with H : (if sempty ?e then _ else _) _ = (_, ?d1) |- _ =>
    assert (d1 = d) as -> by (destruct (sempty e); [|case_match]; db_inv; done) end.
  eexists. split; [done|]. split; [|done]. split_and!; cbn; try done. destruct (sempty pw); [|].
  - by match goal with H : text_in "" = Some ?x |- _ => rewrite text_empty in H; injection H as <- end.
  - match goal with H : text_in (ObjectStore.sha256 pw) = Some ?x |- _ => rewrite text_hash in H; injection H as <- end.
    by rewrite ObjectStore.is_hash_nonempty by apply ObjectStore.sha256_hash.
Qed.

Lemma token_drawn draws fuel a w token w' : Shares.token_loop draws fuel a w = (Ok token, w') → w' = w ∧ sempty token = false.
Proof.
  revert a w. induction fuel as [|fuel IH]; intros a w; [done|]. cbn [Shares.token_loop].
  intros (taken&w1&[_ ->]%on_db_read_ok&Hrun)%bind_ok; [|auto with reads]. destruct taken; [by apply IH in Hrun|].
  by apply ret_ok in Hrun as [<- <-].
Qed.

(** What a request for a share asks for. *)
Definition asks (req : HttpRequest) (file password : string) (max : Z) : Prop :=
  ∃ j f, json_parse (body_ req) = Ok j ∧ jfield j "file_id" = Ok f ∧ jget_str f = Ok file ∧
    jvalue jget_str j "password" "" = Ok password ∧ jvalue jget_int j "max_downloads" 0%Z = Ok max.

Lemma create_leaves time draws req w w' o : Shares.handle_create time draws req w = (Ok (), w') →
  HttpResponse.status_code_ (resp w') = 200%Z → uuid_in (auth_user_id_ req) = Some o →
  ∃ file pw max l token r, asks req file pw max ∧ json_dump (JObj l) = Ok (HttpResponse.body_ (resp w')) ∧
    jlookup "share_token" l = Some (JStr token) ∧ sempty token = false ∧
    share_row_of file (auth_user_id_ req) token pw max r ∧ r ∈ shares_of o (db w') ∧
    files (db w') = files (db w) ∧ contents (db w') = contents (db w) ∧ fs w' = fs w.
Proof.
  intros Hrun Hok Ho. apply try_catch_ok in Hrun as [Hrun|(e&w2&_&He)].
  2:{ unfold invalid_json in He. revert He. case_match; intros He%set_error_status; by rewrite Hok in He. }
  destruct (negb _); [apply set_error_status in Hrun; by rewrite Hok in Hrun|]. cbv zeta in Hrun.
  apply bind_ok in Hrun as (j&w2&[Hj ->]%lift_ok&Hrun). apply bind_ok in Hrun as (f&w2&[Hf ->]%lift_ok&Hrun).
  apply bind_ok in Hrun as (file&w2&[Hfile ->]%lift_ok&Hrun). apply bind_ok in Hrun as (hours&w2&[_ ->]%lift_ok&Hrun).
  apply bind_ok in Hrun as (pw&w2&[Hpw ->]%lift_ok&Hrun). apply bind_ok in Hrun as (max&w2&[Hmax ->]%lift_ok&Hrun).
  apply bind_ok in Hrun as (own&w2&Hown&Hrun). destruct own as [fr|].
  2:{ apply ret_ok in Hrun as [_ <-]. unfold AccessControl.require_owned_file in Hown. destruct (sempty _).
      - apply bind_ok in Hown as (?&w3&He%set_error_status&[_ <-]%ret_ok). by rewrite Hok in He.
      - apply bind_ok in Hown as (x&w3&_&Hown). destruct x; [done|].
        apply bind_ok in Hown as (?&w4&He%set_error_status&[_ <-]%ret_ok). by rewrite Hok in He. }
  apply owned_file_some in Hown as [-> (fid&v&frow&c&Hfid&Hv&Hin&Hidf&Hof&Hdel&_)].
  apply bind_ok in Hrun as (token&w2&[-> Hne]%token_drawn&Hrun).
  apply bind_ok in Hrun as (sid&w2&(d&Hins&->)%on_db_ok&Hrun). unfold ShareDao.insert in Hins. cbn in Hins.
  apply txn_ok in Hins as [Hins|[_ [d2 Hins]]]; apply bind_ok in Hins as (i&d1&Hi&[= <- <-]).
  apply insert_share_row in Hi as (r&Hsh&Hr&Hfiles&Hcont).
  apply bind_ok in Hrun as (red&w3&Hred&Hrun). injection Hred as <- <-. apply bind_ok in Hrun as ([]&w3&Hc&Hrun).
  assert (idle (with_db d1 w) w3) as [Hd3 Hf3].
  { revert Hc. apply ok_steps_of. destruct (bool_decide (is_Some _)); [|apply steps_ret]. apply steps_bind; [apply steps_lift|]. intros t.
    apply steps_bind; [apply idle_redis|intros; apply steps_ret]. }
  apply bind_ok in Hrun as (ex&w4&[_ ->]%lift_ok&Hrun). apply reply_json_run in Hrun as (Hdump&_&[Hd4 Hf4]).
  eexists file, pw, max, _, token, r. split; [by exists j, f|]. split; [exact Hdump|]. split; [done|]. split; [done|]. split; [done|].
  rewrite Hd4, Hd3, Hf4, Hf3. cbn [db with_db fs]. split; [|done]. destruct Hr as (Hrf&Hro&_). apply list_elem_of_filter.
  split; [|rewrite Hsh; apply elem_of_app; right; by left]. split; [congruence|]. apply list_elem_of_fmap. exists frow.
  split; [congruence|]. apply list_elem_of_filter. rewrite Hfiles. split; [|done]. split; [congruence|]. unfold live_file. by rewrite Hdel.
Qed.

(** * Using it *)

(** The share after whatever others did. *)
Lemma share_stays o d d' r : shares_kept o d d' → r ∈ shares_of o d → ∃ r', r' ∈ shares_of o d' ∧ share_kept (clock d') r r'.
Proof.
  intros Hk [i Hi]%list_elem_of_lookup. eapply Forall2_lookup_l in Hk as (r'&Hr'&Hsk); [|exact Hi].
  exists r'. split; [by eapply list_elem_of_lookup_2|done].
Qed.

Lemma the_share d r : db_ok d → r ∈ shares d → head (filter (λ x, s_token x = s_token r) (shares d)) = Some r.
Proof. intros Hok Hr. rewrite (filter_unique s_token _ _ r); [done|apply Hok|done|done|done]. Qed.

Lemma find_run_file d o f c : db_ok d → f ∈ files_of o d → c ∈ contents d → c_id c = f_content f →
  FileDao.find_by_id (f_id f) d = (Ok (Some (FileDao.row_to_record f c)), d).
Proof.
  intros Hok [[Ho Hl] Hf]%list_elem_of_filter Hc Hid.
  destruct (used_uuid d (f_id f) Hok) as [Hi _].
  { do 3 right. left. by apply list_elem_of_fmap_2. }
  unfold FileDao.find_by_id, txn, uuid_arg. rewrite Hi. do 2 erewrite bind_run by reflexivity. unfold no_commit.
  rewrite (filter_unique f_id _ _ f); [|apply Hok|done| |].
  - cbn [fmap list_fmap concat app]. unfold FileDao.join_content. rewrite (filter_unique c_id _ _ c); [done|apply Hok|done|done|].
    intros y Hy. congruence.
  - split; [done|]. unfold Is_true, live_file in Hl. by case_bool_decide.
  - by intros y (?&_).
Qed.

(** The content of a shared file that is delivered. *)
Lemma send_run o i data preview w : stored St w → delivers St o i data w →
  ∃ w', (file ← on_db (FileDao.find_by_id i);
         match file with None => set_error 404 "original file not found" | Some f => Shares.send_shared St preview f end) w = (Ok (), w') ∧
    HttpResponse.body_ (resp w') = data ∧ HttpResponse.status_code_ (resp w') = HttpResponse.status_code_ (resp w) ∧
    db w' = db w ∧ fs w' = fs w.
Proof.
  intros (Hok&Hs&_) (f&c&cs&Hin&Hid&Hc&Hcid&Hch&Hob&Hcat). pose proof (find_run_file (db w) o f c Hok Hin Hc Hcid) as Hfind.
  rewrite <- Hid. erewrite bind_run by (apply on_db_run; exact Hfind). cbv iota. rewrite with_db_id. unfold Shares.send_shared.
  cbn [FileDao.chunk_hashes FileDao.row_to_record]. rewrite Hch, json_parse_jsonb.
  do 2 erewrite bind_run by (try rewrite jget_strs_jstrs; reflexivity). erewrite bind_run.
  2:{ apply on_fs_run. unfold ObjectStore.get_chunked. apply ObjectStore.get_loop_spec; [done|exact Hob]. }
  rewrite sapp_nil_l, Hcat. eexists. split; [reflexivity|]. done.
Qed.

(** Presenting the token: what the share's row decides. *)
Lemma shared_run time o data r w dl : stored St w → r ∈ shares_of o (db w) → delivers St o (s_file r) data w →
  (∀ x, x ∈ shares (db w) → int_min ≤ s_count x < int_max)%Z →
  text_in (get_path_param "token" dl) = Some (s_token r) → sempty (get_path_param "token" dl) = false →
  Shares.wants_share_page_redirect dl = false →
  let count := Shares.is_share_api_download dl && negb (Shares.is_share_api_preview dl) in
  ∃ w', Shares.handle_download St time dl w = (Ok (), w') ∧ fs w' = fs w ∧
    match judge time (Some r) (Shares.share_password dl) count with
    | Refused code => HttpResponse.status_code_ (resp w') = code ∧ db w' = db w
    | Granted _ => HttpResponse.body_ (resp w') = data ∧ HttpResponse.status_code_ (resp w') = HttpResponse.status_code_ (resp w) ∧
        db w' = if count then counted_rows r (db w) else db w
    end.
Proof.
  intros Hst Hr Hdel Hcounts Htok Hne Hred count. unfold Shares.handle_download. cbv zeta. rewrite Hne, Hred. cbn [negb].
  apply list_elem_of_filter in Hr as [[Ho Hf] Hr].
  destruct (resolve_share_run time w (get_path_param "token" dl) (s_token r) (Shares.share_password dl) count
    (proj1 Hst) Hne Htok Hcounts) as (res&w1&Hres&Hfs&Hv). rewrite (the_share _ r (proj1 Hst) Hr) in Hv.
  fold count. unfold try_catch. rewrite (bind_run _ _ _ _ _ Hres).
  destruct (judge time (Some r) _ count) as [code|r0] eqn:Ej.
  { destruct Hv as (->&?&?). exists w1. by split_and!. }
  assert (r0 = r) as ->.
  { revert Ej. unfold judge. repeat case_match; congruence. }
  destruct Hv as (_&_&Hresp&Hv).
  assert (delivers St o (s_file r) data w1 ∧ stored St w1 ∧ db w1 = (if count then counted_rows r (db w) else db w) ∧
    ∃ s, res = Some s ∧ ShareDao.file_id s = s_file r) as (Hdel1&Hst1&Hdb&s&->&Hsf).
  { destruct Hst as (Hok&Hs&Hrows). unfold delivers, stored. rewrite Hfs.
    destruct count; destruct Hv as [-> Hdb]; rewrite Hdb; (split; [exact Hdel|]); (split; [|split; [done|by eexists]]).
    - split; [|done]. apply map_shares_ok; [done|]. intros x. case_bool_decide; done.
    - done. }
  rewrite Hsf. destruct (send_run o (s_file r) data (Shares.is_share_api_preview dl) w1 Hst1 Hdel1) as (w2&->&Hb&Hs2&Hd2&Hf2).
  exists w2. split_and!; congruence.
Qed.

End delivery.

End ShareDelivery.
