(* ===== verification/Accounts.v ===== *)
(** From registering to being let in: what a registration leaves in the database,
    that no event takes an account away, how a login is decided, and what the
    tokens of both prove. *)
From S2P Require Import Prelude Steps JsonValue HttpMessage HttpRouter Jwt ObjectStore Database Daos Constraints Redis WsCodec.
From S2P Require Import World Gc Files FoldersAccounts Shares Server Sessions StoredContent Isolation HandlerSafety ServerSafety Answers Delivery.
Import World Schema Constraints Sessions StoredContent Isolation HandlerSafety ServerSafety Answers Delivery HttpRequest.

Module Accounts.

Section accounts.
Context {R : RedisServer} {J : JsonText} {P : Postgres} {EV : Evp} {C : Calendar} {O : HashOrder}
  {K : WsHandshake.Handshake} (St : Settings) (G : Process).

(** * Accounts in the database *)

(** The account [i], of that name and password. *)
Definition registered (i name password : string) (d : Db) : Prop :=
  ∃ r, r ∈ users d ∧ u_id r = i ∧ u_name r = name ∧ u_hash r = UserDao.sha256 password.

Lemma registered_stays i name p d d' : users d `prefix_of` users d' → registered i name p d → registered i name p d'.
Proof. intros [l Hl] (r&Hr&?&?&?). exists r. split_and!; [rewrite Hl; apply elem_of_app; by left|done..]. Qed.

Lemma registered_by u p d i d' : UserDao.register_user u p d = (Ok (Some i), d') →
  ∃ name, text_in u = Some name ∧ registered i name p d'.
Proof.
  unfold UserDao.register_user. intros [Hr|(e&d1&_&Hr)]%try_catch_ok; [|by case_bool_decide].
  apply bind_ok in Hr as (j&d1&Ht&[[= <-] <-]%ret_ok).
  apply txn_ok in Ht as [Ht|[_ [d2 Ht]]]; apply bind_ok in Ht as (k&d3&Hi&[= <- <-]).
  unfold insert_user in Hi. db_inv. eexists. split; [done|]. unfold registered. cbn [users set_users].
  eexists. split_and!; [apply elem_of_app; right; by left|done|done|]. cbn.
  match goal with H : text_in (UserDao.sha256 p) = Some ?x |- _ => unfold UserDao.sha256 in *; rewrite text_hash in H; by injection H end.
Qed.

(** The row of a name, and whether the password is its own. *)
Lemma login_run u p i name q d : db_ok d → registered i name q d → text_in u = Some name →
  ∃ r, u_id r = i ∧ u_name r = name ∧ UserDao.login u p d =
    (Ok (if bool_decide (UserDao.sha256 p = UserDao.sha256 q) then Some (UserDao.row_to_user r) else None), d).
Proof.
  intros Hok (r&Hr&Hi&Hn&Hh) Hu. exists r. split_and!; [done..|]. unfold UserDao.login, txn, text_arg.
  rewrite Hu. assert (text_in (UserDao.sha256 p) = Some (UserDao.sha256 p)) as -> by apply text_hash.
  do 3 erewrite bind_run by reflexivity. unfold no_commit.
  case_bool_decide as Hp.
  - rewrite (filter_unique u_name _ _ r); [done|apply Hok|done|by rewrite Hp|]. intros y [Hy _]. congruence.
  - assert (filter (λ y, u_name y = name ∧ u_hash y = UserDao.sha256 p) (users d) = []) as ->; [|done].
    destruct (filter _ _) as [|y l] eqn:Ef; [done|]. exfalso.
    assert (y ∈ filter (λ y, u_name y = name ∧ u_hash y = UserDao.sha256 p) (users d)) as [[Hyn Hyh] Hy]%list_elem_of_filter
      by (rewrite Ef; by left).
    assert (y = r) as ->; [|congruence]. eapply (id_inj u_name); [apply Hok|done|done|congruence].
Qed.

(** No event takes an account away. *)
Lemma accounts_stay hash_field (L : hash_laws hash_field) i name p s s' :
  rtc (next St G) s s' → server_ok St hash_field s → registered i name p (db (Server.world s)) →
  server_ok St hash_field s' ∧ registered i name p (db (Server.world s')).
Proof.
  induction 1 as [|s1 s2 s3 [e He] _ IH]; [done|]. intros Hs Hr.
  destruct (step_keeps _ _ hash_field L _ _ _ He Hs) as [Hs2 [[(Hu&_) _] _]]. apply IH; [done|]. by eapply registered_stays.
Qed.

(** * The handlers *)

Definition token_reply (token i user : string) : json :=
  JObj [("token", JStr token); ("user_id", JStr i); ("username", JStr user)].

Lemma register_answers time req w w' : AuthHandler.handle_register St time req w = (Ok (), w') →
  HttpResponse.status_code_ (resp w') = 200%Z →
  ∃ user password i name token, AuthHandler.credentials req = Ok (user, password) ∧ sempty user = false ∧
    text_in user = Some name ∧ registered i name password (db w') ∧
    AuthHandler.issue_token St time i user = Ok token ∧
    json_dump (token_reply token i user) = Ok (HttpResponse.body_ (resp w')).
Proof.
  intros Hrun Hok. apply try_catch_ok in Hrun as [Hrun|(e&w2&_&He)].
  2:{ unfold invalid_json in He. revert He. case_match; intros He%set_error_status; by rewrite Hok in He. }
  apply bind_ok in Hrun as ([user password]&w2&[Hc ->]%lift_ok&Hrun).
  destruct (sempty user || sempty password) eqn:Ee; [apply set_error_status in Hrun; by rewrite Hok in Hrun|].
  apply orb_false_iff in Ee as [Eu _]. apply bind_ok in Hrun as (x&w2&(d&Hr&->)%on_db_ok&Hrun).
  destruct x as [i|]; [|apply set_error_status in Hrun; by rewrite Hok in Hrun].
  apply registered_by in Hr as (name&Hn&Hr).
  apply bind_ok in Hrun as (token&w2&[Ht ->]%lift_ok&Hrun). apply reply_json_run in Hrun as (Hd&_&[Hdb _]).
  exists user, password, i, name, token. split_and!; [done..| |done|done]. by rewrite Hdb.
Qed.

(** A login with the name of an account. *)
Lemma login_answers time req w user p i name q : db_ok (db w) → registered i name q (db w) → text_in user = Some name →
  AuthHandler.credentials req = Ok (user, p) → sempty user = false → sempty p = false →
  if bool_decide (UserDao.sha256 p = UserDao.sha256 q) then
    ∀ token body, AuthHandler.issue_token St time i name = Ok token → json_dump (token_reply token i name) = Ok body →
      ∃ w', AuthHandler.handle_login St time req w = (Ok (), w') ∧ idle w w' ∧
        HttpResponse.body_ (resp w') = body ∧ HttpResponse.status_code_ (resp w') = HttpResponse.status_code_ (resp w)
  else ∃ w', AuthHandler.handle_login St time req w = (Ok (), w') ∧ idle w w' ∧
    HttpResponse.status_code_ (resp w') = 401%Z.
Proof.
  intros Hok Hr Hn Hc Hu Hp. destruct (login_run user p i name q _ Hok Hr Hn) as (r&<-&<-&Hl).
  unfold AuthHandler.handle_login, try_catch. rewrite Hc. erewrite bind_run by reflexivity.
  cbv beta iota. rewrite Hu, Hp. cbn [orb]. erewrite bind_run by (apply on_db_run; exact Hl). rewrite with_db_id.
  case_bool_decide.
  - intros token body Ht Hb. unfold AuthHandler.reply_token. cbn [UserDao.id UserDao.username UserDao.row_to_user].
    rewrite Ht. erewrite bind_run by reflexivity. unfold reply_json. unfold token_reply in Hb. rewrite Hb. by eexists.
  - destruct (set_error_plain 401 "invalid username or password" w) as (x&->&Hs); [done|]. by eexists.
Qed.

(** * Tokens *)

(** What a token issued for an account proves at a later time: unless its payload's
    encoding has one of the two digits the decoder does not know, it is the
    account's until it expires. *)
Definition proves (i user : string) (issued later : Z) : result Jwt.AuthResult :=
  let c := Jwt.complete_claims issued (Jwt.mk_claims i user 0 issued) (AuthHandler.jwt_ttl_hours_ St) in
  payload ← json_dump (Jwt.payload_value c);
  Ok (if Base64.has_url_digit (Base64.base64url_encode payload) || bool_decide (Jwt.exp c < later)%Z
      then Jwt.refused "Invalid or expired token" else Jwt.mk_auth true i user "").

Lemma issued_proves i user token issued later req : (i64_min ≤ issued ≤ i64_max)%Z →
  AuthHandler.issue_token St issued i user = Ok token → AuthMiddleware.is_whitelisted (path_ req) = false →
  get_header "Authorization" req = "Bearer " +:+ token →
  proves i user issued later = Ok (Jwt.authenticate (hmac St) (secret St) later req).
Proof.
  intros Hi Ht Hw Hh. destruct (Jwt.generate_text _ _ _ _ _ _ Ht) as [Hne _].
  rewrite (Jwt.authenticate_bearer _ _ later req token Hw (or_introl Hh) Hne).
  destruct (Jwt.jwt_verify_generate (hmac St) (secret St) issued later (AuthHandler.jwt_ttl_hours_ St)
    (Jwt.mk_claims i user 0 issued) token) as (payload&Hp&->); [|apply wrap_i64_range|exact Ht|].
  { unfold Jwt.complete_claims. cbn [Jwt.iat]. by case_bool_decide. }
  unfold proves. rewrite Hp. cbn [mbind result_mbind]. do 2 f_equal. destruct (Base64.has_url_digit _); [done|].
  by case_bool_decide.
Qed.

(** Plain names always get an answer. *)
Lemma plain_answer time i user : ascii7 i = true → ascii7 user = true →
  ∃ token body, AuthHandler.issue_token St time i user = Ok token ∧ json_dump (token_reply token i user) = Ok body.
Proof.
  intros Hi Hu. destruct (Jwt.generate_plain (hmac St) (secret St) time (Jwt.mk_claims i user 0 time) (AuthHandler.jwt_ttl_hours_ St) Hi Hu)
    as (token&Ht). destruct (Jwt.generate_text _ _ _ _ _ _ Ht) as [_ Ha].
  destruct (json_dump_ascii (token_reply token i user)) as (body&Hb&_); [|by exists token, body].
  cbn -[ascii7]. by rewrite Ha, Hi, Hu.
Qed.

End accounts.

End Accounts.
