(* ===== verification/Overlap.v ===== *)
(** Uploads that overlap. The threads of the pool handle requests at the same time; the
    other files take each handling as one step. Here an upload is the sequence of
    what other threads can see of it, its checks, the opening of each file, the writes
    of each piece of it, its transactions and commands of Redis one by one, and any
    number of uploads run among each other and among whole handlings of other
    requests. *)
From S2P Require Import Prelude Steps JsonValue HttpMessage HttpRouter Jwt ObjectStore Database Daos Constraints Redis WsCodec.
From S2P Require Import World Gc Files FoldersAccounts Multipart Shares Server Sessions StoredContent Isolation HandlerSafety.
From S2P Require Import ApiSafety ServerSafety Delivery.
From stdpp Require Import relations.
Import World Schema StoredContent Isolation HandlerSafety ServerSafety Sessions HttpRequest.

Module Overlap.

(** The arguments of [store_upload]. *)
Record Upload := mk { data : string; filename : string; mime_type : string; user_id : string; folder_id : string }.

(** Where an upload is: the chunks it has stored, by hash, and those it has not;
    whether it has found the next one missing, and how much of it is written to the
    open file; the id of its file; the content it is about to cache; how it has
    ended. *)
Inductive Job :=
  | Check (u : Upload) (rest hashes : list string)
  | Create (u : Upload) (chunk : string) (rest hashes : list string)
  | Writing (u : Upload) (chunk : string) (offset : nat) (rest hashes : list string)
  | Insert (u : Upload) (hashes : list string)
  | Lookup (u : Upload) (file_id : string)
  | Cache (u : Upload) (file_id content_id : string)
  | Done (u : Upload) (r : result string).

Section overlap.
Context {R : RedisServer} {J : JsonText} {P : Postgres} {EV : Evp} {C : Calendar} (St : Settings) (G : Process).

Abbreviation sha256 := ObjectStore.sha256.
Abbreviation base := (base_path St).

Definition begin (u : Upload) : Job := Check u (ObjectStore.chunks_of (chunk_size St) (data u)) [].

(** The row of the file, as [store_upload] fills it in. *)
Definition record_of (u : Upload) (chunk_hashes : string) : FileDao.FileRecord :=
  FileDao.mk "" (filename u) (Z.of_nat (slen (data u))) (sha256 (data u)) chunk_hashes (mime_type u) "" (user_id u) (folder_id u) "".

(** An exception ends the upload; its handler answers 500. *)
Definition failing (u : Upload) (m : M World Job) : M World Job := λ w,
  match m w with (Throw e, w') => (Ok (Done u (Throw e)), w') | r => r end.

(** The next thing other threads can see of an upload; a write takes [S k] bytes, or
    what is left. *)
Definition advance (k : nat) (j : Job) : M World Job :=
  match j with
  | Check u [] hashes => mret (Insert u hashes)
  | Check u (c :: rest) hashes =>
      failing u (there ← on_fs (ObjectStore.exists_ base (sha256 c));
        mret (if (there : bool) then Check u rest (hashes ++ [sha256 c]) else Create u c rest hashes))
  | Create u c rest hashes =>
      failing u (path ← lift_result (ObjectStore.hash_to_path base (sha256 c));
        _ ← on_fs (ObjectStore.open_object path);
        mret (Writing u c 0 rest hashes))
  | Writing u c offset rest hashes =>
      let kept := disk_write St c in
      if bool_decide (offset < slen kept) then
        failing u (path ← lift_result (ObjectStore.hash_to_path base (sha256 c));
          let piece := substr kept offset (S k) in
          _ ← on_fs (ObjectStore.write_object path offset piece);
          mret (Writing u c (offset + slen piece) rest hashes))
      else mret (Check u rest (hashes ++ [sha256 c]))
  | Insert u hashes =>
      failing u (chunk_hashes ← lift_result (json_dump (jstrs hashes));
        file_id ← on_db (FileDao.insert (record_of u chunk_hashes));
        r ← has_redis;
        mret (if (r : bool) then Lookup u file_id else Done u (Ok file_id)))
  | Lookup u file_id =>
      failing u (content ← on_db (FileDao.find_content_by_hash (sha256 (data u)));
        mret (match content with Some c => Cache u file_id (FileDao.content_id c) | None => Done u (Ok file_id) end))
  | Cache u file_id content_id =>
      failing u (_ ← on_redis (RedisClient.set ("file:hash:" +:+ sha256 (data u)) content_id 0) false;
        mret (Done u (Ok file_id)))
  | Done u r => mret (Done u r)
  end.

(** Alone, an upload is [store_upload]: the same rows, files and cache. *)
Fixpoint alone (ks : list nat) (j : Job) (w : World) : Job * World :=
  match ks with
  | [] => (j, w)
  | k :: ks => match advance k j w with (Ok j', w') => alone ks j' w' | (Throw _, w') => (j, w') end
  end.

(** ** Uploads among others *)

(** The handlings that are one step: an endpoint on a request, the hourly collector. *)
Inductive Whole := Endpoint (a : Ambient) (e : HttpRouter.Routes.endpoint) (req : HttpRequest) | Hourly.

Definition run_whole (x : Whole) : M World () :=
  match x with
  | Endpoint a e req => Api.in_world St G a e req
  | Hourly => _ ← on_db ShareDao.revoke_expired; _ ← ContentGc.collect_orphans St 200; mret ()
  end.

(** The chunks an unfinished upload relies on, and the one whose file it has open. *)
Definition collected (j : Job) : list string :=
  match j with Check _ _ l | Create _ _ _ l | Writing _ _ _ _ l | Insert _ l => l | _ => [] end.

Definition writes (j : Job) (h : string) : Prop :=
  match j with Writing _ c _ _ _ => sha256 c = h | _ => False end.
Definition being_written (js : list Job) (h : string) : Prop := ∃ j, j ∈ js ∧ writes j h.

(** The disk keeps the next chunk, and no object that is stored or being written has
    its hash but other data. *)
Definition chunk_fits (js : list Job) (f : Fs.t) (c : string) : Prop :=
  disk_write St c = c ∧
  (∀ u d o rest hashes, Writing u d o rest hashes ∈ js → sha256 d = sha256 c → d = c) ∧
  (¬ being_written js (sha256 c) → ∀ d, ObjectStore.object base f (sha256 c) = Some d → d = c).

Definition job_ok (js : list Job) (j : Job) (w : World) : Prop :=
  match j with Check _ (c :: _) _ | Create _ c _ _ => chunk_fits js (fs w) c | _ => True end.

(** A whole handling may remove objects (the collector does), but not those an
    unfinished upload relies on; it takes place while no file is being written. *)
Definition spares (js : list Job) (f f' : Fs.t) : Prop :=
  ∀ j h, j ∈ js → h ∈ collected j → ObjectStore.object base f' h = ObjectStore.object base f h.

Definition whole_ok (js : list Job) (x : Whole) (w : World) : Prop :=
  (∀ h, ¬ being_written js h) ∧
  match x with Endpoint _ e req => storable St e (body_ req) (fs w) | Hourly => True end.

Inductive step : World * list Job → World * list Job → Prop :=
  | step_enter w js u : 0 < chunk_size St → step (w, js) (w, js ++ [begin u])
  | step_job w js i k j j' w' : js !! i = Some j → job_ok js j w → advance k j w = (Ok j', w') → step (w, js) (w', <[i := j']> js)
  | step_whole w js x : whole_ok js x w → spares js (fs w) (fs (snd (run_whole x w))) → step (w, js) (snd (run_whole x w), js).

(** ** An upload alone *)

Lemma advance_total k j w : ∃ j' w', advance k j w = (Ok j', w').
Proof.
  assert (∀ u m, ∃ j' w', failing u m w = (Ok j', w')) as Hf by (intros u m; unfold failing; destruct (m w) as [[j'|e] w']; eauto).
  destruct j as [u [|c rest] hashes|u c rest hashes|u c o rest hashes|u hashes|u i|u i d|u r]; cbn [advance]; cbv zeta;
    try case_bool_decide; try apply Hf; by eexists _, _.
Qed.

Lemma alone_then ks ks' j w : alone (ks ++ ks') j w = let '(j', w') := alone ks j w in alone ks' j' w'.
Proof.
  revert j w. induction ks as [|k ks IH]; intros j w; [done|]. cbn [alone app].
  destruct (advance_total k j w) as (j'&w'&->). apply IH.
Qed.

(** An upload, alone, comes from [j] and [w] to [j'] and [w']. *)
Definition becomes (j : Job) (w : World) (j' : Job) (w' : World) : Prop := ∃ ks, alone ks j w = (j', w').

Lemma becomes_refl j w : becomes j w j w.
Proof. by exists []. Qed.
Lemma becomes_step k j w j1 w1 j2 w2 : advance k j w = (Ok j1, w1) → becomes j1 w1 j2 w2 → becomes j w j2 w2.
Proof. intros Ha [ks Hn]. exists (k :: ks). cbn [alone]. by rewrite Ha. Qed.
Lemma becomes_trans j w j1 w1 j2 w2 : becomes j w j1 w1 → becomes j1 w1 j2 w2 → becomes j w j2 w2.
Proof. intros [ks Hn] [ks' Hm]. exists (ks ++ ks'). by rewrite alone_then, Hn. Qed.

Lemma failing_run u (m : M World Job) w : failing u m w = match m w with (Ok j, w') => (Ok j, w') | (Throw e, w') => (Ok (Done u (Throw e)), w') end.
Proof. unfold failing. by destruct (m w) as [[j|e] w']. Qed.

(** An opened file is written, in one piece, and closed. *)
Lemma write_becomes u c rest hashes w : fs w !! ObjectStore.path_of base (sha256 c) = Some (Fs.File "") →
  becomes (Writing u c 0 rest hashes) w (Check u rest (hashes ++ [sha256 c]))
    (with_fs (Fs.write_at (ObjectStore.path_of base (sha256 c)) 0 (disk_write St c) (fs w)) w).
Proof.
  intros Hp. set (k := disk_write St c). destruct (decide (0 < slen k)) as [Hk|Hk].
  - assert (substr k 0 (S (slen k)) = k) as Hsub by (unfold substr; cbn [sdrop]; apply stake_ge; lia).
    eapply (becomes_step (slen k)); [|eapply (becomes_step 0); [|apply becomes_refl]]; cbn [advance]; cbv zeta.
    + rewrite (bool_decide_eq_true_2 (0 < slen (disk_write St c))) by done. rewrite failing_run.
      rewrite ObjectStore.hash_to_path_of by apply ObjectStore.sha256_hash. fold k.
      unfold mbind, M_mbind, lift_result, on_fs, ObjectStore.write_object. by rewrite Hsub.
    + cbn [advance]. cbv zeta. fold k. by rewrite (bool_decide_eq_false_2 (0 + slen k < slen k)) by lia.
  - assert (k = "") as Ek by (apply slen_nil; lia). unfold Fs.write_at. rewrite Hp, Ek, Fs.overlay_empty, insert_id by done.
    assert (with_fs (fs w) w = w) as -> by by destruct w. eapply (becomes_step 0); [|apply becomes_refl].
    cbn [advance]. cbv zeta. fold k. by rewrite Ek, bool_decide_eq_false_2 by (cbn; lia).
Qed.

(** [put] is a check and, if need be, an opening and writes. *)
Lemma put_becomes u c rest hashes w :
  match ObjectStore.put (disk_write St) base c (fs w) with
  | (Ok h, f') => becomes (Check u (c :: rest) hashes) w (Check u rest (hashes ++ [h])) (with_fs f' w)
  | (Throw e, f') => becomes (Check u (c :: rest) hashes) w (Done u (Throw e)) (with_fs f' w)
  end.
Proof.
  assert (with_fs (fs w) w = w) as Hw by by destruct w. unfold ObjectStore.put, mbind, M_mbind. unfold ObjectStore.exists_ at 1.
  pose proof (ObjectStore.hash_to_path_of base _ (ObjectStore.sha256_hash c)) as Ep. rewrite Ep.
  set (path := ObjectStore.path_of base (sha256 c)) in *. destruct (bool_decide (is_Some (fs w !! path))) eqn:Ee.
  { eapply (becomes_step 0); [|apply becomes_refl]. cbn [advance]. rewrite failing_run. unfold on_fs, ObjectStore.exists_, mbind, M_mbind.
    rewrite Ep, Ee. done. }
  assert (advance 0 (Check u (c :: rest) hashes) w = (Ok (Create u c rest hashes), w)) as Hcheck.
  { cbn [advance]. rewrite failing_run. unfold on_fs, ObjectStore.exists_, mbind, M_mbind. rewrite Ep, Ee. cbn. by rewrite Hw. }
  unfold lift_result, ObjectStore.create, mbind, M_mbind.
  assert (∀ r f', ObjectStore.open_object path (fs w) = (r, f') → advance 0 (Create u c rest hashes) w =
    (Ok (match r with Ok _ => Writing u c 0 rest hashes | Throw e => Done u (Throw e) end), with_fs f' w)) as Hopen.
  { intros r f' Hr. cbn [advance]. rewrite failing_run. unfold lift_result, on_fs, mbind, M_mbind. rewrite Ep, Hr. by destruct r. }
  destruct (ObjectStore.open_object path (fs w)) as [[[]|e] f'] eqn:Eo; (eapply becomes_step; [exact Hcheck|]);
    (eapply becomes_step; [by apply Hopen|]); [|apply becomes_refl].
  apply (write_becomes u c rest hashes (with_fs f' w)). unfold ObjectStore.open_object, Fs.open_trunc in Eo. cbv zeta in Eo.
  destruct (_ && _); [|done]. injection Eo as <-. apply lookup_insert_eq.
Qed.

Lemma puts_become u rest hashes w :
  match ObjectStore.put_list (disk_write St) base rest (fs w) with
  | (Ok l, f') => becomes (Check u rest hashes) w (Check u [] (hashes ++ l)) (with_fs f' w)
  | (Throw e, f') => becomes (Check u rest hashes) w (Done u (Throw e)) (with_fs f' w)
  end.
Proof.
  revert hashes w. induction rest as [|c rest IH]; intros hashes w; cbn [ObjectStore.put_list].
  { cbn. assert (with_fs (fs w) w = w) as -> by by destruct w. rewrite app_nil_r. apply becomes_refl. }
  pose proof (put_becomes u c rest hashes w) as Hput. unfold mbind, M_mbind.
  destruct (ObjectStore.put _ _ c (fs w)) as [[h|e] f1]; [|done]. specialize (IH (hashes ++ [h]) (with_fs f1 w)). cbn [fs with_fs] in IH.
  destruct (ObjectStore.put_list _ _ rest f1) as [[l|e] f2]; cbn [with_fs] in IH; [|by eapply becomes_trans].
  rewrite <- app_assoc in IH. by eapply becomes_trans.
Qed.

(** What an upload leaves behind. *)
Definition same_stores (w w' : World) : Prop := db w' = db w ∧ fs w' = fs w ∧ redis w' = redis w.

Lemma replied j w2 r w' : reply_json j w2 = (r, w') → same_stores w' w2.
Proof. unfold reply_json, mbind, M_mbind, lift_result, set_resp. destruct (json_dump j); by intros [= <- <-]. Qed.

(** From the insertion on. *)
Lemma cached_becomes j0 w0 u i l w2 r w' :
  (∀ j w3, becomes (if bool_decide (is_Some (redis w2)) then Lookup u i else Done u (Ok i)) w2 j w3 → becomes j0 w0 j w3) →
  (r ← has_redis;
   _ ← (if (r : bool) then
          content ← on_db (FileDao.find_content_by_hash (sha256 (data u)));
          match content with
          | Some c => _ ← on_redis (RedisClient.set ("file:hash:" +:+ sha256 (data u)) (FileDao.content_id c) 0) false; mret ()
          | None => mret ()
          end
        else mret ());
   reply_json l) w2 = (r, w') →
  ∃ r' w3, becomes j0 w0 (Done u r') w3 ∧ same_stores w' w3 ∧ (∀ x, r = Ok x → ∃ i, r' = Ok i).
Proof.
  intros Hgo. unfold mbind at 1, M_mbind at 1, has_redis. destruct (bool_decide (is_Some (redis w2))).
  2:{ intros Hr%replied. exists (Ok i), w2. split_and!; [apply Hgo, becomes_refl|apply Hr..|eauto]. }
  unfold mbind at 1, M_mbind at 1, mbind at 1, M_mbind at 1.
  destruct (on_db (FileDao.find_content_by_hash (sha256 (data u))) w2) as [[[c|]|e] w3] eqn:Ef.
  - unfold mbind at 1, M_mbind at 1.
    destruct (on_redis (RedisClient.set ("file:hash:" +:+ sha256 (data u)) (FileDao.content_id c) 0) false w3) as [[b|e] w4] eqn:Er.
    2:{ unfold on_redis in Er. destruct (redis w3) as [rr|]; [destruct (RedisClient.set _ _ _ rr)|]; done. }
    intros Hr%replied. exists (Ok i), w4. split_and!; [|apply Hr..|eauto]. apply Hgo.
    eapply (becomes_step 0 _ _ (Cache u i (FileDao.content_id c)) w3); [|eapply (becomes_step 0); [|apply becomes_refl]]; cbn [advance]; rewrite failing_run;
      unfold mbind, M_mbind; [by rewrite Ef|by rewrite Er].
  - intros Hr%replied. exists (Ok i), w3. split_and!; [|apply Hr..|eauto]. apply Hgo. eapply (becomes_step 0); [|apply becomes_refl].
    cbn [advance]. rewrite failing_run. unfold mbind, M_mbind. by rewrite Ef.
  - intros [= <- <-]. exists (Throw e), w3. split_and!; [|done..]. apply Hgo. eapply (becomes_step 0); [|apply becomes_refl].
    cbn [advance]. rewrite failing_run. unfold mbind, M_mbind. by rewrite Ef.
Qed.

(** An upload that nothing interrupts is the handler's [store_upload]. *)
Lemma alone_store_upload u w r w' : 0 < chunk_size St →
  FileUpload.store_upload St (data u) (sha256 (data u)) (filename u) (mime_type u) (user_id u) (folder_id u) w = (r, w') →
  ∃ r' w2, becomes (begin u) w (Done u r') w2 ∧ same_stores w' w2 ∧ (∀ x, r = Ok x → ∃ i, r' = Ok i).
Proof.
  intros Hc. unfold FileUpload.store_upload. unfold mbind at 1, M_mbind at 1. unfold on_fs at 1. rewrite ObjectStore.put_chunked_list by done.
  pose proof (puts_become u (ObjectStore.chunks_of (chunk_size St) (data u)) [] w) as Hp. fold (begin u) in Hp.
  destruct (ObjectStore.put_list _ _ _ (fs w)) as [[l|e] f1].
  2:{ intros [= <- <-]. eexists _, _. split; [exact Hp|]. by split. }
  set (w1 := with_fs f1 w) in *. cbn [app] in Hp.
  assert (∀ j w2, becomes (Insert u l) w1 j w2 → becomes (begin u) w j w2) as Hgo.
  { intros j w2 Hj. eapply becomes_trans; [exact Hp|]. by eapply (becomes_step 0). }
  unfold mbind at 1, M_mbind at 1, lift_result at 1. destruct (json_dump (jstrs l)) as [t|e] eqn:Ed.
  2:{ intros [= <- <-]. exists (Throw e), w1. split; [|by split]. apply Hgo. eapply (becomes_step 0); [|apply becomes_refl].
      cbn [advance]. rewrite failing_run. unfold mbind, M_mbind, lift_result. by rewrite Ed. }
  unfold mbind at 1, M_mbind at 1. fold (record_of u t).
  destruct (on_db (FileDao.insert (record_of u t)) w1) as [[i|e] w2] eqn:Ei.
  2:{ intros [= <- <-]. exists (Throw e), w2. split; [|by split]. apply Hgo. eapply (becomes_step 0); [|apply becomes_refl].
      cbn [advance]. rewrite failing_run. unfold mbind, M_mbind, lift_result. by rewrite Ed, Ei. }
  apply (cached_becomes (begin u) w u i). intros j w3 Hj. apply Hgo. eapply (becomes_step 0); [|exact Hj].
  cbn [advance]. rewrite failing_run. unfold mbind, M_mbind, lift_result. rewrite Ed, Ei. unfold has_redis. by case_bool_decide.
Qed.

(** ** What every step keeps *)

Context (hash_field : rdb → string → string → option string) (L : hash_laws hash_field).

Abbreviation object := (ObjectStore.object base).
Abbreviation sess := (keeps (sessions_ok hash_field)).

(** Objects that are there stay as they are. *)
Definition mono (f f' : Fs.t) : Prop := ∀ h d, ObjectStore.is_hash h = true → object f h = Some d → object f' h = Some d.

#[local] Instance mono_preorder : PreOrder mono.
Proof. split; [by intros f h|]. intros f1 f2 f3 H1 H2 h d Hh Ho. by apply H2, H1. Qed.

(** The chunks stored so far are in the store, and with the others they make up the data. *)
Definition progress (f : Fs.t) (u : Upload) (hashes rest : list string) : Prop :=
  ∃ cs, hashes = map sha256 cs ∧ sconcat (cs ++ rest) = data u ∧ ∀ c, c ∈ cs → object f (sha256 c) = Some c.

Definition job_inv (f : Fs.t) (j : Job) : Prop :=
  match j with
  | Check u rest hashes => progress f u hashes rest
  | Create u c rest hashes => progress f u hashes (c :: rest)
  | Writing u c o rest hashes => progress f u hashes (c :: rest) ∧ object f (sha256 c) = Some c
  | Insert u hashes => progress f u hashes []
  | _ => True
  end.

Lemma progress_kept f f' u hashes rest : (∀ h, h ∈ hashes → object f' h = object f h) →
  progress f u hashes rest → progress f' u hashes rest.
Proof.
  intros Hk (cs&->&Hc&Ho). exists cs. split_and!; [done..|]. intros c Hin. rewrite Hk; [by apply Ho|by apply list_elem_of_fmap_2].
Qed.

Lemma progress_mono f f' u hashes rest : mono f f' → progress f u hashes rest → progress f' u hashes rest.
Proof.
  intros Hm (cs&->&Hc&Ho). exists cs. split_and!; [done..|]. intros c Hin. apply Hm; [apply ObjectStore.sha256_hash|by apply Ho].
Qed.

Lemma progress_next f u c hashes rest : object f (sha256 c) = Some c → progress f u hashes (c :: rest) →
  progress f u (hashes ++ [sha256 c]) rest.
Proof.
  intros Hc (cs&->&Hcat&Ho). exists (cs ++ [c]). split_and!; [by rewrite map_app|by rewrite <- app_assoc|].
  intros x [Hx|Hx%list_elem_of_singleton]%elem_of_app; [by apply Ho|by subst].
Qed.

Lemma job_mono f f' j : mono f f' → job_inv f j → job_inv f' j.
Proof.
  intros Hm. destruct j as [| |u c o rest hashes| | | |]; cbn; try done; try by apply progress_mono.
  intros [Hp Hc]. split; [by eapply progress_mono|]. apply Hm; [apply ObjectStore.sha256_hash|done].
Qed.

Lemma begin_inv f u : 0 < chunk_size St → job_inv f (begin u).
Proof. intros Hc. exists []. split_and!; [done| |by intros c ?%elem_of_nil]. by apply chunks_of_concat. Qed.

Lemma failing_ok u m w j w' : failing u m w = (Ok j, w') → m w = (Ok j, w') ∨ ∃ e, m w = (Throw e, w') ∧ j = Done u (Throw e).
Proof. unfold failing. destruct (m w) as [[j0|e] w0]; intros [= <- <-]; [by left|right; by exists e]. Qed.

(** A file is inserted with its content row. *)
Lemma inserted_content file d i d' h : FileDao.insert file d = (Ok i, d') → text_in (FileDao.hash file) = Some h →
  ∃ c, c ∈ contents d' ∧ c_hash c = h.
Proof.
  intros Hins Hh. unfold FileDao.insert, FileDao.require_owner_id in Hins.
  destruct (sempty (FileDao.owner_id file)); [by apply bind_ok in Hins as (?&?&?&?)|]. erewrite bind_run in Hins by reflexivity.
  apply Constraints.txn_ok in Hins as [Hins|[_ [d2 Hins]]]; apply bind_ok in Hins as (ci&d1&Hens&Hins);
    apply bind_ok in Hins as (i'&d3&Hf&[= <- <-]).
  apply (Delivery.ensure_row _ _ _ _ h) in Hens as (c&Hc&_&Hch); [|done].
  apply Delivery.insert_file_row in Hf as (Hcont&_). exists c. by rewrite Hcont.
Qed.

(** *** The files being written, and the store as it will be *)

Abbreviation path c := (ObjectStore.path_of base (sha256 c)).

(** The first [o] bytes. *)
Definition agrees (o : nat) (d c : string) : Prop := ∀ k, k < o → String.get k d = String.get k c.

Lemma agrees_all o d c : agrees o d c → slen c ≤ o → slen d ≤ slen c → d = c.
Proof.
  intros Ha Ho Hl. apply get_ext. intros k. destruct (decide (k < o)) as [Hk|Hk]; [by apply Ha|]. by rewrite !get_ge by lia.
Qed.

(** The store [f0] that [f] becomes when the chunks being written are complete. Each
    of their files holds either the whole chunk, or what one that is writing it,
    the last to empty the file, has written and bytes that will be overwritten. *)
Record settles (js : list Job) (f f0 : Fs.t) : Prop := mk_settles {
  s_same : ∀ p, (∀ h, being_written js h → p ≠ ObjectStore.path_of base h) → f !! p = f0 !! p;
  s_open : ∀ u c o rest hashes, Writing u c o rest hashes ∈ js →
    disk_write St c = c ∧ f0 !! path c = Some (Fs.File c) ∧
    ∃ d, f !! path c = Some (Fs.File d) ∧ slen d ≤ slen c ∧
      (d = c ∨ ∃ u' o' rest' hashes', Writing u' c o' rest' hashes' ∈ js ∧ agrees o' d c)
}.

#[local] Instance writes_dec j h : Decision (writes j h).
Proof. destruct j; cbn; apply _. Defined.
#[local] Instance being_written_dec js h : Decision (being_written js h).
Proof. destruct (decide (Exists (λ j, writes j h) js)) as [H|H]; [left|right]; by rewrite Exists_exists in H. Defined.

Lemma being_written_iff js h : being_written js h ↔ ∃ u c o rest hashes, Writing u c o rest hashes ∈ js ∧ sha256 c = h.
Proof.
  split; [intros ([| |u c o rest hashes| | | |]&Hj&Hw); try done; by exists u, c, o, rest, hashes|].
  intros (u&c&o&rest&hashes&Hj&Hh). by exists (Writing u c o rest hashes).
Qed.

(** Nothing is being written. *)
Lemma settles_quiet js f f0 : settles js f f0 → (∀ h, ¬ being_written js h) → f = f0.
Proof. intros [Hs _] Hq. apply map_eq. intros p. apply Hs. intros h Hw. by destruct (Hq h). Qed.

Lemma settles_refl js f : (∀ h, ¬ being_written js h) → settles js f f.
Proof. intros Hq. split; [done|]. intros u c o rest hashes Hin. destruct (Hq (sha256 c)). rewrite being_written_iff. eauto 8. Qed.

Lemma settles_jobs js js' f f0 : (∀ u c o rest hashes, Writing u c o rest hashes ∈ js ↔ Writing u c o rest hashes ∈ js') →
  settles js f f0 → settles js' f f0.
Proof.
  intros Hj [Hs Ho]. split.
  - intros p Hp. apply Hs. intros h (u&c&o&rest&hashes&Hin&Hh)%being_written_iff. apply Hp. rewrite being_written_iff.
    exists u, c, o, rest, hashes. by rewrite <- Hj.
  - intros u c o rest hashes Hin. destruct (Ho u c o rest hashes) as (H1&H2&d&H3&H4&H5); [by rewrite Hj|]. split_and!; [done..|].
    exists d. split_and!; [done..|]. destruct H5 as [?|(u'&o'&r'&h'&H5&?)]; [by left|right]. exists u', o', r', h'. by rewrite <- Hj.
Qed.

Lemma path_inj c h : ObjectStore.is_hash h = true → path c = ObjectStore.path_of base h → sha256 c = h.
Proof. intros Hh. apply ObjectStore.path_of_inj; [apply ObjectStore.sha256_hash|done]. Qed.

Lemma written_hash js h : being_written js h → ObjectStore.is_hash h = true.
Proof. intros (u&c&o&rest&hashes&_&<-)%being_written_iff. apply ObjectStore.sha256_hash. Qed.

Lemma settles_path js f f0 h : settles js f f0 → ObjectStore.is_hash h = true → ¬ being_written js h →
  f !! ObjectStore.path_of base h = f0 !! ObjectStore.path_of base h.
Proof.
  intros Hs Hh Hn. apply Hs. intros h' Hw Heq. apply ObjectStore.path_of_inj in Heq; [by subst|done|by eapply written_hash].
Qed.

(** A path that is not an object's is the same in both. *)
Lemma settles_other js f f0 p : settles js f f0 → slen p ≠ slen base + 71 → f !! p = f0 !! p.
Proof. intros Hs Hp. apply Hs. intros h Hw ->. by rewrite ObjectStore.slen_path_of in Hp by by eapply written_hash. Qed.

Lemma settles_shaped js f f0 : settles js f f0 → ObjectStore.sound base f0 → ObjectStore.shaped base f.
Proof.
  intros Hs [Hb Hp]%ObjectStore.sound_shaped. split.
  - rewrite (settles_other _ _ _ _ Hs) by lia. done.
  - intros h Hh. destruct (Hp h Hh) as (H1&H2&H3). unfold ObjectStore.dir_or_absent in *. split_and!.
    + destruct (decide (being_written js h)) as [(u&c&o&rest&hashes&Hin&<-)%being_written_iff|Hn].
      * destruct (s_open _ _ _ Hs _ _ _ _ _ Hin) as (_&_&d&->&_). done.
      * by rewrite (settles_path _ _ _ _ Hs).
    + rewrite (settles_other _ _ _ _ Hs); [done|]. pose proof (ObjectStore.slen_dir1 base h Hh) as Hl. unfold ObjectStore.dir1 in Hl. lia.
    + rewrite (settles_other _ _ _ _ Hs); [done|]. pose proof (ObjectStore.slen_dir2 base h Hh) as Hl.
      unfold ObjectStore.dir2, ObjectStore.dir1 in Hl. rewrite !sapp_assoc in Hl. lia.
Qed.

(** A fitting chunk fits the store to be, and a check finds it there exactly if it will be there. *)
Lemma fits_settled js f f0 c : settles js f f0 → chunk_fits js f c → ∀ d, object f0 (sha256 c) = Some d → d = c.
Proof.
  intros Hs (_&Hw&Hn) d Hd. unfold ObjectStore.object in *. destruct (decide (being_written js (sha256 c))) as [Hb|Hb].
  - apply being_written_iff in Hb as (u&c'&o&rest&hashes&Hin&Heq). pose proof (Hw _ _ _ _ _ Hin Heq) as ->.
    destruct (s_open _ _ _ Hs _ _ _ _ _ Hin) as (_&H0&_). rewrite H0 in Hd. by injection Hd as ->.
  - apply Hn; [done|]. by rewrite (settles_path _ _ _ _ Hs) by (done || apply ObjectStore.sha256_hash).
Qed.

Lemma exists_settled js f f0 c : settles js f f0 → ObjectStore.sound base f0 →
  ObjectStore.exists_ base (sha256 c) f = (Ok (bool_decide (is_Some (object f0 (sha256 c)))), f).
Proof.
  intros Hs (_&Hp&_). pose proof (ObjectStore.sha256_hash c) as Hh. unfold ObjectStore.exists_, ObjectStore.object.
  rewrite ObjectStore.hash_to_path_of by done. do 2 f_equal. apply bool_decide_ext.
  destruct (decide (being_written js (sha256 c))) as [Hb|Hb].
  - apply being_written_iff in Hb as (u&c'&o&rest&hashes&Hin&Heq).
    destruct (s_open _ _ _ Hs _ _ _ _ _ Hin) as (_&H0&d&Hd&_). rewrite Heq in *. rewrite H0, Hd. split; eauto.
  - rewrite (settles_path _ _ _ _ Hs) by done. destruct (f0 !! _) as [[|d]|] eqn:E; [|split; eauto|done].
    by destruct (proj1 (Hp _ Hh)).
Qed.

(** One job is replaced. *)
Lemma replaced (js : list Job) i j j' k : js !! i = Some j → k ∈ <[i := j']> js ↔ k = j' ∨ ∃ l, l ≠ i ∧ js !! l = Some k.
Proof.
  intros Hi. rewrite list_elem_of_lookup. split.
  - intros [l [(_&<-&_)|[Hne Hl]]%list_lookup_insert_Some]; [by left|right; eauto].
  - intros [->|(l&Hne&Hl)]; [exists i|exists l].
    + apply list_lookup_insert_eq. by eapply lookup_lt_Some.
    + by rewrite list_lookup_insert_ne.
Qed.

Lemma others_in (js : list Job) i k : (∃ l, l ≠ i ∧ js !! l = Some k) → k ∈ js.
Proof. intros (l&_&Hl). by eapply list_elem_of_lookup_2. Qed.

Lemma others_not (js : list Job) i j k : js !! i = Some j → k ∈ js → k = j ∨ ∃ l, l ≠ i ∧ js !! l = Some k.
Proof.
  intros Hi [l Hl]%list_elem_of_lookup. destruct (decide (l = i)) as [->|]; [left; congruence|right; eauto].
Qed.

Definition is_writing (j : Job) : bool := match j with Writing _ _ _ _ _ => true | _ => false end.

Lemma same_writers (js : list Job) i j j' : js !! i = Some j → is_writing j = false → is_writing j' = false →
  ∀ u c o rest hashes, Writing u c o rest hashes ∈ js ↔ Writing u c o rest hashes ∈ <[i := j']> js.
Proof.
  intros Hi Hj Hj' u c o rest hashes. rewrite (replaced _ _ _ _ _ Hi). split.
  - intros [<-|?]%(others_not _ _ _ _ Hi); [done|by right].
  - intros [<-|?]; [done|by eapply others_in].
Qed.

(** *** What each step of an upload does *)

Definition kept (w w' : World) (j' : Job) : Prop :=
  stored St w' ∧ sess w w' ∧ mono (fs w) (fs w') ∧ job_inv (fs w') j'.

(** In the world [w] in which the chunks being written will be those of [f0]. *)
Definition advanced (js : list Job) (i : nat) (f0 : Fs.t) (w w' : World) (j' : Job) : Prop :=
  ∃ f0', settles (<[i := j']> js) (fs w') f0' ∧ stored St (with_fs f0' w') ∧ sess w w' ∧ mono f0 f0' ∧ job_inv f0' j'.

Lemma idle_kept w w' j' : stored St w → idle w w' → sess w w' → job_inv (fs w) j' → kept w w' j'.
Proof.
  intros Hst [Hd Hf] Hs Hj. split_and!; [unfold stored; by rewrite Hd, Hf|done|rewrite Hf; reflexivity|by rewrite Hf].
Qed.

Lemma insert_kept k u hashes w j' w' : stored St w → progress (fs w) u hashes [] →
  advance k (Insert u hashes) w = (Ok j', w') → kept w w' j'.
Proof.
  intros Hst (cs&->&Hcat&Ho) Hrun. rewrite app_nil_r in Hcat. destruct (dump_hashes _ (hashes_of_chunks cs)) as (t&Hd&Ht&Hj).
  cbn [advance] in Hrun. rewrite Hd in Hrun.
  assert (stored St (snd (on_db (FileDao.insert (record_of u t)) w))) as Hst'.
  { eapply (insert_served St (user_id u) w (record_of u t) cs t); try done. cbn. by rewrite Hcat. }
  assert (fs (snd (on_db (FileDao.insert (record_of u t)) w)) = fs w) as Hf by (unfold on_db; by destruct (FileDao.insert _ _)).
  assert (sess w (snd (on_db (FileDao.insert (record_of u t)) w))) as Hse by apply on_db_sess.
  unfold failing, lift_result, has_redis, mbind, M_mbind in Hrun.
  destruct (on_db (FileDao.insert (record_of u t)) w) as [[id|e] w1]; cbn [snd] in *; injection Hrun as <- <-;
    split_and!; try done; try (rewrite Hf; reflexivity). by case_bool_decide.
Qed.

(** After the insertion nothing is stored any more. *)
Lemma idle_job u m w j' w' : stored St w → steps idle m → steps sess m →
  (∀ w j w', m w = (Ok j, w') → ∀ f, job_inv f j) → failing u m w = (Ok j', w') → kept w w' j'.
Proof.
  intros Hst Hi Hs Hj Hrun. specialize (Hi w). specialize (Hs w).
  apply failing_ok in Hrun as [Hrun|(e&Hrun&->)]; rewrite Hrun in Hi, Hs; apply idle_kept; try done. by eapply Hj.
Qed.

(** The steps that do not touch the store, nor look at it. *)
Definition elsewhere (j : Job) : bool :=
  match j with Check _ (_ :: _) _ | Create _ _ _ _ | Writing _ _ _ _ _ => false | _ => true end.

Lemma elsewhere_kept k j w j' w' : elsewhere j = true → stored St w → job_inv (fs w) j → advance k j w = (Ok j', w') → kept w w' j'.
Proof using L.
  intros He Hst Hj Hrun. destruct j as [u [|c rest] hashes| | |u hashes|u id|u id d|u r]; try done; cbn [job_inv] in *.
  - injection Hrun as <- <-. apply idle_kept; [done|done|by intros H|exact Hj].
  - by eapply insert_kept.
  - eapply idle_job; [done| | | |exact Hrun].
    + apply steps_bind; [apply idle_read; auto with reads|intros o; apply steps_ret].
    + step_rules.
    + intros w0 j w1 (o&w2&_&[= <- <-])%bind_ok f. by destruct o.
  - eapply idle_job; [done| | | |exact Hrun].
    + apply steps_bind; [apply idle_redis|intros o; apply steps_ret].
    + step_rules.
    + by intros w0 j w1 (o&w2&_&[= <- <-])%bind_ok f.
  - injection Hrun as <- <-. apply idle_kept; [done|done|by intros H|done].
Qed.

Lemma elsewhere_frame k j f w : elsewhere j = true →
  advance k j (with_fs f w) = (let '(r, w') := advance k j w in (r, with_fs f w')) ∧ fs (snd (advance k j w)) = fs w.
Proof.
  intros He. destruct j as [u [|c rest] hashes| | |u hashes|u id|u id d|u r]; try done; cbn [advance];
    unfold failing, mbind, M_mbind, lift_result, on_db, has_redis, on_redis; cbn [db with_fs redis].
  - destruct (json_dump _); [|done]. destruct (FileDao.insert _ (db w)) as [[id|e] d]; [|done]. cbn; by destruct (redis w).
  - destruct (FileDao.find_content_by_hash _ (db w)) as [[[c|]|e] d]; done.
  - destruct (redis w) as [r|]; [|done]. by destruct (RedisClient.set _ _ _ r).
Qed.

Lemma elsewhere_writing k j w j' w' : elsewhere j = true → advance k j w = (Ok j', w') → is_writing j' = false.
Proof.
  intros He Hrun. destruct j as [u [|c rest] hashes| | |u hashes|u id|u id d|u r]; try done; cbn [advance] in Hrun;
    try (by injection Hrun as <- _); apply failing_ok in Hrun as [Hrun|(e&_&->)]; try done; run_inv; by repeat case_match.
Qed.

Lemma elsewhere_advances k js i j f0 w j' w' : elsewhere j = true → js !! i = Some j → settles js (fs w) f0 →
  stored St (with_fs f0 w) → job_inv f0 j → advance k j w = (Ok j', w') → advanced js i f0 w w' j'.
Proof using L.
  intros He Hi Hse Hst Hj Hrun. destruct (elsewhere_frame k j f0 w He) as [Hfr Hfs]. rewrite Hrun in Hfr, Hfs. cbn in Hfs.
  destruct (elsewhere_kept k j (with_fs f0 w) j' (with_fs f0 w') He Hst Hj Hfr) as (H1&H2&H3&H4).
  exists f0. split_and!; [|exact H1|exact H2|done|exact H4]. rewrite Hfs. apply (settles_jobs js); [|done].
  apply (same_writers js i j); [done|by destruct j as [u [|? ?] ?| | | | | |]|by eapply elsewhere_writing].
Qed.

Lemma check_advances k js i u c rest hashes f0 w j' w' : js !! i = Some (Check u (c :: rest) hashes) → settles js (fs w) f0 →
  stored St (with_fs f0 w) → chunk_fits js (fs w) c → progress f0 u hashes (c :: rest) →
  advance k (Check u (c :: rest) hashes) w = (Ok j', w') → advanced js i f0 w w' j'.
Proof.
  intros Hi Hse Hst Hfit Hp Hrun. cbn [advance] in Hrun. unfold failing, on_fs, mbind, M_mbind in Hrun.
  rewrite (exists_settled _ _ _ _ Hse) in Hrun by apply Hst. injection Hrun as <- <-.
  assert (with_fs (fs w) w = w) as -> by by destruct w. exists f0. split_and!; [|done|by intros H|done|].
  - apply (settles_jobs js); [|done]. apply (same_writers _ _ _ _ Hi); [done|]. by case_bool_decide.
  - case_bool_decide as He; [|exact Hp]. apply progress_next; [|done]. destruct He as [d Hd].
    by rewrite (fits_settled _ _ _ _ Hse Hfit d Hd) in Hd.
Qed.

(** Opening a chunk's file: to be complete, it will be the chunk's object. *)
Lemma open_lookups f h x : ObjectStore.shaped base f → ObjectStore.is_hash h = true →
  let f1 := <[ObjectStore.path_of base h := x]> (ObjectStore.make_dirs (ObjectStore.path_of base h) f) in
  f1 !! ObjectStore.path_of base h = Some x ∧ f1 !! ObjectStore.dir1 base h = Some Fs.Dir ∧ f1 !! ObjectStore.dir2 base h = Some Fs.Dir ∧
  ∀ q, q ≠ ObjectStore.path_of base h → q ≠ ObjectStore.dir1 base h → q ≠ ObjectStore.dir2 base h → f1 !! q = f !! q.
Proof.
  intros Hs Hh f1. destruct (ObjectStore.sound_dirs base f h Hs Hh) as (H1&H2&H3).
  pose proof (ObjectStore.slen_path_of base h Hh). pose proof (ObjectStore.slen_dir1 base h Hh). pose proof (ObjectStore.slen_dir2 base h Hh).
  unfold f1. split_and!; [apply lookup_insert_eq|..].
  - rewrite lookup_insert_ne; [done|]. intros Heq. apply (f_equal slen) in Heq. lia.
  - rewrite lookup_insert_ne; [done|]. intros Heq. apply (f_equal slen) in Heq. lia.
  - intros q Hq Hq1 Hq2. rewrite lookup_insert_ne by done. by apply H3.
Qed.

Lemma open_run f h : ObjectStore.shaped base f → ObjectStore.is_hash h = true →
  ObjectStore.open_object (ObjectStore.path_of base h) f =
    (Ok (), <[ObjectStore.path_of base h := Fs.File ""]> (ObjectStore.make_dirs (ObjectStore.path_of base h) f)).
Proof.
  intros Hs Hh. destruct (ObjectStore.sound_dirs base f h Hs Hh) as (_&H2&H3). destruct (ObjectStore.parents_of base h Hh) as (P1&_&_).
  pose proof (ObjectStore.slen_path_of base h Hh). pose proof (ObjectStore.slen_dir1 base h Hh). pose proof (ObjectStore.slen_dir2 base h Hh).
  unfold ObjectStore.open_object, Fs.open_trunc, Fs.parent_ok. cbv zeta. rewrite P1, H2.
  rewrite (bool_decide_eq_true_2 (Some Fs.Dir = Some Fs.Dir)), orb_true_r, bool_decide_eq_false_2; [done| |done].
  rewrite H3; [by apply (proj2 Hs)|..]; intros Heq; apply (f_equal slen) in Heq; lia.
Qed.

Lemma other_object c h : ObjectStore.is_hash h = true → sha256 c ≠ h →
  path c ≠ ObjectStore.path_of base h ∧ path c ≠ ObjectStore.dir1 base h ∧ path c ≠ ObjectStore.dir2 base h.
Proof.
  intros Hh Hne. pose proof (ObjectStore.slen_path_of base _ (ObjectStore.sha256_hash c)).
  pose proof (ObjectStore.slen_dir1 base h Hh). pose proof (ObjectStore.slen_dir2 base h Hh).
  split_and!; [by intros ?%path_inj|intros Heq; apply (f_equal slen) in Heq; lia|intros Heq; apply (f_equal slen) in Heq; lia].
Qed.

Lemma open_settles js i u c rest hashes f f0 : js !! i = Some (Create u c rest hashes) →
  settles js f f0 → ObjectStore.shaped base f0 → chunk_fits js f c → ObjectStore.shaped base f →
  settles (<[i := Writing u c 0 rest hashes]> js)
    (<[path c := Fs.File ""]> (ObjectStore.make_dirs (path c) f)) (<[path c := Fs.File c]> (ObjectStore.make_dirs (path c) f0)).
Proof.
  intros Hi [Hsame Hopen] Hs0 (Hdisk&Hfit&_) Hs. pose proof (ObjectStore.sha256_hash c) as Hh.
  destruct (open_lookups f (sha256 c) (Fs.File "") Hs Hh) as (F1&F2&F3&F4).
  destruct (open_lookups f0 (sha256 c) (Fs.File c) Hs0 Hh) as (G1&G2&G3&G4).
  set (f' := <[path c := Fs.File ""]> _) in *. set (f0' := <[path c := Fs.File c]> _) in *. set (js' := <[i := _]> js).
  assert (Writing u c 0 rest hashes ∈ js') as Hnew by (apply (replaced _ _ _ _ _ Hi); by left).
  assert (∀ u c o rest hashes, Writing u c o rest hashes ∈ js → Writing u c o rest hashes ∈ js') as Hold.
  { intros u1 c1 o1 r1 h1 [?|?]%(others_not _ _ _ _ Hi); [done|]. apply (replaced _ _ _ _ _ Hi). by right. }
  split.
  - intros p Hp. assert (p ≠ path c) as Hpc by (apply Hp; rewrite being_written_iff; eauto 8).
    destruct (decide (p = ObjectStore.dir1 base (sha256 c))) as [->|H1]; [by rewrite F2, G2|].
    destruct (decide (p = ObjectStore.dir2 base (sha256 c))) as [->|H2]; [by rewrite F3, G3|].
    rewrite F4, G4 by done. apply Hsame. intros h (u1&c1&o1&r1&h1&Hin&<-)%being_written_iff. apply Hp. rewrite being_written_iff. eauto 8.
  - assert (∃ d, f' !! path c = Some (Fs.File d) ∧ slen d ≤ slen c ∧
      (d = c ∨ ∃ u' o' rest' hashes', Writing u' c o' rest' hashes' ∈ js' ∧ agrees o' d c)) as Hc.
    { exists "". split_and!; [done|cbn; lia|]. right. exists u, 0, rest, hashes. split; [done|]. intros k Hk. lia. }
    intros u1 c1 o1 r1 h1 Hin. apply (replaced _ _ _ _ _ Hi) in Hin as [[= -> -> -> -> ->]|Hin%others_in]; [done|].
    destruct (decide (sha256 c1 = sha256 c)) as [Heq|Hne]; [by rewrite (Hfit _ _ _ _ _ Hin Heq)|].
    destruct (other_object c1 _ Hh Hne) as (N1&N2&N3). rewrite F4, G4 by done.
    destruct (Hopen _ _ _ _ _ Hin) as (H1&H2&d&H3&H4&H5). split_and!; [done..|]. exists d. split_and!; [done..|].
    destruct H5 as [?|(u'&o'&r'&h'&H5&?)]; [by left|right]. exists u', o', r', h'. auto.
Qed.

Lemma create_advances k js i u c rest hashes f0 w j' w' : js !! i = Some (Create u c rest hashes) → settles js (fs w) f0 →
  stored St (with_fs f0 w) → chunk_fits js (fs w) c → progress f0 u hashes (c :: rest) →
  advance k (Create u c rest hashes) w = (Ok j', w') → advanced js i f0 w w' j'.
Proof.
  intros Hi Hse Hst Hfit Hp Hrun. assert (ObjectStore.sound base f0) as Hs by apply Hst. pose proof (ObjectStore.sha256_hash c) as Hh.
  pose proof (settles_shaped _ _ _ Hse Hs) as Hsf. pose proof (ObjectStore.sound_shaped _ _ Hs) as Hs0.
  cbn [advance] in Hrun. unfold failing, on_fs, mbind, M_mbind, lift_result in Hrun.
  rewrite ObjectStore.hash_to_path_of, open_run in Hrun by done. injection Hrun as <- <-.
  destruct (ObjectStore.create_sound (disk_write St) base f0 c (sha256 c) Hs Hh) as (f0'&Hcr&Hob&Hoth&Hs').
  rewrite (proj1 Hfit) in Hob, Hs'. specialize (Hs' eq_refl). rewrite ObjectStore.create_run in Hcr. destruct (_ && _); [|done].
  injection Hcr as <-. rewrite (proj1 Hfit) in *. set (f0' := <[path c := _]> _) in *.
  assert (mono f0 f0') as Hm.
  { intros h d Hh' Hd. destruct (decide (h = sha256 c)) as [->|Hne]; [by rewrite Hob, (fits_settled _ _ _ _ Hse Hfit d Hd)|by rewrite Hoth]. }
  exists f0'. split_and!; [by apply open_settles| |by intros H|exact Hm|].
  - by apply (put_served St "" (with_fs f0 w) f0').
  - split; [by apply progress_mono with f0|done].
Qed.

(** Writing a piece of a chunk brings its file closer to the chunk. *)
Lemma overlay_closer o n d c : slen d ≤ slen c → o < slen c →
  let d' := Fs.overlay o (substr c o n) d in
  slen d' ≤ slen c ∧ (∀ o', agrees o' d c → agrees o' d' c) ∧ (agrees o d c → agrees (o + slen (substr c o n)) d' c).
Proof.
  intros Hd Ho. cbv zeta. unfold substr. set (piece := stake n (sdrop o c)).
  assert (slen piece = n `min` (slen c - o)) as Hp by (unfold piece; by rewrite slen_stake, slen_sdrop).
  assert (∀ k, o ≤ k < o + slen piece → String.get k (Fs.overlay o piece d) = String.get k c) as Hin.
  { intros k Hk. rewrite Fs.overlay_new by done. unfold piece. rewrite get_stake by lia. rewrite get_sdrop. f_equal. lia. }
  assert (∀ k, k < slen d → String.get k d = String.get k c → String.get k (Fs.overlay o piece d) = String.get k c) as Hout.
  { intros k Hk Heq. destruct (decide (o ≤ k < o + slen piece)); [by apply Hin|]. by rewrite Fs.overlay_old. }
  assert (∀ o' k, agrees o' d c → k < o' → slen c ≤ k ∨ k < slen d) as Hlen.
  { intros o' k Ha Hk. destruct (decide (k < slen d)) as [|Hge]; [by right|left]. specialize (Ha k Hk). rewrite get_ge in Ha by lia.
    destruct (decide (slen c ≤ k)) as [|Hlt]; [done|]. by destruct (get_lt k c); [lia|]. }
  assert (slen (Fs.overlay o piece d) ≤ slen c) as Hl by (rewrite Fs.slen_overlay; lia).
  assert (∀ o', agrees o' d c → agrees o' (Fs.overlay o piece d) c) as Hkeep.
  { intros o' Ha k Hk. destruct (Hlen o' k Ha Hk); [by rewrite !get_ge by lia|]. apply Hout; [done|by apply Ha]. }
  split_and!; [done|done|]. intros Ha k Hk. destruct (decide (o ≤ k)); [apply Hin; lia|]. apply (Hkeep o Ha). lia.
Qed.

(** An upload's own file, open. *)
Lemma open_file js i u c o rest hashes f f0 : js !! i = Some (Writing u c o rest hashes) → settles js f f0 →
  disk_write St c = c ∧ f0 !! path c = Some (Fs.File c) ∧ ∃ d, f !! path c = Some (Fs.File d) ∧ slen d ≤ slen c ∧
    (d = c ∨ ∃ u' o' rest' hashes', Writing u' c o' rest' hashes' ∈ js ∧ agrees o' d c).
Proof. intros Hi Hse. apply (s_open _ _ _ Hse u c o rest hashes). by eapply list_elem_of_lookup_2. Qed.

Lemma write_settles js i k u c o rest hashes f f0 : js !! i = Some (Writing u c o rest hashes) → settles js f f0 → o < slen c →
  settles (<[i := Writing u c (o + slen (substr c o (S k))) rest hashes]> js) (Fs.write_at (path c) o (substr c o (S k)) f) f0.
Proof.
  intros Hi Hse Ho. destruct (open_file _ _ _ _ _ _ _ _ _ Hi Hse) as (Hdisk&H0&d&Hd&Hl&Hc).
  set (piece := substr c o (S k)). set (js' := <[i := _]> js). unfold Fs.write_at. rewrite Hd. set (d' := Fs.overlay o piece d).
  destruct (overlay_closer o (S k) d c Hl Ho) as (Hl'&Hkeep&Hnext). fold piece d' in Hl', Hkeep, Hnext.
  assert (∃ d1, <[path c := Fs.File d']> f !! path c = Some (Fs.File d1) ∧ slen d1 ≤ slen c ∧
    (d1 = c ∨ ∃ u' o' rest' hashes', Writing u' c o' rest' hashes' ∈ js' ∧ agrees o' d1 c)) as Hfile.
  { exists d'. split_and!; [apply lookup_insert_eq|done|]. destruct Hc as [->|(u'&o'&r'&h'&Hin&Ha)].
    - left. apply (agrees_all (slen c)); [|lia|done]. by apply Hkeep.
    - right. apply (others_not _ _ _ _ Hi) in Hin as [[= -> -> -> ->]|Hin].
      + exists u, (o + slen piece), rest, hashes. split; [apply (replaced _ _ _ _ _ Hi); by left|by apply Hnext].
      + exists u', o', r', h'. split; [apply (replaced _ _ _ _ _ Hi); by right|by apply Hkeep]. }
  destruct Hse as [Hsame Hopen]. split.
  - intros p Hp. assert (∀ h, being_written js h → p ≠ ObjectStore.path_of base h) as Hp'.
    { intros h (u1&c1&o1&r1&h1&Hin&<-)%being_written_iff. apply Hp. apply being_written_iff.
      apply (others_not _ _ _ _ Hi) in Hin as [[= -> -> -> -> ->]|Hin]; [exists u, c, (o + slen piece), rest, hashes|exists u1, c1, o1, r1, h1];
        (split; [apply (replaced _ _ _ _ _ Hi); auto|done]). }
    rewrite lookup_insert_ne; [by apply Hsame|]. intros <-. apply (Hp' (sha256 c)); [|done]. apply being_written_iff.
    exists u, c, o, rest, hashes. split; [by eapply list_elem_of_lookup_2|done].
  - intros u1 c1 o1 r1 h1 Hin. apply (replaced _ _ _ _ _ Hi) in Hin as [[= -> -> -> -> ->]|Hin%others_in]; [done|].
    destruct (Hopen _ _ _ _ _ Hin) as (H1&H2&d1&H3&H4&H5). destruct (decide (sha256 c1 = sha256 c)) as [Heq|Hne].
    { assert (c1 = c) as -> by (rewrite Heq, H0 in H2; by injection H2). done. }
    destruct (other_object c1 (sha256 c) (ObjectStore.sha256_hash c) Hne) as (N1&_&_).
    split_and!; [done..|]. exists d1. rewrite lookup_insert_ne by done. split_and!; [done..|].
    destruct H5 as [?|(u'&o'&r'&h'&Hin'&?)]; [by left|right]. exists u', o', r', h'. split; [|done].
    apply (replaced _ _ _ _ _ Hi). right. apply (others_not _ _ _ _ Hi) in Hin' as [[= _ -> _ _ _]|?]; [by destruct Hne|done].
Qed.

Lemma close_settles js i u c o rest hashes f f0 : js !! i = Some (Writing u c o rest hashes) → settles js f f0 → slen c ≤ o →
  settles (<[i := Check u rest (hashes ++ [sha256 c])]> js) f f0.
Proof.
  intros Hi Hse Ho. destruct (open_file _ _ _ _ _ _ _ _ _ Hi Hse) as (Hdisk&H0&d&Hd&Hl&Hc).
  assert (d = c ∨ ∃ u' o' rest' hashes', (∃ l, l ≠ i ∧ js !! l = Some (Writing u' c o' rest' hashes')) ∧ agrees o' d c) as Hc'.
  { destruct Hc as [?|(u'&o'&r'&h'&Hin&Ha)]; [by left|]. apply (others_not _ _ _ _ Hi) in Hin as [[= -> -> -> ->]|Hin].
    - left. by apply (agrees_all o).
    - right. eauto 8. }
  destruct Hse as [Hsame Hopen]. split.
  - intros p Hp. destruct (decide (p = path c)) as [->|Hne].
    + destruct Hc' as [->|(u'&o'&r'&h'&Hin&_)]; [by rewrite Hd, H0|]. destruct (Hp (sha256 c)); [|done].
      apply being_written_iff. exists u', c, o', r', h'. split; [|done]. apply (replaced _ _ _ _ _ Hi). by right.
    + apply Hsame. intros h (u1&c1&o1&r1&h1&Hin&<-)%being_written_iff. apply (others_not _ _ _ _ Hi) in Hin as [[= -> -> -> -> ->]|Hin]; [done|].
      apply Hp, being_written_iff. exists u1, c1, o1, r1, h1. split; [|done]. apply (replaced _ _ _ _ _ Hi). by right.
  - intros u1 c1 o1 r1 h1 Hin. apply (replaced _ _ _ _ _ Hi) in Hin as [|Hin%others_in]; [done|].
    destruct (Hopen _ _ _ _ _ Hin) as (H1&H2&d1&H3&H4&H5). split_and!; [done..|]. exists d1. split_and!; [done..|].
    destruct H5 as [?|(u'&o'&r'&h'&Hin'&Ha)]; [by left|]. apply (others_not _ _ _ _ Hi) in Hin' as [[= -> -> -> -> ->]|Hin'].
    + rewrite Hd in H3. injection H3 as ->. left. by apply (agrees_all o).
    + right. exists u', o', r', h'. split; [|done]. apply (replaced _ _ _ _ _ Hi). by right.
Qed.

Lemma writing_advances k js i u c o rest hashes f0 w j' w' : js !! i = Some (Writing u c o rest hashes) → settles js (fs w) f0 →
  stored St (with_fs f0 w) → job_inv f0 (Writing u c o rest hashes) →
  advance k (Writing u c o rest hashes) w = (Ok j', w') → advanced js i f0 w w' j'.
Proof.
  intros Hi Hse Hst [Hp Hob] Hrun. pose proof (proj1 (open_file _ _ _ _ _ _ _ _ _ Hi Hse)) as Hdisk.
  cbn [advance] in Hrun. cbv zeta in Hrun. rewrite Hdisk in Hrun. exists f0. case_bool_decide as Ho.
  - unfold failing, on_fs, mbind, M_mbind, lift_result, ObjectStore.write_object in Hrun.
    rewrite ObjectStore.hash_to_path_of in Hrun by apply ObjectStore.sha256_hash. injection Hrun as <- <-.
    split_and!; [|done|by intros H|done|by split]. by apply write_settles.
  - injection Hrun as <- <-. split_and!; [|done|by intros H|done|by apply progress_next]. eapply close_settles; [done..|lia].
Qed.

Lemma advance_keeps k js i j f0 w j' w' : js !! i = Some j → settles js (fs w) f0 → stored St (with_fs f0 w) → job_ok js j w →
  job_inv f0 j → advance k j w = (Ok j', w') → advanced js i f0 w w' j'.
Proof using L.
  intros Hi Hse Hst Hok Hj Hrun. destruct j as [u [|c rest] hashes|u c rest hashes|u c o rest hashes| | | |];
    [eapply elsewhere_advances; [|exact Hi|..]; done|by eapply check_advances|by eapply create_advances|by eapply writing_advances|eapply elsewhere_advances; [|exact Hi|..]; done..].
Qed.
Lemma whole_keeps js x w : whole_ok js x w → stored St w → sessions_ok hash_field w →
  stored St (snd (run_whole x w)) ∧ sessions_ok hash_field (snd (run_whole x w)).
Proof using L.
  intros [_ Hok] Hst Hs. destruct x as [a e req|]; cbn [run_whole whole_ok] in *.
  - split; [by apply (endpoint_served St G hash_field L a e req w Hok Hs)|by apply (endpoint_sess St G hash_field L a e req w)].
  - split.
    + assert (steps (served St "") (_ ← on_db ShareDao.revoke_expired; _ ← ContentGc.collect_orphans St 200; mret ())) as H.
      { apply steps_bind; [|intros; apply steps_bind; [intros w0; apply collect_orphans_served|intros; apply steps_ret]].
        apply on_db_served, revoke_expired_quiet. }
      by apply H.
    + assert (steps sess (_ ← on_db ShareDao.revoke_expired; _ ← ContentGc.collect_orphans St 200; mret ())) as H; [|by apply H].
      apply steps_bind; [auto with solar|]. intros _. apply steps_bind; [|intros; apply steps_ret].
      unfold ContentGc.collect_orphans. apply steps_bind; [auto with solar|]. intros l. by apply purge_all_sess.
Qed.

Definition world_ok (s : World * list Job) : Prop :=
  sessions_ok hash_field (fst s) ∧
  ∃ f0, settles (snd s) (fs (fst s)) f0 ∧ stored St (with_fs f0 (fst s)) ∧ ∀ j, j ∈ snd s → job_inv f0 j.

Lemma step_keeps_ok s s' : step s s' → world_ok s → world_ok s'.
Proof using L.
  intros Hstep (Hs&f0&Hse&Hst&Hj). destruct Hstep as [w js u Hc|w js i k j j' w' Hi Hok Hrun|w js x Hok Hsp]; cbn [fst snd] in *.
  - split; [done|]. exists f0. split_and!; [|done|].
    + apply (settles_jobs js); [|done]. cbn. intros u' c o rest hashes. rewrite elem_of_app, list_elem_of_singleton. unfold begin. naive_solver.
    + cbn. intros j [Hin|Hin%list_elem_of_singleton]%elem_of_app; [by apply Hj|subst]. by apply begin_inv.
  - assert (j ∈ js) as Hin by (by eapply list_elem_of_lookup_2).
    destruct (advance_keeps k js i j f0 w j' w' Hi Hse Hst Hok (Hj j Hin) Hrun) as (f0'&H1&H2&H3&H4&H5).
    split; [by apply H3|]. exists f0'. split_and!; [done..|]. cbn.
    intros l [->|Hl%others_in]%(replaced _ _ _ _ _ Hi); [done|]. eapply job_mono; [exact H4|by apply Hj].
  - assert (fs w = f0) as <- by (eapply settles_quiet; [done|apply Hok]). assert (with_fs (fs w) w = w) as Hw by by destruct w. rewrite Hw in Hst.
    destruct (whole_keeps js x w Hok Hst Hs) as [H1 H2]. split; [done|]. exists (fs (snd (run_whole x w))). split_and!.
    + apply settles_refl, Hok.
    + by destruct (snd (run_whole x w)).
    + cbn. intros j Hin. specialize (Hj j Hin). specialize (Hsp j).
      destruct j as [| |u c o rest hashes| | | |]; cbn in *; try done; try (eapply progress_kept; [|done]; intros h Hh; by apply Hsp).
      destruct Hok as [Hq _]. destruct (Hq (sha256 c)). apply being_written_iff. eauto 8.
Qed.

(** Reading chunks none of which is being written. *)
Lemma read_settled js f f0 hashes : settles js f f0 → (∀ h, h ∈ hashes → ¬ being_written js h) → Forall (λ h, ObjectStore.is_hash h = true) hashes →
  ObjectStore.get_chunked base hashes f = (fst (ObjectStore.get_chunked base hashes f0), f).
Proof.
  intros Hse Hn Hall. unfold ObjectStore.get_chunked. generalize "". induction Hall as [|h hashes Hh Hall IH]; intros acc; [done|].
  cbn [ObjectStore.get_loop]. unfold mbind, M_mbind, ObjectStore.get. rewrite ObjectStore.hash_to_path_of by done.
  unfold Fs.read_file. rewrite (settles_path _ _ _ _ Hse) by (done || apply Hn; by left).
  destruct (f0 !! _) as [[|d]|]; [| |done]; apply IH; intros h' Hh'; apply Hn; by right.
Qed.

Lemma row_readable js w f0 c : settles js (fs w) f0 → stored St (with_fs f0 w) → c ∈ contents (db w) →
  (∀ h, h ∈ row_chunks c → ¬ being_written js h) → ∃ d,
    ObjectStore.get_chunked base (row_chunks c) (fs w) = (Ok d, fs w) ∧ sha256 d = c_hash c.
Proof using J.
  intros Hse Hst Hc Hn. destruct (stored_readable St (with_fs f0 w) c Hst Hc) as (d&Hg&Hd). exists d. split; [|done].
  assert (Forall (λ h, ObjectStore.is_hash h = true) (row_chunks c)) as Hall.
  { apply (content_chunks St f0), Hst, Hc. }
  rewrite (read_settled _ _ _ _ Hse Hn Hall). cbn [fs with_fs] in Hg. by rewrite Hg.
Qed.

(** C14. Uploads may overlap. Any number of uploads, each a sequence of checks for its
    chunks, openings that empty a file, writes of any number of bytes, transactions
    and commands of Redis, run among each other, and whole handlings of any other
    requests and of the hourly collector take place among them while no file is open
    for writing, as long as these remove no chunk an unfinished upload relies on, the
    disk keeps the chunks and no other data in the store or being written has the hash
    of one. Then the constraints of the schema hold at every moment; every content row
    none of whose chunks is being written can be read back as data of its hash, so
    every row once no file is open (in between another upload of the same chunk may
    have emptied it, [row_read_while_rewritten]); and an upload whose insertion
    succeeds leaves a content row of its data. *)
Theorem overlapping_uploads_stored (w w' : World) (js : list Job)
    (Hst : stored St w) (Hs : sessions_ok hash_field w) (Hr : rtc step (w, []) (w', js)) :
  db_ok (db w') ∧
  (∀ c, c ∈ contents (db w') → (∀ h, h ∈ row_chunks c → ¬ being_written js h) → ∃ d,
    ObjectStore.get_chunked base (row_chunks c) (fs w') = (Ok d, fs w') ∧ sha256 d = c_hash c) ∧
  ∀ i k u hashes j w2, js !! i = Some (Insert u hashes) → advance k (Insert u hashes) w' = (Ok j, w2) → (∀ e, j ≠ Done u (Throw e)) →
    ∃ c, c ∈ contents (db w2) ∧ c_hash c = sha256 (data u) ∧
      ((∀ h, h ∈ row_chunks c → ¬ being_written js h) → ∃ d,
        ObjectStore.get_chunked base (row_chunks c) (fs w2) = (Ok d, fs w2) ∧ sha256 d = sha256 (data u)).
Proof using L.
  assert (world_ok (w', js)) as (_&f0&Hse&Hst'&Hj).
  { assert (world_ok (w, [])) as H0.
    { split; [done|]. exists (fs w). split_and!; [|by destruct w|by intros j ?%elem_of_nil]. apply settles_refl. by intros h (j&?%elem_of_nil&_). }
    revert H0. induction Hr as [|s1 s2 s3 H _ IH]; [done|]. intros H0. by apply IH, (step_keeps_ok s1). }
  cbn [fst snd] in *. split_and!; [apply Hst'|intros c Hc Hn; by eapply row_readable|].
  intros i k u hashes j w2 Hi Hrun Hne. specialize (Hj _ (list_elem_of_lookup_2 _ _ _ Hi)).
  destruct (elsewhere_frame k (Insert u hashes) f0 w' eq_refl) as [Hfr Hfs]. rewrite Hrun in Hfr, Hfs. cbn in Hfs.
  destruct (elsewhere_kept k (Insert u hashes) (with_fs f0 w') j (with_fs f0 w2) eq_refl Hst' Hj Hfr) as (Hst2&_).
  cbn [advance] in Hrun. apply failing_ok in Hrun as [Hrun|(e&_&->)]; [|by destruct (Hne e)].
  apply bind_ok in Hrun as (t&w3&Hd&Hrun). apply lift_ok in Hd as [_ ->]. apply bind_ok in Hrun as (id&w4&Hins&Hrun).
  apply bind_ok in Hrun as (r&w5&[= <- <-]&[= <- <-]).
  apply on_db_ok in Hins as (d'&Hins&->). apply (inserted_content _ _ _ _ (sha256 (data u))) in Hins as (c&Hc&Hh);
    [|by apply hash_text, ObjectStore.sha256_hash].
  exists c. split_and!; [done|done|]. intros Hn. rewrite <- Hh. by apply (row_readable js (with_db d' w') f0).
Qed.

End overlap.
End Overlap.
