(* ===== verification/Sample.v ===== *)
(** A concrete deployment, on which the theorems about the whole server are
    instantiated: a key-value Redis, a calendar, OpenSSL and a disk that keeps
    what is written. *)
From S2P Require Import Prelude Steps JsonValue HttpMessage HttpRouter Jwt ObjectStore Database Daos Constraints Redis WsCodec.
From S2P Require Import World Gc Files FoldersAccounts Multipart Shares Config Server Sessions StoredContent Startup Parts.
Import World.

Module Sample.

(** Strings, and hashes field by field. *)
Definition kv : Type := gmap string string * gmap (string * string) string.

Definition kv_call (args : list string) (d : kv) : reply * kv :=
  match args with
  | ["PING"] => (RStatus "PONG", d)
  | ["SET"; k; v] => (RStatus "OK", (<[k := v]> (fst d), snd d))
  | ["GET"; k] => (match fst d !! k with Some v => RString v | None => RNil end, d)
  | ["EXPIRE"; k; t] => (RInteger 1, d)
  | ["DEL"; k] => (RInteger 1, (delete k (fst d), filter (λ kf, fst (fst kf) ≠ k) (snd d)))
  | ["HSET"; k; f; v] => (RInteger 1, (fst d, <[(k, f) := v]> (snd d)))
  | ["HGET"; k; f] => (match snd d !! (k, f) with Some v => RString v | None => RNil end, d)
  | _ => (RError "ERR unknown command", d)
  end.

Definition kv_redis : RedisServer :=
  {| rdb := kv; redis_call := kv_call; link := λ _, true; zset := λ _ _, ∅ |}.

Definition kv_field : @rdb kv_redis → string → string → option string := λ (d : kv) k f, snd d !! (k, f).

Lemma kv_call_field args d k f v : kv_field (snd (kv_call args d)) k f = Some v →
  kv_field d k f = Some v ∨ args = ["HSET"; k; f; v].
Proof.
  unfold kv_call, kv_field. repeat case_match; cbn [snd fst]; try (by left); intros Hv.
  - apply map_lookup_filter_Some in Hv as [? _]. by left.
  - apply lookup_insert_Some in Hv as [[[= -> ->] ->]|[_ ?]]; [by right|by left].
Qed.

Lemma kv_laws : @hash_laws kv_redis kv_field.
Proof.
  split.
  - intros d k f v. cbn. unfold kv_field. destruct (snd d !! (k, f)); [by intros [= ->]|done].
  - intros c args d k f v _. apply kv_call_field.
Qed.

Lemma kv_hashes : @Parts.hash_server kv_redis kv_field.
Proof.
  split; try done. intros d id f v _. split; [done|]. intros id' f'. cbn. unfold kv_field. cbn [snd].
  destruct (bool_decide_reflect (id' = id)) as [->|Hne]; cbn [andb].
  - destruct (bool_decide_reflect (f' = f)) as [->|Hne]; [by rewrite lookup_insert_eq|]. rewrite lookup_insert_ne; [done|]. congruence.
  - rewrite lookup_insert_ne; [done|]. intros Heq. apply Hne. by injection Heq.
Qed.

Definition calendar : Calendar :=
  {| local_iso := to_string; gmtoff := λ _, 0%Z; get_time_utc := λ _ s, match stoll s with Ok z => Some z | Throw _ => None end |}.
Definition openssl : WsHandshake.Handshake := {| WsHandshake.evp_sha1 := id; WsHandshake.evp_encode_block := id |}.

#[export] Existing Instances kv_redis bin_json toy_pg ObjectStore.toy_evp calendar list_order openssl.

Definition settings : Settings := mk_settings id "data" 4 0 (λ k m, k +:+ m) "secret" 1.
Definition process : Process := mk_process "web" (λ _, None) 0 4.

(** The machine the process starts on: a settings file, a web directory, and
    services that answer. *)
Definition settings_yaml : Config.tree :=
  Config.Mapping [("storage", Config.Mapping [("base_path", Config.Scalar "data/"); ("chunk_size", Config.Scalar "4")]);
    ("server", Config.Mapping [("threads", Config.Scalar "2")])].
#[export] Instance sample_yaml : Yaml := Config.tree_yaml (λ path,
  if bool_decide (path = "config/config.yaml") then Some settings_yaml else None).
Definition site : Startup.Site :=
  Startup.mk_site (λ _, None) (λ p, bool_decide (p = "web/index.html")) (λ _, None) None (λ _, None) (λ _, true) (λ k m, k +:+ m) id
    (λ _, true) (λ _ _, true) (λ _, Some (3, 4)%Z) true.
Definition machine : Startup.Machine := Startup.mk_machine Schema.empty_db ∅ (∅, ∅).

(** The world after start-up: an empty database and store. *)
Definition store0 : Fs.t := snd (ObjectStore.construct "data" ∅).
Definition redis0 : RedisClient.Redis := RedisClient.mk true (∅, ∅).
Definition world_of (d : Schema.Db) : World := mk d store0 (Some redis0) WsSession.empty HttpResponse.empty.

(** Two accounts. *)
Definition accounts : Schema.Db :=
  Constraints.run_ops [Constraints.RegisterUser "ann" "pw"; Constraints.RegisterUser "bob" "pw"] Schema.empty_db.
Definition world0 : World := world_of accounts.

Definition server_of (w : World) : Server.Server := Server.mk w Metrics.zero 0 ∅ ∅ ∅.

Lemma store0_empty h : ObjectStore.is_hash h = true → ObjectStore.object "data" store0 h = None.
Proof. apply (ObjectStore.construct_spec "data"). Qed.

Lemma accounts_ok : Schema.db_ok accounts.
Proof. apply Constraints.run_ops_keeps, Constraints.empty_ok. Qed.

Lemma contents0 : Schema.contents (db world0) = [].
Proof. vm_compute. reflexivity. Qed.

Lemma stored0 : StoredContent.stored settings world0.
Proof.
  split; [apply accounts_ok|]. split; [apply (ObjectStore.construct_spec "data")|].
  intros c. rewrite contents0. intros []%elem_of_nil.
Qed.

Lemma sessions0 d : Sessions.sessions_ok kv_field (world_of d).
Proof. by intros r [= <-] k v. Qed.

End Sample.
