(* ===== verification/Wire.v ===== *)
(** From the kernel's bytes to the kernel's bytes: the callbacks of main.cpp (the
    connection callback and the message callback) on a [TcpConnection] of the network
    library, among the other connections of the process and its timers, and what the
    peer of one connection reads. *)
From S2P Require Import Prelude Steps NetBuffer Reactor TcpConnection JsonValue HttpMessage HttpParser HttpRouter Jwt ObjectStore Database Daos Redis WsCodec World.
From S2P Require Import Gc Files FoldersAccounts Multipart Shares Server Frames ServerSafety Answers Connections.
From stdpp Require Import relations.
Import TcpConnection.

Module Wire.

Notation Service := Connections.Service.

Section wire.
Context {R : RedisServer} {J : JsonText} {P : Postgres} {EV : Evp} {C : Calendar} {O : HashOrder}
  {K : WsHandshake.Handshake} (St : World.Settings) (G : Process).

(** The clients' state of a connection: that of the whole process. Next to it, for the
    statements: how often the message callback was called, and the bytes it has taken. *)
Record Site := mk { service : Service; reads : nat; received : string }.

Definition with_service (x : Service) (a : Site) : Site := mk x (reads a) (received a).
Definition with_server (s : Server.Server) (a : Site) : Site := with_service (Connections.with_server s (service a)) a.
Definition with_parser (conn : nat) (p : HttpParser.HttpParser) (a : Site) : Site :=
  with_service (Connections.with_parser conn p (service a)) a.
Definition called (a : Site) : Site := mk (service a) (reads a + 1) (received a).
Definition took (data : string) (a : Site) : Site := mk (service a) (reads a) (received a +:+ data).
Definition server (a : Site) : Server.Server := Connections.server (service a).

(** The connection's number, and what its [i]-th request of the [n]-th call of the
    message callback finds outside the program. *)
Context (conn : nat) (amb : nat → nat → Ambient).

(** What a callback sends on the connection: the texts the server has logged for it. *)
Definition new_texts (s s' : Server.Server) : list string :=
  map snd (drop (length (Connections.sent_to conn s)) (Connections.sent_to conn s')).
Definition sends (s s' : Server.Server) : list action :=
  map (λ t, Send (String.list_ascii_of_string t)) (new_texts s s').

(** [send_response] sets the end-of-write callback before it sends; the answer that
    switches to WebSocket does not. *)
Definition completes (s' : Server.Server) : list action :=
  match Server.upgraded s' !! conn with
  | Some _ => []
  | None => [SetWriteComplete (if bool_decide (conn ∈ Server.closing s') then CloseAfter else KeepOpen)]
  end.

Definition acts (l : list action) (k : Script Site) : Script Site := foldr Act k l.

(** An exception ends the loop and with it the process, whatever its type. *)
Definition escaped (e : exn) : exn :=
  match ex_kind e with EUndefined => Exn ERuntime "escaped" | _ => e end.

(** The parser is stored where it was, and all readable bytes are taken. *)
Definition parsed (data : string) (r : result ()) (p : HttpParser.HttpParser) : Script Site :=
  Ask (λ a, Put (with_parser conn p (took data a))
    (Return (match r with Ok _ => Ok (slen data) | Throw e => Throw (escaped e) end))).

(** [HttpParser::feed] with the request callback of main.cpp, which sends on the
    connection between two characters: [all] is what [feed] was called with. *)
Fixpoint feed (all : string) (i : nat) (p : HttpParser.HttpParser) (data : string) : Script Site :=
  match data with
  | "" => parsed all (Ok ()) p
  | String c data =>
      match HttpParser.parse_char c p with
      | (Throw e, p1) => parsed all (Throw e) p1
      | (Ok _, p1) =>
          if HttpParser.complete_ p1 then
            Ask (λ a,
              match Pipeline.on_request St G (amb (reads a) i) conn (HttpParser.cur_req_ p1) (server a) with
              | (Ok _, s1) =>
                  Put (with_server s1 a)
                    (acts (completes s1 ++ sends (server a) s1) (feed all (i + 1) (HttpParser.reset p1) data))
              | (Throw e, s1) => Put (with_server s1 a) (parsed all (Throw e) p1)
              end)
          else feed all i p1 data
      end
  end.

(** [WsHandler::feed] on an upgraded connection. *)
Definition on_frame (data : string) : Script Site :=
  Ask (λ a,
    match Pipeline.on_frame conn data (server a) with
    | (Ok n, s1) => Put (took (stake n data) (with_server s1 a)) (acts (sends (server a) s1) (Return (Ok n)))
    | (Throw e, s1) => Put (with_server s1 a) (Return (Throw (escaped e)))
    end).

(** The message callback of main.cpp. *)
Definition message_cb (d : list ascii) : Script Site :=
  let data := String.string_of_list_ascii d in
  Ask (λ a, Put (called a)
    (if sempty data then Return (Ok 0)
     else
       match Server.upgraded (server a) !! conn with
       | Some _ => on_frame data
       | None =>
           match Connections.parsers (service a) !! conn with
           | None => Return (Throw (Exn ERuntime "bad any_cast"))
           | Some p => feed data 0 p data
           end
       end)).

(** The connection callback of main.cpp. *)
Definition connection_cb (st : State) (a : Site) : Site :=
  match st with
  | kConnected => with_service (snd (Connections.on_connected conn (service a))) a
  | kDisconnected => with_server (snd (Pipeline.on_disconnected conn (server a))) a
  | _ => a
  end.

(** What the server installs on a connection; [TcpServer::remove_connection], its
    close callback, does not touch the clients' state. *)
Definition callbacks : Callbacks Site := mk_callbacks connection_cb (λ a, a) None (64 * 1024 * 1024) message_cb.

Context (outcome : nat → write_result).
Notation Conn := (TcpConnection Site).

(** Outside its own callbacks nobody sends on a connection that speaks HTTP: other
    threads may close it, and other connections and the timers change the state of
    the process by their own callbacks. *)
Definition allowed (c : Conn) (e : event (App := Site)) : Prop :=
  match e with
  | OtherClients a => ∃ ev y, Connections.of_others conn ev ∧
      Connections.run_event St G ev (service (app c)) = (Ok (), y) ∧ a = with_service y (app c)
  | Client _ a => a = ForceClose ∨ a = Shutdown
  | _ => True
  end.

(** An event that ends normally; an exception ends the process. *)
Inductive step (c : Conn) : Conn → Prop :=
  | step_event e c' : event_ok c e → allowed c e → run_event outcome callbacks e c = (Ok (), c') → step c c'.

(** A connection the server has just accepted. *)
Definition accepted (self : nat) (fd : Z) (p : EpollPoller.EpollPoller) (x : Service) : Conn :=
  fresh self fd p (mk x 0 "").

(** The bytes of a list of sent texts. *)
Definition rendered (l : list (nat * string)) : list ascii :=
  concat (map (λ p, String.list_ascii_of_string (snd p)) l).

(** ** What the connection does besides answering *)

#[local] Arguments sent : simpl never.

Definition harmless (t : Task) : Prop := match t with TSend _ => False | _ => True end.
Definition unsaid (l : Call) : Prop := match l with CSend _ => False | _ => True end.
(** No [send] of another thread is under way. *)
Definition silent (c : Conn) : Prop := Forall harmless (pending c) ∧ Forall unsaid (begun c).

Definition same_site (a a' : Site) : Prop :=
  Connections.aside conn (service a) (service a') ∧ reads a' = reads a ∧ received a' = received a.

#[local] Existing Instance Connections.apart_preorder.
#[local] Instance aside_preorder : PreOrder (Connections.aside conn).
Proof.
  split; [intros x; split; [reflexivity|done]|]. intros x1 x2 x3 (H1&H2&H3) (H4&H5&H6).
  split; [by transitivity (Connections.server x2)|]. split; congruence.
Qed.

#[local] Instance same_site_preorder : PreOrder same_site.
Proof.
  split; [intros a; split; [reflexivity|done]|]. intros a1 a2 a3 (H1&H2&H3) (H4&H5&H6).
  split; [by transitivity (service a2)|]. split; congruence.
Qed.

(** Nothing is sent, nothing is taken, and nothing is answered. *)
Definition quiet (c c' : Conn) : Prop :=
  sent (trace c') = sent (trace c) ∧ input_buffer_ c' = input_buffer_ c ∧
  (silent c → silent c') ∧ same_site (app c) (app c') ∧
  (state_ c ≠ kConnecting → state_ c' ≠ kConnecting ∧ (state_ c' = kConnected → state_ c = kConnected)).

#[local] Instance quiet_preorder : PreOrder quiet.
Proof.
  split; [intros c; split_and!; try done; reflexivity|]. intros c1 c2 c3 (H1&H2&H3&H4&H5) (G1&G2&G3&G4&G5).
  split_and!; [congruence|congruence|auto|by transitivity (app c2)|].
  intros Hn. destruct (H5 Hn) as [Hn2 Hs2], (G5 Hn2). auto.
Qed.

Lemma update_quiet (f : Conn → Conn) : (∀ c, quiet c (f c)) → steps quiet (update f).
Proof. intros Hf c. apply Hf. Qed.

Lemma disconnected_aside : steps (Connections.aside conn) (Connections.on_server (Pipeline.on_disconnected conn)).
Proof.
  apply Connections.on_server_aside. unfold Pipeline.on_disconnected.
  apply steps_bind; [by apply Connections.update_apart|]. intros _.
  by apply (Connections.on_ws_apart conn (WsSession.RemoveSession conn)).
Qed.

Lemma disconnected_same a : same_site a (connection_cb kDisconnected a).
Proof.
  split; [|done]. pose proof (disconnected_aside (service a)) as H. unfold Connections.on_server in H.
  cbn. unfold server. by destruct (Pipeline.on_disconnected conn (Connections.server (service a))).
Qed.

Lemma sent_note l n : (∀ d, n ≠ NSend d) → sent (l ++ [n]) = sent l.
Proof. intros Hn. rewrite sent_app. destruct n; [| |by destruct (Hn data)]; unfold sent at 2; cbn; by rewrite app_nil_r. Qed.

(** The operations of a connection that send nothing, and what follows the first
    line of those that do. *)
#[local] Hint Extern 1 (steps quiet (update _)) =>
  (apply update_quiet; intros ?; split_and!; try done; try reflexivity; try (by intros ?; split)) : solar.

Lemma on_channel_quiet f : steps quiet (on_channel f).
Proof. unfold on_channel. auto with solar. Qed.

Lemma handle_close_quiet : steps quiet (handle_close callbacks).
Proof.
  intros c. rewrite handle_close_run. cbn [snd].
  assert (quiet c (closed callbacks c)) as Hc.
  { split_and!; [|done|done| |by intros _].
    - cbn. by rewrite !sent_note.
    - cbn. apply disconnected_same. }
  assert (quiet c (with_state kDisconnected c)) as Hd by (split_and!; try done; reflexivity).
  by destruct (state_ c).
Qed.

Lemma queue_quiet t : harmless t → steps quiet (queue t).
Proof.
  intros Ht. apply update_quiet. intros c. refine (conj eq_refl (conj eq_refl (conj _ (conj _ _)))); [|reflexivity|done].
  intros [Hc Hb]. split; [|exact Hb]. cbn. apply Forall_app. by split; [|apply Forall_singleton].
Qed.

Lemma force_close_quiet b : steps quiet (force_close callbacks b).
Proof.
  intros c. unfold force_close. rewrite (bind_run get_st _ _ _ _ eq_refl). unfold is_connected.
  destruct (negb _ && _) eqn:E; [reflexivity|]. rewrite (bind_run (update _) _ _ _ _ eq_refl).
  transitivity (with_state kDisconnecting c).
  - split_and!; try done; reflexivity.
  - destruct b; [apply handle_close_quiet|by apply queue_quiet].
Qed.

#[local] Hint Resolve on_channel_quiet handle_close_quiet force_close_quiet : solar.

Lemma sys_write_quiet d : steps quiet (sys_write outcome d).
Proof.
  intros c. unfold sys_write. destruct (socket_ c); [|reflexivity]. destruct (outcome (writes c)); split_and!; try done; reflexivity.
Qed.
Lemma sys_shutdown_quiet : steps quiet (sys_shutdown (App := Site)).
Proof. intros c. unfold sys_shutdown. destruct (socket_ c); [|reflexivity]. split_and!; try done; reflexivity. Qed.
Lemma append_output_quiet d : steps quiet (append_output (App := Site) d).
Proof. intros c. unfold append_output. destruct (Buffer.append _ _); [|reflexivity]. split_and!; try done; reflexivity. Qed.
#[local] Hint Resolve sys_write_quiet sys_shutdown_quiet append_output_quiet : solar.

Lemma buffer_rest_quiet d n : steps quiet (buffer_rest callbacks d n).
Proof. unfold buffer_rest. cbv zeta. step_rules. Qed.
Lemma write_complete_quiet : steps quiet (call_write_complete callbacks).
Proof. unfold call_write_complete. step_rules. Qed.
Lemma shutdown_in_loop_quiet : steps quiet (shutdown_in_loop (App := Site)).
Proof. unfold shutdown_in_loop. step_rules. Qed.
#[local] Hint Resolve buffer_rest_quiet write_complete_quiet shutdown_in_loop_quiet : solar.

Lemma shutdown_quiet b : steps quiet (shutdown (App := Site) b).
Proof.
  assert (steps quiet (queue (App := Site) TShutdown)) as Hq by by apply queue_quiet. unfold shutdown. step_rules.
Qed.

Lemma handle_write_quiet : steps quiet (handle_write outcome callbacks).
Proof. unfold handle_write, handle_error. step_rules. Qed.

(** [send] on a connected connection: the bytes are noted, and the rest is quiet. *)
Lemma send_said d c : is_connected c = true → quiet (noted (NSend d) c) (snd (send outcome callbacks true d c)).
Proof.
  intros Hc. unfold send, send_in_loop. rewrite (bind_run get_st _ _ _ _ eq_refl), Hc. cbn [negb].
  rewrite (bind_run get_st _ _ _ _ eq_refl), Hc. cbn [negb]. rewrite (bind_run (update _) _ _ _ _ eq_refl).
  assert (∀ m : M Conn (), steps quiet m → ∀ c, quiet c (snd (m c))) as Hq by done.
  apply Hq. unfold handle_error. step_rules.
Qed.

(** ** The answers on the connection *)

Notation sent_to := (Connections.sent_to conn).
Notation plain := (λ req, Answers.upgrades req = false).

(** The connection speaks HTTP and these requests of it have been answered. *)
Definition answered (reqs : list HttpRequest.HttpRequest) (s : Server.Server) : Prop :=
  ∃ s0, sent_to s0 = [] ∧ Connections.served_by St G conn 0 reqs s0 s.

(** Between two requests: while it is connected, all answers have been given to the
    connection; afterwards, the first of them. *)
Definition between (reqs : list HttpRequest.HttpRequest) (c : Conn) : Prop :=
  state_ c ≠ kConnecting ∧ answered reqs (server (app c)) ∧
  sent (trace c) `prefix_of` rendered (sent_to (server (app c))) ∧
  (state_ c = kConnected → sent (trace c) = rendered (sent_to (server (app c)))).

Lemma rendered_app l l' : rendered (l ++ l') = rendered l ++ rendered l'.
Proof. unfold rendered. by rewrite map_app, concat_app. Qed.

Lemma aside_answered reqs x x' : Connections.aside conn x x' → answered reqs (Connections.server x) →
  answered reqs (Connections.server x') ∧ sent_to (Connections.server x') = sent_to (Connections.server x).
Proof.
  intros ((Hs&Hc&Hg)&_) (s0&H0&Hup&Hn&Hu&resps&Hr&Ht). destruct (Hs Hu) as [Hu' Ht']. split; [|exact Ht'].
  exists s0. split; [done|]. split_and!; [by rewrite Hg|by rewrite Hc|done|]. exists resps. split; [done|].
  unfold Connections.sent_to in *. congruence.
Qed.

Lemma quiet_between reqs c c' : quiet c c' → between reqs c → between reqs c'.
Proof.
  intros (H1&_&_&(H4&_)&H5) (B1&B3&B4&B5). destruct (aside_answered _ _ _ H4 B3) as [Ha Ht].
  destruct (H5 B1) as [Hn Hs]. unfold between, server in *. rewrite H1, Ht. split_and!; auto.
Qed.

(** One request: its answer is logged, given to the connection, and nothing else. *)
Lemma request_between reqs req a s1 k c n c' : between reqs c → plain req → (Z.of_nat (length reqs) < int_max)%Z →
  Pipeline.on_request St G a conn req (server (app c)) = (Ok (), s1) →
  run_script outcome callbacks (acts (completes s1 ++ sends (server (app c)) s1) k) (with_app (with_server s1 (app c)) c) = (Ok n, c') →
  ∃ c1, run_script outcome callbacks k c1 = (Ok n, c') ∧ between (reqs ++ [req]) c1 ∧
    input_buffer_ c1 = input_buffer_ c ∧ reads (app c1) = reads (app c) ∧ received (app c1) = received (app c).
Proof.
  intros (B1&(s0&H0&Hsrv)&B4&B5) Hreq Hmax Hrun. pose proof Hsrv as (Hup&Hn&Hu&_). cbn in Hn.
  pose proof (Connections.request_served _ _ _ _ _ _ _ _ Hreq Hup Hn ltac:(lia) Hu Hrun) as Hone.
  pose proof (Connections.served_app _ _ _ _ _ _ _ _ _ Hsrv Hone) as Hall.
  destruct Hone as (Hup1&_&_&[|r [|]]&Hresp&Ht); [by inversion Hresp| |by inversion Hresp as [|????? H2]; inversion H2].
  cbn [Connections.answers] in Ht. set (t := Connections.answer conn _ req r) in *.
  unfold completes, sends, new_texts. rewrite Hup1, Ht, drop_app_length. cbn [app map acts foldr run_script].
  set (c0 := with_app (with_server s1 (app c)) c). intros Hscript.
  apply bind_ok in Hscript as ([]&c1&[= <-]&Hscript). apply bind_ok in Hscript as ([]&c2&Hsend&Hscript).
  exists c2. split; [exact Hscript|]. clear Hscript. cbn [run_action] in Hsend.
  set (w := with_write_complete _ c0) in *. set (d := String.list_ascii_of_string (snd t)) in *.
  assert (quiet (if is_connected w then noted (NSend d) w else w) c2) as Hq.
  { destruct (is_connected w) eqn:Ec.
    - pose proof (send_said d w Ec) as Hs. by rewrite Hsend in Hs.
    - unfold send in Hsend. rewrite (bind_run get_st _ _ _ _ eq_refl), Ec in Hsend. cbn [negb] in Hsend. by injection Hsend as <-. }
  assert (rendered (sent_to s1) = rendered (sent_to (server (app c))) ++ d) as Hren.
  { rewrite Ht, rendered_app. f_equal. unfold rendered. cbn. by rewrite app_nil_r. }
  split.
  - apply (quiet_between _ _ _ Hq). unfold between. change (is_connected w) with (is_connected c). unfold is_connected.
    case_bool_decide as Es; cbn [state_ pending app noted with_write_complete c0 w with_app trace];
      change (server (with_server s1 (app c))) with s1; rewrite ?sent_app, Hren; (split_and!; [done|by exists s0| |]).
    + rewrite B5 by done. unfold sent at 1. cbn. by rewrite app_nil_r.
    + intros _. rewrite B5 by done. unfold sent at 1. cbn. by rewrite app_nil_r.
    + by apply prefix_app_r.
    + done.
  - destruct Hq as (_&Hi&_&(_&Hr&Hv)&_). by destruct (is_connected w).
Qed.

Lemma parsed_between all r p reqs c n c' : between reqs c → run_script outcome callbacks (parsed all r p) c = (Ok n, c') →
  r = Ok () ∧ n = slen all ∧ between reqs c' ∧ input_buffer_ c' = input_buffer_ c ∧
  received (app c') = received (app c) +:+ all ∧ Connections.parsers (service (app c')) !! conn = Some p.
Proof.
  intros Hb Hrun. unfold parsed in Hrun. cbn [run_script] in Hrun. rewrite (bind_run get_st _ _ _ _ eq_refl) in Hrun.
  rewrite (bind_run (update _) _ _ _ _ eq_refl) in Hrun. destruct r as [[]|e]; [|done]. injection Hrun as <- <-.
  split_and!; try done. cbn. by rewrite lookup_insert_eq.
Qed.

(** A batch of bytes: every request they complete is answered. *)
Lemma feed_between all data i p reqs c n c' : between reqs c →
  run_script outcome callbacks (feed all i p data) c = (Ok n, c') →
  let '(r, p', reqs') := HttpParser.feed p data in
  Forall plain reqs' → (Z.of_nat (length (reqs ++ reqs')) ≤ int_max)%Z →
  r = Ok () ∧ n = slen all ∧ between (reqs ++ reqs') c' ∧ input_buffer_ c' = input_buffer_ c ∧
  received (app c') = received (app c) +:+ all ∧ Connections.parsers (service (app c')) !! conn = Some p'.
Proof.
  revert i p reqs c. induction data as [|ch data IH]; intros i p reqs c Hb Hrun.
  { intros _ _. rewrite app_nil_r. by apply parsed_between. }
  cbn [HttpParser.feed feed] in *. unfold HttpParser.feed_char. destruct (HttpParser.parse_char ch p) as [[[]|e] p1].
  2: { intros _ _. destruct (parsed_between _ _ _ _ _ _ _ Hb Hrun) as [? _]. done. }
  destruct (HttpParser.complete_ p1).
  - cbn [run_script] in Hrun. rewrite (bind_run get_st _ _ _ _ eq_refl) in Hrun.
    destruct (HttpParser.feed (HttpParser.reset p1) data) as [[r p2] out] eqn:E. cbn [app]. intros [Hreq Hout]%Forall_cons Hmax.
    rewrite !length_app in Hmax. cbn [length] in Hmax. cbv beta in Hrun.
    destruct (Pipeline.on_request St G (amb (reads (app c)) i) conn _ (server (app c))) as [[[]|e] s1] eqn:Ereq;
      cbn [run_script] in Hrun; rewrite (bind_run (update _) _ _ _ _ eq_refl) in Hrun.
    2: { unfold parsed in Hrun. cbn [run_script] in Hrun. by rewrite (bind_run get_st _ _ _ _ eq_refl) in Hrun. }
    assert (Z.of_nat (length reqs) < int_max)%Z as Hlt by lia.
    apply (request_between _ _ _ _ _ _ _ _ Hb Hreq Hlt Ereq) in Hrun as (c1&Hrun&Hb1&Hi&Hr&Hv).
    specialize (IH _ _ _ _ Hb1 Hrun). rewrite E, Hi, Hv in IH. rewrite <- (assoc_L (++)) in IH. apply IH; [done|].
    rewrite !length_app. cbn [length]. lia.
  - specialize (IH _ _ _ _ Hb Hrun). destruct (HttpParser.feed p1 data) as [[r p2] out]. exact IH.
Qed.

(** ** The invariant of the connection *)

(** All the bytes taken so far have been parsed and their requests answered. *)
Definition speaking (c : Conn) : Prop :=
  let '(r, p, reqs) := HttpParser.feed HttpParser.init (received (app c)) in
  Forall plain reqs → (Z.of_nat (length reqs) ≤ int_max)%Z →
  r = Ok () ∧ between reqs c ∧ Buffer.data (input_buffer_ c) = [] ∧
  Connections.parsers (service (app c)) !! conn = Some p.

Definition waiting_for_loop (c : Conn) : Prop :=
  Buffer.data (input_buffer_ c) = [] ∧ received (app c) = "" ∧ sent (trace c) = [] ∧
  WsSession.unknown conn (World.ws (Server.world (server (app c)))) ∧ sent_to (server (app c)) = [].

Definition wired (c : Conn) : Prop :=
  Buffer.wf (input_buffer_ c) ∧ silent c ∧ if decide (state_ c = kConnecting) then waiting_for_loop c else speaking c.

(** *** What a callback takes, whatever it is called with *)

Definition grown (z : string) (c c' : Conn) : Prop :=
  received (app c') = received (app c) +:+ z ∧ input_buffer_ c' = input_buffer_ c ∧
  (state_ c ≠ kConnecting → state_ c' ≠ kConnecting) ∧ (silent c → silent c').

Lemma grown_trans z z' c1 c2 c3 : grown z c1 c2 → grown z' c2 c3 → grown (z +:+ z') c1 c3.
Proof. intros (H1&H2&H3&H7) (H4&H5&H6&H8). split_and!; [by rewrite H4, H1, sapp_assoc|congruence|auto|auto]. Qed.

Lemma quiet_grown c c' : quiet c c' → grown "" c c'.
Proof. intros (_&Hi&Hh&(_&_&H)&Hs). split_and!; [by rewrite sapp_nil_r|done| |done]. intros Hn. by apply Hs. Qed.

Lemma action_grown a c : grown "" c (snd (run_action outcome callbacks a c)).
Proof.
  destruct a as [d| | |w]; cbn [run_action].
  - destruct (is_connected c) eqn:Ec.
    + exact (quiet_grown (noted (NSend d) c) _ (send_said d c Ec)).
    + apply quiet_grown. unfold send. rewrite (bind_run get_st _ _ _ _ eq_refl), Ec. reflexivity.
  - apply quiet_grown, shutdown_quiet.
  - apply quiet_grown, force_close_quiet.
  - by apply quiet_grown.
Qed.

Lemma acts_grown l k c n c' : run_script outcome callbacks (acts l k) c = (Ok n, c') →
  ∃ c1, run_script outcome callbacks k c1 = (Ok n, c') ∧ grown "" c c1.
Proof.
  revert c. induction l as [|a l IH]; intros c Hrun; [by exists c; split; [|apply quiet_grown]|].
  cbn [acts foldr run_script] in Hrun. apply bind_ok in Hrun as ([]&c1&Ha&Hrun).
  destruct (IH _ Hrun) as (c2&H2&Hr). exists c2. split; [done|].
  pose proof (action_grown a c) as H. rewrite Ha in H. exact (grown_trans _ _ _ _ _ H Hr).
Qed.

Lemma feed_grown all data i p c n c' : run_script outcome callbacks (feed all i p data) c = (Ok n, c') → grown all c c'.
Proof.
  assert (∀ r p c, run_script outcome callbacks (parsed all r p) c = (Ok n, c') → grown all c c') as Hp.
  { intros r q c0 Hrun. unfold parsed in Hrun. cbn [run_script] in Hrun. rewrite (bind_run get_st _ _ _ _ eq_refl) in Hrun.
    rewrite (bind_run (update _) _ _ _ _ eq_refl) in Hrun. destruct r; [|done]. by injection Hrun as <- <-. }
  revert i p c. induction data as [|ch data IH]; intros i p c Hrun; cbn [feed] in Hrun; [by eapply Hp|].
  destruct (HttpParser.parse_char ch p) as [[[]|e] p1]; [|by eapply Hp].
  destruct (HttpParser.complete_ p1); [|by eapply IH].
  cbn [run_script] in Hrun. rewrite (bind_run get_st _ _ _ _ eq_refl) in Hrun. cbv beta in Hrun.
  destruct (Pipeline.on_request _ _ _ _ _ _) as [[[]|e] s1]; cbn [run_script] in Hrun;
    rewrite (bind_run (update _) _ _ _ _ eq_refl) in Hrun; [|by apply Hp in Hrun].
  apply acts_grown in Hrun as (c1&Hrun&Hr). apply IH in Hrun. exact (grown_trans _ _ _ _ _ Hr Hrun).
Qed.

Lemma message_grown d c n c' : run_script outcome callbacks (message_cb d) c = (Ok n, c') → ∃ z, grown z c c'.
Proof.
  unfold message_cb. cbn [run_script]. rewrite (bind_run get_st _ _ _ _ eq_refl), (bind_run (update _) _ _ _ _ eq_refl).
  set (c1 := with_app _ c). destruct (sempty _).
  { cbn [run_script]. intros [= _ <-]. exists "". by split_and!; [rewrite sapp_nil_r|..]. }
  destruct (Server.upgraded _ !! conn).
  - unfold on_frame. cbn [run_script]. rewrite (bind_run get_st _ _ _ _ eq_refl). cbv beta.
    destruct (Pipeline.on_frame _ _ _) as [[m|e] s1]; cbn [run_script]; rewrite (bind_run (update _) _ _ _ _ eq_refl); [|done].
    intros Hrun. apply acts_grown in Hrun as (c2&[= _ <-]&Hr&Hi&Hs). eexists. split_and!; [|exact Hi|apply Hs|apply Hs].
    rewrite Hr. by rewrite sapp_nil_r.
  - destruct (Connections.parsers _ !! conn); [|done]. intros Hrun. apply feed_grown in Hrun. by eexists.
Qed.

(** *** Every event keeps it *)

Definition established (c : Conn) : Prop := state_ c ≠ kConnecting ∧ Buffer.wf (input_buffer_ c) ∧ silent c ∧ speaking c.

Lemma established_wired c : established c ↔ state_ c ≠ kConnecting ∧ wired c.
Proof. unfold established, wired. split; [intros (H1&H2&H3&H4)|intros (H1&H2&H3&H4)]; by destruct (decide (state_ c = kConnecting)). Qed.

Lemma quiet_established c c' : quiet c c' → established c → established c'.
Proof.
  intros Hq (Hn&Hwf&Hh&Hs). pose proof Hq as (_&Hi&Hpe&((_&Hp&_)&_&Hv)&Hst). split_and!; [by apply Hst|by rewrite Hi|auto|].
  unfold speaking in *. rewrite Hv. destruct (HttpParser.feed _ _) as [[r p] reqs]. intros Hreqs Hmax.
  destruct (Hs Hreqs Hmax) as (H1&H2&H3&H4). rewrite Hi, Hp. split_and!; try done. by eapply quiet_between.
Qed.

Lemma slen_of_ascii l : slen (String.string_of_list_ascii l) = length l.
Proof. induction l as [|x l IH]; [done|]. cbn. by rewrite IH. Qed.

(** The requests in a first part of the bytes. *)
Lemma speaking_before (z : string) (reqs : list HttpRequest.HttpRequest) v r p : 
  HttpParser.feed HttpParser.init (v +:+ z) = (r, p, reqs) → Forall plain reqs → (Z.of_nat (length reqs) ≤ int_max)%Z →
  let '(r0, p0, reqs0) := HttpParser.feed HttpParser.init v in Forall plain reqs0 ∧ (Z.of_nat (length reqs0) ≤ int_max)%Z.
Proof.
  rewrite HttpParser.feed_app. destruct (HttpParser.feed HttpParser.init v) as [[[[]|e] p0] reqs0]; [|by intros [= <- <- <-]].
  destruct (HttpParser.feed p0 z) as [[r1 p1] reqs1]. intros [= <- <- <-] [H _]%Forall_app Hl. rewrite length_app in Hl.
  split; [done|lia].
Qed.

(** A call of the message callback on the input buffer, everything in it unread. *)
Lemma message_established b bytes c c' : established c → Buffer.wf b → Buffer.data b = Buffer.data (input_buffer_ c) ++ bytes →
  call_message_cb outcome callbacks (with_input b c) = (Ok (), c') → bytes ≠ [] → established c'.
Proof.
  intros (Hn&Hwf&Hh&Hs) Hwb Hd Hrun Hne. unfold call_message_cb in Hrun. rewrite (bind_run get_st _ _ _ _ eq_refl) in Hrun.
  apply bind_ok in Hrun as (n&c1&Hrun&[= <-]). change (message_cb_ callbacks) with message_cb in Hrun.
  change (input_buffer_ (with_input b c)) with b in Hrun.
  destruct (message_grown _ _ _ _ Hrun) as (z&Hz&Hi&Hst&Hpe). change (app (with_input b c)) with (app c) in Hz.
  change (input_buffer_ (with_input b c)) with b in Hi. split_and!; [by apply Hst|cbn; rewrite Hi; by apply Buffer.retrieve_refines|by apply Hpe|].
  unfold speaking. cbn [app with_input input_buffer_]. destruct (HttpParser.feed _ (received (app c1))) as [[r p] reqs] eqn:E.
  intros Hreqs Hmax. rewrite Hz in E. pose proof (speaking_before _ _ _ _ _ E Hreqs Hmax) as Hok. unfold speaking in Hs.
  rewrite HttpParser.feed_app in E. destruct (HttpParser.feed HttpParser.init (received (app c))) as [[r0 p0] reqs0].
  destruct (Hs (proj1 Hok) (proj2 Hok)) as (->&Hb&He&Hpar). clear Hs Hok. rewrite He in Hd. cbn in Hd. rewrite Hd in Hrun.
  pose proof Hb as (_&(s0&_&Hup&_)&_).
  unfold message_cb in Hrun. cbn [run_script] in Hrun.
  rewrite (bind_run get_st _ _ _ _ eq_refl), (bind_run (update _) _ _ _ _ eq_refl) in Hrun.
  change (server (app (with_input b c))) with (server (app c)) in Hrun. rewrite Hup in Hrun.
  change (service (app (with_input b c))) with (service (app c)) in Hrun. rewrite Hpar in Hrun.
  set (data := String.string_of_list_ascii bytes) in *.
  assert (sempty data = false) as Hd0 by (apply bool_decide_eq_false; by destruct bytes).
  rewrite Hd0 in Hrun. set (c2 := with_app _ _) in Hrun. assert (between reqs0 c2) as Hb2 by exact Hb.
  pose proof (feed_between data data 0 p0 reqs0 c2 n c1 Hb2 Hrun) as Hf. pose proof (proj1 (feed_grown _ _ _ _ _ _ _ Hrun)) as Hg.
  change (received (app c2)) with (received (app c)) in Hg. rewrite Hz in Hg. apply (inj (String.app _)) in Hg as ->.
  destruct (HttpParser.feed p0 data) as [[r1 p1] reqs1]. injection E as <- <- <-.
  destruct (Hf (proj2 (proj1 (Forall_app _ _ _) Hreqs)) Hmax) as (H1&->&H3&_&_&H6).
  split_and!; [done|exact H3| |exact H6]. rewrite Hi. destruct (Buffer.retrieve_refines b (slen data) Hwb) as [_ ->].
  rewrite Hd. apply skipn_all2. unfold data. by rewrite slen_of_ascii.
Qed.

Notation keeps_established := (ok_steps (keeps established)).

Lemma quiet_keeps {A} (m : M Conn A) : steps quiet m → keeps_established m.
Proof. intros Hm. apply ok_steps_of. intros c. exact (quiet_established _ _ (Hm c)). Qed.

Lemma read_keeps r : keeps_established (handle_read outcome callbacks r).
Proof.
  intros c [] c' Hrun Hc. unfold handle_read in Hrun. rewrite (bind_run get_st _ _ _ _ eq_refl) in Hrun.
  destruct (is_connected c); cbn [negb] in Hrun; [|by injection Hrun as <-]. destruct (socket_ c); [|done].
  assert (keeps_established (handle_close callbacks)) as Hcl by apply quiet_keeps, handle_close_quiet.
  destruct r as [bytes| |]; [|by injection Hrun as <-|by eapply Hcl].
  destruct (Buffer.read_from_fd_refines (input_buffer_ c) bytes) as (b&Hb&Hwb&Hd); [apply Hc|]. rewrite Hb in Hrun.
  rewrite (bind_run (update _) _ _ _ _ eq_refl) in Hrun. destruct bytes as [|x bytes].
  - assert (b = input_buffer_ c) as -> by (cbn in Hb; congruence). rewrite bool_decide_eq_false_2 in Hrun by done.
    by eapply (Hcl (with_input (input_buffer_ c) c)).
  - rewrite bool_decide_eq_true_2 in Hrun by (cbn; lia). by eapply message_established.
Qed.

Lemma callback_keeps r cb : keeps_established (channel_callback outcome callbacks r cb).
Proof.
  destruct cb; cbn [channel_callback]; [apply quiet_keeps, handle_close_quiet|apply quiet_keeps, handle_close_quiet| |].
  - apply read_keeps.
  - apply quiet_keeps, handle_write_quiet.
Qed.

Lemma ready_keeps r revents : keeps_established (Channel.handle_event (channel_callback outcome callbacks r) true revents).
Proof.
  assert (keeps_established (mret ())) as Hret by apply quiet_keeps, steps_ret.
  unfold Channel.handle_event. cbn [negb].
  repeat (apply ok_steps_bind; [case_match; [apply callback_keeps|done]|intros _]). case_match; [apply callback_keeps|done].
Qed.

Lemma destroyed_quiet : steps quiet (connection_destroyed (App := Site)).
Proof. unfold connection_destroyed. step_rules. Qed.

Lemma task_keeps t : harmless t → t ≠ TEstablished → steps quiet (run_task outcome callbacks t).
Proof.
  intros Hh Ht. destruct t; cbn [run_task]; [done| | |done|]; auto using destroyed_quiet with solar.
Qed.

(** The loop establishes the connection: the connection callback gives it a parser. *)
Lemma establish_wired c : state_ c = kConnecting → wired c →
  established (snd (connection_established callbacks (with_pending [] c))).
Proof.
  intros Es (Hwf&[_ Hbg]&Hw). rewrite decide_True in Hw by done. destruct Hw as (Hi&Hr&Ht&Hu&Hs).
  unfold connection_established. rewrite (bind_run get_st _ _ _ _ eq_refl). rewrite bool_decide_eq_true_2 by done.
  cbn [negb]. rewrite (bind_run (update _) _ _ _ _ eq_refl), (bind_run (on_channel _) _ _ _ _ eq_refl).
  refine (conj _ (conj Hwf (conj (conj (List.Forall_nil _) Hbg) _))); [done|]. unfold speaking. cbn [snd app call_connection_cb update noted with_app with_state with_channel
    state_ connection_cb_ callbacks connection_cb with_service received with_pending]. rewrite Hr. cbn [HttpParser.feed]. intros _ _.
  split_and!; [done| |exact Hi|exact (lookup_insert_eq _ _ _)]. unfold between. cbn [state_ trace pending].
  assert (sent_to (server (mk (snd (Connections.on_connected conn (service (app c)))) (reads (app c)) "")) = []) as Hs1 by exact Hs.
  split_and!; [done| | |].
  - exists (server (app c)). split; [exact Hs|]. split_and!; [exact (lookup_delete_eq _ _)|exact (lookup_insert_eq _ _ _)|exact Hu|].
    exists []. split; [constructor|]. cbn. by rewrite app_nil_r.
  - cbn [trace noted with_app with_channel with_state with_pending]. rewrite sent_note, Ht by done. apply prefix_nil.
  - intros _. cbn [trace noted with_app with_channel with_state with_pending]. rewrite sent_note, Ht by done.
    exact (eq_sym (f_equal rendered Hs)).
Qed.

Lemma action_waits a c : a = ForceClose ∨ a = Shutdown → state_ c = kConnecting → run_action outcome callbacks a c = (Ok (), c).
Proof.
  intros Ha Es. destruct Ha as [-> | ->]; cbn [run_action]; unfold force_close, shutdown, is_connected;
    by rewrite (bind_run get_st _ _ _ _ eq_refl), Es.
Qed.

Lemma begin_waits a c : a = ForceClose ∨ a = Shutdown → state_ c = kConnecting → begin_call (App := Site) a c = (Ok (), c).
Proof.
  intros Ha Es. unfold begin_call, is_connected. rewrite (bind_run get_st _ _ _ _ eq_refl), Es. by destruct Ha as [-> | ->].
Qed.

(** The steps of the calls of other threads, which begin no [send]. *)
Lemma begins_quiet call : unsaid call → steps quiet (update (λ c : Conn, with_begun (begun c ++ [call]) c)).
Proof.
  intros Hu. apply update_quiet. intros c. refine (conj eq_refl (conj eq_refl (conj _ (conj _ _)))); [|reflexivity|done].
  intros [Hp Hb]. split; [exact Hp|]. cbn. apply Forall_app. by split; [|apply Forall_singleton].
Qed.

Lemma begin_quiet a : a = ForceClose ∨ a = Shutdown → steps quiet (begin_call (App := Site) a).
Proof.
  intros Ha. pose proof (begins_quiet CShutdown I) as H1. pose proof (begins_quiet CStore I) as H2.
  unfold begin_call. cbv zeta. destruct Ha as [-> | ->]; step_rules.
Qed.

Lemma proceed_quiet i (c : Conn) : state_ c ≠ kConnecting → silent c → quiet c (snd (proceed i c)).
Proof.
  intros Hn [_ Hb]. unfold proceed. rewrite (bind_run get_st _ _ _ _ eq_refl). cbv zeta.
  destruct (begun c !! i) as [call|] eqn:E; [|reflexivity]. pose proof (Forall_lookup_1 _ _ _ _ Hb E) as Hu.
  assert (∀ t, harmless t → quiet c (snd ((_ ← update (λ c, with_begun (delete i (begun c)) c); queue t) c))) as Hq.
  { intros t Ht. rewrite (bind_run (update _) _ _ _ _ eq_refl). transitivity (with_begun (delete i (begun c)) c); [|by apply queue_quiet].
    refine (conj eq_refl (conj eq_refl (conj _ (conj _ _)))); [|reflexivity|done].
    intros [Hp _]. split; [exact Hp|]. by apply Forall_delete. }
  destruct call; [done|by apply Hq| |by apply Hq]. rewrite (bind_run store_disconnecting _ _ _ _ eq_refl).
  refine (conj eq_refl (conj eq_refl (conj _ (conj _ _)))); [|reflexivity|done].
  intros [Hp _]. split; [exact Hp|]. cbn. by apply Forall_insert.
Qed.

Lemma others_same c ev y : Connections.of_others conn ev → Connections.run_event St G ev (service (app c)) = (Ok (), y) →
  same_site (app c) (with_service y (app c)).
Proof.
  intros Ho Hrun. split; [|done]. pose proof (Connections.others_aside St G conn ev Ho (service (app c))) as H. by rewrite Hrun in H.
Qed.

(** Events of a connection that waits for its loop. *)
Lemma waiting_step self fd e c c' : inv self fd [] c → state_ c = kConnecting → wired c → event_ok c e → allowed c e →
  run_event outcome callbacks e c = (Ok (), c') → wired c'.
Proof.
  intros Hinv Es Hw Hok Hal Hrun. pose proof Hw as (Hwf&Hh&Hwt). rewrite decide_True in Hwt by done. destruct Hwt as (H2&H3&H4&H5&H6).
  destruct (i_new _ _ _ _ Hinv Es) as (Hp&Htr&_&Hbg). destruct e as [revents r| |[] a|i| |p|a]; cbn [run_event event_ok allowed] in *.
  - done.
  - unfold next_task in Hrun. rewrite (bind_run get_st _ _ _ _ eq_refl), Hp in Hrun.
    rewrite (bind_run (update _) _ _ _ _ eq_refl) in Hrun. cbn [run_task] in Hrun.
    apply established_wired. pose proof (establish_wired c Es Hw) as He. by rewrite Hrun in He.
  - rewrite action_waits in Hrun by done. by injection Hrun as <-.
  - rewrite begin_waits in Hrun by done. by injection Hrun as <-.
  - unfold proceed in Hrun. rewrite (bind_run get_st _ _ _ _ eq_refl), Hbg, lookup_nil in Hrun. by injection Hrun as <-.
  - rewrite Htr in Hok. by apply elem_of_nil in Hok.
  - injection Hrun as <-. split_and!; [exact Hwf|exact Hh|]. by rewrite decide_True.
  - destruct Hal as (ev&y&Ho&Hy&->). injection Hrun as <-. split_and!; [exact Hwf|exact Hh|]. rewrite decide_True by done.
    destruct (others_same _ _ _ Ho Hy) as (((Hs&_)&_)&_). destruct (Hs H5) as [Hu Hsent]. split_and!; try done.
    exact (eq_trans Hsent H6).
Qed.

Lemma established_step e c c' : established c → event_ok c e → allowed c e →
  run_event outcome callbacks e c = (Ok (), c') → established c'.
Proof.
  intros Hc Hok Hal Hrun. pose proof Hc as (Hns&_&Hpend&_). destruct e as [revents r| |[] a|i| |p|a]; cbn [run_event event_ok allowed] in *.
  - by eapply ready_keeps.
  - unfold next_task in Hrun. rewrite (bind_run get_st _ _ _ _ eq_refl) in Hrun. destruct (pending c) as [|t l] eqn:Ep; [by injection Hrun as <-|].
    rewrite (bind_run (update _) _ _ _ _ eq_refl) in Hrun. set (c1 := with_pending l c) in *.
    destruct Hpend as [Hpend Hbg]. rewrite Ep in Hpend. apply Forall_cons in Hpend as [Ht Hl].
    assert (established c1) as Hc1.
    { apply (quiet_established c); [|done]. refine (conj eq_refl (conj eq_refl (conj _ (conj _ _)))); [done|reflexivity|done]. }
    assert (t = TEstablished ∨ t ≠ TEstablished) as [->|Hne] by (destruct t; first [by left|by right]).
    + cbn [run_task] in Hrun. unfold connection_established in Hrun. rewrite (bind_run get_st _ _ _ _ eq_refl) in Hrun.
      rewrite bool_decide_eq_false_2 in Hrun by apply Hc. by injection Hrun as <-.
    + exact (quiet_keeps _ (task_keeps t Ht Hne) _ _ _ Hrun Hc1).
  - destruct Hal as [-> | ->]; [exact (quiet_keeps _ (force_close_quiet true) _ _ _ Hrun Hc)|exact (quiet_keeps _ (shutdown_quiet true) _ _ _ Hrun Hc)].
  - exact (quiet_keeps _ (begin_quiet a Hal) _ _ _ Hrun Hc).
  - pose proof (proceed_quiet i c Hns Hpend) as Hq. rewrite Hrun in Hq. by apply (quiet_established c).
  - eapply (quiet_keeps _ (queue_quiet TDestroyed I)); done.
  - injection Hrun as <-. apply (quiet_established c); [|done]. refine (conj eq_refl (conj eq_refl (conj _ (conj _ _)))); [done|reflexivity|done].
  - destruct Hal as (ev&y&Ho&Hy&->). injection Hrun as <-. apply (quiet_established c); [|done].
    refine (conj eq_refl (conj eq_refl (conj _ (conj _ _)))); [done|by eapply others_same|done].
Qed.

(** The callback asks for nothing undefined, so the invariant of connections applies. *)
Lemma acts_defined l (k : Script Site) : defined k → defined (acts l k).
Proof. induction l; done. Qed.

Lemma escaped_kind e : ex_kind (escaped e) ≠ EUndefined.
Proof. unfold escaped. destruct (ex_kind e) eqn:E; rewrite ?E; done. Qed.

Lemma feed_defined all data i p : defined (feed all i p data).
Proof.
  assert (∀ r p, defined (parsed all r p)) as Hp by (intros [u|e] q a e' [= <-]; apply escaped_kind).
  revert i p. induction data as [|ch data IH]; intros i p; cbn [feed]; [apply Hp|].
  destruct (HttpParser.parse_char ch p) as [[u|e] p1]; [|apply Hp]. destruct (HttpParser.complete_ p1); [|apply IH].
  intros a. destruct (Pipeline.on_request _ _ _ _ _ _) as [[v|e] s1]; [apply acts_defined, IH|apply Hp].
Qed.

Lemma callbacks_defined d : defined (message_cb_ callbacks d).
Proof.
  intros a. cbn. destruct (sempty _); [done|]. destruct (Server.upgraded _ !! conn).
  - intros a'. destruct (Pipeline.on_frame _ _ _) as [[n|e] s1]; [by apply acts_defined|]. intros e' [= <-]. apply escaped_kind.
  - destruct (Connections.parsers _ !! conn); [apply feed_defined|by intros e [= <-]].
Qed.

Lemma step_steps c c' : step c c' → TcpConnection.step outcome callbacks c c'.
Proof. intros [e c2 Hok _ Hrun]. exists e. by rewrite Hrun. Qed.

Lemma reachable_wired self fd p x c : registered self fd 0 p → sent_to (Connections.server x) = [] →
  WsSession.unknown conn (World.ws (Server.world (Connections.server x))) →
  rtc step (accepted self fd p x) c → ((late c = 0 ∧ inv self fd [] c) ∨ (late c ≠ 0 ∧ gone c)) ∧ wired c.
Proof.
  intros Hp Hs Hu Hr. assert (∀ c, rtc step (accepted self fd p x) c → (late c = 0 ∧ inv self fd [] c) ∨ (late c ≠ 0 ∧ gone c)) as Hc.
  { intros c1 H1. apply (reachable_cases outcome callbacks self fd callbacks_defined p (mk x 0 "") c1 Hp).
    revert H1. apply rtc_congruence with (f := id). apply step_steps. }
  split; [by apply Hc|]. revert Hr. apply (rtc_ind_r wired).
  - pose proof (Buffer.wf_make 1024) as [Hw Hd].
    unfold wired. rewrite decide_True by done. refine (conj Hw (conj (conj _ _) _)); [by apply Forall_singleton|constructor|]. split_and!; done.
  - intros c1 c2 Hr [e c2' Hok Hal Hrun] Hw. destruct (decide (state_ c1 = kConnecting)) as [Es|Es].
    + destruct (Hc c1 Hr) as [[_ Hi]|[_ [Hg _ _ _]]]; [by eapply waiting_step|]. destruct Hg; congruence.
    + apply established_wired. eapply established_step; [|done..]. by apply established_wired.
Qed.

(** C7. From bytes to bytes. Take a new connection whose requests so far, those in the
    bytes read, are at most [int_max] = 2^31-1 and none of which asks for a WebSocket
    session the server has (after a handshake frames and pushes follow), in a run
    that no exception ends (one that leaves a callback ends the process). Whatever the
    kernel delivers in each read and accepts of each write, whenever the connection is
    closed or shut down, by this thread or, in any steps, by another (only its own
    callbacks send on it), and whatever other connections and the timers do meanwhile:
    the bytes written to it are a prefix of the answers to these requests, one answer
    each, in their order, each as its handling left it; as long as it is connected,
    what has been written and what waits in the output buffer are together all of
    these answers; and if every write takes a byte, write events alone bring them all
    to the peer. *)
Theorem answers_on_the_wire (self : nat) (fd : Z) (p : EpollPoller.EpollPoller) (x : Service) (c : Conn)
    (r : result ()) (q : HttpParser.HttpParser) (reqs : list HttpRequest.HttpRequest)
    (Hp : registered self fd 0 p) (Hnew : sent_to (Connections.server x) = [])
    (Hu : WsSession.unknown conn (World.ws (Server.world (Connections.server x))))
    (Hr : rtc step (accepted self fd p x) c)
    (Hreqs : HttpParser.feed HttpParser.init (received (app c)) = (r, q, reqs))
    (Hplain : Forall plain reqs) (Hmax : (Z.of_nat (length reqs) ≤ int_max)%Z) :
  ∃ resps, Forall2 (Connections.responds St G conn) reqs resps ∧
    let out := rendered (Connections.answers conn 0 reqs resps) in
    wire c `prefix_of` out ∧
    (state_ c = kConnected → wire c ++ Buffer.data (output_buffer_ c) = out ∧
      ((∀ n, ∃ k, outcome n = Wrote (S k)) →
        ∃ c', rtc (λ c c', c' = snd (handle_write outcome callbacks c)) c c' ∧ wire c' = out)).
Proof.
  destruct (reachable_wired self fd p x c Hp Hnew Hu Hr) as [Hcases Hw].
  assert (wire c `prefix_of` sent (trace c)) as Hpre by (destruct Hcases as [[_ [] ]|[_ [] ]]; done).
  destruct (decide (state_ c = kConnecting)) as [Es|Es].
  - destruct Hw as (_&_&Hw). rewrite decide_True in Hw by done. destruct Hw as (_&Hrec&Hsent&_&_).
    rewrite Hrec in Hreqs. injection Hreqs as <- <- <-. exists []. split; [constructor|]. split; [by rewrite Hsent in Hpre|]. by rewrite Es.
  - pose proof (proj2 (established_wired c) (conj Es Hw)) as (_&_&_&Hs). clear Hw. rename Hs into Hw. unfold speaking in Hw. rewrite Hreqs in Hw.
    destruct (Hw Hplain Hmax) as (_&(_&(s0&H0&_&_&_&resps&Hresp&Hsent)&Hb&Hall)&_). exists resps. split; [exact Hresp|].
    rewrite H0, app_nil_l in Hsent. rewrite Hsent in Hb, Hall. split; [by etransitivity|]. intros Hc.
    assert (inv self fd [] c) as Hi by (destruct Hcases as [[_ ?]|[_ [[?|?] _ _ _] ]]; congruence).
    pose proof (i_stream _ _ _ _ Hi) as Hst. rewrite <- (Hall Hc). rewrite app_nil_r in Hst. split; [by apply Hst; rewrite Hc|]. intros Hk.
    destruct (waiting c) eqn:Ew.
    + destruct (good_drains outcome callbacks self fd callbacks_defined c (conj Hi Es) Hk (or_introl Hc) Ew) as (n&c'&_&Hn&H1&_).
      exists c'. split; [by eapply rtc_nsteps_2|exact H1].
    + exists c. split; [done|]. unfold waiting in Ew. apply negb_false_iff, bool_decide_eq_true in Ew.
      rewrite Ew, app_nil_r in Hst. apply Hst. by rewrite Hc.
Qed.

End wire.
End Wire.
