(* ===== verification/EndToEnd.v ===== *)
(** Theorems about the whole server, from the first start on, and their instances
    on the deployment of [Sample]. *)
From S2P Require Import Prelude Steps JsonValue HttpMessage HttpRouter Jwt ObjectStore Database Daos Constraints Redis WsCodec.
From S2P Require Import World Gc Files FoldersAccounts Multipart Shares Server Sessions StoredContent Isolation HandlerSafety.
From S2P Require Import ApiSafety ServerSafety Frames Answers Connections ShareRules HttpParser Delivery Startup Sample.
From S2P Require Import NetBuffer Reactor TcpConnection Wire Overlap Parts ShareDelivery Accounts.
Import World Schema StoredContent Isolation HandlerSafety ServerSafety Answers Delivery HttpRequest.

Module EndToEnd.

Section theorems.
Context {R : RedisServer} {J : JsonText} {P : Postgres} {EV : Evp} {C : Calendar} {O : HashOrder}
  {K : WsHandshake.Handshake}.

(** The state [main] starts with: what the schema's bootstrap and the store's
    constructor leave, and a Redis without half-written upload sessions. *)
Definition started (S : Settings) (hash_field : rdb → string → string → option string) (s : Server.Server) : Prop :=
  db_ok (db (Server.world s)) ∧ contents (db (Server.world s)) = [] ∧
  (∃ path, (base_path S, fs (Server.world s)) = ObjectStore.construct path ∅) ∧
  Sessions.sessions_ok hash_field (Server.world s).

Lemma started_ok S hash_field s : started S hash_field s → server_ok S hash_field s.
Proof.
  intros (Hok&Hc&(path&Hp)&Hs). split; [|done]. split; [done|]. split.
  - pose proof (ObjectStore.construct_spec path) as H. rewrite <- Hp in H. by destruct H as (_&H&_).
  - intros c. rewrite Hc. by intros ?%elem_of_nil.
Qed.

(** In every state the server reaches from its start, by requests on any
    connection, connections made and lost and both timers, in any order, failing
    or not, the constraints of the schema hold, every object of the store has the
    hash it is stored under, and every content row can be read back from its
    chunks: the data has the hash the row says. *)
Theorem reachable_deliverable (S : Settings) (G : Process) (hash_field : rdb → string → string → option string)
    (L : hash_laws hash_field) (s0 s : Server.Server) (H0 : started S hash_field s0) (Hr : rtc (next S G) s0 s) :
  db_ok (db (Server.world s)) ∧ ObjectStore.sound (base_path S) (fs (Server.world s)) ∧
  ∀ c, c ∈ contents (db (Server.world s)) → ∃ data,
    ObjectStore.get_chunked (base_path S) (row_chunks c) (fs (Server.world s)) = (Ok data, fs (Server.world s)) ∧
    ObjectStore.sha256 data = c_hash c.
Proof.
  destruct (reachable_ok S G hash_field L s0 s Hr (started_ok _ _ _ H0)) as [Hst _]. pose proof Hst as (Hok&Hs&_).
  split_and!; [done|done|]. intros c Hc. by apply (stored_readable S).
Qed.

(** C2. Users are isolated: whatever events follow each other, as long as none is
    a request with a token of the user, and however they end, the user's live
    files and folders stay exactly as they are, and so do the content rows behind
    the files and the chunk objects those rows name; the shares of his files are
    the same, but that downloads are counted and that one may be revoked after it
    has expired. *)
Theorem users_isolated (S : Settings) (G : Process) (hash_field : rdb → string → string → option string)
    (L : hash_laws hash_field) (o : string) (s s' : Server.Server) (Hs : server_ok S hash_field s)
    (Hr : rtc (next_by_others S G o) s s') :
  files_of o (db (Server.world s')) = files_of o (db (Server.world s)) ∧
  folders_of o (db (Server.world s')) = folders_of o (db (Server.world s)) ∧
  Forall2 (share_kept (clock (db (Server.world s')))) (shares_of o (db (Server.world s))) (shares_of o (db (Server.world s'))) ∧
  ∀ f c, f ∈ files_of o (db (Server.world s)) → c ∈ contents (db (Server.world s)) → c_id c = f_content f →
    c ∈ contents (db (Server.world s')) ∧
    ∀ h, h ∈ row_chunks c →
      ObjectStore.object (base_path S) (fs (Server.world s')) h = ObjectStore.object (base_path S) (fs (Server.world s)) h.
Proof.
  destruct (others_next S G hash_field L o s s' Hr Hs) as [_ (Hf&Hd&[_ Hsh]&Hk)]. exact (conj Hf (conj Hd (conj Hsh Hk))).
Qed.

(** C3. What is uploaded is what is downloaded: when an upload is answered with
    200, the answer names a file, and after whatever other users do and whatever
    the timers collect, a download of that file by its owner answers with exactly
    the bytes that were sent. *)
Theorem upload_then_download (S : Settings) (G : Process) (hash_field : rdb → string → string → option string)
    (L : hash_laws hash_field) (t : Z) (up : HttpRequest) (o : string) (w w' : World)
    (Hst : stored S w) (Hu : uuid_in (auth_user_id_ up) = Some o) (Hfit : fits S (fs w) (body_ up))
    (Ha : content_agrees S (body_ up) w) (Hrun : FileUpload.upload_route S t up w = (Ok (), w'))
    (Hok : HttpResponse.status_code_ (resp w') = 200%Z) :
  ∃ l i, json_dump (JObj l) = Ok (HttpResponse.body_ (resp w')) ∧ jlookup "file_id" l = Some (JStr i) ∧
    ∀ s s' dl, Server.world s = w' → Sessions.sessions_ok hash_field w' → rtc (next_by_others S G o) s s' →
      auth_user_id_ dl = auth_user_id_ up → get_path_param "id" dl = i →
      ∃ w'', DownloadHandler.download_route S dl (Server.world s') = (Ok (), w'') ∧
        HttpResponse.body_ (resp w'') = body_ up.
Proof.
  destruct (upload_answers S t up o w w' Hst Hu Hfit Ha Hrun Hok) as (l&i&Hl&Hi&Hdel). exists l, i. split_and!; [done..|].
  intros s s' dl <- Hsess Hr Hauth Hid.
  assert (stored S (Server.world s)) as Hst'.
  { pose proof (upload_served S t up w Hfit) as H. rewrite Hrun in H. by apply H. }
  destruct (others_next S G hash_field L o s s' Hr (conj Hst' Hsess)) as [[Hst2 _] Hk].
  pose proof (kept_delivers S o i (body_ up) _ _ Hk Hdel) as Hdel2. rewrite <- Hid in Hdel2.
  destruct (download_run S dl (Server.world s') o (body_ up) Hst2) as (w''&Hrun2&Hbody&_); [by rewrite Hauth|done|].
  by exists w''.
Qed.

(** C4. A multipart upload is downloaded whole: once an upload was begun, requests
    for its parts arrive in any order, again or in error, from anyone, while other
    users do what they like, short of removing a part's object or the session.
    When then its completion is answered with 200, every part had been accepted,
    and the file that is named delivers the last accepted version of each part,
    in the order of the part numbers, after whatever other users do next. *)
Theorem multipart_then_download (S : Settings) (G : Process) (part_size : Z) (hash_field : rdb → string → string → option string)
    (L : hash_laws hash_field) (LH : Parts.hash_server hash_field) (v0 v1 v2 v3 : Z) (ini : HttpRequest) (o : string) (w0 w1 : World)
    (Hl : Parts.live w0) (Hi : Parts.intact S hash_field w0) (Hu : uuid_in (auth_user_id_ ini) = Some o)
    (Htext : Parts.plain_texts ini) (Hc : (0 ≤ Multipart.chunk_size_ S part_size ≤ i64_max)%Z)
    (Hrun : Multipart.handle_init S part_size v0 v1 v2 v3 ini w0 = (Ok (), w1))
    (Hok : HttpResponse.status_code_ (resp w1) = 200%Z) :
  ∃ s, json_dump (Parts.init_reply s) = Ok (HttpResponse.body_ (resp w1)) ∧ Multipart.user_id s = auth_user_id_ ini ∧
    ∀ reqs w2 t fin w3, Parts.session_run S part_size hash_field s reqs w1 w2 →
      (∀ cs, Parts.received s reqs = map Some cs → content_agrees S (sconcat cs) w2) →
      auth_user_id_ fin = auth_user_id_ ini → get_path_param "upload_id" fin = Multipart.upload_id s →
      Multipart.handle_complete S t part_size fin w2 = (Ok (), w3) → HttpResponse.status_code_ (resp w3) = 200%Z →
      ∃ cs l i, Parts.received s reqs = map Some cs ∧
        json_dump (JObj l) = Ok (HttpResponse.body_ (resp w3)) ∧ jlookup "file_id" l = Some (JStr i) ∧
        ∀ sv sv' dl, Server.world sv = w3 → rtc (next_by_others S G o) sv sv' →
          auth_user_id_ dl = auth_user_id_ ini → get_path_param "id" dl = i →
          ∃ w4, DownloadHandler.download_route S dl (Server.world sv') = (Ok (), w4) ∧ HttpResponse.body_ (resp w4) = sconcat cs.
Proof.
  destruct (Parts.init_begins S part_size hash_field LH v0 v1 v2 v3 ini w0 w1) as (s&Hrep&Hus&Hp&Hid&Ht&Hidle); [done|done|lia|lia|done..|].
  exists s. split_and!; [done..|]. intros reqs w2 t fin w3 Hsr Hag Hfu Hfid Hfin Hok3.
  assert (Parts.intact S hash_field w1) as Hi1.
  { split; [by eapply stored_idle; [|apply Hi]|]. pose proof (Sessions.init_sess S part_size hash_field L v0 v1 v2 v3 ini w0 (proj2 Hi)) as H. by rewrite Hrun in H. }
  destruct (Parts.session_run_tracks S part_size hash_field LH L s reqs w1 w2 Hsr Hp Hid Hi1 _ Ht) as [Ht2 [Hst2 Hse2]].
  destruct (Parts.complete_answers S part_size hash_field LH t s _ fin w2 w3 o Ht2 Hp Hid Hfid) as (cs&Hcs&l&i&Hl3&Hi3&Hdel);
    [congruence|by rewrite Hus|done|exact Hag|done|done|].
  exists cs, l, i. split_and!; [done..|]. intros sv sv' dl <- Hr Hauth Hdid.
  pose proof (ApiSafety.complete_served S part_size hash_field L t fin w2 Hse2) as Hsv.
  pose proof (Sessions.complete_sess S part_size hash_field L t fin w2 Hse2) as Hse3. rewrite Hfin in Hsv, Hse3. cbn [snd] in *.
  destruct (others_next S G hash_field L o sv sv' Hr) as [[Hst' _] Hk]; [by split; [apply Hsv|]|].
  pose proof (kept_delivers S o i (sconcat cs) _ _ Hk Hdel) as Hdel2. rewrite <- Hdid in Hdel2.
  destruct (download_run S dl (Server.world sv') o (sconcat cs) Hst') as (w4&Hrun4&Hbody&_); [by rewrite Hauth|done|]. by exists w4.
Qed.

(** C5. What is shared is what is downloaded, by whoever has the link: when a share is
    answered with 200, the answer names a token, and after whatever other users do,
    downloads by the link included, the share is there as it was made, revoked only
    if it has expired; whoever then presents the token is refused exactly as the
    share's row says, or is given exactly the bytes of the file. *)
Theorem shared_then_downloaded (S : Settings) (G : Process) (hash_field : rdb → string → string → option string)
    (L : hash_laws hash_field) (time : Z) (draws : nat → nat → Z) (req : HttpRequest) (o : string) (w w' : World)
    (Hst : stored S w) (Hu : uuid_in (auth_user_id_ req) = Some o)
    (Hrun : Shares.handle_create time draws req w = (Ok (), w')) (Hok : HttpResponse.status_code_ (resp w') = 200%Z) :
  ∃ file pw max l token, ShareDelivery.asks req file pw max ∧
    json_dump (JObj l) = Ok (HttpResponse.body_ (resp w')) ∧ jlookup "share_token" l = Some (JStr token) ∧
    ∀ i data s s', uuid_in file = Some i → delivers S o i data w → Server.world s = w' → Sessions.sessions_ok hash_field w' →
      rtc (next_by_others S G o) s s' →
      ∃ r, r ∈ shares (db (Server.world s')) ∧ text_in token = Some (s_token r) ∧
        s_password r = (if sempty pw then None else Some (ObjectStore.sha256 pw)) ∧ s_max r = max ∧
        (s_revoked r = true → ∃ t, s_expires r = Some t ∧ (t < clock (db (Server.world s')))%Z) ∧
        ∀ now dl, get_path_param "token" dl = token → Shares.wants_share_page_redirect dl = false →
          (∀ x, x ∈ shares (db (Server.world s')) → int_min ≤ s_count x < int_max)%Z →
          let count := Shares.is_share_api_download dl && negb (Shares.is_share_api_preview dl) in
          ∃ w2, Shares.handle_download S now dl (Server.world s') = (Ok (), w2) ∧ fs w2 = fs (Server.world s') ∧
            match ShareRules.judge now (Some r) (Shares.share_password dl) count with
            | ShareRules.Refused code => HttpResponse.status_code_ (resp w2) = code ∧ db w2 = db (Server.world s')
            | ShareRules.Granted _ => HttpResponse.body_ (resp w2) = data ∧
                HttpResponse.status_code_ (resp w2) = HttpResponse.status_code_ (resp (Server.world s')) ∧
                db w2 = if count then ShareRules.counted_rows r (db (Server.world s')) else db (Server.world s')
            end.
Proof.
  destruct (ShareDelivery.create_leaves time draws req w w' o Hrun Hok Hu) as (file&pw&max&l&token&r0&Hasks&Hl&Htok&Hne&Hr0&Hin0&Hf&Hc&Hfs).
  exists file, pw, max, l, token. split_and!; [done..|]. intros i data s s' Hfile Hdel <- Hsess Hr.
  assert (stored S (Server.world s)) as Hst'.
  { pose proof (ApiSafety.share_create_served S time draws req w) as H. rewrite Hrun in H. by apply H. }
  assert (delivers S o i data (Server.world s)) as Hdel'.
  { unfold delivers, files_of. rewrite Hf, Hc, Hfs. exact Hdel. }
  destruct (others_next S G hash_field L o s s' Hr (conj Hst' Hsess)) as [[Hst2 _] Hk].
  pose proof (kept_delivers S o i data _ _ Hk Hdel') as Hdel2. destruct Hk as (_&_&[_ Hsh]&_).
  destruct (ShareDelivery.share_stays o _ _ r0 Hsh Hin0) as (r&Hin&(Er&_&Hrev)). exists r.
  destruct Hr0 as (Hrf&_&Hrt&Hrp&Hrm&_&Hrr).
  assert (s_token r = s_token r0 ∧ s_file r = s_file r0 ∧ s_password r = s_password r0 ∧ s_max r = s_max r0 ∧ s_expires r = s_expires r0)
    as (E1&E2&E3&E4&E5) by (rewrite Er; done).
  split_and!; [by apply list_elem_of_filter in Hin as [_ ?]|congruence..| |].
  - intros Hrev1. destruct Hrev as [Hrev|(t&?&?)]; [congruence|]. exists t. split; [congruence|done].
  - intros now dl Hdl Hred Hcounts. apply (ShareDelivery.shared_run S now o data r (Server.world s') dl); try done.
    + replace (s_file r) with i by congruence. done.
    + rewrite Hdl. congruence.
    + by rewrite Hdl.
Qed.

(** C6. Who registers can log in: when a registration is answered with 200, its answer
    carries the account and a token, and after whatever events, a login with the
    same name is answered with a token of that account when the password's hash is
    the one registered, and with 401 otherwise. Either token is accepted as the
    account's until it expires, unless its payload's encoding has a digit the
    decoder does not know; a plain name never fails for want of a token. *)
Theorem registered_then_admitted (S : Settings) (G : Process) (hash_field : rdb → string → string → option string)
    (L : hash_laws hash_field) (time : Z) (req : HttpRequest) (w w' : World) (Hst : stored S w)
    (Hsess : Sessions.sessions_ok hash_field w) (Hrun : AuthHandler.handle_register S time req w = (Ok (), w'))
    (Hok : HttpResponse.status_code_ (resp w') = 200%Z) :
  let accepted user i issued token := ∀ later r, (i64_min ≤ issued ≤ i64_max)%Z →
    AuthMiddleware.is_whitelisted (path_ r) = false → get_header "Authorization" r = "Bearer " +:+ token →
    Accounts.proves S i user issued later = Ok (Jwt.authenticate (hmac S) (secret S) later r) in
  ∃ user password i name token, AuthHandler.credentials req = Ok (user, password) ∧ text_in user = Some name ∧
    json_dump (Accounts.token_reply token i user) = Ok (HttpResponse.body_ (resp w')) ∧ accepted user i time token ∧
    ∀ s s', Server.world s = w' → rtc (next S G) s s' →
      ∀ now log p, AuthHandler.credentials log = Ok (user, p) → sempty p = false →
        let login := AuthHandler.handle_login S now log (Server.world s') in
        if bool_decide (UserDao.sha256 p = UserDao.sha256 password) then
          (ascii7 i = true → ascii7 name = true → ∃ token body,
            AuthHandler.issue_token S now i name = Ok token ∧ json_dump (Accounts.token_reply token i name) = Ok body) ∧
          ∀ token body, AuthHandler.issue_token S now i name = Ok token → json_dump (Accounts.token_reply token i name) = Ok body →
            accepted name i now token ∧
            ∃ w2, login = (Ok (), w2) ∧ idle (Server.world s') w2 ∧ HttpResponse.body_ (resp w2) = body ∧
              HttpResponse.status_code_ (resp w2) = HttpResponse.status_code_ (resp (Server.world s'))
        else ∃ w2, login = (Ok (), w2) ∧ idle (Server.world s') w2 ∧ HttpResponse.status_code_ (resp w2) = 401%Z.
Proof.
  intros accepted.
  assert (∀ user i issued token, AuthHandler.issue_token S issued i user = Ok token → accepted user i issued token) as Hacc.
  { intros user i issued token Ht later r. intros. by eapply Accounts.issued_proves. }
  destruct (Accounts.register_answers S time req w w' Hrun Hok) as (user&password&i&name&token&Hc&Hne&Hn&Hr&Ht&Hd).
  exists user, password, i, name, token. split_and!; [done..|by apply Hacc|].
  intros s s' <- Hsteps now log p Hlog Hp login.
  assert (server_ok S hash_field s) as Hs.
  { pose proof (ApiSafety.register_served S "" time req w Hst) as [Hs _].
    pose proof (proj1 (auth_sess S hash_field time req) w Hsess) as Hss. by rewrite Hrun in Hs, Hss. }
  destruct (Accounts.accounts_stay S G hash_field L i name password s s' Hsteps Hs Hr) as [[[Hdb _] _] Hr'].
  pose proof (Accounts.login_answers S now log (Server.world s') user p i name password Hdb Hr' Hn Hlog Hne Hp) as Ha.
  case_bool_decide; [|exact Ha]. split; [intros; by apply Accounts.plain_answer|]. intros token2 body Ht2 Hb.
  split; [by apply Hacc|exact (Ha token2 body Ht2 Hb)].
Qed.

End theorems.

(** * On the sample deployment *)

Import Sample.

(** Ann's upload of six bytes, in chunks of four. *)
Definition up : HttpRequest := set_auth_user "u0" "ann" (append_body "hello!" empty).
Definition ran1 : result () * World := FileUpload.upload_route settings 0 up world0.
Definition world1 : World := snd ran1.

Lemma fits0 : fits settings (fs world0) "hello!".
Proof.
  split; [cbn; lia|]. split; [done|]. intros c d Hc [Hd|(h&Hh&Hobj)].
  - change (ObjectStore.chunks_of (chunk_size settings) "hello!") with ["hell"; "o!"] in *.
    rewrite !elem_of_cons, elem_of_nil in *.
    destruct Hc as [-> |[-> |[]]], Hd as [-> |[-> |[]]]; intros Heq; try done; by vm_compute in Heq.
  - by rewrite (store0_empty h Hh : ObjectStore.object (base_path settings) (fs world0) h = None) in Hobj.
Qed.

Lemma stored1 : stored settings world1.
Proof. apply (upload_served settings 0 up world0); [apply fits0|apply stored0]. Qed.

Lemma row1 : ∃ r, r ∈ contents (db world1).
Proof.
  assert (is_Some (head (contents (db world1)))) as [r Hr].
  { apply (bool_decide_unpack _). vm_compute. exact I. }
  exists r. by apply head_Some_elem_of.
Defined.

Lemma purge_content_exact_witness :
  ∃ r, r ∈ contents (db world1) ∧
    if existsb (ContentDao.refers (c_id r)) (files (db world1))
    then ContentGc.purge_content settings (ContentDao.row_to_content r) world1 = (Ok ContentGc.none, world1) else True.
Proof.
  destruct row1 as [r Hr]. exists r. split; [exact Hr|].
  pose proof (purge_content_exact settings world1 r stored1 Hr) as H. cbv zeta in H. revert H.
  destruct (existsb (ContentDao.refers (c_id r)) (files (db world1))); [intros H; exact H|intros _; exact I].
Defined.

Lemma collect_orphans_complete_witness :
  ∃ st w', ContentGc.collect_orphans settings 200 world1 = (Ok st, w') ∧ stored settings w' ∧
    filter live_file (files (db w')) = filter live_file (files (db world1)).
Proof.
  destruct (collect_orphans_complete settings world1 200 stored1 ltac:(lia)) as (st&w'&H1&H2&_&H3&_).
  exists st, w'. exact (conj H1 (conj H2 H3)).
Defined.

(** Ann shares her file, with a password and for one download. *)
Definition shared : Schema.Db :=
  let f := match files (db world1) with f :: _ => f_id f | [] => "" end in
  Constraints.run_ops
    [Constraints.InsertShare (ShareDao.mk "" f "u0" "tok" (ObjectStore.sha256 "pw") "" 1 0 "" false)] (db world1).

Lemma resolve_share_exact_witness :
  (∃ r w', Shares.resolve_share 0 "tok" "pw" true (world_of shared) = (Ok (Some r), w') ∧ ShareDao.download_count r = 1%Z) ∧
  ∃ w', Shares.resolve_share 0 "tok" "" true (world_of shared) = (Ok None, w') ∧ HttpResponse.status_code_ (resp w') = 401%Z.
Proof.
  assert (∀ r, r ∈ shares (db (world_of shared)) → int_min ≤ s_count r < int_max)%Z as Hcounts.
  { apply Forall_forall. apply (bool_decide_unpack _). vm_compute. exact I. }
  assert (db_ok (db (world_of shared))) as Hok by (apply Constraints.run_ops_keeps; apply stored1).
  split.
  - destruct (ShareRules.resolve_share_exact 0 (world_of shared) "tok" "tok" "pw" true Hok eq_refl eq_refl Hcounts)
      as (res&w'&Hrun&_&H). revert H. destruct (ShareRules.judge _ _ _ _) as [code|r] eqn:Ej.
    { exfalso. revert Ej. vm_compute. discriminate. }
    intros (_&_&_&->&_). exists (ShareDao.row_to_share (Schema.count_row r)), w'. split; [exact Hrun|].
    revert Ej. vm_compute. intros [= <-]. reflexivity.
  - destruct (ShareRules.resolve_share_exact 0 (world_of shared) "tok" "tok" "" true Hok eq_refl eq_refl Hcounts)
      as (res&w'&Hrun&_&H). revert H. destruct (ShareRules.judge _ _ _ _) as [code|r] eqn:Ej.
    2:{ exfalso. revert Ej. vm_compute. discriminate. }
    intros (->&Hs&_). exists w'. split; [exact Hrun|]. rewrite Hs. revert Ej. vm_compute. by intros [= <-].
Defined.

(** Ann makes a link to her file, for one download; the hour passes; somebody uses it. *)
Definition share_req : HttpRequest := set_auth_user "u0" "ann" (append_body
  (bin_dump (JObj [("expires_in_hours", JInt 24); ("file_id", JStr (match files (db world1) with f :: _ => f_id f | [] => "" end));
    ("max_downloads", JInt 1); ("password", JStr "pw")])) empty).
Definition ran_share : result () * World := Shares.handle_create 0 (λ _ i, Z.of_nat i) share_req world1.
Definition linked : World := snd ran_share.
Definition linked_later : Server.Server := snd (Pipeline.every_hour settings (server_of linked)).
Definition by_link (token password : string) : HttpRequest :=
  set_path_param "token" token (add_header "X-Share-Download" "1" (add_header "X-Share-Password" password empty)).

Lemma world1_delivers : delivers settings "u0" "u3" "hello!" world1.
Proof.
  assert (ran1 = (Ok (), world1)) as Hrun.
  { assert (fst ran1 = Ok ()) as <- by (vm_compute; reflexivity). apply surjective_pairing. }
  destruct (upload_answers settings 0 up "u0" world0 world1 stored0 eq_refl fits0) as (l&i&_&_&Hdel); [|exact Hrun|vm_compute; reflexivity|].
  { intros c cs. rewrite contents0. intros []%elem_of_nil. }
  assert (∀ f, f ∈ files (db world1) → f_id f = "u3") as Hids.
  { apply Forall_forall. apply (bool_decide_unpack _). vm_compute. exact I. }
  pose proof Hdel as (f&_&_&[_ Hin]%list_elem_of_filter&Hi&_). rewrite (Hids f Hin) in Hi. rewrite Hi. exact Hdel.
Qed.

Lemma linked_sessions : Sessions.sessions_ok kv_field linked.
Proof.
  assert (match redis linked with Some r => bool_decide (snd (RedisClient.server r : kv) = ∅) | None => false end = true) as Hr
    by (vm_compute; reflexivity).
  unfold Sessions.sessions_ok, Sessions.server_ok. intros r Heq k v Hv. rewrite Heq in Hr. apply bool_decide_eq_true in Hr.
  unfold kv_field in Hv. rewrite Hr, lookup_empty in Hv. discriminate.
Qed.

Lemma asked_file file pw max : ShareDelivery.asks share_req file pw max → file = "u3".
Proof.
  intros (j&fj&Hj&Hfj&Hfile&_).
  assert (json_parse (body_ share_req) = Ok (JObj [("expires_in_hours", JInt 24); ("file_id", JStr "u3"); ("max_downloads", JInt 1);
    ("password", JStr "pw")])) as Hbody by (vm_compute; reflexivity).
  rewrite Hbody in Hj. injection Hj as <-. vm_compute in Hfj. injection Hfj as <-. by injection Hfile.
Qed.

Lemma shared_then_downloaded_witness : ∃ token w,
  Shares.handle_download settings 100 (by_link token "pw") (Server.world linked_later) = (Ok (), w) ∧
  HttpResponse.body_ (resp w) = "hello!".
Proof.
  assert (ran_share = (Ok (), linked)) as Hrun.
  { assert (fst ran_share = Ok ()) as <- by (vm_compute; reflexivity). apply surjective_pairing. }
  destruct (shared_then_downloaded settings process kv_field kv_laws 0 (λ _ i, Z.of_nat i) share_req "u0" world1 linked
    stored1 eq_refl Hrun) as (file&pw&max&l&token&Hasks&_&_&Hgo); [vm_compute; reflexivity|].
  exists token.
  assert (uuid_in file = Some "u3") as Hfile by (rewrite (asked_file file pw max Hasks); reflexivity).
  destruct (Hgo "u3" "hello!" (server_of linked) linked_later Hfile world1_delivers eq_refl linked_sessions) as (r&Hr&_&_&_&_&Hdl).
  { apply rtc_once. exists Hour. split; [discriminate|]. exact (step_run settings process Hour (server_of linked) I). }
  destruct (Hdl 100%Z (by_link token "pw")) as (w&Hw&_&Hv).
  - unfold get_path_param, by_link. cbn [path_params_ set_path_param with_path_params]. rewrite lookup_insert_eq. reflexivity.
  - reflexivity.
  - apply Forall_forall. apply (bool_decide_unpack _). vm_compute. exact I.
  - exists w. split; [exact Hw|]. revert Hv.
    assert (∀ x, x ∈ shares (db (Server.world linked_later)) →
      match ShareRules.judge 100 (Some x) "pw" true with ShareRules.Granted _ => true | _ => false end = true) as Hjudge.
    { apply Forall_forall. apply (bool_decide_unpack _). vm_compute. exact I. }
    specialize (Hjudge r Hr). change (Shares.share_password (by_link token "pw")) with "pw".
    change (Shares.is_share_api_download (by_link token "pw") && negb (Shares.is_share_api_preview (by_link token "pw"))) with true.
    destruct (ShareRules.judge 100 (Some r) "pw" true); [discriminate|]. intros [Hb _]. exact Hb.
Defined.

(** Carol registers, and logs in after the hourly timer. *)
Definition carol : HttpRequest := append_body (bin_dump (JObj [("password", JStr "pw3"); ("username", JStr "carol")])) empty.
Definition ran_carol : result () * World := AuthHandler.handle_register settings 100 carol world0.
Definition carols : World := snd ran_carol.
Definition carols_later : Server.Server := snd (Pipeline.every_hour settings (server_of carols)).
Definition bearer (token : string) : HttpRequest :=
  add_header "Authorization" ("Bearer " +:+ token) (set_path "/api/v1/files" empty).

Lemma carols_id token user i : json_dump (Accounts.token_reply token i user) = Ok (HttpResponse.body_ (resp carols)) → i = "u2".
Proof.
  assert (∀ t, t = Ok (HttpResponse.body_ (resp carols)) →
    match (s ← t; Ok (bin_parse s)) with Ok (Some (JObj [_; (_, JStr x); _])) => x = "u2" | _ => False end) as Hb.
  { intros t ->. vm_compute. reflexivity. }
  intros Hd%Hb. change (mbind _ _) with (Ok (bin_parse (bin_dump (Accounts.token_reply token i user)))) in Hd.
  rewrite bin_parse_dump in Hd. exact Hd.
Qed.

Lemma registered_then_admitted_witness : ∃ i token w,
  AuthHandler.handle_login settings 200 carol (Server.world carols_later) = (Ok (), w) ∧
  Jwt.authenticate (hmac settings) (secret settings) 300 (bearer token) = Jwt.mk_auth true i "carol" "".
Proof.
  assert (ran_carol = (Ok (), carols)) as Hrun.
  { assert (fst ran_carol = Ok ()) as <- by (vm_compute; reflexivity). apply surjective_pairing. }
  destruct (registered_then_admitted settings process kv_field kv_laws 100 carol world0 carols stored0 (sessions0 accounts) Hrun)
    as (user&password&i&name&token&Hc&Hn&Hbody&_&Hgo); [vm_compute; reflexivity|].
  assert (AuthHandler.credentials carol = Ok ("carol", "pw3")) as Hcarol by (vm_compute; reflexivity).
  rewrite Hcarol in Hc. injection Hc as <- <-. injection Hn as <-. pose proof (carols_id _ _ _ Hbody) as ->.
  assert (rtc (next settings process) (server_of carols) carols_later) as Hr.
  { apply rtc_once. exists Hour. exact (step_run settings process Hour (server_of carols) I). }
  destruct (Hgo (server_of carols) carols_later eq_refl Hr 200%Z carol "pw3" Hcarol eq_refl) as [Hplain Hgo2].
  destruct (Hplain eq_refl eq_refl) as (token2&body&Ht&Hb). destruct (Hgo2 token2 body Ht Hb) as [Hacc (w&Hw&_)].
  exists "u2", token2, w. split; [exact Hw|].
  specialize (Hacc 300%Z (bearer token2) ltac:(split; discriminate) eq_refl eq_refl).
  assert (Accounts.proves settings "u2" "carol" 200 300 = Ok (Jwt.mk_auth true "u2" "carol" "")) as Hp by (vm_compute; reflexivity).
  rewrite Hp in Hacc. injection Hacc as Hacc. symmetry. exact Hacc.
Defined.

Lemma reachable_deliverable_witness :
  let s := snd (Pipeline.every_5_seconds (server_of world0)) in db_ok (db (Server.world s)).
Proof.
  apply (reachable_deliverable settings process kv_field kv_laws (server_of world0)).
  - split; [apply accounts_ok|]. split; [apply contents0|]. split; [by exists "data"|apply sessions0].
  - apply rtc_once. exists FiveSeconds. exact (step_run settings process FiveSeconds (server_of world0) I).
Defined.

Lemma users_isolated_witness :
  let s := server_of world0 in files_of "u0" (db (Server.world (snd (Pipeline.every_hour settings s)))) = files_of "u0" (db (Server.world s)).
Proof.
  apply (users_isolated settings process kv_field kv_laws "u0" (server_of world0)).
  - split; [apply stored0|apply sessions0].
  - apply rtc_once. exists Hour. split; [done|]. exact (step_run settings process Hour (server_of world0) I).
Defined.

Lemma upload_then_download_witness :
  ∃ i w, DownloadHandler.download_route settings (set_path_param "id" i (set_auth_user "u0" "ann" empty))
      (Server.world (snd (Pipeline.every_hour settings (server_of world1)))) = (Ok (), w) ∧
    HttpResponse.body_ (resp w) = "hello!".
Proof.
  assert (fst ran1 = Ok ()) as Hok by (vm_compute; reflexivity).
  assert (ran1 = (Ok (), world1)) as Hrun by (rewrite <- Hok; apply surjective_pairing).
  destruct (upload_then_download settings process kv_field kv_laws 0 up "u0" world0 world1 stored0 eq_refl fits0) as (l&i&_&_&Hdl).
  - intros c cs. rewrite contents0. intros []%elem_of_nil.
  - exact Hrun.
  - vm_compute. reflexivity.
  - exists i. eapply (Hdl (server_of world1)); [reflexivity| | |reflexivity|].
    + apply (upload_sess settings kv_field kv_laws 0 up world0), sessions0.
    + apply rtc_once. exists Hour. split; [done|]. exact (step_run settings process Hour (server_of world1) I).
    + unfold get_path_param. cbn [path_params_ set_path_param with_path_params set_auth_user empty]. by rewrite lookup_insert_eq.
Defined.

(** Ann's multipart upload of the same bytes: the second part first, then the
    hourly collection, then the first part, twice. *)
Definition ann (r : HttpRequest) : HttpRequest := set_auth_user "u0" "ann" r.
Definition ini : HttpRequest := ann (append_body
  (bin_dump (JObj [("file_name", JStr "parts.txt"); ("total_size", JInt 6)])) empty).
Definition about (r : HttpRequest) : HttpRequest := ann (set_path_param "upload_id" "0-0-0-0" r).
Definition part (n data : string) : HttpRequest := about (set_path_param "part_num" n (append_body data empty)).
Definition put_part (n data : string) (w : World) : World := snd (Multipart.handle_upload_part settings 0 (part n data) w).
Definition begun : World := snd (Multipart.handle_init settings 0 0 0 0 0 ini world0).
Definition half : World := put_part "1" "o!" begun.
Definition swept : World := Server.world (snd (Pipeline.every_hour settings (server_of half))).
Definition whole : World := put_part "0" "hell" (put_part "0" "jell" swept).
Definition completed : result () * World := Multipart.handle_complete settings 0 0 (about empty) whole.

Lemma hour_ok w : server_ok settings kv_field (server_of w) →
  server_ok settings kv_field (snd (Pipeline.every_hour settings (server_of w))).
Proof.
  intros Hw. apply (others_next settings process kv_field kv_laws "" (server_of w)); [|done].
  apply rtc_once. exists Hour. split; [done|]. exact (step_run settings process Hour (server_of w) I).
Qed.

Lemma begun_intact : Parts.intact settings kv_field begun.
Proof.
  split; [apply (ApiSafety.init_served settings 0 "u0" 0 0 0 0 ini world0), stored0|].
  apply (Sessions.init_sess settings 0 kv_field kv_laws 0 0 0 0 ini world0), sessions0.
Qed.

Lemma put_part_intact n data w : Parts.intact settings kv_field w → Parts.intact settings kv_field (put_part n data w).
Proof.
  intros [Hst Hse]. split.
  - exact (proj1 (ApiSafety.upload_part_served settings 0 "u0" (part n data) eq_refl w Hst)).
  - exact (Sessions.upload_part_sess settings 0 kv_field kv_laws (part n data) w Hse).
Qed.

#[local] Existing Instance Fs.node_eq_dec.

Lemma swept_undisturbed s : Parts.undisturbed settings kv_field s half swept.
Proof.
  assert (fs swept = fs half) as Hf by (apply (bool_decide_unpack _); vm_compute; exact I).
  assert (match redis swept, redis half with
    | Some r, Some r' => RedisClient.ctx_ r && bool_decide (snd (RedisClient.server r : kv) = snd (RedisClient.server r' : kv))
    | _, _ => false end = true) as Hr by (vm_compute; reflexivity).
  unfold Parts.undisturbed, Parts.live, Parts.field.
  destruct (redis swept) as [r|]; [|done]. destruct (redis half) as [r'|]; [|done]. apply andb_true_iff in Hr as [Hc Hr%bool_decide_eq_true].
  split_and!; [apply hour_ok, put_part_intact, begun_intact| | |].
  - exists r. split; [reflexivity|]. split; [exact Hc|reflexivity].
  - intros f. change (snd (RedisClient.server r : kv) !! (Multipart.session_key (Multipart.upload_id s), f) = snd (RedisClient.server r' : kv) !! (Multipart.session_key (Multipart.upload_id s), f)).
    rewrite Hr. reflexivity.
  - intros t l h _ _ _. rewrite Hf. reflexivity.
Qed.

Lemma part_run_here n data w : fst (Multipart.handle_upload_part settings 0 (part n data) w) = Ok () →
  Multipart.handle_upload_part settings 0 (part n data) w = (Ok (), put_part n data w).
Proof. intros <-. apply surjective_pairing. Qed.

Lemma part_fits_here data w : ObjectStore.object "data" (fs w) (ObjectStore.sha256 data) = None → Parts.part_fits settings (fs w) data.
Proof. intros Hn. split; [done|]. intros x Hx. change (base_path settings) with "data" in Hx. congruence. Qed.

Lemma multipart_run s : Multipart.upload_id s = "0-0-0-0" →
  Parts.session_run settings 0 kv_field s [part "1" "o!"; part "0" "jell"; part "0" "hell"] begun whole.
Proof.
  intros Hid. eapply Parts.run_part; [by rewrite Hid|apply part_fits_here; vm_compute; reflexivity|apply part_run_here; vm_compute; reflexivity|].
  eapply Parts.run_other; [apply swept_undisturbed|].
  do 2 (eapply Parts.run_part; [by rewrite Hid|apply part_fits_here; vm_compute; reflexivity|apply part_run_here; vm_compute; reflexivity|]).
  apply Parts.run_done.
Qed.

Lemma bin_dump_inj (a b : json) : json_dump a = json_dump b → a = b.
Proof.
  intros H. change (Ok (bin_dump a) = Ok (bin_dump b)) in H. injection H as H. apply (f_equal bin_parse) in H.
  rewrite !bin_parse_dump in H. by injection H.
Qed.

Lemma ini_plain : Parts.plain_texts ini.
Proof.
  split; [reflexivity|]. intros j x. unfold ini, ann. cbn [body_ set_auth_user append_body empty].
  rewrite sapp_nil_l. cbn. rewrite bin_parse_dump. intros [= <-]. cbn. rewrite !elem_of_cons, elem_of_nil.
  by intros [-> |[-> |[-> |[]]]].
Qed.

Lemma ini_runs : Multipart.handle_init settings 0 0 0 0 0 ini world0 = (Ok (), begun).
Proof.
  assert (fst (Multipart.handle_init settings 0 0 0 0 0 ini world0) = Ok ()) as <- by (vm_compute; reflexivity).
  apply surjective_pairing.
Qed.

Lemma begun_reply s : json_dump (Parts.init_reply s) = Ok (HttpResponse.body_ (resp begun)) →
  Parts.init_reply s = JObj [("chunk_count", JInt 2); ("chunk_size", JInt 4); ("upload_id", JStr "0-0-0-0")].
Proof. intros Hrep. apply bin_dump_inj. rewrite Hrep. vm_compute. reflexivity. Qed.

Lemma multipart_then_download_witness :
  ∃ i w, DownloadHandler.download_route settings (set_path_param "id" i (ann empty))
      (Server.world (snd (Pipeline.every_hour settings (server_of (snd completed))))) = (Ok (), w) ∧
    HttpResponse.body_ (resp w) = "hello!".
Proof.
  assert (completed = (Ok (), snd completed)) as Hcompl.
  { assert (fst completed = Ok ()) as <- by (vm_compute; reflexivity). apply surjective_pairing. }
  destruct (multipart_then_download settings process 0 kv_field kv_laws kv_hashes 0 0 0 0 ini "u0" world0 begun)
    as (s&Hrep&Hu&Hdl).
  - exists redis0. split; [reflexivity|split; reflexivity].
  - split; [apply stored0|apply sessions0].
  - reflexivity.
  - apply ini_plain.
  - split; vm_compute; discriminate.
  - apply ini_runs.
  - vm_compute. reflexivity.
  - pose proof (begun_reply s Hrep) as Hs.
    pose proof (multipart_run s) as Hsr. destruct s as [id u fo n m t c k fl hs]. cbn in Hs, Hu. injection Hs as -> -> ->. subst u.
    destruct (Hdl _ whole 0%Z (about empty) (snd completed) (Hsr eq_refl)) as (cs&l&i&Hcs&_&_&Hfin);
      [|reflexivity|reflexivity|exact Hcompl|vm_compute; reflexivity|].
    + intros cs _ c cs'. assert (contents (db whole) = []) as -> by (vm_compute; reflexivity). intros []%elem_of_nil.
    + exists i. assert (sconcat cs = "hello!") as <-.
      { assert (map Some cs = map Some ["hell"; "o!"]) as Heq by (rewrite <- Hcs; vm_compute; reflexivity).
        apply (inj (fmap (M := list) Some)) in Heq. rewrite Heq. reflexivity. }
      apply (Hfin (server_of (snd completed))); [reflexivity| |reflexivity|].
      * apply rtc_once. exists Hour. split; [done|]. exact (step_run settings process Hour (server_of (snd completed)) I).
      * unfold get_path_param. cbn [path_params_ set_path_param with_path_params]. by rewrite lookup_insert_eq.
Defined.

(** The second part of the upload just begun, one beyond its end, and a completion
    that comes too early. *)
Lemma upload_session_refines_witness : ∃ s w1 w2 w3,
  Multipart.handle_upload_part settings 0 (part "1" "o!") begun = (Ok (), w1) ∧
  Parts.tracks settings kv_field s [None; Some "o!"] w1 ∧
  Multipart.handle_upload_part settings 0 (part "2" "o!") begun = (Ok (), w2) ∧ HttpResponse.status_code_ (resp w2) = 400%Z ∧
  Multipart.handle_complete settings 0 0 (part "" "") begun = (Ok (), w3) ∧ HttpResponse.status_code_ (resp w3) = 400%Z.
Proof.
  destruct (Parts.init_begins settings 0 kv_field kv_hashes 0 0 0 0 ini world0 begun) as (s&Hrep&Hu&Hp&Hid&Ht&_).
  - exists redis0. split; [reflexivity|split; reflexivity].
  - apply ini_plain.
  - vm_compute. discriminate.
  - vm_compute. discriminate.
  - apply ini_runs.
  - vm_compute. reflexivity.
  - pose proof (begun_reply s Hrep) as Hs.
    assert (ObjectStore.sound (base_path settings) (fs begun)) as Hsound by apply begun_intact.
    assert (Parts.part_fits settings (fs begun) "o!") as Hfit by (apply part_fits_here; vm_compute; reflexivity).
    pose proof (λ req Hreq, Parts.upload_session_refines settings 0 kv_field kv_hashes s _ req begun 0 Ht Hp Hid Hreq Hsound) as Hgo.
    clear Hrep Hp Hid Ht. destruct s as [id u fo n m t c k fl hs]. cbn in Hs, Hu. injection Hs as -> -> ->. subst u.
    destruct (proj1 (Hgo (part "1" "o!") eq_refl) Hfit) as (w1&H1&Ht1&_).
    destruct (proj1 (Hgo (part "2" "o!") eq_refl) Hfit) as (w2&H2&_&_&H3).
    destruct (proj2 (proj2 (Hgo (part "" "") eq_refl) eq_refl eq_refl)) as (w3&H4&_&_&_&H5); [by left|].
    eexists _, w1, w2, w3. split; [exact H1|]. split; [exact Ht1|]. split; [exact H2|].
    split; [revert H3; vm_compute; intros [H3 _]; exact H3|]. exact (conj H4 H5).
Defined.

(** A part that another file's content shares belongs to nobody: when Bob deletes
    that file the collector removes the object, although Ann's upload was told
    that the part is there, and completing it fails. *)
Definition bob (r : HttpRequest) : HttpRequest := set_auth_user "u1" "bob" r.
Definition bobs : World := snd (FileUpload.upload_route settings 0 (bob (append_body "o!" empty)) world0).
Definition ann_part : World := put_part "1" "o!" (snd (Multipart.handle_init settings 0 0 0 0 0 ini bobs)).
Definition bob_deleted : World := snd (FileHandler.handle_delete settings (set_path_param "id" "u3" (bob empty)) ann_part).

Lemma part_collected :
  HttpResponse.status_code_ (resp ann_part) = 200%Z ∧
  ObjectStore.object (base_path settings) (fs ann_part) (ObjectStore.sha256 "o!") = Some "o!" ∧
  ObjectStore.object (base_path settings) (fs bob_deleted) (ObjectStore.sha256 "o!") = None ∧
  HttpResponse.status_code_ (resp (snd (Multipart.handle_complete settings 0 0 (about empty) (put_part "0" "hell" bob_deleted)))) = 500%Z.
Proof. repeat split; vm_compute; reflexivity. Qed.

(** A request without a token. *)
Definition ambient : Ambient := mk_ambient 100 100000 (λ _ _, 0%Z) (0, 0, 0, 0)%Z "10.0.0.1".
Definition bare : HttpRequest := set_path "/api/v1/files" (set_method GET empty).
Definition ran2 : result () * Server.Server := Pipeline.on_request settings process ambient 1 bare (server_of world0).

Lemma one_response_witness : Server.request_count (snd ran2) !! 1 = Some 1%Z.
Proof.
  assert (ran2 = (Ok (), snd ran2)) as Hrun.
  { assert (fst ran2 = Ok ()) as <- by (vm_compute; reflexivity). apply surjective_pairing. }
  destruct (one_response settings process ambient 1 bare (server_of world0) (snd ran2)) as (_&_&H&_); [done| |exact Hrun|exact H].
  split; [|by intros ?%elem_of_nil]. intros u Hu. change ((∅ : gmap string nat) !! u = Some 1) in Hu. by rewrite lookup_empty in Hu.
Defined.

Lemma unauthenticated_refused_witness : ∃ (ok : bool) s', ran2 = (Ok (), s') ∧
  HttpResponse.status_code_ (resp (Server.world s')) = (if ok then 401 else 429)%Z.
Proof.
  destruct (unauthenticated_refused settings process ambient 1 bare (server_of world0)) as (ok&s'&_&H1&H2&_);
    [by vm_compute|by vm_compute|by vm_compute|]. exists ok, s'. exact (conj H1 H2).
Defined.

(** Two requests on connection 1, cut in the middle of the first, and one on connection 2. *)
Definition health : HttpParser.wire := HttpParser.Wire "GET" "/health" None "1" "1" [("Host", "h")] "".
Definition login : HttpParser.wire :=
  HttpParser.Wire "POST" "/api/v1/login" None "1" "1" [("Content-Length", "2"); ("Connection", "close")] "{}".
Definition wires : list HttpParser.wire := [health; login].
Definition bytes : string := sconcat (map HttpParser.render wires).
Definition reads : list Connections.event :=
  [Connections.Connect 2; Connections.Arrive (λ _, ambient) 1 (stake 9 bytes); Connections.HourTimer;
   Connections.Arrive (λ _, ambient) 2 (HttpParser.render login); Connections.MetricsTimer;
   Connections.Arrive (λ _, ambient) 1 (sdrop 9 bytes); Connections.Disconnect 2].
Definition service0 : Connections.Service := Connections.mk (server_of world0) ∅ ∅.
Definition ran3 : result () * Connections.Service := Connections.run_all settings process (Connections.Connect 1 :: reads) service0.

Lemma unknown0 conn : WsSession.unknown conn (ws (Server.world (server_of world0))).
Proof.
  split; [|by intros ?%elem_of_nil]. intros u Hu. change ((∅ : gmap string nat) !! u = Some conn) in Hu. by rewrite lookup_empty in Hu.
Qed.


Lemma bytes_refine_requests_witness :
  Connections.parsing (snd (Connections.run_event settings process (Connections.Connect 1) service0)).
Proof.
  apply (Connections.bytes_refine_requests settings process service0).
  - intros c p. change ((∅ : gmap nat HttpParser.HttpParser) !! c = Some p → HttpParser.parser_inv p ∧ HttpParser.complete_ p = false).
    rewrite lookup_empty. discriminate.
  - apply rtc_once. exact (Connections.step_event settings process service0 (Connections.Connect 1) _ I eq_refl).
Defined.

(** The same two requests on a connection whose socket takes one byte at a time, read
    in two pieces, with the hourly timer in between. *)
Definition wire_step (e : TcpConnection.event (App := Wire.Site)) (c : TcpConnection.TcpConnection Wire.Site) :
    result () * TcpConnection.TcpConnection Wire.Site :=
  TcpConnection.run_event TcpConnection.slow (Wire.callbacks settings process 1 (λ _ _, ambient)) e c.
Definition got (s : string) : TcpConnection.event (App := Wire.Site) :=
  TcpConnection.Ready EPOLLIN (TcpConnection.Got (String.list_ascii_of_string s)).
Definition tcp0 : TcpConnection.TcpConnection Wire.Site := Wire.accepted 1 7 EpollPoller.make service0.
Definition tcp1 : TcpConnection.TcpConnection Wire.Site := snd (wire_step TcpConnection.NextTask tcp0).
Definition tcp2 : TcpConnection.TcpConnection Wire.Site := snd (wire_step (got (stake 9 bytes)) tcp1).
Definition hour_later : Connections.Service :=
  snd (Connections.run_event settings process Connections.HourTimer (Wire.service (TcpConnection.app tcp2))).
Definition tcp3 : TcpConnection.TcpConnection Wire.Site :=
  snd (wire_step (TcpConnection.OtherClients (Wire.with_service hour_later (TcpConnection.app tcp2))) tcp2).
Definition tcp4 : TcpConnection.TcpConnection Wire.Site := snd (wire_step (got (sdrop 9 bytes)) tcp3).

Lemma ran_ok {S} (m : M S ()) s : fst (m s) = Ok () → m s = (Ok (), snd (m s)).
Proof. intros <-. apply surjective_pairing. Qed.

Lemma tcp4_reached : rtc (Wire.step settings process 1 (λ _ _, ambient) TcpConnection.slow) tcp0 tcp4.
Proof.
  assert (∀ e c, TcpConnection.event_ok c e → Wire.allowed settings process 1 c e → fst (wire_step e c) = Ok () →
    Wire.step settings process 1 (λ _ _, ambient) TcpConnection.slow c (snd (wire_step e c))) as Hstep.
  { intros e c H1 H2 H3. apply (Wire.step_event _ _ _ _ _ _ e); [done|done|]. by apply ran_ok. }
  apply rtc_l with tcp1; [apply (Hstep TcpConnection.NextTask tcp0); [exact I|exact I|vm_compute; reflexivity]|].
  apply rtc_l with tcp2; [apply (Hstep (got (stake 9 bytes)) tcp1); [vm_compute; discriminate|exact I|vm_compute; reflexivity]|].
  apply rtc_l with tcp3; [|apply rtc_once, (Hstep (got (sdrop 9 bytes)) tcp3); [vm_compute; discriminate|exact I|vm_compute; reflexivity]].
  apply (Hstep (TcpConnection.OtherClients (Wire.with_service hour_later (TcpConnection.app tcp2))) tcp2); [exact I| |done].
  exists Connections.HourTimer, hour_later. split; [exact I|]. split; [|reflexivity].
  assert (fst (Connections.run_event settings process Connections.HourTimer (Wire.service (TcpConnection.app tcp2))) = Ok ()) as H
    by (vm_compute; reflexivity).
  unfold hour_later. exact (ran_ok _ _ H).
Qed.

Lemma answers_on_the_wire_witness : ∃ r1 r2 c', rtc (λ c c', c' = snd (TcpConnection.handle_write TcpConnection.slow
    (Wire.callbacks settings process 1 (λ _ _, ambient)) c)) tcp4 c' ∧
  TcpConnection.wire c' = Wire.rendered (Connections.answers 1 0 (map HttpParser.expected wires) [r1; r2]).
Proof.
  destruct (Wire.answers_on_the_wire settings process 1 (λ _ _, ambient) TcpConnection.slow 1 7 EpollPoller.make service0 tcp4
    (Ok ()) HttpParser.init (map HttpParser.expected wires)) as (l&Hl&_&H);
    [vm_compute; done|reflexivity|apply unknown0|exact tcp4_reached|vm_compute; reflexivity|repeat constructor|vm_compute; discriminate|].
  assert (length l = 2) as Hlen by (rewrite <- (Forall2_length _ _ _ Hl); reflexivity).
  destruct l as [|r1 [|r2 [|]]]; [discriminate|discriminate| |discriminate].
  destruct H as [_ H]; [vm_compute; reflexivity|]. destruct H as (c'&Hc&Hw); [by intros n; exists 0|]. exists r1, r2, c'. exact (conj Hc Hw).
Defined.

(** The other way round: the answer that says [Connection: close] is still being written
    when the request behind it replaces the callback that would have closed. *)
Definition swapped : TcpConnection.TcpConnection Wire.Site :=
  snd (wire_step (got (sconcat (map HttpParser.render [login; health]))) tcp1).
Fixpoint flush (n : nat) (c : TcpConnection.TcpConnection Wire.Site) : TcpConnection.TcpConnection Wire.Site :=
  match n with O => c | S n => flush n (snd (wire_step (TcpConnection.Ready EPOLLOUT TcpConnection.ReadAgain) c)) end.

Lemma close_forgotten :
  let c := flush (length (Buffer.data (TcpConnection.output_buffer_ swapped))) swapped in
  TcpConnection.state_ c = TcpConnection.kConnected ∧ Buffer.data (TcpConnection.output_buffer_ c) = [] ∧
  is_Some (sfind "Connection: close" (String.string_of_list_ascii (TcpConnection.wire c))).
Proof. split; [vm_compute; reflexivity|]. split; [vm_compute; reflexivity|]. vm_compute. eexists. reflexivity. Qed.

(** Ann and Bob upload at the same time: Bob's data is Ann's second chunk. *)
Definition ann_up : Overlap.Upload := Overlap.mk "hello!" "a.txt" "" "u0" "".
Definition bob_up : Overlap.Upload := Overlap.mk "o!" "b.txt" "" "u1" "".
Definition adv (k : nat) (j : Overlap.Job) (w : World) : Overlap.Job * World :=
  match Overlap.advance settings k j w with (Ok j', w') => (j', w') | (Throw _, w') => (j, w') end.

(** The jobs, whose turn it is, and how much it may write. *)
Definition turn (t : nat * nat) (s : World * list Overlap.Job) : World * list Overlap.Job :=
  match snd s !! fst t with Some j => let '(j', w') := adv (snd t) j (fst s) in (w', <[fst t := j']> (snd s)) | None => s end.
Definition turns (l : list (nat * nat)) (s : World * list Overlap.Job) : World * list Overlap.Job := foldl (λ s t, turn t s) s l.
Definition both : World * list Overlap.Job := (world0, [Overlap.begin settings ann_up; Overlap.begin settings bob_up]).

(** Ann writes and closes her first chunk, and both find the second missing. Bob
    opens its file and writes a byte; Ann opens it, which empties it; he writes the
    other byte and closes, she writes both. *)
Definition schedule : list (nat * nat) :=
  [(0, 0); (0, 0); (0, 9); (0, 0); (0, 0); (1, 0); (1, 0); (1, 0); (0, 0); (1, 0); (1, 0); (0, 0); (0, 5); (0, 0); (1, 0)]%nat.

(** Every turn finds its chunk fitting. *)
Definition writes_other (c : string) (j : Overlap.Job) : bool :=
  match j with Overlap.Writing _ d _ _ _ => bool_decide (ObjectStore.sha256 d = ObjectStore.sha256 c) && negb (bool_decide (d = c)) | _ => false end.
Definition writes_it (c : string) (j : Overlap.Job) : bool :=
  match j with Overlap.Writing _ d _ _ _ => bool_decide (ObjectStore.sha256 d = ObjectStore.sha256 c) | _ => false end.
Definition fits_here (js : list Overlap.Job) (w : World) (c : string) : bool :=
  negb (existsb (writes_other c) js) &&
  match ObjectStore.object "data" (fs w) (ObjectStore.sha256 c) with Some d => bool_decide (d = c) || existsb (writes_it c) js | None => true end.
Definition job_fits (js : list Overlap.Job) (j : Overlap.Job) (w : World) : bool :=
  match j with Overlap.Check _ (c :: _) _ | Overlap.Create _ c _ _ => fits_here js w c | _ => true end.
Fixpoint turns_ok (l : list (nat * nat)) (s : World * list Overlap.Job) : bool :=
  match l with
  | [] => true
  | t :: l => match snd s !! fst t with Some j => job_fits (snd s) j (fst s) | None => true end && turns_ok l (turn t s)
  end.

Lemma job_fits_ok js j w : job_fits js j w = true → Overlap.job_ok settings js j w.
Proof.
  assert (∀ c, fits_here js w c = true → Overlap.chunk_fits settings js (fs w) c) as Hf.
  { intros c [Hc Hd]%andb_true_iff. apply negb_true_iff in Hc. split; [done|]. split.
    - intros u d o rest hashes Hin Heq. destruct (decide (d = c)) as [|Hne]; [done|]. exfalso. apply not_true_iff_false in Hc. apply Hc, existsb_exists.
      eexists. split; [by apply list_elem_of_In|]. cbn. rewrite bool_decide_eq_true_2, bool_decide_eq_false_2 by done. done.
    - intros Hn d Ho. change (base_path settings) with "data" in Ho. rewrite Ho in Hd. apply orb_true_iff in Hd as [Hd|Hd];
        [by apply bool_decide_eq_true in Hd|]. destruct Hn. apply existsb_exists in Hd as ([| |u e o rest hashes| | | |]&Hin&He); try done.
      exists (Overlap.Writing u e o rest hashes). split; [by apply list_elem_of_In|]. by apply bool_decide_eq_true in He. }
  destruct j as [u [|c l] h|u c l h| | | | |]; cbn; auto.
Qed.

Lemma turns_step l s : turns_ok l s = true → rtc (Overlap.step settings process) s (turns l s).
Proof.
  revert s. induction l as [|[i k] l IH]; intros s; [done|]. cbn [turns_ok]. intros [Hi Hl]%andb_true_iff.
  specialize (IH (turn (i, k) s) Hl). unfold turns in *. cbn [foldl]. cbn [fst] in Hi. destruct (snd s !! i) as [j|] eqn:Ej.
  - eapply rtc_l; [|exact IH]. destruct s as [w js]. unfold turn, adv. cbn [fst snd] in *. rewrite Ej.
    destruct (Overlap.advance_total settings k j w) as (j'&w'&Ha). rewrite Ha. econstructor; [exact Ej|by apply job_fits_ok|exact Ha].
  - assert (turn (i, k) s = s) as Ht by (unfold turn; cbn [fst]; by rewrite Ej). by rewrite Ht in IH |- *.
Qed.

Definition met : World * list Overlap.Job := turns schedule both.

Lemma met_reached : rtc (Overlap.step settings process) (world0, []) met.
Proof.
  eapply rtc_l; [apply (Overlap.step_enter settings process world0 [] ann_up); cbn; lia|].
  eapply rtc_l; [apply (Overlap.step_enter settings process world0 _ bob_up); cbn; lia|].
  apply (turns_step schedule both). vm_compute. reflexivity.
Qed.

Lemma overlapping_uploads_stored_witness :
  ∃ c, c ∈ contents (db (snd (adv 0 (Overlap.Insert bob_up [ObjectStore.sha256 "o!"]) (fst met)))) ∧ c_hash c = ObjectStore.sha256 "o!".
Proof.
  destruct (Overlap.overlapping_uploads_stored settings process kv_field kv_laws world0 (fst met) (snd met) stored0 (sessions0 accounts))
    as (_&_&H); [rewrite <- surjective_pairing; exact met_reached|].
  destruct (Overlap.advance_total settings 0 (Overlap.Insert bob_up [ObjectStore.sha256 "o!"]) (fst met)) as (j&w2&Ha).
  destruct (H 1 0 bob_up [ObjectStore.sha256 "o!"] j w2) as (c&Hc&Hh&_); [vm_compute; reflexivity|exact Ha| |].
  - intros e Hj. assert (fst (adv 0 (Overlap.Insert bob_up [ObjectStore.sha256 "o!"]) (fst met)) = j) as Hfst by (unfold adv; by rewrite Ha).
    rewrite Hj in Hfst. revert Hfst. vm_compute. discriminate.
  - exists c. unfold adv. rewrite Ha. exact (conj Hc Hh).
Defined.

(** Bob finds his chunk missing; Ann's whole upload, and its row, come before he opens
    the file: opening empties it, and until he has written it again her file is short. *)
Definition rewritten : World * list Overlap.Job :=
  turns ((1, 0) :: repeat (0, 9) 12 ++ [(1, 0)])%nat both.

Lemma row_read_while_rewritten :
  map (λ c, (bool_decide (c_hash c = ObjectStore.sha256 "hello!"), fst (ObjectStore.get_chunked "data" (row_chunks c) (fs (fst rewritten)))))
    (contents (db (fst rewritten))) = [(true, Ok "hell")].
Proof. vm_compute. reflexivity. Qed.

(** But a removal in between: Bob's data is in Ann's file, he finds the chunk there,
    Ann deletes her file with the chunk, and Bob's row is left without it. *)
Definition ann_deletes : Overlap.Whole :=
  Overlap.Endpoint ambient HttpRouter.Routes.FilesDelete
    (set_path_param "id" (match files (db world1) with f :: _ => f_id f | [] => "" end) (set_auth_user "u0" "ann" empty)).
Definition raced : Overlap.Job * World :=
  let '(j, w) := adv 0 (Overlap.begin settings bob_up) world1 in
  let '(j, w) := adv 0 j w in adv 0 j (snd (Overlap.run_whole settings process ann_deletes w)).

Lemma delete_under_upload : (match fst raced with Overlap.Lookup _ _ => true | _ => false end) = true ∧
  map (λ c, (bool_decide (c_hash c = ObjectStore.sha256 "o!"), fst (ObjectStore.get_chunked "data" (row_chunks c) (fs (snd raced)))))
    (contents (db (snd raced))) = [(true, Throw (Exn ERuntime ("object not found: " +:+ ObjectStore.sha256 "o!")))].
Proof. split; vm_compute; reflexivity. Qed.

(** Two downloads of a share for one download, both of which read the row before
    either has counted itself, pass the limit. *)
Definition counted_twice : result () * Schema.Db :=
  (_ ← ShareDao.increment_download_count (match shares shared with r :: _ => s_id r | [] => "" end);
   ShareDao.increment_download_count (match shares shared with r :: _ => s_id r | [] => "" end)) shared.

Lemma limit_passed_twice :
  match fst (ShareDao.find_by_token "tok" shared) with Ok (Some r) => Shares.limit_reached r | _ => true end = false ∧
  fst counted_twice = Ok () ∧ map (λ r, (s_max r, s_count r)) (shares (snd counted_twice)) = [(1%Z, 2%Z)].
Proof. split_and!; vm_compute; reflexivity. Qed.

(** A first start, and a second one on what the first left. *)
Definition boot (m : Startup.Machine) : Startup.outcome * Startup.Machine := Startup.main site [] m.
Definition machine1 : Startup.Machine := snd (boot machine).

Definition serving (o : Startup.outcome) : option Startup.Running := match o with Startup.Serving x => Some x | _ => None end.

Lemma booted : (∃ x, fst (boot machine) = Startup.Serving x) ∧ ∃ x, fst (boot machine1) = Startup.Serving x.
Proof.
  split.
  - assert (match fst (boot machine) with Startup.Serving _ => True | _ => False end) as H by (vm_compute; exact I).
    destruct (fst (boot machine)) as [| | | |x]; try done. by exists x.
  - assert (match fst (boot machine1) with Startup.Serving _ => True | _ => False end) as H by (vm_compute; exact I).
    destruct (fst (boot machine1)) as [| | | |x]; try done. by exists x.
Qed.

Lemma restart_exact_witness : ∃ x, fst (boot machine1) = Startup.Serving x ∧
  db (Server.world (Connections.server (Startup.service x))) = Startup.db machine1 ∧ TcpServer.TcpServer.conns (Startup.tcp x) = [].
Proof.
  destruct (boot machine1) as [o m'] eqn:Eb. destruct booted as [_ [x Hx]]. rewrite Eb in Hx. cbn in Hx. subst o.
  exists x. split; [reflexivity|].
  destruct (Startup.restart_exact site [] machine1 m' x Eb) as (c&conn&_&Hd&_&_&_&Ht&_).
  - vm_compute. reflexivity.
  - assert (base_path (Startup.settings x) = "data") as ->.
    { assert ((λ y, base_path (Startup.settings y)) <$> serving (fst (boot machine1)) = Some "data") as H by (vm_compute; reflexivity).
      rewrite Eb in H. by injection H. }
    assert (Startup.fs machine1 = store0) as -> by (vm_compute; reflexivity). apply (ObjectStore.construct_spec "data").
  - exact (conj Hd Ht).
Defined.

Lemma every_run_deliverable_witness : ∃ x y, fst (boot machine) = Startup.Serving x ∧
  rtc (Startup.life kv_field) (Startup.stage_of x) (Startup.stage_of y) ∧
  version (db (Server.world (Connections.server (Startup.service y)))) = Some kSchemaVersion.
Proof.
  destruct booted as [[x Hx] [y Hy]].
  assert (boot machine = (Startup.Serving x, machine1)) as Hbx by (rewrite <- Hx; apply surjective_pairing).
  assert (boot machine1 = (Startup.Serving y, snd (boot machine1))) as Hby by (rewrite <- Hy; apply surjective_pairing).
  assert (∀ m o, (λ z, base_path (Startup.settings z)) <$> serving (fst (boot m)) = Some "data" → fst (boot m) = Startup.Serving o →
    base_path (Startup.settings o) = "data") as Hbase by (intros m o H Ho; rewrite Ho in H; by injection H).
  assert (rtc (Startup.life kv_field) (Startup.stage_of x) (Startup.stage_of y)) as Hlife.
  { apply rtc_once. apply (Startup.life_restart kv_field _ _ _ site [] machine1 (snd (boot machine1)) y); [|exact Hby|].
    - exact (Startup.left_at_once kv_field site [] machine machine1 x Hbx).
    - rewrite (Hbase machine x), (Hbase machine1 y); [reflexivity|vm_compute; reflexivity|exact Hy|vm_compute; reflexivity|exact Hx]. }
  exists x, y. split; [exact Hx|]. split; [exact Hlife|].
  apply (Startup.every_run_deliverable kv_field kv_laws site [] machine machine1 x (Startup.settings y) (Startup.process y)); [|reflexivity|exact Hbx|exact Hlife].
  split; [apply Constraints.empty_ok|]. split; [reflexivity|]. split; [reflexivity|]. intros k. cbn. unfold kv_field. cbn. apply lookup_empty.
Defined.

End EndToEnd.
