(* ===== verification/Findings.v ===== *)
(** What the program does otherwise than it means to, shown on the sample
    deployment; findings that need no deployment are lemmas of the component's own
    file. *)
From S2P Require Import Prelude Steps JsonValue HttpMessage HttpRouter HttpParser Jwt ObjectStore Database Daos Constraints Redis WsCodec.
From S2P Require Import World Gc Files FoldersAccounts Multipart Shares Server Sessions StoredContent Sample EndToEnd.
Import World Schema Sample EndToEnd HttpRequest.

Module Findings.

Definition status (x : result () * World) : Z := HttpResponse.status_code_ (resp (snd x)).
Definition fresh (w : World) : World := with_resp HttpResponse.empty w.

(** * Shares *)

(** A share without expiry: the row is there, the answer is 500, and from then on
    the list of shares is 500, too. *)
Definition no_expiry : result () * World :=
  Shares.handle_create 0 (λ _ i, Z.of_nat i) (ann (append_body (bin_dump (JObj [("file_id", JStr "u3")])) empty)) world1.

Lemma no_expiry_fails : length (shares (db (snd no_expiry))) = 1 ∧ status no_expiry = 500%Z ∧
  status (Shares.handle_list (ann empty) (fresh (snd no_expiry))) = 500%Z.
Proof. repeat split; vm_compute; reflexivity. Qed.

(** The password of a link takes the parameters behind it along. *)
Lemma password_takes_the_rest : Shares.share_password (set_query "password=pw&preview=1" empty) = "pw&preview=1".
Proof. vm_compute. reflexivity. Qed.

(** Ten hours west of Greenwich the offset has three digits. *)
Definition west : Calendar := {| local_iso := λ _, "2024-01-01T00:00:00"; gmtoff := λ _, (-36000)%Z; get_time_utc := λ _ _, None |}.

Lemma offset_of_three_digits : @Shares.expiry_text west 0 1 = "2024-01-01T00:00:00-010:00".
Proof. vm_compute. reflexivity. Qed.

(** * Requests and responses *)

(** A header named content-length is not seen: what the client sent as a body is
    the next request. *)
Definition hidden : string := "DELETE /api/v1/files/1 HTTP/1.1" +:+ HttpResponse.CRLF +:+ HttpResponse.CRLF.
Definition lower_case : string :=
  "POST /api/v1/upload HTTP/1.1" +:+ HttpResponse.CRLF +:+
  "content-length: " +:+ to_string (Z.of_nat (slen hidden)) +:+ HttpResponse.CRLF +:+ HttpResponse.CRLF +:+ hidden.

Lemma lower_case_length_unseen :
  (λ q, (method_ q, path_ q, body_ q)) <$> snd (HttpParser.feed HttpParser.init lower_case) =
  [(POST, "/api/v1/upload", ""); (DELETE, "/api/v1/files/1", "")].
Proof. vm_compute. reflexivity. Qed.

(** The text of an error becomes the reason phrase, line breaks included. *)
Definition broken : string := "a" +:+ HttpResponse.CRLF +:+ "Set-Cookie: x=1".

Lemma error_text_splits : starts_with ("HTTP/1.1 400 a" +:+ HttpResponse.CRLF +:+ "Set-Cookie: x=1" +:+ HttpResponse.CRLF)
  (HttpResponse.serialize (resp (snd (set_error 400 broken world0)))) = true.
Proof. vm_compute. reflexivity. Qed.

(** * Uploads *)

(** A second file of a name fails when its content is new, and is renamed when
    the content is known. *)
Lemma second_name : map f_name (files (db world1)) = ["unnamed"] ∧
  status (FileUpload.upload_route settings 0 (ann (append_body "other" empty)) world1) = 500%Z ∧
  status (FileUpload.upload_route settings 0 up world1) = 200%Z ∧
  map f_name (files (db (snd (FileUpload.upload_route settings 0 up world1)))) = ["unnamed"; "unnamed(1)"].
Proof. repeat split; vm_compute; reflexivity. Qed.

(** A multipart upload of two bytes is recorded with the six that were announced. *)
Definition short : result () * World := Multipart.handle_complete settings 0 0 (about empty) (put_part "0" "h" (put_part "1" "o" begun)).

Lemma announced_size_recorded : status short = 200%Z ∧ map c_size (contents (db (snd short))) = [6%Z] ∧
  map c_hash (contents (db (snd short))) = [ObjectStore.sha256 "ho"].
Proof. repeat split; vm_compute; reflexivity. Qed.

(** Two parts at once: the first request loads the session, the second is handled
    whole, then the first goes on. Both are answered with 200, and the second
    part is missing. *)
Definition both_stored : World :=
  match Multipart.owned_session settings 0 (about empty) "0-0-0-0" begun with
  | (Ok (Some s), w) => snd (Multipart.store_part settings s 0 "hell" (put_part "1" "o!" w))
  | (_, w) => w
  end.

Lemma part_mark_lost : HttpResponse.status_code_ (resp both_stored) = 200%Z ∧
  status (Multipart.handle_complete settings 0 0 (about empty) both_stored) = 400%Z.
Proof. split; vm_compute; reflexivity. Qed.

(** Without Redis an upload begins with 200, and no part of it is ever accepted. *)
Definition no_redis : result () * World := Multipart.handle_init settings 0 0 0 0 0 ini (with_redis None world0).

Lemma upload_without_redis : status no_redis = 200%Z ∧
  status (Multipart.handle_upload_part settings 0 (part "0" "hell") (snd no_redis)) = 404%Z.
Proof. split; vm_compute; reflexivity. Qed.

(** * Accounts *)

(** A taken user name is answered with 409; and no upload touches the used storage. *)
Definition again : HttpRequest := append_body (bin_dump (JObj [("password", JStr "x"); ("username", JStr "ann")])) empty.

Lemma taken_name_conflicts : status (AuthHandler.handle_register settings 0 again world0) = 409%Z.
Proof. vm_compute. reflexivity. Qed.

Lemma storage_not_counted : u_used <$> users (db world1) = u_used <$> users (db world0).
Proof. vm_compute. reflexivity. Qed.

End Findings.
